(** * Stereo-depth evaluation helpers of [stereo_depth_from_host.py]

    A shallow embedding of the self-contained part of
    [examples/StereoDepth/stereo_depth_from_host.py]:

    - [DatasetManager] (lines 690-710), a cursor over the dataset
      sub-directories;
    - [read_pfm] (lines 713-745), the Portable Float Map loader;
    - [calculate_err_measures] (lines 747-801), the Middlebury-style error
      report.

    Python integers are [Z]; bytes are [Byte.byte]; [str] values are
    [string]; IEEE-754 values are [spec_float] with the operations of
    [SpecFloat] at binary32 (the pixel type of the maps) and binary64 (numpy
    scalars and Python floats), so every definition evaluates.  Exceptions
    are values of [exn]; a call returns a [result]. *)

From Stdlib Require Import ZArith List String Ascii Bool Lia.
From Stdlib Require Import Strings.Byte.
From Stdlib Require Import Floats.SpecFloat.
Import ListNotations.

Local Open Scope Z_scope.

(** ** Python results *)

(** The exception classes the embedded code can raise, by their Python
    names.  [IndexError], [ValueError] and [UnicodeDecodeError] come from
    the interpreter and from numpy; [FileNotFoundError],
    [IsADirectoryError] and [PermissionError] are the errors of [open]
    that have a class of their own, and [OSError] stands for its other
    failures. *)
Inductive exn : Type :=
| AssertionError
| RuntimeError (msg : string)
| Exception (msg : string)
| IndexError
| ValueError
| UnicodeDecodeError
| FileNotFoundError
| IsADirectoryError
| PermissionError
| OSError
| ZeroDivisionError.

Definition exn_name (e : exn) : string :=
  match e with
  | AssertionError => "AssertionError"
  | RuntimeError _ => "RuntimeError"
  | Exception _ => "Exception"
  | IndexError => "IndexError"
  | ValueError => "ValueError"
  | UnicodeDecodeError => "UnicodeDecodeError"
  | FileNotFoundError => "FileNotFoundError"
  | IsADirectoryError => "IsADirectoryError"
  | PermissionError => "PermissionError"
  | OSError => "OSError"
  | ZeroDivisionError => "ZeroDivisionError"
  end.

Inductive result (A : Type) : Type :=
| Ok (a : A)
| Raise (e : exn).
Arguments Ok {A} a.
Arguments Raise {A} e.

Definition bind {A B : Type} (r : result A) (k : A -> result B) : result B :=
  match r with
  | Ok a => k a
  | Raise e => Raise e
  end.

Notation "x <- r ;; k" := (bind r (fun x => k))
  (at level 61, r at next level, right associativity).

(** [l[i]] on a Python list: negative indices count from the end, anything
    outside [-len, len) raises [IndexError]. *)
Definition py_index {A : Type} (l : list A) (i : Z) : result A :=
  let k := Z.of_nat (List.length l) in
  let j := if i <? 0 then i + k else i in
  if (j <? 0) || (k <=? j) then Raise IndexError
  else match nth_error l (Z.to_nat j) with
       | Some a => Ok a
       | None => Raise IndexError
       end.

(** [a % b] on Python integers: the sign of the result follows the divisor,
    as [Z.modulo] does; a zero divisor raises. *)
Definition py_mod (a b : Z) : result Z :=
  if b =? 0 then Raise ZeroDivisionError else Ok (a mod b).

(** ** [DatasetManager] *)

Module DatasetManager.

(** [os.path.join(a, b)] on POSIX, for two components. *)
Definition path_join (a b : string) : string :=
  if String.prefix "/" b then b
  else if (String.eqb a "") || String.eqb (substring (String.length a - 1) 1 a) "/"
       then (a ++ b)%string
       else (a ++ "/" ++ b)%string.

(** The attributes of an instance. *)
Record t : Type := mk {
  path : string;
  index : Z;
  names : list string
}.

(** A directory as [os.listdir] and [os.path.isdir] show it: the entries in
    listing order, each with whether it is a directory. *)
Definition directory := list (string * bool).

(** [__init__] (lines 691-696). *)
Definition init (p : string) (d : directory) : result t :=
  let ns := map fst (filter snd d) in
  if (List.length ns =? 0)%nat
  then Raise (RuntimeError ("No dataset found at " ++ p)%string)
  else Ok (mk p 0 ns).

(** [get] (lines 698-699). *)
Definition get (dm : t) : result string :=
  n <- py_index (names dm) (index dm) ;; Ok (path_join (path dm) n).

(** [get_name] (lines 701-702). *)
Definition get_name (dm : t) : result string :=
  py_index (names dm) (index dm).

(** [next] (lines 704-706): the returned pair is the value of the call and
    the instance after it. *)
Definition next (dm : t) : result string * t :=
  match py_mod (index dm + 1) (Z.of_nat (List.length (names dm))) with
  | Raise e => (Raise e, dm)
  | Ok i => let dm' := mk (path dm) i (names dm) in (get dm', dm')
  end.

(** [prev] (lines 708-710). *)
Definition prev (dm : t) : result string * t :=
  match py_mod (index dm - 1) (Z.of_nat (List.length (names dm))) with
  | Raise e => (Raise e, dm)
  | Ok i => let dm' := mk (path dm) i (names dm) in (get dm', dm')
  end.

(** The instances a program can hold: the one [__init__] builds over the
    directory, and those [next] and [prev] leave behind. *)
Inductive reachable (p : string) (d : directory) : t -> Prop :=
| reach_init : forall dm, init p d = Ok dm -> reachable p d dm
| reach_next : forall dm, reachable p d dm -> reachable p d (snd (next dm))
| reach_prev : forall dm, reachable p d dm -> reachable p d (snd (prev dm)).

(** The number of dataset sub-directories of a directory. *)
Definition subdirs (d : directory) : Z :=
  Z.of_nat (List.length (filter snd d)).

(** The invariant of the class: the names are those of the
    sub-directories, there is at least one, and the index is a position
    of the list. *)
Definition inv (p : string) (d : directory) (dm : t) : Prop :=
  path dm = p /\
  names dm = map fst (filter snd d) /\
  1 <= subdirs d /\
  0 <= index dm < subdirs d.

(** A directory with three datasets and a plain file. *)
Definition sample_dir : directory :=
  [("Adirondack-perfect"%string, true); ("README.txt"%string, false);
   ("Jadeplant-perfect"%string, true); ("Motorcycle-perfect"%string, true)].

End DatasetManager.

(** ** IEEE-754 values *)

(** numpy's [float32], the element type of the disparity maps ([read_pfm]
    reads dtype ["f"], the caller converts with [astype(np.float32)]). *)
Module F32.
Definition prec : Z := 24.
Definition emax : Z := 128.
Definition t := spec_float.
Definition zero : t := S754_zero false.
Definition inf : t := S754_infinity false.
Definition nan : t := S754_nan.
Definition add : t -> t -> t := SFadd prec emax.
Definition sub : t -> t -> t := SFsub prec emax.
Definition mul : t -> t -> t := SFmul prec emax.
Definition abs : t -> t := SFabs.
Definition of_Z (z : Z) : t := binary_normalize prec emax z 0 false.
(** [x != y] and [x > y] of numpy, element by element. *)
Definition neb (x y : t) : bool := negb (SFeqb x y).
Definition gtb (x y : t) : bool := SFltb y x.

(** The value whose IEEE-754 binary32 encoding is the 32-bit word [w]. *)
Definition of_bits (w : Z) : t :=
  let s := Z.testbit w 31 in
  let e := Z.land (Z.shiftr w 23) 255 in
  let m := Z.land w 8388607 in
  if e =? 0 then
    match m with
    | Zpos p => S754_finite s p (-149)
    | _ => S754_zero s
    end
  else if e =? 255 then
    (if m =? 0 then S754_infinity s else S754_nan)
  else
    match Z.lor m 8388608 with
    | Zpos p => S754_finite s p (e - 150)
    | _ => S754_nan
    end.

(** The literals the evaluator compares with. *)
Definition half : t := S754_finite false 8388608 (-24).
Definition one : t := S754_finite false 8388608 (-23).
Definition two : t := S754_finite false 8388608 (-22).
Definition four : t := S754_finite false 8388608 (-21).
(** [3.0] and [7.0], for the examples. *)
Definition three : t := S754_finite false 12582912 (-22).
Definition seven : t := S754_finite false 14680064 (-21).
End F32.

(** numpy's [float64] and Python's [float]. *)
Module F64.
Definition prec : Z := 53.
Definition emax : Z := 1024.
Definition t := spec_float.
Definition nan : t := S754_nan.
Definition mul : t -> t -> t := SFmul prec emax.
Definition div : t -> t -> t := SFdiv prec emax.
Definition opp : t -> t := SFopp.
Definition ltb : t -> t -> bool := SFltb.
Definition leb : t -> t -> bool := SFleb.
Definition eqb : t -> t -> bool := SFeqb.
(** An [int64] converted to [float64], rounding to nearest even. *)
Definition of_Z (z : Z) : t := binary_normalize prec emax z 0 false.
(** A [float32] widened to [float64]; no rounding takes place. *)
Definition of_f32 (x : F32.t) : t :=
  match x with
  | S754_finite s m e => binary_normalize prec emax (cond_Zopp s (Zpos m)) e false
  | _ => x
  end.
(** The literal [100.]. *)
Definition c100 : t := S754_finite false 7036874417766400 (-46).
Definition zero : t := S754_zero false.
End F64.

(** ** Rounding to binary64, for the statements about [100. * k / n]

    The arithmetic of [SpecFloat] works on a mantissa, an exponent and the
    position of the exact value between two mantissas.  For a fraction
    [N / D] these are given in closed form here, and the proofs relate the
    operations to them. *)
Module Rounding.

(** The mantissa [N / D] with the round and sticky bits of the rest. *)
Definition rec_of (N D : Z) : shr_record :=
  Build_shr_record (N / D) (D <=? 2 * (N mod D))
    (negb (N mod D =? 0) && negb (2 * (N mod D) =? D)).

(** The integer nearest to [N / D], ties to even. *)
Definition rne (N D : Z) : Z :=
  round_nearest_even (N / D) (loc_of_shr_record (rec_of N D)).

(** The number of binary digits of a positive integer. *)
Definition digits (z : Z) : Z := Z.log2 z + 1.

(** The binary64 number with mantissa [m] in [2^52, 2^53] and exponent
    [e]. *)
Definition pack (m e : Z) : spec_float :=
  if m =? 2 ^ 53 then S754_finite false (Z.to_pos (2 ^ 52)) (e + 1)
  else S754_finite false (Z.to_pos m) e.

(** The binary64 number nearest to [(N / D) * 2^ex], for [N / D >= 2^52]. *)
Definition round64 (N D ex : Z) : spec_float :=
  let sh := digits (N / D) - 53 in
  pack (rne N (D * 2 ^ sh)) (ex + sh).

(** A positive normal number of the format, with its exponent in
    [lo, hi]. *)
Definition normal (lo hi : Z) (x : spec_float) : Prop :=
  exists m e, x = S754_finite false m e /\
              2 ^ 52 <= Zpos m < 2 ^ 53 /\ lo <= e <= hi.

(** A positive integer below [2^53] shifted to 53 digits. *)
Definition norm53 (z : Z) : Z := z * 2 ^ (53 - digits z).

End Rounding.

(** An [ndarray] of [float32]: its shape and its elements in row-major
    order. *)
Record ndarray : Type := mk_ndarray {
  shape : list Z;
  data : list F32.t
}.

Definition shape_eqb (s1 s2 : list Z) : bool :=
  if list_eq_dec Z.eq_dec s1 s2 then true else false.

Definition size_of (sh : list Z) : Z := fold_right Z.mul 1 sh.

(** ** The PFM loader *)

Module Pfm.

(** *** Files and handles *)

(** What the loader sees of the operating system: the regular files it
    can open for reading, by name, with their contents; the other names on
    which [open] fails, each with the error [open] raises for it
    ([IsADirectoryError] for a directory, [PermissionError] for a file it
    may not read, and so on); and the descriptors currently open.  A name
    in neither table does not exist; for a name in both, the first table
    decides.  [open_rb] adds a descriptor, [close] removes it; nothing
    else changes the tables. *)
Record world : Type := mk_world {
  files : list (string * list byte);
  refused : list (string * exn);
  open_fds : list nat;
  next_fd : nat
}.

(** A binary file object: its descriptor and the bytes not read yet. *)
Record file : Type := mk_file {
  fd : nat;
  rest : list byte
}.

Fixpoint lookup (name : string) (fs : list (string * list byte))
  : option (list byte) :=
  match fs with
  | [] => None
  | (n, c) :: fs' => if String.eqb n name then Some c else lookup name fs'
  end.

Fixpoint lookup_error (name : string) (es : list (string * exn)) : option exn :=
  match es with
  | [] => None
  | (n, e) :: es' => if String.eqb n name then Some e else lookup_error name es'
  end.

(** The error of [open(name, "rb")] on a name it cannot read:
    [FileNotFoundError] when nothing has that name, otherwise what the
    system answers for it. *)
Definition open_error (name : string) (w : world) : exn :=
  match lookup_error name (refused w) with
  | Some e => e
  | None => FileNotFoundError
  end.

(** [open(name, "rb")]; a failure opens nothing. *)
Definition open_rb (name : string) (w : world) : result file * world :=
  match lookup name (files w) with
  | None => (Raise (open_error name w), w)
  | Some c =>
      (Ok (mk_file (next_fd w) c),
       mk_world (files w) (refused w) (next_fd w :: open_fds w) (S (next_fd w)))
  end.

(** Closing the descriptor of [f]: [f.close()], or what the interpreter
    does when it disposes of the file object. *)
Definition close (f : file) (w : world) : world :=
  mk_world (files w) (refused w)
           (filter (fun d => negb (Nat.eqb d (fd f))) (open_fds w))
           (next_fd w).

(** The end of a call that holds a file object in a local variable and
    nowhere else, with the outcome [r].  CPython counts references: when
    the call returns, its frame is released, the file object with it, and
    the descriptor is closed at that moment.  When the call raises, the
    traceback of the exception refers to the frame, so the file object
    and its descriptor live on while the exception does. *)
Definition end_of_call {A : Type} (f : file) (r : result A) (w : world) : world :=
  match r with
  | Ok _ => close f w
  | Raise _ => w
  end.

Definition is_open (d : nat) (w : world) : bool :=
  existsb (Nat.eqb d) (open_fds w).

(** [f.readline()]: the bytes up to and including the first newline, or
    all of them when there is none. *)
Fixpoint split_line (bs : list byte) : list byte * list byte :=
  match bs with
  | [] => ([], [])
  | b :: r =>
      if Byte.eqb b x0a then ([b], r)
      else let (l, r') := split_line r in (b :: l, r')
  end.

Definition readline (f : file) : list byte * file :=
  let (l, r) := split_line (rest f) in (l, mk_file (fd f) r).

(** *** Bytes and text *)

(** The bytes [bytes.rstrip()] removes. *)
Definition is_bytes_space (b : byte) : bool :=
  match b with
  | x09 | x0a | x0b | x0c | x0d | x20 => true
  | _ => false
  end.

Fixpoint rstrip (bs : list byte) : list byte :=
  match bs with
  | [] => []
  | b :: r =>
      match rstrip r with
      | [] => if is_bytes_space b then [] else [b]
      | r' => b :: r'
      end
  end.

(** [bs.decode("ascii")]. *)
Fixpoint decode_ascii (bs : list byte) : result string :=
  match bs with
  | [] => Ok EmptyString
  | b :: r =>
      if (Byte.to_N b <? 128)%N
      then s <- decode_ascii r ;; Ok (String (ascii_of_byte b) s)
      else Raise UnicodeDecodeError
  end.

(** *** The pattern [(\d+)\s(\d+)] *)

Definition is_digit (c : ascii) : bool :=
  let n := nat_of_ascii c in (48 <=? n)%nat && (n <=? 57)%nat.

(** [\s] on a [str] holding ASCII only. *)
Definition is_space (c : ascii) : bool :=
  let n := nat_of_ascii c in
  ((9 <=? n)%nat && (n <=? 13)%nat) || ((28 <=? n)%nat && (n <=? 32)%nat).

Fixpoint span (p : ascii -> bool) (s : list ascii) : list ascii * list ascii :=
  match s with
  | [] => ([], [])
  | c :: r => if p c then let (a, b) := span p r in (c :: a, b) else ([], s)
  end.

(** [\s(\d+)] at the start of [s]: one space, then the longest run of
    digits, which must not be empty. *)
Definition space_group (s : list ascii) : option (list ascii) :=
  match s with
  | c :: r =>
      if is_space c then
        match fst (span is_digit r) with
        | [] => None
        | g => Some g
        end
      else None
  | [] => None
  end.

(** The first group taking [k] characters, then [k - 1], ... down to one:
    the order in which a greedy [\d+] gives characters back. *)
Fixpoint backtrack (k : nat) (s : list ascii)
  : option (list ascii * list ascii) :=
  match k with
  | O => None
  | S k' =>
      match space_group (skipn k s) with
      | Some g2 => Some (firstn k s, g2)
      | None => backtrack k' s
      end
  end.

(** The pattern matched at the start of [s]. *)
Definition match_here (s : list ascii) : option (list ascii * list ascii) :=
  backtrack (List.length (fst (span is_digit s))) s.

(** [re.search]: the match at the leftmost position that has one. *)
Fixpoint search (s : list ascii) : option (list ascii * list ascii) :=
  match match_here s with
  | Some g => Some g
  | None =>
      match s with
      | [] => None
      | _ :: r => search r
      end
  end.

(** The number a run of ASCII digits writes in base ten. *)
Definition int_of_digits (g : list ascii) : Z :=
  fold_left (fun acc c => 10 * acc + (Z.of_nat (nat_of_ascii c) - 48)) g 0.

(** [sys.get_int_max_str_digits()], at the default of CPython 3.11 and
    later. *)
Definition int_max_str_digits : Z := 4300.

(** [int(g)] on a run of ASCII digits: its number, unless the run has more
    digits than the interpreter converts (leading zeros count), which is a
    [ValueError]. *)
Definition py_int (g : list ascii) : result Z :=
  if int_max_str_digits <? Z.of_nat (List.length g) then Raise ValueError
  else Ok (int_of_digits g).

(** *** The payload *)

Inductive endian : Type := Little | Big.

Definition byte_val (b : byte) : Z := Z.of_N (Byte.to_N b).

(** Four bytes as a 32-bit word in the given byte order. *)
Definition word_of (e : endian) (b0 b1 b2 b3 : byte) : Z :=
  match e with
  | Little =>
      Z.lor (byte_val b0)
        (Z.lor (Z.shiftl (byte_val b1) 8)
           (Z.lor (Z.shiftl (byte_val b2) 16) (Z.shiftl (byte_val b3) 24)))
  | Big =>
      Z.lor (byte_val b3)
        (Z.lor (Z.shiftl (byte_val b2) 8)
           (Z.lor (Z.shiftl (byte_val b1) 16) (Z.shiftl (byte_val b0) 24)))
  end.

(** [np.fromfile(f, endian + "f")]: the complete 4-byte items of what is
    left in the file; a trailing partial item is dropped. *)
Fixpoint fromfile (e : endian) (bs : list byte) : list F32.t :=
  match bs with
  | b0 :: b1 :: b2 :: b3 :: r => F32.of_bits (word_of e b0 b1 b2 b3) :: fromfile e r
  | _ => []
  end.

(** The range of numpy's index type [intp], which has 64 bits. *)
Definition intp_min : Z := - 2 ^ 63.
Definition intp_max : Z := 2 ^ 63 - 1.

(** The product of the dimensions that are given, taken from left to
    right in [intp] starting from [acc]; a negative dimension is one to
    infer and is passed over.  [None] as soon as a product leaves
    [intp]. *)
Fixpoint known_size (sh : list Z) (acc : Z) : option Z :=
  match sh with
  | [] => Some acc
  | k :: r =>
      if k <? 0 then known_size r acc
      else if intp_max <? acc * k then None
      else known_size r (acc * k)
  end.

(** The shape with its first negative dimension replaced by [v]. *)
Fixpoint fill_unknown (sh : list Z) (v : Z) : list Z :=
  match sh with
  | [] => []
  | k :: r => if k <? 0 then v :: r else k :: fill_unknown r v
  end.

(** The bytes of an array of the shape [sh], as numpy counts them before
    it makes the array: the product of the dimensions, those that are
    zero left out, taken in [intp] from the size [acc] of an element.
    [None] as soon as a product leaves [intp]. *)
Fixpoint nbytes (sh : list Z) (acc : Z) : option Z :=
  match sh with
  | [] => Some acc
  | k :: r =>
      if k =? 0 then nbytes r acc
      else if intp_max <? acc * k then None
      else nbytes r (acc * k)
  end.

(** The bytes of a [float32]. *)
Definition itemsize : Z := 4.

(** An array of the shape [sh] over the elements [d]: numpy refuses a
    shape whose bytes it cannot count. *)
Definition new_array (sh : list Z) (d : list F32.t) : result ndarray :=
  match nbytes sh itemsize with
  | Some _ => Ok (mk_ndarray sh d)
  | None => Raise ValueError
  end.

(** [np.reshape(data, shape)] on a one-dimensional array and a shape of
    Python integers (of at most 32 dimensions; [read_pfm] gives two or
    three).  Every dimension has to fit [intp]; at most one may be
    negative, and is then inferred from the others; the product of the
    given ones, computed in [intp], has to match the number of elements;
    and the bytes of the new shape have to fit [intp].  Every failure is
    a [ValueError]. *)
Definition reshape (d : list F32.t) (sh : list Z) : result ndarray :=
  let n := Z.of_nat (List.length d) in
  if existsb (fun k => (k <? intp_min) || (intp_max <? k)) sh
  then Raise ValueError
  else
    match filter (fun k => k <? 0) sh, known_size sh 1 with
    | [], Some s =>
        if s =? n then new_array sh d else Raise ValueError
    | [_], Some s =>
        if (s =? 0) || negb (n mod s =? 0) then Raise ValueError
        else new_array (fill_unknown sh (n / s)) d
    | _, _ => Raise ValueError
    end.

(** The first [count] consecutive pieces of [len] elements of [l]. *)
Fixpoint chunks {A : Type} (count len : nat) (l : list A) : list (list A) :=
  match count with
  | O => []
  | S c => firstn len l :: chunks c len (skipn len l)
  end.

(** [np.flip(a, axis=0)]: the sub-arrays along the first axis in reverse
    order. *)
Definition flip0 (a : ndarray) : ndarray :=
  match shape a with
  | [] => a
  | h :: tl =>
      mk_ndarray (shape a)
        (List.concat (rev (chunks (Z.to_nat h) (Z.to_nat (size_of tl)) (data a))))
  end.

(** Sub-array [i] along the first axis. *)
Definition row (a : ndarray) (i : nat) : list F32.t :=
  match shape a with
  | [] => []
  | _ :: tl =>
      firstn (Z.to_nat (size_of tl)) (skipn (i * Z.to_nat (size_of tl)) (data a))
  end.

(** *** [read_pfm] (lines 713-745) *)

Section ReadPfm.

(** [float(bs)] of the interpreter: the binary64 value of the text in
    [bs], or [None] where it raises [ValueError]. *)
Variable py_float : list byte -> option F64.t.

Definition read_pfm (name : string) (w : world)
  : result (ndarray * F64.t) * world :=
  match open_rb name w with
  | (Raise e, w1) => (Raise e, w1)
  | (Ok f, w1) =>
      let r :=
        let (l1, f1) := readline f in
        let header := rstrip l1 in
        h <- decode_ascii header ;;
        color <- (if String.eqb h "PF" then Ok true
                  else if String.eqb h "Pf" then Ok false
                  else Raise (Exception "Not a PFM file.")) ;;
        let (l2, f2) := readline f1 in
        s2 <- decode_ascii l2 ;;
        dims <- match search (list_ascii_of_string s2) with
                | Some (g1, g2) =>
                    width <- py_int g1 ;; height <- py_int g2 ;; Ok (width, height)
                | None => Raise (Exception "Malformed PFM header.")
                end ;;
        let (width, height) := dims in
        let (l3, f3) := readline f2 in
        scale <- match py_float (rstrip l3) with
                 | Some x => Ok x
                 | None => Raise ValueError
                 end ;;
        let (endian, scale) :=
          if F64.ltb scale F64.zero then (Little, F64.opp scale)
          else (Big, scale) in
        let d := fromfile endian (rest f3) in
        let sh := if color : bool then [height; width; 3] else [height; width] in
        a <- reshape d sh ;;
        Ok (flip0 a, scale)
      in (r, end_of_call f r w1)
  end.

End ReadPfm.

(** *** Writing a payload, for the statements about byte order *)

Definition byte_of (z : Z) : byte :=
  match Byte.of_N (Z.to_N (Z.land z 255)) with
  | Some b => b
  | None => x00
  end.

(** The four bytes of a 32-bit word in the given byte order. *)
Definition bytes_of (e : endian) (w : Z) : list byte :=
  let b0 := byte_of w in
  let b1 := byte_of (Z.shiftr w 8) in
  let b2 := byte_of (Z.shiftr w 16) in
  let b3 := byte_of (Z.shiftr w 24) in
  match e with
  | Little => [b0; b1; b2; b3]
  | Big => [b3; b2; b1; b0]
  end.

Definition payload (e : endian) (ws : list Z) : list byte :=
  flat_map (bytes_of e) ws.

(** *** Sample files *)

(** An ASCII text as bytes, and as a line of a file. *)
Definition bytes (s : string) : list byte := list_byte_of_string s.
Definition line (s : string) : list byte := bytes s ++ [x0a].

(** [float] on the scale lines the samples use. *)
Definition sample_float (bs : list byte) : option F64.t :=
  if String.eqb (string_of_list_byte bs) "-1.0"
  then Some (S754_finite true 4503599627370496 (-52))
  else if String.eqb (string_of_list_byte bs) "1.0"
  then Some (S754_finite false 4503599627370496 (-52))
  else None.

(** The binary32 encodings of [3.0] and [7.0]. *)
Definition bits_3 : Z := 1077936128.
Definition bits_7 : Z := 1088421888.

(** A file system holding one file, with nothing open. *)
Definition one_file (c : list byte) : world :=
  mk_world [("disp1.pfm"%string, c)] [] [] 3.

(** A 2 x 2 grayscale map whose first stored scan-line is [7.0] and whose
    last is [3.0], little-endian and big-endian. *)
Definition pfm_le : list byte :=
  line "Pf" ++ line "2 2" ++ line "-1.0" ++ payload Little [bits_7; bits_7; bits_3; bits_3].
Definition pfm_be : list byte :=
  line "Pf" ++ line "2 2" ++ line "1.0" ++ payload Big [bits_7; bits_7; bits_3; bits_3].

(** Files with a wrong magic token, with two spaces between the
    dimensions, with zero dimensions and no payload, and with a byte
    outside ASCII in the dimension line. *)
Definition pfm_bad_magic : list byte := line "P5" ++ line "2 2" ++ line "1.0".
Definition pfm_two_spaces : list byte :=
  line "Pf" ++ line "2  2" ++ line "1.0" ++ payload Big [bits_7; bits_7; bits_3; bits_3].
Definition pfm_zero_dims : list byte := line "Pf" ++ line "0 0" ++ line "1.0".
Definition pfm_non_ascii : list byte :=
  line "Pf" ++ (bytes "2 2" ++ [xe9; x0a]) ++ line "1.0".
(** A file whose dimension line carries text around the pair. *)
Definition pfm_noisy_dims : list byte :=
  line "Pf" ++ line "w=-2 2.5h" ++ line "1.0" ++ payload Big [bits_7; bits_7; bits_3; bits_3].

(** The three header lines of a file and what follows them. *)
Definition header_lines (c : list byte)
  : list byte * list byte * list byte * list byte :=
  let (l1, r1) := split_line c in
  let (l2, r2) := split_line r1 in
  let (l3, p) := split_line r2 in
  (l1, l2, l3, p).

(** [g1], one space and [g2] stand at the start of [s], each a run of
    digits that cannot be extended. *)
Definition pair_here (s g1 g2 : list ascii) : Prop :=
  exists c post,
    s = g1 ++ c :: g2 ++ post /\
    g1 <> [] /\ forallb is_digit g1 = true /\
    is_space c = true /\
    g2 <> [] /\ forallb is_digit g2 = true /\
    match post with
    | [] => True
    | d :: _ => is_digit d = false
    end.

(** No suffix of [s] starts with such a pair. *)
Definition no_pair (s : list ascii) : Prop :=
  forall pre suf g1 g2, s = pre ++ suf -> ~ pair_here suf g1 g2.

(** [g1] and [g2] are the pair at the leftmost position of [s] that has
    one. *)
Definition first_pair (s g1 g2 : list ascii) : Prop :=
  exists pre suf,
    s = pre ++ suf /\ pair_here suf g1 g2 /\
    forall p1 p2 a b, pre = p1 ++ p2 -> p2 <> [] -> ~ pair_here (p2 ++ suf) a b.

End Pfm.

(** ** The disparity evaluator *)

Module Eval.

(** *** The arrays the caller holds *)

(** [calculate_err_measures] assigns into the arrays it is given, so the
    arrays are objects in a heap and the arguments are references: two
    objects, and a reference names one of them.  Passing the same
    reference twice is the call [calculate_err_measures(a, a)]. *)
Inductive ref : Type := Obj0 | Obj1.

Record heap : Type := mk_heap {
  obj0 : ndarray;
  obj1 : ndarray
}.

Definition load (r : ref) (h : heap) : ndarray :=
  match r with
  | Obj0 => obj0 h
  | Obj1 => obj1 h
  end.

Definition store (r : ref) (a : ndarray) (h : heap) : heap :=
  match r with
  | Obj0 => mk_heap a (obj1 h)
  | Obj1 => mk_heap (obj0 h) a
  end.

(** *** numpy on flat data *)

(** An element-wise binary operation on two arrays of one shape. *)
Fixpoint zip_with {A B C : Type} (f : A -> B -> C) (l1 : list A) (l2 : list B)
  : list C :=
  match l1, l2 with
  | x :: r1, y :: r2 => f x y :: zip_with f r1 r2
  | _, _ => []
  end.

(** [a[m] = v] with a boolean array [m]: the elements under [true] are
    replaced, the others and the length stay. *)
Fixpoint assign_where (m : list bool) (v : F32.t) (a : list F32.t) : list F32.t :=
  match a, m with
  | x :: a', b :: m' => (if b then v else x) :: assign_where m' v a'
  | _, _ => a
  end.

(** [a[m]] with a boolean array [m]: the elements under [true], in order. *)
Fixpoint select (m : list bool) (a : list F32.t) : list F32.t :=
  match a, m with
  | x :: a', b :: m' => if b then x :: select m' a' else select m' a'
  | _, _ => []
  end.

(** [np.sum] of a boolean array, an [int64]: a count of elements, which
    stays far below [2^63] on any array that fits in memory, so the
    wrap-around of [int64] is not written out. *)
Definition count (m : list bool) : Z :=
  Z.of_nat (List.length (filter (fun b => b) m)).

(** [np.sum] of a [float32] array: a [float32], [0.0] for no element.
    The additions are made from left to right here; numpy adds a long
    array in blocks, which can round otherwise.  The statements use
    [np_sum] where the order of the additions does not matter: on the
    empty sample and on samples of zeros. *)
Definition np_sum (a : list F32.t) : F32.t :=
  fold_left F32.add a F32.zero.

Definition valid (x : F32.t) : bool := F32.neb x F32.inf.

(** [100. * k / n] with [k] and [n] of type [int64]. *)
Definition percent (k n : Z) : F64.t :=
  F64.div (F64.mul F64.c100 (F64.of_Z k)) (F64.of_Z n).

(** The dictionary returned, one field per key; the field names are the
    local variables the values come from: key ["bad0.5"] holds [bad05_p],
    ["total_bad0.5"] holds [total_bad05_p], ..., ["invalid"] holds
    [invalid_p]. *)
Record ErrorReport : Type := mk_report {
  bad05_p : F64.t;
  total_bad05_p : F64.t;
  bad1_p : F64.t;
  total_bad1_p : F64.t;
  bad2_p : F64.t;
  total_bad2_p : F64.t;
  bad4_p : F64.t;
  total_bad4_p : F64.t;
  invalid_p : F64.t;
  avg_err : F64.t;
  mse : F64.t;
  a50 : F64.t;
  a90 : F64.t;
  a95 : F64.t;
  a99 : F64.t
}.

(** *** [calculate_err_measures] (lines 747-801) *)

Section Evaluate.

(** [np.percentile(a, q)] of numpy: the value it returns, or [None]
    where it raises ([IndexError], on a sample it cannot index). *)
Variable percentile : list F32.t -> Z -> option F64.t.

Definition np_percentile (a : list F32.t) (q : Z) : result F64.t :=
  match percentile a q with
  | Some x => Ok x
  | None => Raise IndexError
  end.

Definition calculate_err_measures (gt_img oak_img : ref) (h : heap)
  : result ErrorReport * heap :=
  if negb (shape_eqb (shape (load gt_img h)) (shape (load oak_img h)))
  then (Raise AssertionError, h)
  else
    let gt_mask := map (fun x => F32.neb x F32.inf) (data (load gt_img h)) in
    let oak_mask := map (fun x => F32.neb x F32.inf) (data (load oak_img h)) in
    let mask := zip_with andb gt_mask oak_mask in
    let h1 :=
      store gt_img
        (mk_ndarray (shape (load gt_img h))
           (assign_where (map negb gt_mask) F32.zero (data (load gt_img h)))) h in
    let h2 :=
      store oak_img
        (mk_ndarray (shape (load oak_img h1))
           (assign_where (map negb mask) F32.zero (data (load oak_img h1)))) h1 in
    let err :=
      zip_with (fun g o => F32.abs (F32.sub g o))
        (data (load gt_img h2)) (data (load oak_img h2)) in
    let n := count gt_mask in
    let invalid := count (zip_with andb gt_mask (map negb oak_mask)) in
    let bad05 := count (zip_with andb mask (map (fun e => F32.gtb e F32.half) err)) in
    let bad1 := count (zip_with andb mask (map (fun e => F32.gtb e F32.one) err)) in
    let bad2 := count (zip_with andb mask (map (fun e => F32.gtb e F32.two) err)) in
    let bad4 := count (zip_with andb mask (map (fun e => F32.gtb e F32.four) err)) in
    let sum_err := np_sum (select mask err) in
    let sum_sq_err := np_sum (map (fun e => F32.mul e e) (select mask err)) in
    let errs := select mask err in
    let bad05_p := percent bad05 n in
    let total_bad05_p := percent (bad05 + invalid) n in
    let bad1_p := percent bad1 n in
    let total_bad1_p := percent (bad1 + invalid) n in
    let bad2_p := percent bad2 n in
    let total_bad2_p := percent (bad2 + invalid) n in
    let bad4_p := percent bad4 n in
    let total_bad4_p := percent (bad4 + invalid) n in
    let invalid_p := percent invalid n in
    let avg_err := F64.div (F64.of_f32 sum_err) (F64.of_Z (n - invalid)) in
    let mse := F64.div (F64.of_f32 sum_sq_err) (F64.of_Z (n - invalid)) in
    (a50 <- np_percentile errs 50 ;;
     a90 <- np_percentile errs 90 ;;
     a95 <- np_percentile errs 95 ;;
     a99 <- np_percentile errs 99 ;;
     Ok (mk_report bad05_p total_bad05_p bad1_p total_bad1_p bad2_p
           total_bad2_p bad4_p total_bad4_p invalid_p avg_err mse
           a50 a90 a95 a99),
     h2).

End Evaluate.

(** *** What the statements speak of *)

(** The number of pixels with valid ground truth, [n] in the source. *)
Definition n_valid (gt : ndarray) : Z := count (map valid (data gt)).

(** The element an assignment leaves at a position of the ground truth,
    and at a position of the computed map, given the two old elements. *)
Definition gt_after (g : F32.t) : F32.t := if valid g then g else F32.zero.
Definition oak_after (g o : F32.t) : F32.t :=
  if valid g && valid o then o else F32.zero.

(** A call raises an exception of the class named [name]. *)
Definition raises_named {A : Type} (name : string) (r : result A) : Prop :=
  exists e, r = Raise e /\ exn_name e = name.

(** The numpy invariant of an array: as many elements as the shape says. *)
Definition wf (a : ndarray) : Prop :=
  Z.of_nat (List.length (data a)) = size_of (shape a).

(** The report when there is no valid ground truth: every percentage and
    both averages are [nan]. *)
Definition nan_report (a50 a90 a95 a99 : F64.t) : ErrorReport :=
  mk_report F64.nan F64.nan F64.nan F64.nan F64.nan F64.nan F64.nan F64.nan
    F64.nan F64.nan F64.nan a50 a90 a95 a99.

(** The report when nothing was computed and [n] ground-truth pixels are
    valid: no bad pixel among the computed ones, everything invalid, and
    no average. *)
Definition all_invalid_report (a50 a90 a95 a99 : F64.t) : ErrorReport :=
  mk_report F64.zero F64.c100 F64.zero F64.c100 F64.zero F64.c100
    F64.zero F64.c100 F64.c100 F64.nan F64.nan a50 a90 a95 a99.

(** Sample maps of shape (1, 2). *)
Definition map_1x2 (x y : F32.t) : ndarray := mk_ndarray [1; 2] [x; y].

(** Two stand-ins for [np.percentile] in the examples.  On a non-empty
    sample both return the element of closest lower rank of the sorted
    sample (numpy interpolates between the two closest ranks); on the
    empty sample the first raises and the second returns [nan]. *)
Fixpoint insert_sorted (x : F32.t) (l : list F32.t) : list F32.t :=
  match l with
  | [] => [x]
  | y :: r => if SFleb x y then x :: l else y :: insert_sorted x r
  end.

Definition sorted_sample (a : list F32.t) : list F32.t :=
  fold_right insert_sorted [] a.

Definition lower_rank (a : list F32.t) (q : Z) : F64.t :=
  F64.of_f32
    (nth (Z.to_nat (q * (Z.of_nat (List.length a) - 1) / 100)) (sorted_sample a) F32.nan).

Definition percentile_raising (a : list F32.t) (q : Z) : option F64.t :=
  match a with
  | [] => None
  | _ => Some (lower_rank a q)
  end.

Definition percentile_nan (a : list F32.t) (q : Z) : option F64.t :=
  match a with
  | [] => Some F64.nan
  | _ => Some (lower_rank a q)
  end.

End Eval.

(** ** Further definitions: repeated calls and particular reports *)

Module DatasetWalk.
Import DatasetManager.

(** [i] calls of [next], and of [prev], on an instance. *)
Definition nexts (i : nat) (dm : t) : t := Nat.iter i (fun m => snd (next m)) dm.
Definition prevs (i : nat) (dm : t) : t := Nat.iter i (fun m => snd (prev m)) dm.

End DatasetWalk.

Module EvalMore.
Import Eval.

(** A pixel that holds a number: neither an infinity nor [nan]. *)
Definition is_number (x : F32.t) : bool :=
  match x with
  | S754_zero _ | S754_finite _ _ _ => true
  | _ => false
  end.

(** The report of two maps that agree everywhere: every percentage and
    both averages are [0.0]. *)
Definition zero_report (a50 a90 a95 a99 : F64.t) : ErrorReport :=
  mk_report F64.zero F64.zero F64.zero F64.zero F64.zero F64.zero F64.zero
    F64.zero F64.zero F64.zero F64.zero a50 a90 a95 a99.

(** A percentage of bad pixels [bad], the percentage [invalid] of missing
    predictions and their total [total] are in range: between [0] and the
    total, which is at most [100]. *)
Definition in_range (invalid bad total : F64.t) : Prop :=
  F64.leb F64.zero bad = true /\ F64.leb bad total = true /\
  F64.leb invalid total = true /\ F64.leb total F64.c100 = true.

End EvalMore.

(** ** The interactive part of the script

    The start-up checks on the command line (lines 22-42 and 63-66) and the
    class [StereoConfigHandler] (lines 68-529): its [Trackbar], its
    [CensusMaskHandler] and the key handler.  Calls into OpenCV and
    [print] are recorded, in order, as a list of [event]s; the messages
    sent to the device queue are recorded in the order sent. *)

From Stdlib Require Import DecimalString.

(** [str(i)] of a Python integer, as an f-string formats it. *)
Definition str_int (i : Z) : string := NilZero.string_of_int (Z.to_int i).

(** [ord(c)]. *)
Definition ord (c : ascii) : Z := Z.of_nat (nat_of_ascii c).

(** [range(n)]: empty for [n <= 0]. *)
Definition range (n : Z) : list Z := map Z.of_nat (seq 0 (Z.to_nat n)).

(** [a // b] on Python integers: rounds towards minus infinity, as [Z.div]
    does; a zero divisor raises. *)
Definition py_floordiv (a b : Z) : result Z :=
  if b =? 0 then Raise ZeroDivisionError else Ok (a / b).

(** The exceptions of this part: those of [exn], and two more classes of
    the interpreter. *)
Inductive exc : Type :=
| Builtin (e : exn)
| AttributeError
| OverflowError.

Inductive outcome (A : Type) : Type :=
| Return (a : A)
| Throw (e : exc).
Arguments Return {A} a.
Arguments Throw {A} e.

Definition lift {A : Type} (r : result A) : outcome A :=
  match r with
  | Ok a => Return a
  | Raise e => Throw (Builtin e)
  end.

(** What the code makes visible besides its state: output of [print] and
    the calls of [cv2], with the arguments that vary. *)
Inductive event : Type :=
| print (s : string)
| cv2_namedWindow (winname : string)
| cv2_putText (text : string) (org : Z * Z)
| cv2_rectangle (pt1 pt2 : Z * Z) (color : Z * Z * Z)
| cv2_imshow (winname : string)
| cv2_setMouseCallback (winname : string)
| cv2_destroyWindow (winname : string)
| cv2_createTrackbar (trackbarName windowName : string) (value count : Z)
| cv2_setTrackbarPos (trackbarName windowName : string) (pos : Z).

(** Code that changes a state [S] and may raise: the state at the raise is
    kept. *)
Definition M (S A : Type) : Type := S -> outcome A * S.

Definition ret {S A : Type} (a : A) : M S A := fun s => (Return a, s).

Definition throw {S A : Type} (e : exc) : M S A := fun s => (Throw e, s).

Definition bindM {S A B : Type} (m : M S A) (k : A -> M S B) : M S B :=
  fun s =>
    match m s with
    | (Return a, s') => k a s'
    | (Throw e, s') => (Throw e, s')
    end.

Notation "x <~ m ;; k" := (bindM m (fun x => k))
  (at level 61, m at next level, right associativity).

Definition value {S A : Type} (o : outcome A) : M S A := fun s => (o, s).

Definition get {S : Type} : M S S := fun s => (Return s, s).

Definition modify {S : Type} (f : S -> S) : M S unit := fun s => (Return tt, f s).

(** [for x in l: body(x)]. *)
Fixpoint for_ {S X : Type} (l : list X) (body : X -> M S unit) : M S unit :=
  match l with
  | [] => ret tt
  | x :: l' => _ <~ body x ;; for_ l' body
  end.

(** *** The command line (lines 14-42 and 63-66) *)

Module Startup.

(** The namespace [parser.parse_args()] returns: [-p] and [-e] hold [None]
    or a string, the three flags a boolean. *)
Record Namespace : Type := mk_args {
  dataset : option string;
  debug : bool;
  evaluate : option string;
  dumpdisparitycostvalues : bool;
  download : bool
}.

(** The calls that leave the script: [os.makedirs(name)] and
    [download_2014_middlebury(data_path)]. *)
Inductive call : Type :=
| os_makedirs (name : string)
| download_2014_middlebury (data_path : option string).

(** How the checks end: an exception raised by one of the [raise]
    statements, an exception inside one of the two calls, control reaching
    [sys.exit(0)] on line 66, or the script going on with its
    [evaluation_mode] and [args.dataset]. *)
Inductive ending : Type :=
| Raised (e : exn)
| Failed (c : call)
| Line66
| Continue (evaluation_mode : bool) (dataset : string).

Section Checks.

(** [datasetDefault] of line 13, [Path(p).exists()], and whether a call
    returns (rather than raises). *)
Variable datasetDefault : string.
Variable path_exists : string -> bool.
Variable returns : call -> bool.

Definition is_None {A : Type} (o : option A) : bool :=
  match o with None => true | Some _ => false end.

(** [args.dataset or datasetDefault]: [None] and the empty string are
    false. *)
Definition or_default (dataset : option string) : string :=
  match dataset with
  | Some s => if (s =? "")%string then datasetDefault else s
  | None => datasetDefault
  end.

(** Lines 63-66, reached with the calls [made] so far. *)
Definition downloading (args : Namespace) (evaluation_mode : bool)
    (dataset' : string) (made : list call) : ending * list call :=
  if download args then
    let c := download_2014_middlebury (evaluate args) in
    if negb (returns c) then (Failed c, made ++ [c])
    else if negb evaluation_mode then (Line66, made ++ [c])
    else (Continue evaluation_mode dataset', made ++ [c])
  else (Continue evaluation_mode dataset', made).

(** Lines 22-42 and 63-66, with the calls made, in order (a call that
    raises included). *)
Definition startup (args : Namespace) : ending * list call :=
  if negb (is_None (evaluate args)) && negb (is_None (dataset args))
  then (Raised ValueError, [])
  else
    let evaluation_mode := negb (is_None (evaluate args)) in
    let dataset' := or_default (dataset args) in
    if download args && is_None (evaluate args)
    then (Raised ValueError, [])
    else if is_None (evaluate args) && negb (path_exists dataset')
    then (Raised FileNotFoundError, [])
    else if match evaluate args with
            | Some e => negb (download args) && negb (path_exists e)
            | None => false
            end
    then (Raised FileNotFoundError, [])
    else
      match evaluate args with
      | Some e =>
          if download args && negb (path_exists e)
          then if returns (os_makedirs e)
               then downloading args evaluation_mode dataset' [os_makedirs e]
               else (Failed (os_makedirs e), [os_makedirs e])
          else downloading args evaluation_mode dataset' []
      | None => downloading args evaluation_mode dataset' []
      end.

End Checks.

End Startup.

(** *** [StereoConfigHandler] (lines 68-529) *)

Module StereoConfigHandler.

(** **** [Trackbar] (lines 70-86) *)

Module Trackbar.

Record t : Type := mk {
  min : Z;
  max : Z;
  windowName : string;
  trackbarName : string
}.

(** [__init__] (lines 71-77); the handler is registered with [cv2]. *)
Definition init (trackbarName windowName : string)
    (minValue maxValue defaultValue : Z) : t * list event :=
  (mk minValue maxValue windowName trackbarName,
   [cv2_createTrackbar trackbarName windowName minValue maxValue;
    cv2_setTrackbarPos trackbarName windowName defaultValue]).

(** [set] (lines 79-86): the events of a call. *)
Definition set (self : t) (value : Z) : list event :=
  let '(value, out1) :=
    if value <? min self
    then (min self,
          [print (trackbarName self ++ " min value is " ++ str_int (min self))%string])
    else (value, []) in
  let '(value, out2) :=
    if value >? max self
    then (max self,
          [print (trackbarName self ++ " max value is " ++ str_int (max self))%string])
    else (value, []) in
  out1 ++ out2 ++ [cv2_setTrackbarPos (trackbarName self) (windowName self) value].

(** The position a call hands to [cv2.setTrackbarPos]. *)
Definition position (self : t) (value : Z) : Z :=
  match last (set self value) (print "") with
  | cv2_setTrackbarPos _ _ pos => pos
  | _ => value
  end.

(** The lines a call prints. *)
Definition printed (out : list event) : list string :=
  flat_map (fun e => match e with print s => [s] | _ => [] end) out.

End Trackbar.

(** **** [CensusMaskHandler] (lines 88-176) *)

Module CensusMaskHandler.

Definition stateColor : list (Z * Z * Z) := [(0, 0, 0); (255, 255, 255)].
Definition gridHeight : Z := 50.
Definition gridWidth : Z := 50.

(** [cv2.EVENT_LBUTTONDOWN]. *)
Definition EVENT_LBUTTONDOWN : Z := 1.

(** One entry of [gridList]: a dict with the keys ["topLeft"],
    ["bottomRight"] and ["state"], all three assigned by [__init__] before
    any is read. *)
Record cell : Type := mk_cell {
  topLeft : Z * Z;
  bottomRight : Z * Z;
  state : bool
}.

(** The attributes of an instance.  [gridImage] is the image the
    [cv2_rectangle] events draw into. *)
Record t : Type := mk {
  gridSize : Z * Z;
  windowName : string;
  changed : bool;
  width : Z;
  height : Z;
  gridList : list (list cell)
}.

Definition set_changed (b : bool) (self : t) : t :=
  mk (gridSize self) (windowName self) b (width self) (height self) (gridList self).

Definition set_gridList (g : list (list cell)) (self : t) : t :=
  mk (gridSize self) (windowName self) (changed self) (width self) (height self) g.

(** The methods run on an instance and the event log. *)
Definition st : Type := (t * list event)%type.

Definition emit (es : list event) : M st unit :=
  fun s => (Return tt, (fst s, snd s ++ es)).

Definition self_ : M st t := fun s => (Return (fst s), s).

Definition update (f : t -> t) : M st unit :=
  fun s => (Return tt, (f (fst s), snd s)).

(** [l] with the element at position [n] replaced. *)
Fixpoint replace_nth {A : Type} (n : nat) (v : A) (l : list A) : list A :=
  match l, n with
  | [], _ => []
  | _ :: l', O => v :: l'
  | x :: l', S n' => x :: replace_nth n' v l'
  end.

(** The list after [l[i] = v], for an index [l[i]] accepts. *)
Definition py_store {A : Type} (l : list A) (i : Z) (v : A) : list A :=
  replace_nth (Z.to_nat (if i <? 0 then i + Z.of_nat (List.length l) else i)) v l.

(** [self.gridList[row][col]]. *)
Definition cell_at (self : t) (row col : Z) : result cell :=
  r <- py_index (gridList self) row ;; py_index r col.

(** [self.gridList[row][col]["state"] = b]. *)
Definition set_state (self : t) (row col : Z) (b : bool) : result t :=
  r <- py_index (gridList self) row ;;
  c <- py_index r col ;;
  Ok (set_gridList
        (py_store (gridList self) row
           (py_store r col (mk_cell (topLeft c) (bottomRight c) b))) self).

(** [fillRectangle] (lines 94-102). *)
Definition fillRectangle (row col : Z) : M st unit :=
  self <~ self_ ;;
  c <~ value (lift (cell_at self row col)) ;;
  let color := if state c then nth 1 stateColor (0, 0, 0)
               else nth 0 stateColor (0, 0, 0) in
  _ <~ update (set_changed true) ;;
  emit [cv2_rectangle (topLeft c) (bottomRight c) color;
        cv2_imshow (windowName self)].

(** [clickCallback] (lines 105-110); [flags] and [param] are not read. *)
Definition clickCallback (event x y : Z) : M st unit :=
  if event =? EVENT_LBUTTONDOWN then
    self <~ self_ ;;
    col <~ value (lift (py_floordiv (x * snd (gridSize self)) (width self))) ;;
    row <~ value (lift (py_floordiv (y * fst (gridSize self)) (height self))) ;;
    c <~ value (lift (cell_at self row col)) ;;
    self' <~ value (lift (set_state self row col (negb (state c)))) ;;
    _ <~ update (fun _ => self') ;;
    fillRectangle row col
  else ret tt.

(** The cell [__init__] builds at [(row, col)] (lines 131-142). *)
Definition new_cell (gridSize : Z * Z) (width height row col : Z) : cell :=
  let rowFactor := height / fst gridSize in
  let srcY := row * rowFactor + 1 in
  let dstY := (row + 1) * rowFactor - 1 in
  let colFactor := width / snd gridSize in
  let srcX := col * colFactor + 1 in
  let dstX := (col + 1) * colFactor - 1 in
  mk_cell (srcX, srcY) (dstX, dstY) false.

(** [__init__] (lines 113-146) on the event log [out]: the instance built,
    or the [ValueError] of [np.zeros] for a negative dimension.  The dicts
    of line 128 are filled, in the order in which [fillRectangle] then
    paints them. *)
Definition init (windowName : string) (gridSize : Z * Z) (out : list event)
  : outcome t * list event :=
  let out := out ++ [cv2_namedWindow windowName] in
  let width := gridWidth * snd gridSize in
  let height := gridHeight * fst gridSize in
  if (height + 50 <? 0) || (width <? 0) then (Throw (Builtin ValueError), out)
  else
    let out := out ++
      [cv2_putText "Click on grid to change mask!" (0, height + 20);
       cv2_putText "White: ON   |   Black: OFF" (0, height + 40)] in
    let gridList :=
      map (fun row => map (new_cell gridSize width height row) (range (snd gridSize)))
          (range (fst gridSize)) in
    let self := mk gridSize windowName false width height gridList in
    match for_ (range (fst gridSize))
            (fun row => for_ (range (snd gridSize)) (fun col => fillRectangle row col))
            (self, out) with
    | (Throw e, (_, out)) => (Throw e, out)
    | (Return _, (self, out)) =>
        (Return self, out ++ [cv2_setMouseCallback windowName; cv2_imshow windowName])
    end.

(** [np.uint64(v)] of a Python integer. *)
Definition np_uint64 (v : Z) : outcome Z :=
  if (0 <=? v) && (v <? 2 ^ 64) then Return v else Throw OverflowError.

(** [a << n] on [np.uint64]: bits shifted out are lost, and a shift by 64
    or more gives 0. *)
Definition uint64_shl (a n : Z) : Z :=
  if n <? 64 then Z.land (Z.shiftl a n) (Z.ones 64) else 0.

(** A loop that carries a value. *)
Fixpoint fold_result {A X : Type} (f : A -> X -> result A) (l : list X) (a : A)
  : result A :=
  match l with
  | [] => Ok a
  | x :: l' => a' <- f a x ;; fold_result f l' a'
  end.

(** [getMask] (lines 148-156). *)
Definition getMask (self : t) : result Z :=
  fold_result
    (fun mask row =>
       fold_result
         (fun mask col =>
            c <- cell_at self row col ;;
            if state c
            then let pos := row * snd (gridSize self) + col in
                 Ok (Z.lor mask (uint64_shl 1 pos))
            else Ok mask)
         (range (snd (gridSize self))) mask)
    (range (fst (gridSize self))) 0.

(** [setMask] (lines 158-168). *)
Definition setMask (_mask : Z) : M st unit :=
  mask <~ value (np_uint64 _mask) ;;
  self <~ self_ ;;
  for_ (range (fst (gridSize self)))
    (fun row =>
       for_ (range (snd (gridSize self)))
         (fun col =>
            let pos := row * snd (gridSize self) + col in
            self <~ self_ ;;
            self' <~ value (lift (set_state self row col
                                    (negb (Z.land mask (uint64_shl 1 pos) =? 0)))) ;;
            _ <~ update (fun _ => self') ;;
            fillRectangle row col)).

(** [isChanged] (lines 170-173). *)
Definition isChanged : M st bool :=
  self <~ self_ ;;
  _ <~ update (set_changed false) ;;
  ret (changed self).

(** [destroyWindow] (lines 175-176). *)
Definition destroyWindow : M st unit :=
  self <~ self_ ;;
  emit [cv2_destroyWindow (windowName self)].

(** ***** What the statements speak of *)

(** The cell at [(row, col)], and its state ([false] outside the grid). *)
Definition cell_nth (self : t) (row col : nat) : cell :=
  nth col (nth row (gridList self) []) (mk_cell (0, 0) (0, 0) false).

Definition state_at (self : t) (row col : nat) : bool := state (cell_nth self row col).

(** The bit of [mask] that belongs to the cell at [(row, col)]. *)
Definition bit_of (self : t) (mask : Z) (row col : nat) : bool :=
  Z.testbit mask (Z.of_nat row * snd (gridSize self) + Z.of_nat col).

(** The grid is [rows] by [cols], as [gridSize] says, with the window size
    [__init__] gives it. *)
Definition wf (self : t) : Prop :=
  0 < fst (gridSize self) /\ 0 < snd (gridSize self) /\
  width self = gridWidth * snd (gridSize self) /\
  height self = gridHeight * fst (gridSize self) /\
  List.length (gridList self) = Z.to_nat (fst (gridSize self)) /\
  Forall (fun r => List.length r = Z.to_nat (snd (gridSize self))) (gridList self).

(** A cell with its state replaced; the handler after the cell at
    [(row, col)] got the state [b] and was painted ([changed] is set); the
    handler after that cell was switched. *)
Definition recolor (c : cell) (b : bool) : cell :=
  mk_cell (topLeft c) (bottomRight c) b.

Definition painted (self : t) (row col : nat) (b : bool) : t :=
  mk (gridSize self) (windowName self) true (width self) (height self)
     (replace_nth row
        (replace_nth col (recolor (cell_nth self row col) b)
           (nth row (gridList self) []))
        (gridList self)).

Definition toggled (self : t) (row col : nat) : t :=
  painted self row col (negb (state_at self row col)).

(** Two handlers of one window and one grid size. *)
Definition same_frame (s s0 : t) : Prop :=
  gridSize s = gridSize s0 /\ windowName s = windowName s0 /\
  width s = width s0 /\ height s = height s0.

(** The test of line 163 on the bit of [mask] for the cell at
    [(row, col)]. *)
Definition mask_test (self : t) (mask : Z) (row col : nat) : bool :=
  negb (Z.land mask
          (uint64_shl 1 (Z.of_nat row * snd (gridSize self) + Z.of_nat col)) =? 0).

(** The colour [fillRectangle] paints a cell of state [b] with. *)
Definition color_of (b : bool) : Z * Z * Z :=
  if b then (255, 255, 255) else (0, 0, 0).

(** The events of painting the cell at [(row, col)] in the colour of the
    state [f row col], and of painting every cell of the grid, row by
    row. *)
Definition paint_cell (self : t) (f : nat -> nat -> bool) (row col : nat)
  : list event :=
  [cv2_rectangle (topLeft (cell_nth self row col))
     (bottomRight (cell_nth self row col)) (color_of (f row col));
   cv2_imshow (windowName self)].

Definition paint_grid (self : t) (f : nat -> nat -> bool) : list event :=
  flat_map
    (fun row => flat_map (paint_cell self f row)
                  (seq 0 (Z.to_nat (snd (gridSize self)))))
    (seq 0 (Z.to_nat (fst (gridSize self)))).

End CensusMaskHandler.

(** **** The configuration

    The enumerations of [depthai] the key handler cycles through, with the
    members the code names, and the fields of [StereoDepthConfig] the key
    handler reads or writes. *)

(** [l.index(x)]: the first position of [x], [ValueError] without one. *)
Fixpoint list_index {A : Type} (eqb : A -> A -> bool) (l : list A) (x : A)
  : result Z :=
  match l with
  | [] => Raise ValueError
  | y :: l' => if eqb y x then Ok 0 else i <- list_index eqb l' x ;; Ok (i + 1)
  end.

(** [settings[(settings.index(current) + 1) % len(settings)]]. *)
Definition next_setting {A : Type} (eqb : A -> A -> bool) (settings : list A)
    (current : A) : result A :=
  i <- list_index eqb settings current ;;
  j <- py_mod (i + 1) (Z.of_nat (List.length settings)) ;;
  py_index settings j.

Module MedianFilter.

Inductive t : Type := MEDIAN_OFF | KERNEL_3x3 | KERNEL_5x5 | KERNEL_7x7.

Definition eq_dec (a b : t) : {a = b} + {a <> b}.
Proof. decide equality. Defined.

Definition eqb (a b : t) : bool := if eq_dec a b then true else false.

Definition name (a : t) : string :=
  match a with
  | MEDIAN_OFF => "MEDIAN_OFF"
  | KERNEL_3x3 => "KERNEL_3x3"
  | KERNEL_5x5 => "KERNEL_5x5"
  | KERNEL_7x7 => "KERNEL_7x7"
  end.

End MedianFilter.

Module PersistencyMode.

Inductive t : Type :=
| PERSISTENCY_OFF
| VALID_8_OUT_OF_8
| VALID_2_IN_LAST_3
| VALID_2_IN_LAST_4
| VALID_2_OUT_OF_8
| VALID_1_IN_LAST_2
| VALID_1_IN_LAST_5
| VALID_1_IN_LAST_8
| PERSISTENCY_INDEFINITELY.

Definition eq_dec (a b : t) : {a = b} + {a <> b}.
Proof. decide equality. Defined.

Definition eqb (a b : t) : bool := if eq_dec a b then true else false.

Definition name (a : t) : string :=
  match a with
  | PERSISTENCY_OFF => "PERSISTENCY_OFF"
  | VALID_8_OUT_OF_8 => "VALID_8_OUT_OF_8"
  | VALID_2_IN_LAST_3 => "VALID_2_IN_LAST_3"
  | VALID_2_IN_LAST_4 => "VALID_2_IN_LAST_4"
  | VALID_2_OUT_OF_8 => "VALID_2_OUT_OF_8"
  | VALID_1_IN_LAST_2 => "VALID_1_IN_LAST_2"
  | VALID_1_IN_LAST_5 => "VALID_1_IN_LAST_5"
  | VALID_1_IN_LAST_8 => "VALID_1_IN_LAST_8"
  | PERSISTENCY_INDEFINITELY => "PERSISTENCY_INDEFINITELY"
  end.

End PersistencyMode.

Module DecimationMode.

Inductive t : Type := PIXEL_SKIPPING | NON_ZERO_MEDIAN | NON_ZERO_MEAN.

Definition eq_dec (a b : t) : {a = b} + {a <> b}.
Proof. decide equality. Defined.

Definition eqb (a b : t) : bool := if eq_dec a b then true else false.

Definition name (a : t) : string :=
  match a with
  | PIXEL_SKIPPING => "PIXEL_SKIPPING"
  | NON_ZERO_MEDIAN => "NON_ZERO_MEDIAN"
  | NON_ZERO_MEAN => "NON_ZERO_MEAN"
  end.

End DecimationMode.

Module DepthAlign.

Inductive t : Type := RECTIFIED_RIGHT | RECTIFIED_LEFT | CENTER.

Definition eq_dec (a b : t) : {a = b} + {a <> b}.
Proof. decide equality. Defined.

Definition eqb (a b : t) : bool := if eq_dec a b then true else false.

Definition name (a : t) : string :=
  match a with
  | RECTIFIED_RIGHT => "RECTIFIED_RIGHT"
  | RECTIFIED_LEFT => "RECTIFIED_LEFT"
  | CENTER => "CENTER"
  end.

End DepthAlign.

Module KernelSize.

Inductive t : Type := AUTO | KERNEL_5x5 | KERNEL_7x7 | KERNEL_7x9.

Definition eq_dec (a b : t) : {a = b} + {a <> b}.
Proof. decide equality. Defined.

Definition eqb (a b : t) : bool := if eq_dec a b then true else false.

Definition name (a : t) : string :=
  match a with
  | AUTO => "AUTO"
  | KERNEL_5x5 => "KERNEL_5x5"
  | KERNEL_7x7 => "KERNEL_7x7"
  | KERNEL_7x9 => "KERNEL_7x9"
  end.

End KernelSize.

Module DisparityWidth.

Inductive t : Type := DISPARITY_64 | DISPARITY_96.

Definition eq_dec (a b : t) : {a = b} + {a <> b}.
Proof. decide equality. Defined.

Definition eqb (a b : t) : bool := if eq_dec a b then true else false.

Definition name (a : t) : string :=
  match a with
  | DISPARITY_64 => "DISPARITY_64"
  | DISPARITY_96 => "DISPARITY_96"
  end.

End DisparityWidth.

(** [config.postProcessing]: [median], the [enable] flags of the spatial,
    temporal and speckle filters, the persistency mode of the temporal
    filter and the mode of the decimation filter. *)
Record PostProcessing : Type := mk_postProcessing {
  median : MedianFilter.t;
  spatialFilter_enable : bool;
  temporalFilter_enable : bool;
  temporalFilter_persistencyMode : PersistencyMode.t;
  speckleFilter_enable : bool;
  decimationFilter_decimationMode : DecimationMode.t
}.

Record AlgorithmControl : Type := mk_algorithmControl {
  depthAlign : DepthAlign.t;
  enableLeftRightCheck : bool;
  enableSubpixel : bool;
  enableExtended : bool
}.

Record CensusTransform : Type := mk_censusTransform {
  kernelSize : KernelSize.t;
  kernelMask : Z;
  enableMeanMode : bool
}.

Record CostMatching : Type := mk_costMatching {
  disparityWidth : DisparityWidth.t;
  enableCompanding : bool
}.

Record Config : Type := mk_config {
  postProcessing : PostProcessing;
  algorithmControl : AlgorithmControl;
  censusTransform : CensusTransform;
  costMatching : CostMatching
}.

(** Assignments to one field. *)
Definition on_postProcessing (f : PostProcessing -> PostProcessing) (c : Config)
  : Config :=
  mk_config (f (postProcessing c)) (algorithmControl c) (censusTransform c)
    (costMatching c).

Definition on_algorithmControl (f : AlgorithmControl -> AlgorithmControl)
    (c : Config) : Config :=
  mk_config (postProcessing c) (f (algorithmControl c)) (censusTransform c)
    (costMatching c).

Definition on_censusTransform (f : CensusTransform -> CensusTransform)
    (c : Config) : Config :=
  mk_config (postProcessing c) (algorithmControl c) (f (censusTransform c))
    (costMatching c).

Definition on_costMatching (f : CostMatching -> CostMatching) (c : Config)
  : Config :=
  mk_config (postProcessing c) (algorithmControl c) (censusTransform c)
    (f (costMatching c)).

Definition set_median (v : MedianFilter.t) : Config -> Config :=
  on_postProcessing (fun p =>
    mk_postProcessing v (spatialFilter_enable p) (temporalFilter_enable p)
      (temporalFilter_persistencyMode p) (speckleFilter_enable p)
      (decimationFilter_decimationMode p)).

Definition set_spatialFilter_enable (v : bool) : Config -> Config :=
  on_postProcessing (fun p =>
    mk_postProcessing (median p) v (temporalFilter_enable p)
      (temporalFilter_persistencyMode p) (speckleFilter_enable p)
      (decimationFilter_decimationMode p)).

Definition set_temporalFilter_enable (v : bool) : Config -> Config :=
  on_postProcessing (fun p =>
    mk_postProcessing (median p) (spatialFilter_enable p) v
      (temporalFilter_persistencyMode p) (speckleFilter_enable p)
      (decimationFilter_decimationMode p)).

Definition set_persistencyMode (v : PersistencyMode.t) : Config -> Config :=
  on_postProcessing (fun p =>
    mk_postProcessing (median p) (spatialFilter_enable p) (temporalFilter_enable p)
      v (speckleFilter_enable p) (decimationFilter_decimationMode p)).

Definition set_speckleFilter_enable (v : bool) : Config -> Config :=
  on_postProcessing (fun p =>
    mk_postProcessing (median p) (spatialFilter_enable p) (temporalFilter_enable p)
      (temporalFilter_persistencyMode p) v (decimationFilter_decimationMode p)).

Definition set_decimationMode (v : DecimationMode.t) : Config -> Config :=
  on_postProcessing (fun p =>
    mk_postProcessing (median p) (spatialFilter_enable p) (temporalFilter_enable p)
      (temporalFilter_persistencyMode p) (speckleFilter_enable p) v).

Definition set_depthAlign (v : DepthAlign.t) : Config -> Config :=
  on_algorithmControl (fun a =>
    mk_algorithmControl v (enableLeftRightCheck a) (enableSubpixel a)
      (enableExtended a)).

Definition set_enableLeftRightCheck (v : bool) : Config -> Config :=
  on_algorithmControl (fun a =>
    mk_algorithmControl (depthAlign a) v (enableSubpixel a) (enableExtended a)).

Definition set_enableSubpixel (v : bool) : Config -> Config :=
  on_algorithmControl (fun a =>
    mk_algorithmControl (depthAlign a) (enableLeftRightCheck a) v (enableExtended a)).

Definition set_enableExtended (v : bool) : Config -> Config :=
  on_algorithmControl (fun a =>
    mk_algorithmControl (depthAlign a) (enableLeftRightCheck a) (enableSubpixel a) v).

Definition set_kernelSize (v : KernelSize.t) : Config -> Config :=
  on_censusTransform (fun t => mk_censusTransform v (kernelMask t) (enableMeanMode t)).

Definition set_kernelMask (v : Z) : Config -> Config :=
  on_censusTransform (fun t => mk_censusTransform (kernelSize t) v (enableMeanMode t)).

Definition set_enableMeanMode (v : bool) : Config -> Config :=
  on_censusTransform (fun t => mk_censusTransform (kernelSize t) (kernelMask t) v).

Definition set_disparityWidth (v : DisparityWidth.t) : Config -> Config :=
  on_costMatching (fun m => mk_costMatching v (enableCompanding m)).

Definition set_enableCompanding (v : bool) : Config -> Config :=
  on_costMatching (fun m => mk_costMatching (disparityWidth m) v).

(** **** The class attributes and the queue

    [censusMaskHandler], [newConfig] and [config] of the class (lines
    179-181), the event log, and the messages sent to
    [stereoDepthConfigInQueue], oldest first.  A message is a copy of the
    configuration at the time of sending. *)
Record world : Type := mk_world {
  censusMaskHandler : option CensusMaskHandler.t;
  newConfig : bool;
  config : Config;
  out : list event;
  queue : list Config
}.

Definition set_censusMaskHandler (h : option CensusMaskHandler.t) (w : world) : world :=
  mk_world h (newConfig w) (config w) (out w) (queue w).

Definition set_newConfig (b : bool) (w : world) : world :=
  mk_world (censusMaskHandler w) b (config w) (out w) (queue w).

Definition set_config (c : Config) (w : world) : world :=
  mk_world (censusMaskHandler w) (newConfig w) c (out w) (queue w).

Definition set_out (o : list event) (w : world) : world :=
  mk_world (censusMaskHandler w) (newConfig w) (config w) o (queue w).

Definition send (c : Config) (w : world) : world :=
  mk_world (censusMaskHandler w) (newConfig w) (config w) (out w) (queue w ++ [c]).

(** [print(s)]. *)
Definition say (s : string) : M world unit :=
  modify (fun w => set_out (out w ++ [print s]) w).

(** An assignment to a field of [StereoConfigHandler.config]. *)
Definition assign (f : Config -> Config) : M world unit :=
  modify (fun w => set_config (f (config w)) w).

(** A method call on [StereoConfigHandler.censusMaskHandler]; on [None]
    the attribute lookup fails. *)
Definition call_handler {A : Type} (m : M CensusMaskHandler.st A) : M world A :=
  fun w =>
    match censusMaskHandler w with
    | None => (Throw AttributeError, w)
    | Some h =>
        let '(r, (h', o)) := m (h, out w) in
        (r, set_censusMaskHandler (Some h') (set_out o w))
    end.

(** [StereoConfigHandler.censusMaskHandler =
    StereoConfigHandler.CensusMaskHandler(windowName, gridSize)]. *)
Definition new_handler (windowName : string) (gridSize : Z * Z) : M world unit :=
  fun w =>
    match CensusMaskHandler.init windowName gridSize (out w) with
    | (Return h, o) => (Return tt, set_censusMaskHandler (Some h) (set_out o w))
    | (Throw e, o) => (Throw e, set_out o w)
    end.

Definition on_off (b : bool) : string := if b then "on" else "off".

Definition censusGridSize : list (Z * Z) := [(5, 5); (7, 7); (7, 9)].

Definition censusDefaultMask : list Z :=
  [0xA82415; 0xAA02A8154055; 0x2AA00AA805540155].

Section Keys.

(** The integer an enumeration member of [KernelSize] stands for when it
    is used as a list index. *)
Variable kernel_int : KernelSize.t -> Z.

(** Lines 345-351. *)
Definition key_m : M world unit :=
  _ <~ modify (set_newConfig true) ;;
  w <~ get ;;
  let medianSettings :=
    [MedianFilter.MEDIAN_OFF; MedianFilter.KERNEL_3x3; MedianFilter.KERNEL_5x5;
     MedianFilter.KERNEL_7x7] in
  let currentMedian := median (postProcessing (config w)) in
  nextMedian <~ value (lift (next_setting MedianFilter.eqb medianSettings
                               currentMedian)) ;;
  _ <~ say ("Changing median to " ++ MedianFilter.name nextMedian ++ " from "
            ++ MedianFilter.name currentMedian) ;;
  assign (set_median nextMedian).

(** Lines 352-356. *)
Definition key_w : M world unit :=
  _ <~ modify (set_newConfig true) ;;
  _ <~ assign (fun c =>
         set_spatialFilter_enable (negb (spatialFilter_enable (postProcessing c))) c) ;;
  w <~ get ;;
  say ("Spatial filter " ++ on_off (spatialFilter_enable (postProcessing (config w)))).

(** Lines 357-361. *)
Definition key_t : M world unit :=
  _ <~ modify (set_newConfig true) ;;
  _ <~ assign (fun c =>
         set_temporalFilter_enable (negb (temporalFilter_enable (postProcessing c))) c) ;;
  w <~ get ;;
  say ("Temporal filter " ++ on_off (temporalFilter_enable (postProcessing (config w)))).

(** Lines 362-366. *)
Definition key_s : M world unit :=
  _ <~ modify (set_newConfig true) ;;
  _ <~ assign (fun c =>
         set_speckleFilter_enable (negb (speckleFilter_enable (postProcessing c))) c) ;;
  w <~ get ;;
  say ("Speckle filter " ++ on_off (speckleFilter_enable (postProcessing (config w)))).

(** Lines 367-382. *)
Definition key_r : M world unit :=
  _ <~ modify (set_newConfig true) ;;
  w <~ get ;;
  let temporalSettings :=
    [PersistencyMode.PERSISTENCY_OFF; PersistencyMode.VALID_8_OUT_OF_8;
     PersistencyMode.VALID_2_IN_LAST_3; PersistencyMode.VALID_2_IN_LAST_4;
     PersistencyMode.VALID_2_OUT_OF_8; PersistencyMode.VALID_1_IN_LAST_2;
     PersistencyMode.VALID_1_IN_LAST_5; PersistencyMode.VALID_1_IN_LAST_8;
     PersistencyMode.PERSISTENCY_INDEFINITELY] in
  let currentTemporal := temporalFilter_persistencyMode (postProcessing (config w)) in
  nextTemporal <~ value (lift (next_setting PersistencyMode.eqb temporalSettings
                                 currentTemporal)) ;;
  _ <~ say ("Changing temporal persistency to " ++ PersistencyMode.name nextTemporal
            ++ " from " ++ PersistencyMode.name currentTemporal) ;;
  assign (set_persistencyMode nextTemporal).

(** Lines 383-392. *)
Definition key_n : M world unit :=
  _ <~ modify (set_newConfig true) ;;
  w <~ get ;;
  let decimationSettings :=
    [DecimationMode.PIXEL_SKIPPING; DecimationMode.NON_ZERO_MEDIAN;
     DecimationMode.NON_ZERO_MEAN] in
  let currentDecimation := decimationFilter_decimationMode (postProcessing (config w)) in
  nextDecimation <~ value (lift (next_setting DecimationMode.eqb decimationSettings
                                   currentDecimation)) ;;
  _ <~ say ("Changing decimation mode to " ++ DecimationMode.name nextDecimation
            ++ " from " ++ DecimationMode.name currentDecimation) ;;
  assign (set_decimationMode nextDecimation).

(** Lines 393-402. *)
Definition key_a : M world unit :=
  _ <~ modify (set_newConfig true) ;;
  w <~ get ;;
  let alignmentSettings :=
    [DepthAlign.RECTIFIED_RIGHT; DepthAlign.RECTIFIED_LEFT; DepthAlign.CENTER] in
  let currentAlignment := depthAlign (algorithmControl (config w)) in
  nextAlignment <~ value (lift (next_setting DepthAlign.eqb alignmentSettings
                                  currentAlignment)) ;;
  _ <~ say ("Changing alignment mode to " ++ DepthAlign.name nextAlignment
            ++ " from " ++ DepthAlign.name currentAlignment) ;;
  assign (set_depthAlign nextAlignment).

(** Lines 403-420. *)
Definition key_c : M world unit :=
  _ <~ modify (set_newConfig true) ;;
  w <~ get ;;
  let censusSettings :=
    [KernelSize.AUTO; KernelSize.KERNEL_5x5; KernelSize.KERNEL_7x7;
     KernelSize.KERNEL_7x9] in
  let currentCensus := kernelSize (censusTransform (config w)) in
  nextCensus <~ value (lift (next_setting KernelSize.eqb censusSettings
                               currentCensus)) ;;
  _ <~ (if negb (KernelSize.eqb nextCensus KernelSize.AUTO) then
          censusGrid <~ value (lift (py_index censusGridSize
                                       (kernel_int nextCensus))) ;;
          censusMask <~ value (lift (py_index censusDefaultMask
                                       (kernel_int nextCensus))) ;;
          _ <~ new_handler "Census mask" censusGrid ;;
          call_handler (CensusMaskHandler.setMask censusMask)
        else
          _ <~ say "Census mask config is not available in AUTO census kernel mode. Change using the 'c' key" ;;
          _ <~ assign (set_kernelMask 0) ;;
          call_handler CensusMaskHandler.destroyWindow) ;;
  _ <~ say ("Changing census transform to " ++ KernelSize.name nextCensus
            ++ " from " ++ KernelSize.name currentCensus) ;;
  assign (set_kernelSize nextCensus).

(** Lines 421-427. *)
Definition key_d : M world unit :=
  _ <~ modify (set_newConfig true) ;;
  w <~ get ;;
  let dispRangeSettings :=
    [DisparityWidth.DISPARITY_64; DisparityWidth.DISPARITY_96] in
  let currentDispRange := disparityWidth (costMatching (config w)) in
  nextDispRange <~ value (lift (next_setting DisparityWidth.eqb dispRangeSettings
                                  currentDispRange)) ;;
  _ <~ say ("Changing disparity range to " ++ DisparityWidth.name nextDispRange
            ++ " from " ++ DisparityWidth.name currentDispRange) ;;
  assign (set_disparityWidth nextDispRange).

(** Lines 428-432. *)
Definition key_f : M world unit :=
  _ <~ modify (set_newConfig true) ;;
  _ <~ assign (fun c =>
         set_enableCompanding (negb (enableCompanding (costMatching c))) c) ;;
  w <~ get ;;
  say ("Companding " ++ on_off (enableCompanding (costMatching (config w)))).

(** Lines 433-437. *)
Definition key_v : M world unit :=
  _ <~ modify (set_newConfig true) ;;
  _ <~ assign (fun c =>
         set_enableMeanMode (negb (enableMeanMode (censusTransform c))) c) ;;
  w <~ get ;;
  say ("Census transform mean mode "
       ++ on_off (enableMeanMode (censusTransform (config w)))).

(** Lines 438-442. *)
Definition key_1 : M world unit :=
  _ <~ modify (set_newConfig true) ;;
  _ <~ assign (fun c =>
         set_enableLeftRightCheck
           (negb (enableLeftRightCheck (algorithmControl c))) c) ;;
  w <~ get ;;
  say ("LR-check " ++ on_off (enableLeftRightCheck (algorithmControl (config w)))).

(** Lines 443-447. *)
Definition key_2 : M world unit :=
  _ <~ modify (set_newConfig true) ;;
  _ <~ assign (fun c =>
         set_enableSubpixel (negb (enableSubpixel (algorithmControl c))) c) ;;
  w <~ get ;;
  say ("Subpixel " ++ on_off (enableSubpixel (algorithmControl (config w)))).

(** Lines 448-452. *)
Definition key_3 : M world unit :=
  _ <~ modify (set_newConfig true) ;;
  _ <~ assign (fun c =>
         set_enableExtended (negb (enableExtended (algorithmControl c))) c) ;;
  w <~ get ;;
  say ("Extended " ++ on_off (enableExtended (algorithmControl (config w)))).

(** [if c: body] without an [else]. *)
Definition when (c : bool) (body : M world unit) : M world unit :=
  if c then body else ret tt.

(** Lines 345-452: six [if] statements, then one [if]/[elif] chain. *)
Definition dispatch (key : Z) : M world unit :=
  _ <~ when (key =? ord "m") key_m ;;
  _ <~ when (key =? ord "w") key_w ;;
  _ <~ when (key =? ord "t") key_t ;;
  _ <~ when (key =? ord "s") key_s ;;
  _ <~ when (key =? ord "r") key_r ;;
  _ <~ when (key =? ord "n") key_n ;;
  if key =? ord "a" then key_a
  else if key =? ord "c" then key_c
  else if key =? ord "d" then key_d
  else if key =? ord "f" then key_f
  else if key =? ord "v" then key_v
  else if key =? ord "1" then key_1
  else if key =? ord "2" then key_2
  else if key =? ord "3" then key_3
  else ret tt.

(** Lines 454-459. *)
Definition poll_mask : M world unit :=
  w <~ get ;;
  censusMaskChanged <~
    (match censusMaskHandler w with
     | Some _ => call_handler CensusMaskHandler.isChanged
     | None => ret false
     end) ;;
  if censusMaskChanged : bool then
    mask <~ call_handler (fun s => (lift (CensusMaskHandler.getMask (fst s)), s)) ;;
    _ <~ assign (set_kernelMask mask) ;;
    modify (set_newConfig true)
  else ret tt.

(** [sendConfig] (lines 463-468). *)
Definition sendConfig : M world unit :=
  w <~ get ;;
  if newConfig w then
    _ <~ modify (set_newConfig false) ;;
    w <~ get ;;
    modify (send (config w))
  else ret tt.

(** [handleKeypress] (lines 344-461). *)
Definition handleKeypress (key : Z) : M world unit :=
  _ <~ dispatch key ;;
  _ <~ poll_mask ;;
  sendConfig.

(** The class attributes before [__init__] ran; [config] is assigned by
    [__init__] before it is read. *)
Definition class_body (config : Config) : world :=
  mk_world None false config [] [].

(** [__init__] (lines 499-529), under the global [evaluation_mode]. *)
Definition init (evaluation_mode : bool) (config0 : Config) : M world unit :=
  _ <~ say "Control median filter using the 'm' key." ;;
  _ <~ say "Control census transform kernel size using the 'c' key." ;;
  _ <~ say "Control disparity search range using the 'd' key." ;;
  _ <~ say "Control disparity companding using the 'f' key." ;;
  _ <~ say "Control census transform mean mode using the 'v' key." ;;
  _ <~ say "Control depth alignment using the 'a' key." ;;
  _ <~ say "Control decimation algorithm using the 'a' key." ;;
  _ <~ say "Control temporal persistency mode using the 'r' key." ;;
  _ <~ say "Control spatial filter using the 'w' key." ;;
  _ <~ say "Control temporal filter using the 't' key." ;;
  _ <~ say "Control speckle filter using the 's' key." ;;
  _ <~ say "Control left-right check mode using the '1' key." ;;
  _ <~ say "Control subpixel mode using the '2' key." ;;
  _ <~ say "Control extended mode using the '3' key." ;;
  _ <~ when evaluation_mode (say "Switch between images using '[' and ']' keys.") ;;
  _ <~ modify (set_config config0) ;;
  w <~ get ;;
  let size := kernelSize (censusTransform (config w)) in
  if negb (KernelSize.eqb size KernelSize.AUTO) then
    let censusMask := kernelMask (censusTransform (config w)) in
    censusGrid <~ value (lift (py_index censusGridSize (kernel_int size))) ;;
    censusMask <~
      (if kernelMask (censusTransform (config w)) =? 0
       then value (lift (py_index censusDefaultMask (kernel_int size)))
       else ret censusMask) ;;
    _ <~ new_handler "Census mask" censusGrid ;;
    call_handler (CensusMaskHandler.setMask censusMask)
  else
    say "Census mask config is not available in AUTO Census kernel mode. Change using the 'c' key".

(** ***** What the statements speak of *)

(** The keys [handleKeypress] acts on. *)
Definition command_keys : list ascii :=
  ["m"; "w"; "t"; "s"; "r"; "n"; "a"; "c"; "d"; "f"; "v"; "1"; "2"; "3"]%char.

Definition is_command (key : Z) : bool :=
  existsb (fun c => key =? ord c) command_keys.

(** A configuration change is waiting to be sent: [newConfig] is set (by a
    trackbar callback), or the census grid was painted since the last
    poll. *)
Definition pending (w : world) : bool :=
  newConfig w ||
  match censusMaskHandler w with
  | Some h => CensusMaskHandler.changed h
  | None => false
  end.

(** The worlds a run goes through: the one [__init__] leaves, and from
    there key presses, mouse events on the census window, and trackbar
    callbacks (lines 205-342), which print, move trackbars, assign fields
    of the configuration that are not among those above and set
    [newConfig] (one of them returns early without setting it). *)
Inductive reachable (evaluation_mode : bool) (config0 : Config) : world -> Prop :=
| reach_init : forall w,
    init evaluation_mode config0 (class_body config0) = (Return tt, w) ->
    reachable evaluation_mode config0 w
| reach_key : forall w key r w',
    reachable evaluation_mode config0 w ->
    handleKeypress key w = (r, w') ->
    reachable evaluation_mode config0 w'
| reach_mouse : forall w h event x y r h' o,
    reachable evaluation_mode config0 w ->
    censusMaskHandler w = Some h ->
    CensusMaskHandler.clickCallback event x y (h, out w) = (r, (h', o)) ->
    reachable evaluation_mode config0 (set_censusMaskHandler (Some h') (set_out o w))
| reach_trackbar : forall w (set : bool) (o : list event),
    reachable evaluation_mode config0 w ->
    reachable evaluation_mode config0
      (set_out (out w ++ o) (set_newConfig (newConfig w || set) w)).

(** [n] presses of one key in a row. *)
Fixpoint presses (n : nat) (key : Z) : M world unit :=
  match n with
  | O => ret tt
  | S n' => _ <~ handleKeypress key ;; presses n' key
  end.

End Keys.

(** A census handler exists whenever the kernel is not [AUTO], and a
    handler has a grid of at most 64 cells. *)
Definition handler_ok (w : world) : Prop :=
  (kernelSize (censusTransform (config w)) <> KernelSize.AUTO ->
   censusMaskHandler w <> None) /\
  (forall h, censusMaskHandler w = Some h ->
     CensusMaskHandler.wf h /\
     fst (CensusMaskHandler.gridSize h) * snd (CensusMaskHandler.gridSize h) <= 64).

(** A key action that touches neither the census handler nor the queue:
    it returns, with [newConfig] set and the kernel size kept. *)
Definition plain (act : M world unit) : Prop :=
  forall w, exists c' o',
    act w = (Return tt, mk_world (censusMaskHandler w) true c' o' (queue w)) /\
    kernelSize (censusTransform c') = kernelSize (censusTransform (config w)).

(** The number of settings a key steps through: the length of its list of
    settings, 2 for a key that switches a flag. *)
Definition period (key : Z) : nat :=
  if key =? ord "m" then 4
  else if key =? ord "r" then 9
  else if (key =? ord "n") || (key =? ord "a") then 3
  else if (key =? ord "c") then 0
  else if is_command key then 2
  else 0.

(** The integers of [KernelSize] in [depthai]. *)
Definition dai_kernel_int (k : KernelSize.t) : Z :=
  match k with
  | KernelSize.AUTO => -1
  | KernelSize.KERNEL_5x5 => 0
  | KernelSize.KERNEL_7x7 => 1
  | KernelSize.KERNEL_7x9 => 2
  end.

(** The grid and the default mask of a kernel. *)
Definition grid_of (k : KernelSize.t) : Z * Z :=
  match k with
  | KernelSize.AUTO => (0, 0)
  | KernelSize.KERNEL_5x5 => (5, 5)
  | KernelSize.KERNEL_7x7 => (7, 7)
  | KernelSize.KERNEL_7x9 => (7, 9)
  end.

Definition default_mask (k : KernelSize.t) : Z :=
  match k with
  | KernelSize.AUTO => 0
  | KernelSize.KERNEL_5x5 => 0xA82415
  | KernelSize.KERNEL_7x7 => 0xAA02A8154055
  | KernelSize.KERNEL_7x9 => 0x2AA00AA805540155
  end.

(** The kernel the key [c] moves to. *)
Definition next_kernel (k : KernelSize.t) : KernelSize.t :=
  match k with
  | KernelSize.AUTO => KernelSize.KERNEL_5x5
  | KernelSize.KERNEL_5x5 => KernelSize.KERNEL_7x7
  | KernelSize.KERNEL_7x7 => KernelSize.KERNEL_7x9
  | KernelSize.KERNEL_7x9 => KernelSize.AUTO
  end.

(** A sample configuration. *)
Definition sample_config : Config :=
  mk_config
    (mk_postProcessing MedianFilter.KERNEL_5x5 false false
       PersistencyMode.VALID_2_IN_LAST_4 false DecimationMode.PIXEL_SKIPPING)
    (mk_algorithmControl DepthAlign.RECTIFIED_RIGHT true true false)
    (mk_censusTransform KernelSize.AUTO 0 false)
    (mk_costMatching DisparityWidth.DISPARITY_96 false).

End StereoConfigHandler.

(** *** The keys of the main loop (lines 971-979) *)

Module MainLoop.
Import StereoConfigHandler.

(** How the end of an iteration goes: the loop is left, an exception
    escapes, or the next iteration starts. *)
Inductive ending : Type :=
| Break
| Failed (e : exc) (dataset : DatasetManager.t) (w : world)
| Next (dataset : DatasetManager.t) (w : world).

Section Loop.

Variable kernel_int : KernelSize.t -> Z.
Variable evaluation_mode : bool.

(** The value of [dataset.next()] or [dataset.prev()] is dropped. *)
Definition moved (r : result string * DatasetManager.t)
  : option exn * DatasetManager.t :=
  match r with
  | (Ok _, dataset) => (None, dataset)
  | (Raise e, dataset) => (Some e, dataset)
  end.

(** Lines 971-979 for the key [cv2.waitKey(1)] returned.  [dataset] is
    read in evaluation mode only. *)
Definition key_step (key : Z) (dataset : DatasetManager.t) (w : world) : ending :=
  if key =? ord "q" then Break
  else
    let '(raised, dataset') :=
      if evaluation_mode && (key =? ord "[") then moved (DatasetManager.next dataset)
      else if evaluation_mode && (key =? ord "]")
      then moved (DatasetManager.prev dataset)
      else (None, dataset) in
    match raised with
    | Some e => Failed (Builtin e) dataset' w
    | None =>
        match handleKeypress kernel_int key w with
        | (Return _, w') => Next dataset' w'
        | (Throw e, w') => Failed e dataset' w'
        end
    end.

End Loop.

End MainLoop.

(** * Properties *)

(** ** [DatasetManager]: the cursor stays on a dataset *)

Module DatasetManagerSpec.
Import DatasetManager.

Lemma py_index_in_range {A : Type} (l : list A) (i : Z) :
  0 <= i < Z.of_nat (List.length l) ->
  exists a, py_index l i = Ok a /\ nth_error l (Z.to_nat i) = Some a.
Proof.
  intros Hi. unfold py_index.
  destruct (i <? 0) eqn:Hneg; [apply Z.ltb_lt in Hneg; lia|].
  rewrite Hneg.
  destruct (Z.of_nat (List.length l) <=? i) eqn:Hle; [apply Z.leb_le in Hle; lia|].
  simpl.
  destruct (nth_error l (Z.to_nat i)) as [a|] eqn:Hn.
  - exists a. split; reflexivity.
  - apply nth_error_None in Hn. lia.
Qed.

Lemma subdirs_names (d : directory) :
  Z.of_nat (List.length (map fst (filter snd d))) = subdirs d.
Proof. unfold subdirs. now rewrite length_map. Qed.

Lemma inv_init p d dm : init p d = Ok dm -> inv p d dm.
Proof.
  unfold init, inv. intros H.
  destruct (List.length (map fst (filter snd d)) =? 0)%nat eqn:E; [discriminate|].
  injection H as <-. cbn [path names index].
  apply Nat.eqb_neq in E. pose proof (subdirs_names d). 
  repeat split; try reflexivity; lia.
Qed.

Lemma next_index p d dm :
  inv p d dm ->
  index (snd (next dm)) = (if index dm =? subdirs d - 1 then 0 else index dm + 1) /\
  path (snd (next dm)) = p /\ names (snd (next dm)) = names dm.
Proof.
  intros (Hp & Hn & Hk & Hi). unfold next, py_mod.
  rewrite Hn, subdirs_names.
  destruct (subdirs d =? 0) eqn:E; [apply Z.eqb_eq in E; lia|].
  cbn [snd index path names]. repeat split; auto.
  destruct (index dm =? subdirs d - 1) eqn:E1.
  - apply Z.eqb_eq in E1. replace (index dm + 1) with (subdirs d) by lia.
    apply Z_mod_same_full.
  - apply Z.eqb_neq in E1. apply Z.mod_small. lia.
Qed.

Lemma prev_index p d dm :
  inv p d dm ->
  index (snd (prev dm)) = (if index dm =? 0 then subdirs d - 1 else index dm - 1) /\
  path (snd (prev dm)) = p /\ names (snd (prev dm)) = names dm.
Proof.
  intros (Hp & Hn & Hk & Hi). unfold prev, py_mod.
  rewrite Hn, subdirs_names.
  destruct (subdirs d =? 0) eqn:E; [apply Z.eqb_eq in E; lia|].
  cbn [snd index path names]. repeat split; auto.
  destruct (index dm =? 0) eqn:E1.
  - apply Z.eqb_eq in E1. rewrite E1.
    replace (0 - 1) with (subdirs d - 1 + (-1) * subdirs d) by lia.
    rewrite Z.mod_add by lia. apply Z.mod_small. lia.
  - apply Z.eqb_neq in E1. apply Z.mod_small. lia.
Qed.

Lemma inv_next p d dm : inv p d dm -> inv p d (snd (next dm)).
Proof.
  intros H. destruct (next_index p d dm H) as (Hi & Hp & Hn).
  destruct H as (Hp0 & Hn0 & Hk & Hr).
  unfold inv. rewrite Hi, Hp, Hn. repeat split; auto;
    destruct (index dm =? subdirs d - 1) eqn:E; try lia;
    apply Z.eqb_neq in E; lia.
Qed.

Lemma inv_prev p d dm : inv p d dm -> inv p d (snd (prev dm)).
Proof.
  intros H. destruct (prev_index p d dm H) as (Hi & Hp & Hn).
  destruct H as (Hp0 & Hn0 & Hk & Hr).
  unfold inv. rewrite Hi, Hp, Hn. repeat split; auto;
    destruct (index dm =? 0) eqn:E; try lia;
    apply Z.eqb_neq in E; lia.
Qed.

Lemma reachable_inv p d dm : reachable p d dm -> inv p d dm.
Proof.
  induction 1 as [dm H | dm _ IH | dm _ IH].
  - now apply inv_init.
  - now apply inv_next.
  - now apply inv_prev.
Qed.

Lemma get_ok p d dm : inv p d dm -> exists s, get dm = Ok s.
Proof.
  intros (Hp & Hn & Hk & Hi). unfold get.
  destruct (py_index_in_range (names dm) (index dm)) as (a & Ha & _).
  - rewrite Hn, subdirs_names. exact Hi.
  - rewrite Ha. simpl. eauto.
Qed.

(** C10.  On every instance built over a directory with [k >= 1] dataset
    sub-directories and moved by any number of [next] and [prev] calls,
    the index is in [0, k); [next] moves it forward by one and from [k-1]
    to [0], [prev] moves it back by one and from [0] to [k-1]; both
    return the path [get] returns afterwards; and [prev] after [next]
    restores the index and the value of [get]. *)
Theorem next_prev_cycle (p : string) (d : directory) (dm : t) :
  reachable p d dm ->
  let k := subdirs d in
  1 <= k /\
  0 <= index dm < k /\
  index (snd (next dm)) = (if index dm =? k - 1 then 0 else index dm + 1) /\
  0 <= index (snd (next dm)) < k /\
  index (snd (prev dm)) = (if index dm =? 0 then k - 1 else index dm - 1) /\
  0 <= index (snd (prev dm)) < k /\
  (exists s, fst (next dm) = Ok s /\ get (snd (next dm)) = Ok s) /\
  (exists s, fst (prev dm) = Ok s /\ get (snd (prev dm)) = Ok s) /\
  index (snd (prev (snd (next dm)))) = index dm /\
  snd (prev (snd (next dm))) = dm /\
  (exists s, get dm = Ok s /\ get (snd (prev (snd (next dm)))) = Ok s).
Proof.
  intros Hr k. subst k.
  pose proof (reachable_inv _ _ _ Hr) as Hinv.
  pose proof (inv_next _ _ _ Hinv) as Hin.
  pose proof (inv_prev _ _ _ Hinv) as Hip.
  destruct (next_index _ _ _ Hinv) as (Hni & Hnp & Hnn).
  destruct (prev_index _ _ _ Hinv) as (Hpi & Hpp & Hpn).
  destruct (prev_index _ _ _ Hin) as (Hpni & Hpnp & Hpnn).
  assert (Hback : index (snd (prev (snd (next dm)))) = index dm).
  { rewrite Hpni, Hni. destruct Hinv as (_ & _ & Hk & Hi).
    destruct (index dm =? subdirs d - 1) eqn:E.
    - apply Z.eqb_eq in E. simpl. lia.
    - apply Z.eqb_neq in E.
      destruct (index dm + 1 =? 0) eqn:E2; [apply Z.eqb_eq in E2; lia|lia]. }
  assert (Hsame : snd (prev (snd (next dm))) = dm).
  { destruct dm as [pa ix ns]. destruct (snd (prev (snd (next (mk pa ix ns))))) as [pa' ix' ns'] eqn:E.
    cbn [index path names] in *. destruct Hinv as (Hp0 & _).
    cbn [path] in Hp0. congruence. }
  destruct Hinv as (Hp0 & Hn0 & Hk & Hi).
  split; [exact Hk|]. split; [exact Hi|]. split; [exact Hni|].
  split; [apply Hin|]. split; [exact Hpi|]. split; [apply Hip|].
  split.
  { destruct (get_ok _ _ _ Hin) as (s & Hs). exists s. split; [|exact Hs].
    rewrite <- Hs. unfold next, py_mod. rewrite Hn0, subdirs_names.
    destruct (subdirs d =? 0) eqn:E; [apply Z.eqb_eq in E; lia|]. reflexivity. }
  split.
  { destruct (get_ok _ _ _ Hip) as (s & Hs). exists s. split; [|exact Hs].
    rewrite <- Hs. unfold prev, py_mod. rewrite Hn0, subdirs_names.
    destruct (subdirs d =? 0) eqn:E; [apply Z.eqb_eq in E; lia|]. reflexivity. }
  split; [exact Hback|]. split; [exact Hsame|].
  destruct (get_ok p d dm) as (s & Hs); [repeat split; auto; lia|].
  exists s. split; [exact Hs|]. rewrite Hsame. exact Hs.
Qed.

Lemma next_prev_cycle_witness :
  let dm := snd (next (mk "data" 0 (map fst (filter snd sample_dir)))) in
  index dm = 1 /\
  index (snd (next (snd (next dm)))) = 0 /\
  snd (prev (snd (next dm))) = dm.
Proof.
  set (dm0 := mk "data" 0 (map fst (filter snd sample_dir))).
  assert (R0 : reachable "data" sample_dir dm0) by (apply reach_init; reflexivity).
  pose proof (next_prev_cycle "data" sample_dir _ (reach_next _ _ _ R0)) as H.
  cbv zeta in H. destruct H as (_ & _ & _ & _ & _ & _ & _ & _ & _ & Hs & _).
  split; [reflexivity|]. split; [reflexivity|]. exact Hs.
Defined.

End DatasetManagerSpec.

(** ** The evaluator: masks, counts and the arrays after the call *)

Module EvalFacts.
Import Eval.

Lemma shape_eqb_true s1 s2 : shape_eqb s1 s2 = true <-> s1 = s2.
Proof.
  unfold shape_eqb. destruct (list_eq_dec Z.eq_dec s1 s2); split; congruence.
Qed.

(** [x != np.inf] is false on [+inf] alone. *)
Lemma valid_false_iff (x : F32.t) : valid x = false <-> x = F32.inf.
Proof.
  unfold valid, F32.neb, F32.inf, SFeqb.
  destruct x as [s | [|] | | s m e]; simpl; try destruct s; simpl;
    split; intros H; try discriminate; try reflexivity.
Qed.

Lemma valid_true_iff (x : F32.t) : valid x = true <-> x <> F32.inf.
Proof.
  rewrite <- valid_false_iff. destruct (valid x); split; congruence.
Qed.

Lemma zip_with_length {A B C} (f : A -> B -> C) l1 l2 :
  List.length l1 = List.length l2 ->
  List.length (zip_with f l1 l2) = List.length l1.
Proof.
  revert l2. induction l1 as [|x l1 IH]; intros [|y l2] H; simpl in *;
    try discriminate; auto.
Qed.

Lemma zip_with_nth_error {A B C} (f : A -> B -> C) l1 l2 i x y :
  nth_error l1 i = Some x -> nth_error l2 i = Some y ->
  nth_error (zip_with f l1 l2) i = Some (f x y).
Proof.
  revert l2 i. induction l1 as [|a l1 IH]; intros [|b l2] [|i] H1 H2;
    simpl in *; try discriminate.
  - congruence.
  - now apply IH.
Qed.

Lemma zip_with_same {A C} (f : A -> A -> C) l :
  zip_with f l l = map (fun x => f x x) l.
Proof. induction l as [|x l IH]; simpl; congruence. Qed.

Lemma zip_with_map_l {A A' B C} (f : A' -> B -> C) (g : A -> A') l1 l2 :
  zip_with f (map g l1) l2 = zip_with (fun x y => f (g x) y) l1 l2.
Proof.
  revert l2. induction l1 as [|x l1 IH]; intros [|y l2]; simpl; auto.
  now rewrite IH.
Qed.

Lemma zip_with_map_r {A B B' C} (f : A -> B' -> C) (g : B -> B') l1 l2 :
  zip_with f l1 (map g l2) = zip_with (fun x y => f x (g y)) l1 l2.
Proof.
  revert l2. induction l1 as [|x l1 IH]; intros [|y l2]; simpl; auto.
  now rewrite IH.
Qed.

Lemma map_zip_with {A B C D} (f : A -> B -> C) (g : C -> D) l1 l2 :
  map g (zip_with f l1 l2) = zip_with (fun x y => g (f x y)) l1 l2.
Proof.
  revert l2. induction l1 as [|x l1 IH]; intros [|y l2]; simpl; auto.
  now rewrite IH.
Qed.

(** An assignment under a mask computed from two arrays, element by
    element. *)
Lemma assign_where_zip {A B} (p : A -> B -> bool) (c : B -> F32.t) v l1 l2 :
  List.length l1 = List.length l2 ->
  assign_where (zip_with p l1 l2) v (map c l2) =
  zip_with (fun x y => if p x y then v else c y) l1 l2.
Proof.
  revert l2. induction l1 as [|x l1 IH]; intros [|y l2] H;
    simpl in *; try discriminate; auto.
  f_equal. apply IH; lia.
Qed.

Lemma assign_where_map {A} (p : A -> bool) (c : A -> F32.t) v l :
  assign_where (map p l) v (map c l) = map (fun x => if p x then v else c x) l.
Proof. induction l as [|x l IH]; simpl; congruence. Qed.

Lemma assign_where_length m v a :
  List.length (assign_where m v a) = List.length a.
Proof.
  revert m. induction a as [|x a IH]; intros [|b m]; simpl; auto.
Qed.

Lemma count_nonneg m : 0 <= count m.
Proof. unfold count. lia. Qed.

Lemma count_cons b m : count (b :: m) = (if b then 1 else 0) + count m.
Proof.
  unfold count. destruct b; cbn [filter List.length]; [rewrite Nat2Z.inj_succ|]; lia.
Qed.

Lemma count_le_length m : count m <= Z.of_nat (List.length m).
Proof.
  induction m as [|b m IH]; [unfold count; simpl; lia|].
  rewrite count_cons. cbn [List.length]. rewrite Nat2Z.inj_succ. destruct b; lia.
Qed.

(** A mask with no [true]. *)
Lemma count_zero_all_false m : count m = 0 -> Forall (fun b => b = false) m.
Proof.
  induction m as [|b m IH]; intros H; constructor.
  - rewrite count_cons in H. pose proof (count_nonneg m). destruct b; [lia|reflexivity].
  - apply IH. rewrite count_cons in H. pose proof (count_nonneg m).
    destruct b; lia.
Qed.

Lemma all_false_count m : Forall (fun b => b = false) m -> count m = 0.
Proof.
  induction 1 as [|b m Hb _ IH]; [reflexivity|].
  rewrite count_cons, Hb, IH. reflexivity.
Qed.

Lemma all_false_zip_l m m' :
  Forall (fun b => b = false) m -> Forall (fun b => b = false) (zip_with andb m m').
Proof.
  intros H. revert m'. induction H as [|b m Hb _ IH]; intros [|b' m']; simpl;
    constructor; auto. now rewrite Hb.
Qed.

Lemma all_false_zip_r m m' :
  Forall (fun b => b = false) m' -> Forall (fun b => b = false) (zip_with andb m m').
Proof.
  intros H. revert m. induction H as [|b m' Hb _ IH]; intros [|b' m]; simpl;
    constructor; auto. rewrite Hb. apply andb_false_r.
Qed.

Lemma all_false_select m a : Forall (fun b => b = false) m -> select m a = [].
Proof.
  intros H. revert a. induction H as [|b m Hb _ IH]; intros [|x a]; simpl; auto.
  now rewrite Hb.
Qed.

(** Counting is monotone in the mask. *)
Lemma count_mono_zip (m : list bool) {A} (p q : A -> bool) (l : list A) :
  (forall x, q x = true -> p x = true) ->
  count (zip_with andb m (map q l)) <= count (zip_with andb m (map p l)).
Proof.
  intros Hpq. revert l. induction m as [|b m IH]; intros [|x l]; simpl;
    try (unfold count; simpl; lia).
  rewrite !count_cons. specialize (IH l).
  destruct b; simpl; [|lia].
  destruct (q x) eqn:Hq; [rewrite (Hpq x Hq); lia|destruct (p x); lia].
Qed.

End EvalFacts.

(** ** The evaluator: failures *)

Module EvalErrors.
Import Eval EvalFacts.

Section WithPercentile.

Variable percentile : list F32.t -> Z -> option F64.t.

Lemma calc_shape_mismatch g o h :
  shape (load g h) <> shape (load o h) ->
  calculate_err_measures percentile g o h = (Raise AssertionError, h).
Proof.
  intros H. unfold calculate_err_measures.
  destruct (shape_eqb (shape (load g h)) (shape (load o h))) eqn:E.
  - apply shape_eqb_true in E. contradiction.
  - reflexivity.
Qed.

Lemma bind_not_assertion {A B} (r : result A) (k : A -> result B) :
  r <> Raise AssertionError ->
  (forall a, k a <> Raise AssertionError) ->
  bind r k <> Raise AssertionError.
Proof.
  intros Hr Hk. destruct r as [a|e]; simpl; auto.
  intros H. apply Hr. now inversion H.
Qed.

Lemma np_percentile_not_assertion a q :
  np_percentile percentile a q <> Raise AssertionError.
Proof. unfold np_percentile. destruct (percentile a q); discriminate. Qed.

Lemma calc_same_shape_no_assertion g o h :
  shape (load g h) = shape (load o h) ->
  fst (calculate_err_measures percentile g o h) <> Raise AssertionError.
Proof.
  intros H. unfold calculate_err_measures.
  apply shape_eqb_true in H. rewrite H. cbn [negb fst].
  repeat (apply bind_not_assertion; [apply np_percentile_not_assertion|intros ?]).
  discriminate.
Qed.

End WithPercentile.

(** C7.  Whatever [np.percentile] does, the call fails with the shape
    assertion's error exactly when the shapes of the two maps differ; it
    then returns no report and leaves both arrays as they were.  For equal
    shapes that error is never raised. *)
Theorem shape_mismatch_error (percentile : list F32.t -> Z -> option F64.t)
    (gt_img oak_img : ref) (h : heap) :
  (fst (calculate_err_measures percentile gt_img oak_img h) = Raise AssertionError
   <-> shape (load gt_img h) <> shape (load oak_img h)) /\
  (shape (load gt_img h) <> shape (load oak_img h) ->
   calculate_err_measures percentile gt_img oak_img h = (Raise AssertionError, h) /\
   forall r, fst (calculate_err_measures percentile gt_img oak_img h) <> Ok r).
Proof.
  split.
  - split.
    + intros H Heq. now apply (calc_same_shape_no_assertion percentile _ _ _ Heq).
    + intros H. now rewrite calc_shape_mismatch.
  - intros H. rewrite calc_shape_mismatch by exact H. split; [reflexivity|].
    intros r. discriminate.
Qed.

End EvalErrors.

(** ** The evaluator: no valid ground truth *)

Module EvalDegenerate.
Import Eval EvalFacts.

Lemma percent_0_0 : percent 0 0 = F64.nan.
Proof. reflexivity. Qed.

Lemma avg_of_nothing : F64.div (F64.of_f32 (np_sum [])) (F64.of_Z (0 - 0)) = F64.nan.
Proof. reflexivity. Qed.

(** The value of a call on maps of one shape without valid ground
    truth. *)
Lemma calc_no_valid_ground_truth percentile g o h :
  shape (load g h) = shape (load o h) ->
  n_valid (load g h) = 0 ->
  fst (calculate_err_measures percentile g o h) =
  (a50 <- np_percentile percentile [] 50 ;;
   a90 <- np_percentile percentile [] 90 ;;
   a95 <- np_percentile percentile [] 95 ;;
   a99 <- np_percentile percentile [] 99 ;;
   Ok (nan_report a50 a90 a95 a99)).
Proof.
  intros Hs Hn. unfold calculate_err_measures.
  apply shape_eqb_true in Hs. rewrite Hs. cbn [negb fst].
  unfold n_valid in Hn. change valid with (fun x => F32.neb x F32.inf) in Hn.
  pose proof (count_zero_all_false _ Hn) as Hgm.
  set (gm := map (fun x => F32.neb x F32.inf) (data (load g h))) in *.
  set (om := map (fun x => F32.neb x F32.inf) (data (load o h))).
  assert (Hm : Forall (fun b => b = false) (zip_with andb gm om))
    by now apply all_false_zip_l.
  set (mask := zip_with andb gm om) in *.
  match goal with |- context [select mask ?e] => set (err := e) end.
  rewrite (all_false_select mask err Hm).
  rewrite !(all_false_count _ (all_false_zip_l mask _ Hm)).
  rewrite (all_false_count _ (all_false_zip_l gm _ Hgm)).
  rewrite Hn. cbn [map Z.add]. rewrite percent_0_0, avg_of_nothing.
  reflexivity.
Qed.

(** C1, as the code has it.  With same-shape maps and no valid ground-truth
    pixel the evaluator makes no check of its own: all nine percentages and
    both averages evaluate to [nan] ([0.0 / 0]), the error sample is empty,
    and the outcome is that of [np.percentile] on the empty sample: its
    [IndexError] where it raises, and otherwise a report filled with
    [nan]. *)
Theorem degenerate_ground_truth (percentile : list F32.t -> Z -> option F64.t)
    (gt_img oak_img : ref) (h : heap) :
  shape (load gt_img h) = shape (load oak_img h) ->
  n_valid (load gt_img h) = 0 ->
  fst (calculate_err_measures percentile gt_img oak_img h) =
  (a50 <- np_percentile percentile [] 50 ;;
   a90 <- np_percentile percentile [] 90 ;;
   a95 <- np_percentile percentile [] 95 ;;
   a99 <- np_percentile percentile [] 99 ;;
   Ok (nan_report a50 a90 a95 a99)).
Proof. exact (calc_no_valid_ground_truth percentile gt_img oak_img h). Qed.

Lemma degenerate_ground_truth_witness :
  let h := mk_heap (map_1x2 F32.inf F32.inf) (map_1x2 F32.three F32.inf) in
  fst (calculate_err_measures percentile_nan Obj0 Obj1 h) =
  Ok (nan_report F64.nan F64.nan F64.nan F64.nan).
Proof.
  intros h.
  exact (degenerate_ground_truth percentile_nan Obj0 Obj1 h eq_refl eq_refl).
Defined.

(** C1 fails as stated.  On a ground truth without a valid pixel the call
    does not raise an error of a class of its own: where [np.percentile]
    raises on the empty sample the outcome is that [IndexError], the very
    outcome of a call on a ground truth with a valid pixel and nothing
    computed; and where [np.percentile] returns, the outcome is a report
    whose percentages and averages are all [nan]. *)
Lemma degenerate_ground_truth_counterexample :
  let h0 := mk_heap (map_1x2 F32.inf F32.inf) (map_1x2 F32.three F32.inf) in
  let h1 := mk_heap (map_1x2 F32.seven F32.inf) (map_1x2 F32.inf F32.inf) in
  n_valid (obj0 h0) = 0 /\ n_valid (obj0 h1) = 1 /\
  fst (calculate_err_measures percentile_raising Obj0 Obj1 h0) = Raise IndexError /\
  fst (calculate_err_measures percentile_raising Obj0 Obj1 h1) = Raise IndexError /\
  fst (calculate_err_measures percentile_nan Obj0 Obj1 h0) =
    Ok (nan_report F64.nan F64.nan F64.nan F64.nan) /\
  ~ raises_named "DegenerateInputError"
      (fst (calculate_err_measures percentile_raising Obj0 Obj1 h0)) /\
  ~ raises_named "DegenerateInputError"
      (fst (calculate_err_measures percentile_nan Obj0 Obj1 h0)).
Proof.
  cbv zeta. repeat split; try reflexivity.
  - intros (e & He & Hname). vm_compute in He. inversion He; subst e. discriminate.
  - intros (e & He & Hname). vm_compute in He. discriminate.
Qed.

End EvalDegenerate.

(** ** The evaluator: what it leaves in the caller's arrays *)

Module EvalFrame.
Import Eval EvalFacts.

Lemma zero_gt (G : list F32.t) :
  assign_where (map negb (map (fun x => F32.neb x F32.inf) G)) F32.zero G =
  map gt_after G.
Proof.
  induction G as [|x G IH]; [reflexivity|].
  cbn [map assign_where]. rewrite IH. f_equal.
  unfold gt_after, valid. now destruct (F32.neb x F32.inf).
Qed.

Lemma zero_oak (G O : list F32.t) :
  List.length G = List.length O ->
  assign_where
    (map negb (zip_with andb (map (fun x => F32.neb x F32.inf) G)
                             (map (fun x => F32.neb x F32.inf) O)))
    F32.zero O =
  zip_with oak_after G O.
Proof.
  revert O. induction G as [|x G IH]; intros [|y O] H; simpl in H;
    try discriminate; [reflexivity|].
  cbn [map zip_with assign_where]. rewrite IH by lia. f_equal.
  unfold oak_after, valid.
  now destruct (F32.neb x F32.inf), (F32.neb y F32.inf).
Qed.

Lemma zero_same (G : list F32.t) :
  assign_where
    (map negb (zip_with andb (map (fun x => F32.neb x F32.inf) G)
                             (map (fun x => F32.neb x F32.inf) G)))
    F32.zero (map gt_after G) =
  map gt_after G.
Proof.
  induction G as [|x G IH]; [reflexivity|].
  cbn [map zip_with assign_where]. rewrite IH. f_equal.
  unfold gt_after, valid. now destruct (F32.neb x F32.inf).
Qed.

Lemma oak_after_same (G : list F32.t) : zip_with oak_after G G = map gt_after G.
Proof.
  rewrite zip_with_same. apply map_ext. intros x. unfold oak_after, gt_after.
  now destruct (valid x).
Qed.

Lemma gt_after_inf x : x = F32.inf -> gt_after x = F32.zero.
Proof. intros ->. reflexivity. Qed.

Lemma gt_after_valid x : x <> F32.inf -> gt_after x = x.
Proof. intros H. unfold gt_after. apply valid_true_iff in H. now rewrite H. Qed.

Lemma oak_after_valid x y : x <> F32.inf -> y <> F32.inf -> oak_after x y = y.
Proof.
  intros Hx Hy. unfold oak_after. apply valid_true_iff in Hx, Hy.
  now rewrite Hx, Hy.
Qed.

Lemma oak_after_invalid x y : x = F32.inf \/ y = F32.inf -> oak_after x y = F32.zero.
Proof.
  intros H. unfold oak_after.
  destruct H as [H|H]; apply valid_false_iff in H; rewrite H;
    [reflexivity|now rewrite andb_false_r].
Qed.

Lemma same_length (a b : ndarray) :
  shape a = shape b -> wf a -> wf b -> List.length (data a) = List.length (data b).
Proof. unfold wf. intros Hs Ha Hb. rewrite Hs in Ha. lia. Qed.

(** The heap after a call on maps of one shape. *)
Lemma calc_heap percentile g o h :
  shape (load g h) = shape (load o h) -> wf (load g h) -> wf (load o h) ->
  let h' := snd (calculate_err_measures percentile g o h) in
  load g h' = mk_ndarray (shape (load g h)) (map gt_after (data (load g h))) /\
  load o h' = mk_ndarray (shape (load o h))
                (zip_with oak_after (data (load g h)) (data (load o h))) /\
  forall r, r <> g -> r <> o -> load r h' = load r h.
Proof.
  intros Hs Hg Ho. pose proof (same_length _ _ Hs Hg Ho) as Hlen.
  unfold calculate_err_measures.
  apply shape_eqb_true in Hs. rewrite Hs. cbn [negb snd]. clear Hs Hg Ho.
  destruct g, o, h as [a b]; cbn [load store obj0 obj1 shape data] in *.
  - rewrite zero_gt, zero_same, oak_after_same. repeat split.
    intros [|] H1 H2; cbn [load store obj0 obj1]; congruence.
  - rewrite zero_gt, zero_oak by exact Hlen. repeat split.
    intros [|] H1 H2; cbn [load store obj0 obj1]; congruence.
  - rewrite zero_gt, zero_oak by exact Hlen. repeat split.
    intros [|] H1 H2; cbn [load store obj0 obj1]; congruence.
  - rewrite zero_gt, zero_same, oak_after_same. repeat split.
    intros [|] H1 H2; cbn [load store obj0 obj1]; congruence.
Qed.

(** C9.  After a call on two well-formed maps of one shape, each of the two
    arrays has its shape, the ground truth holds [0.0] where it held
    [+inf] and its old element elsewhere, the computed map holds [0.0]
    where either map held [+inf] and its old element where both were
    valid, and an array that was not passed is as it was. *)
Theorem in_place_zeroing (percentile : list F32.t -> Z -> option F64.t)
    (gt_img oak_img : ref) (h : heap) :
  shape (load gt_img h) = shape (load oak_img h) ->
  wf (load gt_img h) -> wf (load oak_img h) ->
  let h' := snd (calculate_err_measures percentile gt_img oak_img h) in
  shape (load gt_img h') = shape (load gt_img h) /\
  shape (load oak_img h') = shape (load oak_img h) /\
  List.length (data (load gt_img h')) = List.length (data (load gt_img h)) /\
  List.length (data (load oak_img h')) = List.length (data (load oak_img h)) /\
  (forall i g o,
     nth_error (data (load gt_img h)) i = Some g ->
     nth_error (data (load oak_img h)) i = Some o ->
     nth_error (data (load gt_img h')) i =
       Some (if SFeqb g F32.inf then F32.zero else g) /\
     nth_error (data (load oak_img h')) i =
       Some (if SFeqb g F32.inf || SFeqb o F32.inf then F32.zero else o) /\
     (g = F32.inf -> nth_error (data (load gt_img h')) i = Some F32.zero) /\
     (g <> F32.inf -> nth_error (data (load gt_img h')) i = Some g) /\
     (g = F32.inf \/ o = F32.inf ->
      nth_error (data (load oak_img h')) i = Some F32.zero) /\
     (g <> F32.inf -> o <> F32.inf ->
      nth_error (data (load gt_img h')) i = Some g /\
      nth_error (data (load oak_img h')) i = Some o)) /\
  (forall r, r <> gt_img -> r <> oak_img -> load r h' = load r h).
Proof.
  intros Hs Hg Ho h'.
  destruct (calc_heap percentile _ _ _ Hs Hg Ho) as (Eg & Eo & Hother).
  fold h' in Eg, Eo, Hother. rewrite Eg, Eo. cbn [shape data].
  pose proof (same_length _ _ Hs Hg Ho) as Hlen.
  split; [reflexivity|]. split; [reflexivity|].
  split; [apply length_map|]. split; [rewrite zip_with_length; congruence|].
  split; [|exact Hother].
  intros i g o Hgi Hoi.
  assert (Hg' : nth_error (map gt_after (data (load gt_img h))) i = Some (gt_after g))
    by (rewrite nth_error_map, Hgi; reflexivity).
  pose proof (zip_with_nth_error oak_after _ _ _ _ _ Hgi Hoi) as Ho'.
  rewrite Hg', Ho'.
  split. { unfold gt_after, valid, F32.neb. now destruct (SFeqb g F32.inf). }
  split. { unfold oak_after, valid, F32.neb.
           now destruct (SFeqb g F32.inf), (SFeqb o F32.inf). }
  split. { intros H. now rewrite gt_after_inf. }
  split. { intros H. now rewrite gt_after_valid. }
  split. { intros H. now rewrite oak_after_invalid. }
  intros H1 H2. now rewrite gt_after_valid, oak_after_valid.
Qed.

Lemma in_place_zeroing_witness :
  let h := mk_heap (map_1x2 F32.seven F32.inf) (map_1x2 F32.three F32.three) in
  let h' := snd (calculate_err_measures percentile_raising Obj0 Obj1 h) in
  data (obj0 h') = [F32.seven; F32.zero] /\ data (obj1 h') = [F32.three; F32.zero] /\
  nth_error (data (obj1 h')) 0 = Some F32.three.
Proof.
  intros h h'.
  pose proof (in_place_zeroing percentile_raising Obj0 Obj1 h eq_refl eq_refl eq_refl)
    as (_ & _ & _ & _ & Hpt & _).
  destruct (Hpt 0%nat F32.seven F32.three eq_refl eq_refl) as (_ & _ & _ & _ & _ & Hv).
  split; [reflexivity|]. split; [reflexivity|].
  apply Hv; discriminate.
Defined.

End EvalFrame.

(** ** The loader: the path through [read_pfm] *)

Module PfmFacts.
Import Pfm.

(** [int] on a run within the interpreter's limit. *)
Lemma py_int_short g :
  Z.of_nat (List.length g) <= int_max_str_digits -> py_int g = Ok (int_of_digits g).
Proof.
  intros H. unfold py_int.
  destruct (Z.ltb_spec int_max_str_digits (Z.of_nat (List.length g))); [lia|reflexivity].
Qed.

Lemma py_int_long g :
  int_max_str_digits < Z.of_nat (List.length g) -> py_int g = Raise ValueError.
Proof.
  intros H. unfold py_int.
  destruct (Z.ltb_spec int_max_str_digits (Z.of_nat (List.length g))); [reflexivity|lia].
Qed.

Lemma py_int_value g v : py_int g = Ok v -> v = int_of_digits g.
Proof.
  unfold py_int.
  destruct (int_max_str_digits <? Z.of_nat (List.length g)); congruence.
Qed.

Lemma py_int_error g e : py_int g = Raise e -> e = ValueError.
Proof.
  unfold py_int.
  destruct (int_max_str_digits <? Z.of_nat (List.length g)); congruence.
Qed.

(** The number a run of digits writes is not negative. *)
Lemma int_of_digits_nonneg_acc g acc :
  forallb is_digit g = true -> 0 <= acc ->
  0 <= fold_left (fun a c => 10 * a + (Z.of_nat (nat_of_ascii c) - 48)) g acc.
Proof.
  revert acc. induction g as [|c g IH]; intros acc Hd Hacc;
    cbn [fold_left forallb] in *; [assumption|].
  apply andb_prop in Hd. destruct Hd as [Hc Hg]. apply IH; [assumption|].
  unfold is_digit in Hc. apply andb_prop in Hc. destruct Hc as [H1 _].
  apply Nat.leb_le in H1. lia.
Qed.

Lemma int_of_digits_nonneg g : forallb is_digit g = true -> 0 <= int_of_digits g.
Proof. intros H. apply int_of_digits_nonneg_acc; [assumption|lia]. Qed.

(** *** [np.fromfile] *)

Lemma fromfile_length_aux e n :
  forall p, (List.length p < n)%nat ->
            List.length (fromfile e p) = (List.length p / 4)%nat.
Proof.
  induction n as [|n IH]; intros p Hn; [lia|].
  destruct p as [|b0 [|b1 [|b2 [|b3 r]]]]; try reflexivity.
  cbn [fromfile List.length] in *. rewrite IH by lia.
  change (S (S (S (S (List.length r))))) with (4 + List.length r)%nat.
  replace (4 + List.length r)%nat with (1 * 4 + List.length r)%nat by lia.
  rewrite Nat.div_add_l by lia. lia.
Qed.

(** [np.fromfile] returns one item for every four bytes. *)
Lemma fromfile_length e p :
  List.length (fromfile e p) = (List.length p / 4)%nat.
Proof. apply (fromfile_length_aux e (S (List.length p))). lia. Qed.

(** *** [np.reshape] *)

Lemma new_array_error sh d e : new_array sh d = Raise e -> e = ValueError.
Proof. unfold new_array. destruct (nbytes sh itemsize); congruence. Qed.

Lemma new_array_value sh d a : new_array sh d = Ok a -> a = mk_ndarray sh d.
Proof. unfold new_array. destruct (nbytes sh itemsize); congruence. Qed.

Lemma reshape_error d sh e : reshape d sh = Raise e -> e = ValueError.
Proof.
  unfold reshape.
  destruct (existsb _ sh); [congruence|].
  destruct (filter _ sh) as [|k [|k' r]]; destruct (known_size sh 1) as [s|];
    try congruence.
  - destruct (s =? _); [apply new_array_error|congruence].
  - destruct ((s =? 0) || _); [congruence|apply new_array_error].
Qed.

(** A shape without a negative dimension has none to infer. *)
Lemma no_unknown sh :
  Forall (fun k => 0 <= k) sh -> filter (fun k => k <? 0) sh = [].
Proof.
  induction 1 as [|k sh Hk _ IH]; [reflexivity|]. cbn [filter].
  destruct (Z.ltb_spec k 0); [lia|exact IH].
Qed.

(** An array that [np.reshape] returns for such a shape has this shape
    and the elements it was given. *)
Lemma reshape_shape d sh a :
  Forall (fun k => 0 <= k) sh ->
  reshape d sh = Ok a -> shape a = sh /\ data a = d.
Proof.
  intros Hnn. unfold reshape. destruct (existsb _ sh); [discriminate|].
  rewrite (no_unknown sh Hnn).
  destruct (known_size sh 1) as [s|]; [|discriminate].
  destruct (s =? _); [|discriminate].
  intros H. apply new_array_value in H. subst a. now split.
Qed.

(** [np.reshape] on the shapes [read_pfm] builds from a positive width and
    height, for data whose bytes fit [intp]: it returns exactly when the
    product of the dimensions is the number of elements. *)
Lemma reshape_pfm (color : bool) (W H : Z) (d : list F32.t) :
  0 < W -> 0 < H -> itemsize * Z.of_nat (List.length d) <= intp_max ->
  reshape d (if color then [H; W; 3] else [H; W]) =
  if size_of (if color then [H; W; 3] else [H; W]) =? Z.of_nat (List.length d)
  then Ok (mk_ndarray (if color then [H; W; 3] else [H; W]) d)
  else Raise ValueError.
Proof.
  intros HW HH Hd. unfold reshape, new_array, itemsize, intp_min, intp_max in *.
  set (n := Z.of_nat (List.length d)) in *.
  destruct color; unfold size_of;
    cbn [existsb filter known_size nbytes fold_right];
    repeat (match goal with
            | |- context [?a <? ?b] => destruct (Z.ltb_spec a b)
            | |- context [?a <=? ?b] => destruct (Z.leb_spec a b)
            | |- context [?a =? ?b] => destruct (Z.eqb_spec a b)
            end; cbn [orb andb filter known_size nbytes]);
    unfold intp_max in *; try reflexivity; try lia; try nia.
Qed.

Section WithFloat.

Variable py_float : list byte -> option F64.t.

(** The world after the call on a file that opens: the descriptor [open]
    took, and what the end of the call makes of it. *)
Lemma read_pfm_world name w c :
  lookup name (files w) = Some c ->
  snd (read_pfm py_float name w) =
  end_of_call (mk_file (next_fd w) c) (fst (read_pfm py_float name w))
    (mk_world (files w) (refused w) (next_fd w :: open_fds w) (S (next_fd w))).
Proof.
  intros H. unfold read_pfm, open_rb. rewrite H. reflexivity.
Qed.

Lemma read_pfm_missing name w :
  lookup name (files w) = None ->
  read_pfm py_float name w = (Raise (open_error name w), w).
Proof.
  intros H. unfold read_pfm, open_rb. rewrite H. reflexivity.
Qed.

(** The value of the call, along the header lines of the file. *)
Lemma read_pfm_value name w c l1 l2 l3 p :
  lookup name (files w) = Some c ->
  header_lines c = (l1, l2, l3, p) ->
  fst (read_pfm py_float name w) =
  (h <- decode_ascii (rstrip l1) ;;
   color <- (if String.eqb h "PF" then Ok true
             else if String.eqb h "Pf" then Ok false
             else Raise (Exception "Not a PFM file.")) ;;
   s2 <- decode_ascii l2 ;;
   dims <- match search (list_ascii_of_string s2) with
           | Some (g1, g2) =>
               width <- py_int g1 ;; height <- py_int g2 ;; Ok (width, height)
           | None => Raise (Exception "Malformed PFM header.")
           end ;;
   scale <- match py_float (rstrip l3) with
            | Some x => Ok x
            | None => Raise ValueError
            end ;;
   a <- reshape (fromfile (if F64.ltb scale F64.zero then Little else Big) p)
          (if color : bool then [snd dims; fst dims; 3] else [snd dims; fst dims]) ;;
   Ok (flip0 a, if F64.ltb scale F64.zero then F64.opp scale else scale)).
Proof.
  intros H Hl. unfold read_pfm, open_rb. rewrite H. cbn [fst].
  unfold header_lines in Hl. unfold readline. cbn [rest fd].
  destruct (split_line c) as [k1 r1].
  destruct (split_line r1) as [k2 r2] eqn:E2.
  destruct (split_line r2) as [k3 r3] eqn:E3.
  injection Hl as -> -> -> ->.
  destruct (decode_ascii (rstrip l1)) as [h|e]; [|reflexivity]. cbn [bind].
  destruct (if String.eqb h "PF" then Ok true
            else if String.eqb h "Pf" then Ok false
            else Raise (Exception "Not a PFM file.")) as [color|e]; [|reflexivity].
  cbn [bind]. cbn [rest fd]. rewrite E2.
  destruct (decode_ascii l2) as [s2|e]; [|reflexivity]. cbn [bind].
  destruct (search (list_ascii_of_string s2)) as [[g1 g2]|]; [|reflexivity].
  destruct (py_int g1) as [width|e]; [|reflexivity]. cbn [bind].
  destruct (py_int g2) as [height|e]; [|reflexivity].
  cbn [bind fst snd rest fd]. rewrite E3.
  destruct (py_float (rstrip l3)) as [x|]; [|reflexivity]. cbn [bind rest].
  destruct (F64.ltb x F64.zero); reflexivity.
Qed.

End WithFloat.

End PfmFacts.

(** ** The loader: the file handle *)

Module PfmHandle.
Import Pfm PfmFacts.

Lemma is_open_head d w f r n : is_open d (mk_world f r (d :: w) n) = true.
Proof. unfold is_open. cbn [open_fds existsb]. now rewrite Nat.eqb_refl. Qed.

Lemma is_open_filter d k l f r n :
  is_open d (mk_world f r (filter (fun x => negb (Nat.eqb x k)) l) n) =
  negb (Nat.eqb d k) && is_open d (mk_world f r l n).
Proof.
  unfold is_open. cbn [open_fds].
  induction l as [|x l IH]; cbn [filter existsb]; [now rewrite andb_false_r|].
  destruct (Nat.eqb_spec x k) as [->|Hx]; cbn [negb].
  - rewrite IH. destruct (Nat.eqb_spec d k) as [->|Hd]; [reflexivity|].
    cbn [negb andb orb]. reflexivity.
  - cbn [existsb]. rewrite IH.
    destruct (Nat.eqb_spec d x) as [->|Hdx]; cbn [orb].
    + destruct (Nat.eqb_spec x k); [contradiction|reflexivity].
    + reflexivity.
Qed.

(** C2, as the code has it.  [read_pfm] has no [close] and no [with]
    block; what becomes of the descriptor [open] took is decided by the
    way the call ends.  When the call returns, the file object goes with
    the frame and the descriptor is closed.  When it raises (a wrong magic
    token, a malformed dimension line, or any other failure after
    [open]), the descriptor is still open when the exception reaches the
    caller.  Either way no file is changed and no other descriptor is
    opened or closed. *)
Theorem handle_on_exit (py_float : list byte -> option F64.t)
    (name : string) (w : world) (c : list byte) :
  lookup name (files w) = Some c ->
  let r := fst (read_pfm py_float name w) in
  let w' := snd (read_pfm py_float name w) in
  (forall v, r = Ok v -> is_open (next_fd w) w' = false) /\
  (forall e, r = Raise e -> is_open (next_fd w) w' = true) /\
  (forall d, d <> next_fd w -> is_open d w' = is_open d w) /\
  files w' = files w.
Proof.
  intros H r w'. subst r w'. rewrite (read_pfm_world py_float name w c H).
  destruct (fst (read_pfm py_float name w)) as [v|e]; cbn [end_of_call].
  - unfold close. cbn [fd files refused open_fds next_fd].
    split; [intros _ _|split; [discriminate|split; [|reflexivity]]].
    + rewrite is_open_filter, Nat.eqb_refl. reflexivity.
    + intros d Hd. rewrite is_open_filter.
      destruct (Nat.eqb_spec d (next_fd w)) as [->|_]; [contradiction|].
      cbn [negb andb]. unfold is_open. cbn [open_fds existsb].
      destruct (Nat.eqb_spec d (next_fd w)) as [->|_]; [contradiction|reflexivity].
  - split; [discriminate|]. split; [intros _ _; apply is_open_head|].
    split; [|reflexivity].
    intros d Hd. unfold is_open. cbn [open_fds existsb].
    destruct (Nat.eqb_spec d (next_fd w)) as [->|_]; [contradiction|reflexivity].
Qed.

Lemma handle_on_exit_witness :
  is_open 3 (snd (read_pfm sample_float "disp1.pfm" (one_file pfm_two_spaces))) = true /\
  is_open 3 (snd (read_pfm sample_float "disp1.pfm" (one_file pfm_le))) = false.
Proof.
  split.
  - exact (proj1 (proj2 (handle_on_exit sample_float "disp1.pfm"
                           (one_file pfm_two_spaces) pfm_two_spaces eq_refl))
             (Exception "Malformed PFM header.") eq_refl).
  - exact (proj1 (handle_on_exit sample_float "disp1.pfm"
                    (one_file pfm_le) pfm_le eq_refl)
             (mk_ndarray [2; 2] [F32.three; F32.three; F32.seven; F32.seven],
              S754_finite false 4503599627370496 (-52)) eq_refl).
Defined.

(** C2 fails as stated: a load that fails on the magic token and one that
    fails on the dimension line both end with the descriptor they opened
    still open. *)
Lemma handle_on_exit_counterexample :
  (fst (read_pfm sample_float "disp1.pfm" (one_file pfm_bad_magic))
     = Raise (Exception "Not a PFM file.") /\
   is_open 3 (snd (read_pfm sample_float "disp1.pfm" (one_file pfm_bad_magic))) = true) /\
  (fst (read_pfm sample_float "disp1.pfm" (one_file pfm_two_spaces))
     = Raise (Exception "Malformed PFM header.") /\
   is_open 3 (snd (read_pfm sample_float "disp1.pfm" (one_file pfm_two_spaces))) = true).
Proof. repeat split; vm_compute; reflexivity. Qed.

End PfmHandle.

(** ** The loader: the dimension line *)

Module PfmDims.
Import Pfm PfmFacts.

Lemma span_app_eq p s a b : span p s = (a, b) -> s = a ++ b.
Proof.
  revert a b. induction s as [|c s IH]; intros a b H; simpl in H.
  - now inversion H.
  - destruct (p c); [|now inversion H].
    destruct (span p s) as [a' b'] eqn:E. inversion H; subst.
    simpl. f_equal. now apply IH.
Qed.

Lemma span_all p s a b : span p s = (a, b) -> forallb p a = true.
Proof.
  revert a b. induction s as [|c s IH]; intros a b H; simpl in H.
  - now inversion H.
  - destruct (p c) eqn:Hc; [|now inversion H].
    destruct (span p s) as [a' b'] eqn:E. inversion H; subst.
    simpl. rewrite Hc. simpl. eapply IH. reflexivity.
Qed.

Lemma span_stop p s a b :
  span p s = (a, b) -> match b with [] => True | d :: _ => p d = false end.
Proof.
  revert a b. induction s as [|c s IH]; intros a b H; simpl in H.
  - now inversion H.
  - destruct (p c) eqn:Hc.
    + destruct (span p s) as [a' b'] eqn:E. inversion H; subst.
      eapply IH. reflexivity.
    + inversion H; subst. exact Hc.
Qed.

Lemma span_app p a b :
  forallb p a = true ->
  match b with [] => True | d :: _ => p d = false end ->
  span p (a ++ b) = (a, b).
Proof.
  intros Ha Hb. induction a as [|c a IH]; simpl in *.
  - destruct b as [|d b]; [reflexivity|]. simpl. now rewrite Hb.
  - apply andb_prop in Ha. destruct Ha as [Hc Ha]. rewrite Hc, (IH Ha). reflexivity.
Qed.

Lemma space_not_digit c : is_space c = true -> is_digit c = false.
Proof.
  unfold is_space, is_digit. generalize (nat_of_ascii c) as n. intros n H.
  apply orb_prop in H. apply andb_false_iff.
  destruct H as [H|H]; apply andb_prop in H; destruct H as [H1 H2];
    apply Nat.leb_le in H1; apply Nat.leb_le in H2; left; apply Nat.leb_gt; lia.
Qed.

Lemma backtrack_some k s g1 g2 :
  backtrack k s = Some (g1, g2) ->
  exists j, (1 <= j <= k)%nat /\ g1 = firstn j s /\ space_group (skipn j s) = Some g2.
Proof.
  induction k as [|k IH]; cbn [backtrack]; [discriminate|].
  destruct (space_group (skipn (S k) s)) as [g|] eqn:E.
  - intros H. inversion H; subst. exists (S k).
    split; [lia|]. split; [reflexivity|exact E].
  - intros H. destruct (IH H) as (j & Hj & H1 & H2). exists j.
    split; [lia|]. split; assumption.
Qed.

Lemma space_group_some s g2 :
  space_group s = Some g2 ->
  exists c post, s = c :: g2 ++ post /\ is_space c = true /\ g2 <> [] /\
    forallb is_digit g2 = true /\
    match post with [] => True | d :: _ => is_digit d = false end.
Proof.
  unfold space_group. destruct s as [|c r]; [discriminate|].
  destruct (is_space c) eqn:Hc; [|discriminate].
  destruct (span is_digit r) as [g post] eqn:E. cbn [fst].
  destruct g as [|d g]; [discriminate|]. intros H. inversion H; subst.
  exists c, post. split; [f_equal; now apply (span_app_eq is_digit)|].
  split; [exact Hc|]. split; [discriminate|].
  split; [eapply span_all; eauto|eapply span_stop; eauto].
Qed.

Lemma match_here_pair s g1 g2 :
  match_here s = Some (g1, g2) <-> pair_here s g1 g2.
Proof.
  unfold match_here, pair_here. split.
  - intros H. destruct (span is_digit s) as [ds tl] eqn:E. cbn [fst] in H.
    destruct (backtrack_some _ _ _ _ H) as (j & Hj & H1 & H2).
    destruct (space_group_some _ _ H2) as (c & post & Hs & Hc & Hne & Hd & Hp).
    pose proof (span_app_eq _ _ _ _ E) as Hsplit.
    pose proof (span_all _ _ _ _ E) as Hall.
    assert (Hjk : j = List.length ds).
    { destruct (Nat.eq_dec j (List.length ds)) as [|Hneq]; [assumption|exfalso].
      assert (Hlt : (j < List.length ds)%nat) by lia.
      rewrite Hsplit, skipn_app in Hs.
      replace (j - List.length ds)%nat with 0%nat in Hs by lia.
      cbn [skipn] in Hs.
      destruct (skipn j ds) as [|d r] eqn:Ek.
      - apply (f_equal (@List.length _)) in Ek. rewrite length_skipn in Ek.
        simpl in Ek. lia.
      - simpl in Hs. inversion Hs; subst d.
        assert (Hin : In c ds).
        { rewrite <- (firstn_skipn j ds). apply in_or_app. right. rewrite Ek. now left. }
        rewrite forallb_forall in Hall. specialize (Hall _ Hin).
        rewrite (space_not_digit _ Hc) in Hall. discriminate. }
    subst j. exists c, post.
    assert (Hg1 : g1 = ds).
    { rewrite H1, Hsplit, firstn_app, Nat.sub_diag, firstn_all. simpl.
      apply app_nil_r. }
    split.
    { rewrite <- (firstn_skipn (List.length ds) s) at 1. rewrite <- H1, Hs. reflexivity. }
    split. { rewrite Hg1. destruct ds; [simpl in Hj; lia|discriminate]. }
    split; [now rewrite Hg1|]. repeat split; assumption.
  - intros (c & post & Hs & Hne & Hd1 & Hc & Hne2 & Hd2 & Hp).
    assert (E : span is_digit s = (g1, c :: g2 ++ post)).
    { rewrite Hs. apply span_app; [assumption|]. now apply space_not_digit. }
    rewrite E. cbn [fst].
    destruct (List.length g1) as [|k] eqn:Ek.
    { destruct g1; [congruence|discriminate]. }
    cbn [backtrack]. rewrite <- Ek.
    assert (Hskip : skipn (List.length g1) s = c :: g2 ++ post).
    { rewrite Hs, skipn_app, Nat.sub_diag, skipn_all. reflexivity. }
    assert (Hfirst : firstn (List.length g1) s = g1).
    { rewrite Hs, firstn_app, Nat.sub_diag, firstn_all. simpl. apply app_nil_r. }
    rewrite Hskip, Hfirst. unfold space_group. rewrite Hc.
    rewrite (span_app is_digit g2 post Hd2 Hp). cbn [fst].
    destruct g2; [congruence|reflexivity].
Qed.

Lemma match_here_none s :
  match_here s = None <-> forall g1 g2, ~ pair_here s g1 g2.
Proof.
  split.
  - intros H g1 g2 Hp. apply match_here_pair in Hp. congruence.
  - intros H. destruct (match_here s) as [[g1 g2]|] eqn:E; [|reflexivity].
    apply match_here_pair in E. now apply H in E.
Qed.

Lemma search_none s : search s = None <-> no_pair s.
Proof.
  unfold no_pair. induction s as [|c s IH].
  - cbn [search]. split.
    + intros H pre suf g1 g2 Hs. destruct pre; destruct suf; try discriminate.
      destruct (match_here []) eqn:E; [discriminate|].
      now apply match_here_none.
    + intros H. destruct (match_here []) as [[g1 g2]|] eqn:E; [|reflexivity].
      apply match_here_pair in E. exfalso. now apply (H [] [] g1 g2).
  - cbn [search]. destruct (match_here (c :: s)) as [[a b]|] eqn:E.
    + split; [discriminate|]. intros H. apply match_here_pair in E.
      exfalso. now apply (H [] (c :: s) a b).
    + rewrite IH. split.
      * intros H pre suf g1 g2 Hs. destruct pre as [|d pre].
        -- simpl in Hs. subst suf. now apply match_here_none.
        -- inversion Hs; subst. now apply (H pre suf).
      * intros H pre suf g1 g2 Hs. apply (H (c :: pre) suf). simpl. now f_equal.
Qed.

Lemma search_some s g1 g2 : search s = Some (g1, g2) <-> first_pair s g1 g2.
Proof.
  unfold first_pair. induction s as [|c s IH].
  - cbn [search]. destruct (match_here []) as [[a b]|] eqn:E.
    + apply match_here_pair in E. destruct E as (x & post & Hs & _).
      destruct a; discriminate.
    + split; [discriminate|]. intros (pre & suf & Hs & Hp & _).
      destruct pre; destruct suf; try discriminate.
      apply match_here_pair in Hp. congruence.
  - cbn [search]. destruct (match_here (c :: s)) as [[a b]|] eqn:E.
    + split.
      * intros H. inversion H; subst. exists [], (c :: s).
        split; [reflexivity|]. split; [now apply match_here_pair|].
        intros p1 p2 x y Hp Hne. destruct p1; destruct p2; try discriminate.
        congruence.
      * intros (pre & suf & Hs & Hp & Hleft). destruct pre as [|d pre].
        -- simpl in Hs. subst suf. apply match_here_pair in Hp. congruence.
        -- exfalso. apply match_here_pair in E.
           apply (Hleft [] (d :: pre) a b eq_refl); [discriminate|].
           rewrite <- Hs. exact E.
    + rewrite IH. split.
      * intros (pre & suf & Hs & Hp & Hleft). exists (c :: pre), suf.
        split; [simpl; now f_equal|]. split; [assumption|].
        intros p1 p2 x y Hpre Hne Hx. destruct p1 as [|d p1].
        -- simpl in Hpre. subst p2. simpl in Hx. rewrite <- Hs in Hx.
           apply match_here_pair in Hx. congruence.
        -- inversion Hpre; subst. now apply (Hleft p1 p2 x y eq_refl Hne).
      * intros (pre & suf & Hs & Hp & Hleft). destruct pre as [|d pre].
        -- simpl in Hs. subst suf. apply match_here_pair in Hp. congruence.
        -- inversion Hs; subst. exists pre, suf. split; [reflexivity|].
           split; [assumption|]. intros p1 p2 x y Hpre Hne.
           apply (Hleft (d :: p1) p2 x y); [simpl; now f_equal|assumption].
Qed.

Lemma search_total s : no_pair s \/ exists g1 g2, first_pair s g1 g2.
Proof.
  destruct (search s) as [[g1 g2]|] eqn:E.
  - right. exists g1, g2. now apply search_some.
  - left. now apply search_none.
Qed.

Lemma decode_ascii_error l e : decode_ascii l = Raise e -> e = UnicodeDecodeError.
Proof.
  induction l as [|b l IH]; cbn [decode_ascii]; [discriminate|].
  destruct (Byte.to_N b <? 128)%N; [|intros H; inversion H; reflexivity].
  destruct (decode_ascii l) as [s|e']; cbn [bind]; [discriminate|].
  intros H. inversion H; subst. now apply IH.
Qed.

Lemma shape_flip0 a : shape (flip0 a) = shape a.
Proof. unfold flip0. destruct (shape a) eqn:E; [exact E|reflexivity]. Qed.

Lemma search_digits s g1 g2 :
  search s = Some (g1, g2) ->
  forallb is_digit g1 = true /\ forallb is_digit g2 = true.
Proof.
  intros H. apply search_some in H.
  destruct H as (pre & suf & _ & (c & post & _ & _ & H1 & _ & _ & H2 & _) & _).
  now split.
Qed.

(** C6, as the code has it.  Once the magic token is accepted, the second
    line is decoded as ASCII and searched for the leftmost place where a
    run of digits, exactly one white-space character and a second run of
    digits follow one another.  A line with a byte outside ASCII fails
    with [UnicodeDecodeError]; a line with no such place fails with
    [Exception("Malformed PFM header.")]; on any other line that exception
    is not raised, [int] reads the two runs as the width and the height
    (zero included, text around them ignored; a run longer than the
    interpreter converts is its [ValueError]), and an array that is
    returned has the shape they give. *)
Theorem dimension_line (py_float : list byte -> option F64.t)
    (name : string) (w : world) (c l1 l2 l3 p : list byte) (h : string) :
  lookup name (files w) = Some c ->
  header_lines c = (l1, l2, l3, p) ->
  decode_ascii (rstrip l1) = Ok h ->
  h = "PF"%string \/ h = "Pf"%string ->
  (forall e, decode_ascii l2 = Raise e ->
     e = UnicodeDecodeError /\
     fst (read_pfm py_float name w) = Raise UnicodeDecodeError) /\
  (forall s2, decode_ascii l2 = Ok s2 ->
     (no_pair (list_ascii_of_string s2) \/
      exists g1 g2, first_pair (list_ascii_of_string s2) g1 g2) /\
     (no_pair (list_ascii_of_string s2) ->
      fst (read_pfm py_float name w) = Raise (Exception "Malformed PFM header.")) /\
     (forall g1 g2, first_pair (list_ascii_of_string s2) g1 g2 ->
      let sh := fun width height : Z =>
                  if String.eqb h "PF" then [height; width; 3] else [height; width] in
      fst (read_pfm py_float name w) =
        (width <- py_int g1 ;;
         height <- py_int g2 ;;
         scale <- match py_float (rstrip l3) with
                  | Some x => Ok x
                  | None => Raise ValueError
                  end ;;
         a <- reshape (fromfile (if F64.ltb scale F64.zero then Little else Big) p)
                (sh width height) ;;
         Ok (flip0 a, if F64.ltb scale F64.zero then F64.opp scale else scale)) /\
      fst (read_pfm py_float name w) <> Raise (Exception "Malformed PFM header.") /\
      forall a sc, fst (read_pfm py_float name w) = Ok (a, sc) ->
                   shape a = sh (int_of_digits g1) (int_of_digits g2))).
Proof.
  intros Hl Hh Hd1 Hmagic.
  rewrite (read_pfm_value py_float name w c l1 l2 l3 p Hl Hh), Hd1. cbn [bind].
  assert (Hcolor : (if String.eqb h "PF" then Ok true
                    else if String.eqb h "Pf" then Ok false
                    else Raise (Exception "Not a PFM file."))
                   = Ok (String.eqb h "PF")).
  { destruct Hmagic as [-> | ->]; reflexivity. }
  rewrite Hcolor. cbn [bind]. clear Hcolor. split.
  - intros e He. pose proof (decode_ascii_error _ _ He) as ->.
    split; [reflexivity|]. now rewrite He.
  - intros s2 Hs2. rewrite Hs2. cbn [bind].
    split; [apply search_total|]. split.
    + intros Hno. apply search_none in Hno. now rewrite Hno.
    + intros g1 g2 Hfp. apply search_some in Hfp. rewrite Hfp.
      pose (sh := fun width height : Z =>
                    if String.eqb h "PF" then [height; width; 3] else [height; width]).
      destruct (search_digits _ _ _ Hfp) as [Hg1 Hg2].
      pose proof (int_of_digits_nonneg _ Hg1) as Hw.
      pose proof (int_of_digits_nonneg _ Hg2) as Hhh.
      destruct (py_int g1) as [width|e1] eqn:E1; cbn [bind].
      2:{ apply py_int_error in E1. subst e1.
          split; [reflexivity|]. split; [discriminate|intros; discriminate]. }
      destruct (py_int g2) as [height|e2] eqn:E2; cbn [bind].
      2:{ apply py_int_error in E2. subst e2.
          split; [reflexivity|]. split; [discriminate|intros; discriminate]. }
      apply py_int_value in E1. apply py_int_value in E2. subst width height.
      cbn [fst snd].
      assert (Hsh : (if String.eqb h "PF" : bool
                     then [int_of_digits g2; int_of_digits g1; 3]
                     else [int_of_digits g2; int_of_digits g1])
                    = sh (int_of_digits g1) (int_of_digits g2)) by reflexivity.
      rewrite Hsh.
      assert (Hnn : Forall (fun k => 0 <= k) (sh (int_of_digits g1) (int_of_digits g2))).
      { subst sh. cbv beta. destruct (String.eqb h "PF"); repeat constructor; lia. }
      split; [reflexivity|].
      destruct (py_float (rstrip l3)) as [x|]; cbn [bind];
        [|split; [discriminate|intros; discriminate]].
      destruct (reshape (fromfile (if F64.ltb x F64.zero then Little else Big) p)
                  (sh (int_of_digits g1) (int_of_digits g2))) as [a|e] eqn:Er;
        cbn [bind].
      * split; [discriminate|].
        intros a' sc H. inversion H; subst.
        rewrite shape_flip0. apply (reshape_shape _ _ _ Hnn Er).
      * apply reshape_error in Er. subst e.
        split; [discriminate|intros; discriminate].
Qed.

Lemma dimension_line_witness :
  fst (read_pfm sample_float "disp1.pfm" (one_file pfm_noisy_dims)) =
  Ok (mk_ndarray [2; 2] [F32.three; F32.three; F32.seven; F32.seven],
      S754_finite false 4503599627370496 (-52)).
Proof.
  pose proof (dimension_line sample_float "disp1.pfm" (one_file pfm_noisy_dims)
                pfm_noisy_dims (line "Pf") (line "w=-2 2.5h") (line "1.0")
                (payload Big [bits_7; bits_7; bits_3; bits_3]) "Pf"
                eq_refl eq_refl eq_refl (or_intror eq_refl)) as [_ H].
  destruct (H (string_of_list_byte (line "w=-2 2.5h")) eq_refl) as (_ & _ & Hp).
  assert (Hfp : first_pair
                  (list_ascii_of_string (string_of_list_byte (line "w=-2 2.5h")))
                  (list_ascii_of_string "2") (list_ascii_of_string "2"))
    by (apply search_some; reflexivity).
  destruct (Hp _ _ Hfp) as (Heq & _). rewrite Heq. reflexivity.
Defined.

(** C6 fails as stated.  A line with the pair [0 0] has no two positive
    integers, and the load returns an array; a line with two spaces
    between [2] and [2] has two white-space separated positive integers,
    and the load fails; a line with a byte outside ASCII fails with
    another error than the format error; and the pair is found inside
    other text. *)
Lemma dimension_line_counterexample :
  fst (read_pfm sample_float "disp1.pfm" (one_file pfm_zero_dims)) =
    Ok (mk_ndarray [0; 0] [], S754_finite false 4503599627370496 (-52)) /\
  fst (read_pfm sample_float "disp1.pfm" (one_file pfm_two_spaces)) =
    Raise (Exception "Malformed PFM header.") /\
  fst (read_pfm sample_float "disp1.pfm" (one_file pfm_non_ascii)) =
    Raise UnicodeDecodeError /\
  fst (read_pfm sample_float "disp1.pfm" (one_file pfm_noisy_dims)) =
    Ok (mk_ndarray [2; 2] [F32.three; F32.three; F32.seven; F32.seven],
        S754_finite false 4503599627370496 (-52)).
Proof. repeat split; vm_compute; reflexivity. Qed.

End PfmDims.

(** ** The loader: byte order, shape and row order *)

Module PfmPayload.
Import Pfm PfmFacts PfmDims.

Lemma byte_val_byte_of z : byte_val (byte_of z) = Z.land z 255.
Proof.
  unfold byte_val, byte_of.
  assert (Hr : 0 <= Z.land z 255 <= 255).
  { change 255 with (Z.ones 8) at 1 2. rewrite Z.land_ones by lia.
    pose proof (Z.mod_pos_bound z (2 ^ 8)). lia. }
  destruct (Byte.of_N (Z.to_N (Z.land z 255))) as [b|] eqn:E.
  - apply Byte.to_of_N in E. rewrite E. lia.
  - apply Byte.of_N_None_iff in E. lia.
Qed.

Lemma testbit_byte z n :
  0 <= n -> Z.testbit (Z.land z 255) n = Z.testbit z n && (n <? 8).
Proof.
  intros Hn. rewrite Z.land_spec. change 255 with (Z.ones 8).
  now rewrite Z.testbit_ones_nonneg by lia.
Qed.

Lemma testbit_high w n : 0 <= w < 2 ^ 32 -> 32 <= n -> Z.testbit w n = false.
Proof.
  intros Hw Hn. destruct (Z.eq_dec w 0) as [->|Hz]; [apply Z.bits_0|].
  apply Z.bits_above_log2; [lia|].
  assert (Z.log2 w < 32) by (apply Z.log2_lt_pow2; lia). lia.
Qed.

Lemma word_of_bytes_of e w : 0 <= w < 2 ^ 32 ->
  match bytes_of e w with
  | [b0; b1; b2; b3] => word_of e b0 b1 b2 b3 = w
  | _ => False
  end.
Proof.
  intros Hw.
  assert (H : Z.lor (Z.land w 255)
                (Z.lor (Z.shiftl (Z.land (Z.shiftr w 8) 255) 8)
                   (Z.lor (Z.shiftl (Z.land (Z.shiftr w 16) 255) 16)
                      (Z.shiftl (Z.land (Z.shiftr w 24) 255) 24))) = w).
  { apply Z.bits_inj'. intros n Hn.
    rewrite !Z.lor_spec, !Z.shiftl_spec by lia.
    destruct (Z.ltb_spec n 8) as [H8|H8].
    - rewrite testbit_byte by lia.
      rewrite !(Z.testbit_neg_r _ (n - _)) by lia.
      replace (n <? 8) with true by (symmetry; apply Z.ltb_lt; lia).
      now rewrite andb_true_r, !orb_false_r.
    - destruct (Z.ltb_spec n 16) as [H16|H16].
      + rewrite !testbit_byte by lia. rewrite Z.shiftr_spec by lia.
        rewrite !(Z.testbit_neg_r _ (n - 16)), !(Z.testbit_neg_r _ (n - 24)) by lia.
        replace (n <? 8) with false by (symmetry; apply Z.ltb_ge; lia).
        replace (n - 8 <? 8) with true by (symmetry; apply Z.ltb_lt; lia).
        replace (n - 8 + 8) with n by lia.
        now rewrite andb_false_r, andb_true_r, !orb_false_r.
      + destruct (Z.ltb_spec n 24) as [H24|H24].
        * rewrite !testbit_byte by lia. rewrite !Z.shiftr_spec by lia.
          rewrite !(Z.testbit_neg_r _ (n - 24)) by lia.
          replace (n <? 8) with false by (symmetry; apply Z.ltb_ge; lia).
          replace (n - 8 <? 8) with false by (symmetry; apply Z.ltb_ge; lia).
          replace (n - 16 <? 8) with true by (symmetry; apply Z.ltb_lt; lia).
          replace (n - 16 + 16) with n by lia.
          now rewrite !andb_false_r, andb_true_r, !orb_false_r.
        * rewrite !testbit_byte by lia. rewrite !Z.shiftr_spec by lia.
          replace (n <? 8) with false by (symmetry; apply Z.ltb_ge; lia).
          replace (n - 8 <? 8) with false by (symmetry; apply Z.ltb_ge; lia).
          replace (n - 16 <? 8) with false by (symmetry; apply Z.ltb_ge; lia).
          replace (n - 24 + 24) with n by lia.
          rewrite !andb_false_r. cbn [orb].
          destruct (Z.ltb_spec (n - 24) 8) as [H32|H32].
          -- now rewrite andb_true_r.
          -- rewrite andb_false_r. symmetry. apply testbit_high; lia. }
  destruct e; cbn [bytes_of word_of]; rewrite !byte_val_byte_of; exact H.
Qed.

(** The patterns written in a byte order and read in the same order come
    back as they were. *)
Lemma fromfile_payload e ws :
  Forall (fun v => 0 <= v < 2 ^ 32) ws ->
  fromfile e (payload e ws) = map F32.of_bits ws.
Proof.
  induction 1 as [|v ws Hv _ IH]; [reflexivity|].
  unfold payload in *. cbn [flat_map map].
  pose proof (word_of_bytes_of e v Hv) as Hw.
  destruct (bytes_of e v) as [|b0 [|b1 [|b2 [|b3 [|b4 r]]]]]; try contradiction.
  cbn [app fromfile]. now rewrite Hw, IH.
Qed.

Lemma negative_scale x : F64.ltb x F64.zero = true -> F64.opp x = SFabs x.
Proof.
  unfold F64.ltb, F64.zero, SFltb.
  destruct x as [s | [|] | | [|] m e]; cbn; try discriminate; reflexivity.
Qed.

Lemma non_negative_scale x :
  F64.ltb x F64.zero = false -> x = SFabs x \/ x = S754_zero true.
Proof.
  unfold F64.ltb, F64.zero, SFltb.
  destruct x as [[|] | [|] | | [|] m e]; cbn; try discriminate; auto.
Qed.

(** C4.  On a file whose first two lines are accepted, with the digit
    runs [g1] and [g2] found in the second, and whose third line [float]
    reads as [x]: when [x < 0] the payload is decoded little-endian and
    the scale returned is [-x], which is [|x|]; otherwise it is decoded
    big-endian and the scale returned is [x], which is [|x|] or the zero
    [-0.0]; the scale enters the returned array nowhere; and a payload
    that holds 32-bit patterns in the byte order the sign announces is
    decoded to these very patterns, the same under either encoding. *)
Theorem byte_order_by_sign (py_float : list byte -> option F64.t)
    (name : string) (w : world) (c l1 l2 l3 p : list byte) (h s2 : string)
    (g1 g2 : list ascii) (x : F64.t) :
  lookup name (files w) = Some c ->
  header_lines c = (l1, l2, l3, p) ->
  decode_ascii (rstrip l1) = Ok h ->
  h = "PF"%string \/ h = "Pf"%string ->
  decode_ascii l2 = Ok s2 ->
  search (list_ascii_of_string s2) = Some (g1, g2) ->
  py_float (rstrip l3) = Some x ->
  let sh := fun width height : Z =>
              if String.eqb h "PF" then [height; width; 3] else [height; width] in
  (F64.ltb x F64.zero = true ->
   fst (read_pfm py_float name w) =
     (width <- py_int g1 ;;
      height <- py_int g2 ;;
      a <- reshape (fromfile Little p) (sh width height) ;;
      Ok (flip0 a, F64.opp x)) /\
   F64.opp x = SFabs x) /\
  (F64.ltb x F64.zero = false ->
   fst (read_pfm py_float name w) =
     (width <- py_int g1 ;;
      height <- py_int g2 ;;
      a <- reshape (fromfile Big p) (sh width height) ;;
      Ok (flip0 a, x)) /\
   (x = SFabs x \/ x = S754_zero true)) /\
  (forall ws, Forall (fun v => 0 <= v < 2 ^ 32) ws ->
     p = payload (if F64.ltb x F64.zero then Little else Big) ws ->
     fst (read_pfm py_float name w) =
       (width <- py_int g1 ;;
        height <- py_int g2 ;;
        a <- reshape (map F32.of_bits ws) (sh width height) ;;
        Ok (flip0 a, if F64.ltb x F64.zero then F64.opp x else x))).
Proof.
  intros Hl Hh Hd1 Hmagic Hd2 Hs Hx sh.
  rewrite (read_pfm_value py_float name w c l1 l2 l3 p Hl Hh), Hd1. cbn [bind].
  assert (Hcolor : (if String.eqb h "PF" then Ok true
                    else if String.eqb h "Pf" then Ok false
                    else Raise (Exception "Not a PFM file."))
                   = Ok (String.eqb h "PF")).
  { destruct Hmagic as [-> | ->]; reflexivity. }
  rewrite Hcolor, Hd2. cbn [bind]. rewrite Hs, Hx.
  split; [|split].
  - intros Hneg. split; [|now apply negative_scale].
    destruct (py_int g1); cbn [bind]; [|reflexivity].
    destruct (py_int g2); cbn [bind fst snd]; [|reflexivity].
    rewrite Hneg. reflexivity.
  - intros Hpos. split; [|now apply non_negative_scale].
    destruct (py_int g1); cbn [bind]; [|reflexivity].
    destruct (py_int g2); cbn [bind fst snd]; [|reflexivity].
    rewrite Hpos. reflexivity.
  - intros ws Hws ->.
    destruct (py_int g1); cbn [bind]; [|reflexivity].
    destruct (py_int g2); cbn [bind fst snd]; [|reflexivity].
    now rewrite fromfile_payload.
Qed.

Lemma byte_order_by_sign_witness :
  fst (read_pfm sample_float "disp1.pfm" (one_file pfm_le)) =
  fst (read_pfm sample_float "disp1.pfm" (one_file pfm_be)).
Proof.
  assert (Hws : Forall (fun v => 0 <= v < 2 ^ 32) [bits_7; bits_7; bits_3; bits_3])
    by (repeat constructor; unfold bits_7, bits_3; lia).
  pose proof (byte_order_by_sign sample_float "disp1.pfm" (one_file pfm_le)
                pfm_le (line "Pf") (line "2 2") (line "-1.0")
                (payload Little [bits_7; bits_7; bits_3; bits_3]) "Pf"
                (string_of_list_byte (line "2 2"))
                (list_ascii_of_string "2") (list_ascii_of_string "2")
                (S754_finite true 4503599627370496 (-52))
                eq_refl eq_refl eq_refl (or_intror eq_refl) eq_refl eq_refl eq_refl)
    as (_ & _ & Hle).
  pose proof (byte_order_by_sign sample_float "disp1.pfm" (one_file pfm_be)
                pfm_be (line "Pf") (line "2 2") (line "1.0")
                (payload Big [bits_7; bits_7; bits_3; bits_3]) "Pf"
                (string_of_list_byte (line "2 2"))
                (list_ascii_of_string "2") (list_ascii_of_string "2")
                (S754_finite false 4503599627370496 (-52))
                eq_refl eq_refl eq_refl (or_intror eq_refl) eq_refl eq_refl eq_refl)
    as (_ & _ & Hbe).
  rewrite (Hle _ Hws eq_refl), (Hbe _ Hws eq_refl). reflexivity.
Defined.

(** *** Rows *)

Lemma chunks_length {A} c len (l : list A) : List.length (chunks c len l) = c.
Proof. revert l. induction c as [|c IH]; intros l; simpl; auto. Qed.

Lemma chunks_all_length {A} c len (l : list A) :
  (c * len <= List.length l)%nat ->
  Forall (fun r => List.length r = len) (chunks c len l).
Proof.
  revert l. induction c as [|c IH]; intros l H; simpl; constructor.
  - rewrite length_firstn. lia.
  - apply IH. rewrite length_skipn. lia.
Qed.

Lemma chunks_nth {A} c len (l : list A) i :
  (i < c)%nat -> nth i (chunks c len l) [] = firstn len (skipn (i * len) l).
Proof.
  revert l i. induction c as [|c IH]; intros l i H; [lia|].
  destruct i as [|i]; simpl; [reflexivity|].
  rewrite IH by lia. now rewrite skipn_skipn, Nat.add_comm.
Qed.

Lemma concat_piece {A} len (X : list (list A)) i :
  Forall (fun r => List.length r = len) X -> (i < List.length X)%nat ->
  firstn len (skipn (i * len) (List.concat X)) = nth i X [].
Proof.
  intros H. revert i. induction H as [|r X Hr _ IH]; intros i Hi; simpl in Hi; [lia|].
  destruct i as [|i]; cbn [List.concat nth].
  - cbn [Nat.mul skipn]. rewrite firstn_app, Hr, Nat.sub_diag. cbn [firstn].
    rewrite app_nil_r. rewrite <- Hr. apply firstn_all.
  - replace (S i * len)%nat with (List.length r + i * len)%nat by (rewrite Hr; lia).
    rewrite skipn_app, skipn_all2 by lia. cbn [app].
    replace (List.length r + i * len - List.length r)%nat with (i * len)%nat by lia.
    apply IH. lia.
Qed.

(** Row [i] of a flipped array is row [h - 1 - i] of the array. *)
Lemma row_flip0 a hd tl i :
  shape a = hd :: tl ->
  (Z.to_nat hd * Z.to_nat (size_of tl) = List.length (data a))%nat ->
  (i < Z.to_nat hd)%nat ->
  row (flip0 a) i = row a (Z.to_nat hd - 1 - i).
Proof.
  intros Hs Hlen Hi. unfold row, flip0. rewrite Hs. cbn [shape data].
  set (len := Z.to_nat (size_of tl)) in *. set (c := Z.to_nat hd) in *.
  rewrite concat_piece.
  - rewrite rev_nth by (rewrite chunks_length; lia).
    rewrite chunks_length. rewrite chunks_nth by lia.
    do 2 f_equal. lia.
  - apply Forall_rev. apply chunks_all_length. lia.
  - rewrite length_rev, chunks_length. exact Hi.
Qed.

(** C5.  A well-formed file: its header lines are accepted, [int] reads
    a positive width [W] and a positive height [H] from the second line
    (each run within the interpreter's limit of digits), and the payload,
    of a length a file can have, holds as many items as the shape needs.
    On such a file [read_pfm] returns an array of shape [(H, W)] for the
    magic token [Pf] and [(H, W, 3)] for [PF], whose row [i] is the stored
    scan-line [H - 1 - i]: row 0 is the last scan-line of the file and row
    [H - 1] the first. *)
Theorem shape_and_flip (py_float : list byte -> option F64.t)
    (name : string) (w : world) (c l1 l2 l3 p : list byte) (h s2 : string)
    (g1 g2 : list ascii) (x : F64.t) :
  lookup name (files w) = Some c ->
  header_lines c = (l1, l2, l3, p) ->
  decode_ascii (rstrip l1) = Ok h ->
  h = "PF"%string \/ h = "Pf"%string ->
  decode_ascii l2 = Ok s2 ->
  search (list_ascii_of_string s2) = Some (g1, g2) ->
  py_float (rstrip l3) = Some x ->
  Z.of_nat (List.length g1) <= int_max_str_digits ->
  Z.of_nat (List.length g2) <= int_max_str_digits ->
  let W := int_of_digits g1 in
  let H := int_of_digits g2 in
  0 < W ->
  0 < H ->
  Z.of_nat (List.length p) <= intp_max ->
  let sh := if String.eqb h "PF" then [H; W; 3] else [H; W] in
  let stored :=
    mk_ndarray sh (fromfile (if F64.ltb x F64.zero then Little else Big) p) in
  size_of sh = Z.of_nat (List.length (data stored)) ->
  exists a sc,
    fst (read_pfm py_float name w) = Ok (a, sc) /\
    shape a = sh /\
    (h = "Pf"%string -> shape a = [H; W]) /\
    (h = "PF"%string -> shape a = [H; W; 3]) /\
    (forall i, (i < Z.to_nat H)%nat -> row a i = row stored (Z.to_nat H - 1 - i)) /\
    (0 < H -> row a 0 = row stored (Z.to_nat H - 1) /\
              row a (Z.to_nat H - 1) = row stored 0).
Proof.
  intros Hl Hh Hd1 Hmagic Hd2 Hs Hx Hn1 Hn2 W H HW HH Hfile sh stored Hsize.
  assert (Hfit : itemsize * Z.of_nat (List.length (data stored)) <= intp_max).
  { cbn [data stored]. rewrite fromfile_length. unfold itemsize.
    pose proof (Nat.Div0.mul_div_le (List.length p) 4). lia. }
  rewrite (read_pfm_value py_float name w c l1 l2 l3 p Hl Hh), Hd1. cbn [bind].
  assert (Hcolor : (if String.eqb h "PF" then Ok true
                    else if String.eqb h "Pf" then Ok false
                    else Raise (Exception "Not a PFM file."))
                   = Ok (String.eqb h "PF")).
  { destruct Hmagic as [-> | ->]; reflexivity. }
  rewrite Hcolor, Hd2. cbn [bind].
  rewrite Hs, (py_int_short g1 Hn1), (py_int_short g2 Hn2), Hx. cbn [bind fst snd].
  fold W H.
  assert (Hsh : (if String.eqb h "PF" : bool then [H; W; 3] else [H; W]) = sh)
    by reflexivity.
  assert (Hre : reshape (data stored) sh = Ok stored).
  { unfold sh at 1. rewrite (reshape_pfm (String.eqb h "PF") W H (data stored) HW HH Hfit).
    rewrite Hsh, Hsize, Z.eqb_refl. reflexivity. }
  rewrite Hsh. cbn [data stored] in Hre. rewrite Hre. cbn [bind].
  exists (flip0 stored), (if F64.ltb x F64.zero then F64.opp x else x).
  split; [reflexivity|]. rewrite shape_flip0. cbn [shape stored].
  split; [reflexivity|].
  split. { intros ->. reflexivity. }
  split. { intros ->. reflexivity. }
  assert (Hrows : forall i, (i < Z.to_nat H)%nat ->
                    row (flip0 stored) i = row stored (Z.to_nat H - 1 - i)).
  { intros i Hi.
    assert (Hshape : exists tl, shape stored = H :: tl /\ 0 <= size_of tl).
    { cbn [shape stored]. subst sh. destruct (String.eqb h "PF").
      - exists [W; 3]. split; [reflexivity|]. unfold size_of. cbn [fold_right]. lia.
      - exists [W]. split; [reflexivity|]. unfold size_of. cbn [fold_right]. lia. }
    destruct Hshape as (tl & Htl & Hnn).
    apply (row_flip0 stored H tl i Htl); [|exact Hi].
    cbn [shape stored] in Htl. rewrite Htl in Hsize.
    change (size_of (H :: tl)) with (H * size_of tl) in Hsize.
    apply Nat2Z.inj. rewrite Nat2Z.inj_mul, !Z2Nat.id by lia. exact Hsize. }
  split; [exact Hrows|].
  intros Hpos. split.
  - rewrite Hrows by lia. f_equal. lia.
  - rewrite Hrows by lia. f_equal. lia.
Qed.

Lemma shape_and_flip_witness :
  exists a sc,
    fst (read_pfm sample_float "disp1.pfm" (one_file pfm_le)) = Ok (a, sc) /\
    shape a = [2; 2] /\
    row a 0 = [F32.three; F32.three] /\ row a 1 = [F32.seven; F32.seven].
Proof.
  assert (Hone : Z.of_nat (List.length (list_ascii_of_string "2")) <= int_max_str_digits)
    by (vm_compute; discriminate).
  assert (Hdim : 0 < int_of_digits (list_ascii_of_string "2")) by reflexivity.
  assert (Hfile : Z.of_nat (List.length (payload Little [bits_7; bits_7; bits_3; bits_3]))
                  <= intp_max) by (vm_compute; discriminate).
  destruct (shape_and_flip sample_float "disp1.pfm" (one_file pfm_le)
              pfm_le (line "Pf") (line "2 2") (line "-1.0")
              (payload Little [bits_7; bits_7; bits_3; bits_3]) "Pf"
              (string_of_list_byte (line "2 2"))
              (list_ascii_of_string "2") (list_ascii_of_string "2")
              (S754_finite true 4503599627370496 (-52))
              eq_refl eq_refl eq_refl (or_intror eq_refl) eq_refl eq_refl eq_refl
              Hone Hone Hdim Hdim Hfile eq_refl)
    as (a & sc & Hv & Hshape & _ & _ & Hrows & _).
  exists a, sc. split; [exact Hv|]. split; [exact Hshape|].
  split; [rewrite (Hrows 0%nat) by (cbv; lia)
         |rewrite (Hrows 1%nat) by (cbv; lia)]; reflexivity.
Defined.

End PfmPayload.

(** ** Rounding to binary64 *)

Module RoundingFacts.
Import Rounding.

(** [SpecFloat] is stated over the integer operations of the core library;
    the arithmetic lemmas and [lia] speak of those of [ZArith]. *)
Ltac znorm :=
  change IntDef.Z.add with Z.add in *;
  change IntDef.Z.sub with Z.sub in *;
  change IntDef.Z.mul with Z.mul in *;
  change IntDef.Z.opp with Z.opp in *;
  change IntDef.Z.max with Z.max in *;
  change IntDef.Z.min with Z.min in *;
  change IntDef.Z.leb with Z.leb in *;
  change IntDef.Z.ltb with Z.ltb in *;
  change IntDef.Z.eqb with Z.eqb in *;
  change IntDef.Z.compare with Z.compare in *;
  change IntDef.Z.even with Z.even in *;
  change IntDef.Z.div_eucl with Z.div_eucl in *;
  change IntDef.Z.shiftl with Z.shiftl in *;
  change PosDef.Pos.mul with Pos.mul in *;
  change PosDef.Pos.compare_cont with Pos.compare_cont in *.

Lemma iter_pos_nat {A} (f : A -> A) p x :
  iter_pos f p x = Nat.iter (Pos.to_nat p) f x.
Proof.
  revert x. induction p as [p IH|p IH|]; intros x; cbn [iter_pos].
  - rewrite !IH. rewrite Pos2Nat.inj_xI.
    replace (S (2 * Pos.to_nat p)) with (Pos.to_nat p + Pos.to_nat p + 1)%nat by lia.
    rewrite !Nat.iter_add. reflexivity.
  - rewrite !IH. rewrite Pos2Nat.inj_xO.
    replace (2 * Pos.to_nat p)%nat with (Pos.to_nat p + Pos.to_nat p)%nat by lia.
    rewrite Nat.iter_add. reflexivity.
  - reflexivity.
Qed.

Lemma digits2_log2 p : Zpos (digits2_pos p) = Z.log2 (Zpos p) + 1.
Proof.
  induction p as [p IH|p IH|]; cbn [digits2_pos].
  - rewrite Pos2Z.inj_succ, IH. 
    change (Z.pos p~1) with (2 * Z.pos p + 1).
    rewrite Z.log2_succ_double by lia. lia.
  - rewrite Pos2Z.inj_succ, IH.
    change (Z.pos p~0) with (2 * Z.pos p).
    rewrite Z.log2_double by lia. lia.
  - reflexivity.
Qed.

Lemma Zdigits2_digits z : 0 < z -> Zdigits2 z = digits z.
Proof.
  intros H. destruct z as [|p|p]; try lia. apply digits2_log2.
Qed.

Lemma digits_bounds z : 0 < z -> 2 ^ (digits z - 1) <= z < 2 ^ digits z.
Proof.
  intros H. unfold digits. pose proof (Z.log2_spec z H).
  replace (Z.log2 z + 1 - 1) with (Z.log2 z) by lia.
  replace (Z.log2 z + 1) with (Z.succ (Z.log2 z)) by lia. exact H0.
Qed.

Lemma digits_unique z d : 0 < z -> 2 ^ (d - 1) <= z < 2 ^ d -> digits z = d.
Proof.
  intros Hz H. unfold digits.
  assert (0 <= d - 1).
  { destruct (Z_lt_le_dec (d - 1) 0) as [Hn|]; [|assumption].
    assert (d <= 0) by lia.
    assert (2 ^ d <= 1).
    { destruct (Z.eq_dec d 0) as [->|]; [simpl; lia|].
      rewrite Z.pow_neg_r by lia. lia. }
    lia. }
  rewrite (Z.log2_unique z (d - 1)); [lia|assumption|].
  replace (Z.succ (d - 1)) with d by lia. exact H.
Qed.

Lemma digits_mono a b : 0 < a -> a <= b -> digits a <= digits b.
Proof. intros Ha Hab. unfold digits. pose proof (Z.log2_le_mono a b Hab). lia. Qed.

End RoundingFacts.

Module RoundingShift.
Import Rounding RoundingFacts.

Lemma shr_1_value m r s :
  0 <= m ->
  shr_1 (Build_shr_record m r s) = Build_shr_record (m / 2) (Z.odd m) (r || s).
Proof.
  intros Hm. destruct m as [|[p|p|]|p]; try lia; cbn [shr_1 Z.odd].
  - reflexivity.
  - f_equal. apply Z.div_unique with (r := 1); lia.
  - f_equal. apply Z.div_unique with (r := 0); lia.
  - reflexivity.
Qed.

Lemma div_mod_double N D :
  0 <= N -> 0 < D ->
  N / (2 * D) = N / D / 2 /\
  N mod (2 * D) = N mod D + D * (if Z.odd (N / D) then 1 else 0).
Proof.
  intros HN HD. rewrite (Z.mul_comm 2 D). split.
  - now rewrite Z.div_div by lia.
  - rewrite Z.rem_mul_r by lia. f_equal. f_equal.
    rewrite Zmod_odd. reflexivity.
Qed.

Lemma rec_of_double N D :
  0 <= N -> 0 < D ->
  rec_of N (2 * D) =
  Build_shr_record (N / D / 2) (Z.odd (N / D)) (negb (N mod D =? 0)).
Proof.
  intros HN HD. unfold rec_of.
  destruct (div_mod_double N D HN HD) as [Hq Hr]. rewrite Hq, Hr.
  pose proof (Z.mod_pos_bound N D HD) as Hb.
  f_equal.
  - destruct (Z.odd (N / D)).
    + apply Z.leb_le. lia.
    + apply Z.leb_gt. lia.
  - destruct (Z.odd (N / D)).
    + replace (N mod D + D * 1 =? 0) with false by (symmetry; apply Z.eqb_neq; lia).
      cbn [negb andb]. f_equal.
      destruct (Z.eqb_spec (N mod D) 0) as [E|E].
      * apply Z.eqb_eq. lia.
      * apply Z.eqb_neq. lia.
    + replace (N mod D + D * 0) with (N mod D) by lia.
      replace (2 * (N mod D) =? 2 * D) with false by (symmetry; apply Z.eqb_neq; lia).
      now rewrite andb_true_r.
Qed.

Lemma shr_1_rec_of N D :
  0 <= N -> 0 < D -> shr_1 (rec_of N D) = rec_of N (2 * D).
Proof.
  intros HN HD. rewrite rec_of_double by assumption.
  unfold rec_of. rewrite shr_1_value by (apply Z.div_pos; lia).
  f_equal. pose proof (Z.mod_pos_bound N D HD) as Hb.
  destruct (Z.leb_spec D (2 * (N mod D))) as [H1|H1];
    destruct (Z.eqb_spec (N mod D) 0) as [H2|H2];
    destruct (Z.eqb_spec (2 * (N mod D)) D) as [H3|H3];
    cbn [negb andb orb]; try reflexivity; lia.
Qed.

Lemma iter_shr_1_rec_of n N D :
  0 <= N -> 0 < D ->
  Nat.iter n shr_1 (rec_of N D) = rec_of N (D * 2 ^ Z.of_nat n).
Proof.
  intros HN HD. induction n as [|n IH].
  - change (Nat.iter 0 shr_1 (rec_of N D)) with (rec_of N D).
    change (2 ^ Z.of_nat 0) with 1. now rewrite Z.mul_1_r.
  - rewrite Nat.iter_succ, IH.
    assert (0 < D * 2 ^ Z.of_nat n) by (apply Z.mul_pos_pos; [assumption|apply Z.pow_pos_nonneg; lia]).
    rewrite shr_1_rec_of by assumption.
    f_equal. rewrite Nat2Z.inj_succ, Z.pow_succ_r by lia. ring.
Qed.

(** [shr] by [n >= 0] positions on the record of a fraction. *)
Lemma shr_rec_of N D e n :
  0 <= N -> 0 < D -> 0 <= n ->
  shr (rec_of N D) e n = (rec_of N (D * 2 ^ n), e + n).
Proof.
  intros HN HD Hn. unfold shr. destruct n as [|p|p]; try lia.
  - change (2 ^ 0) with 1. now rewrite Z.mul_1_r, Z.add_0_r.
  - rewrite iter_pos_nat, iter_shr_1_rec_of by assumption.
    now rewrite positive_nat_Z.
Qed.

Lemma record_of_loc_of m r s :
  shr_record_of_loc m (loc_of_shr_record (Build_shr_record m r s)) =
  Build_shr_record m r s.
Proof. now destruct r, s. Qed.

Lemma rec_of_exact m : rec_of m 1 = Build_shr_record m false false.
Proof.
  unfold rec_of. rewrite Z.div_1_r, Z.mod_1_r. reflexivity.
Qed.

Lemma new_location_rec_of N D :
  0 < D -> new_location D (N mod D) = loc_of_shr_record (rec_of N D).
Proof.
  intros HD. pose proof (Z.mod_pos_bound N D HD) as Hb.
  unfold new_location, new_location_even, new_location_odd, rec_of.
  cbn [loc_of_shr_record]. znorm.
  destruct (Z.eq_dec (N mod D) 0) as [H0|H0].
  - rewrite H0. replace (D <=? 2 * 0) with false by (symmetry; apply Z.leb_gt; lia).
    now destruct (Z.even D).
  - assert (E0 : (N mod D =? 0) = false) by (apply Z.eqb_neq; lia).
    destruct (Z.even D) eqn:Hev; cbv beta; rewrite !E0; cbn [negb andb].
    + destruct (Z.compare_spec (2 * (N mod D)) D) as [E|E|E].
      * replace (D <=? 2 * (N mod D)) with true by (symmetry; apply Z.leb_le; lia).
        replace (2 * (N mod D) =? D) with true by (symmetry; apply Z.eqb_eq; lia).
        reflexivity.
      * replace (D <=? 2 * (N mod D)) with false by (symmetry; apply Z.leb_gt; lia).
        replace (2 * (N mod D) =? D) with false by (symmetry; apply Z.eqb_neq; lia).
        reflexivity.
      * replace (D <=? 2 * (N mod D)) with true by (symmetry; apply Z.leb_le; lia).
        replace (2 * (N mod D) =? D) with false by (symmetry; apply Z.eqb_neq; lia).
        reflexivity.
    + assert (Hodd : Z.odd D = true) by (rewrite <- Z.negb_even, Hev; reflexivity).
      apply Z.odd_spec in Hodd. destruct Hodd as [k Hk].
      replace (2 * (N mod D) =? D) with false by (symmetry; apply Z.eqb_neq; lia).
      destruct (Z.compare_spec (2 * (N mod D) + 1) D) as [E|E|E].
      * replace (D <=? 2 * (N mod D)) with false by (symmetry; apply Z.leb_gt; lia).
        reflexivity.
      * replace (D <=? 2 * (N mod D)) with false by (symmetry; apply Z.leb_gt; lia).
        reflexivity.
      * replace (D <=? 2 * (N mod D)) with true by (symmetry; apply Z.leb_le; lia).
        reflexivity.
Qed.

End RoundingShift.

Module RoundingAux.
Import Rounding RoundingFacts RoundingShift.

Lemma rne_cases N D : rne N D = N / D \/ rne N D = N / D + 1.
Proof.
  unfold rne, round_nearest_even. znorm.
  destruct (loc_of_shr_record (rec_of N D)) as [|[| |]]; auto.
  destruct (Z.even (N / D)); auto.
Qed.

Lemma digits_pow2 k : 0 <= k -> digits (2 ^ k) = k + 1.
Proof. intros H. unfold digits. now rewrite Z.log2_pow2. Qed.

Lemma digits_ge_53 q : 2 ^ 52 <= q -> 53 <= digits q.
Proof.
  intros Hq. replace 53 with (digits (2 ^ 52)) by (rewrite digits_pow2; lia).
  apply digits_mono; lia.
Qed.

(** The mantissa left after dropping the digits beyond the 53rd. *)
Lemma floor_53 q :
  2 ^ 52 <= q -> 2 ^ 52 <= q / 2 ^ (digits q - 53) < 2 ^ 53.
Proof.
  intros Hq. assert (Hpos : 0 < q) by lia.
  pose proof (digits_bounds q Hpos) as [Hlo Hhi].
  assert (Hd : 53 <= digits q) by now apply digits_ge_53.
  set (sh := digits q - 53) in *.
  assert (Hsh : 0 <= sh) by lia.
  assert (Hp : 0 < 2 ^ sh) by (apply Z.pow_pos_nonneg; lia).
  replace (digits q - 1) with (52 + sh) in Hlo by lia.
  replace (digits q) with (53 + sh) in Hhi by lia.
  rewrite Z.pow_add_r in Hlo, Hhi by lia.
  split.
  - apply Z.div_le_lower_bound; [assumption|]. lia.
  - apply Z.div_lt_upper_bound; [assumption|]. lia.
Qed.

Lemma rne_53 N D :
  0 < D -> 2 ^ 52 <= N / D ->
  2 ^ 52 <= rne N (D * 2 ^ (digits (N / D) - 53)) <= 2 ^ 53.
Proof.
  intros HD Hq. pose proof (floor_53 _ Hq) as Hf.
  assert (Hd : 53 <= digits (N / D)) by now apply digits_ge_53.
  rewrite Z.div_div in Hf by (try lia; apply Z.pow_pos_nonneg; lia).
  destruct (rne_cases N (D * 2 ^ (digits (N / D) - 53))) as [E|E]; rewrite E; lia.
Qed.

(** The second alignment of [binary_round_aux], on a mantissa that the
    rounding has left in [2^52, 2^53]. *)
Lemma pack_correct m e :
  2 ^ 52 <= m <= 2 ^ 53 -> -1074 <= e -> e + 1 <= 971 ->
  (let '(mrs, e') := shr_fexp 53 1024 m e loc_Exact in
   match shr_m mrs with
   | Z0 => S754_zero false
   | Zpos p => if Z.leb e' (1024 - 53) then S754_finite false p e' else S754_infinity false
   | Zneg _ => S754_nan
   end) = pack m e.
Proof.
  intros Hm He1 He2. unfold shr_fexp, pack, fexp, emin. znorm.
  rewrite Zdigits2_digits by lia.
  destruct (Z.eqb_spec m (2 ^ 53)) as [E|E].
  - subst m. rewrite digits_pow2 by lia.
    rewrite Z.max_l by lia.
    replace (53 + 1 + e - 53 - e) with 1 by lia.
    cbn [shr_record_of_loc shr iter_pos]. 
    change (shr_1 {| shr_m := 2 ^ 53; shr_r := false; shr_s := false |})
      with {| shr_m := 2 ^ 52; shr_r := false; shr_s := false |}.
    cbn [shr_m]. change (2 ^ 52) with (Zpos (Z.to_pos (2 ^ 52))) at 1.
    cbv iota beta. replace (e + 1 <=? 1024 - 53) with true by (symmetry; apply Z.leb_le; lia).
    reflexivity.
  - assert (Hd : digits m = 53) by (apply digits_unique; lia).
    rewrite Hd, Z.max_l by lia.
    replace (53 + e - 53 - e) with 0 by lia.
    cbn [shr_record_of_loc shr shr_m].
    destruct m as [|p|p]; try lia.
    replace (e <=? 1024 - 53) with true by (symmetry; apply Z.leb_le; lia).
    reflexivity.
Qed.

(** [binary_round_aux] on the mantissa and the position of a fraction is
    the rounding of the fraction. *)
Lemma binary_round_aux_round64 N D ex :
  0 <= N -> 0 < D -> 2 ^ 52 <= N / D ->
  -1074 <= ex -> ex + (digits (N / D) - 53) + 1 <= 971 ->
  binary_round_aux 53 1024 false (N / D) ex (loc_of_shr_record (rec_of N D)) =
  round64 N D ex.
Proof.
  intros HN HD Hq He1 He2.
  assert (Hd : 53 <= digits (N / D)) by now apply digits_ge_53.
  unfold binary_round_aux.
  assert (Hfirst : shr_fexp 53 1024 (N / D) ex (loc_of_shr_record (rec_of N D)) =
                   (rec_of N (D * 2 ^ (digits (N / D) - 53)), ex + (digits (N / D) - 53))).
  { unfold shr_fexp, fexp, emin. znorm. rewrite Zdigits2_digits by lia.
    rewrite Z.max_l by lia.
    replace (digits (N / D) + ex - 53 - ex) with (digits (N / D) - 53) by lia.
    change (shr_record_of_loc (N / D) (loc_of_shr_record (rec_of N D)))
      with (shr_record_of_loc (N / D)
              (loc_of_shr_record
                 (Build_shr_record (N / D) (shr_r (rec_of N D)) (shr_s (rec_of N D))))).
    rewrite record_of_loc_of.
    change (Build_shr_record (N / D) (shr_r (rec_of N D)) (shr_s (rec_of N D)))
      with (rec_of N D).
    apply shr_rec_of; lia. }
  rewrite Hfirst.
  change (round_nearest_even (shr_m (rec_of N (D * 2 ^ (digits (N / D) - 53))))
            (loc_of_shr_record (rec_of N (D * 2 ^ (digits (N / D) - 53)))))
    with (rne N (D * 2 ^ (digits (N / D) - 53))).
  unfold round64. cbv zeta.
  apply pack_correct; [apply rne_53; assumption|lia|lia].
Qed.

End RoundingAux.

Module RoundingOrder.
Import Rounding RoundingFacts RoundingShift RoundingAux.

Lemma rec_of_scale N D c : 0 < c -> 0 < D -> rec_of (N * c) (D * c) = rec_of N D.
Proof.
  intros Hc HD. unfold rec_of.
  rewrite Z.div_mul_cancel_r by lia. rewrite Z.mul_mod_distr_r by lia.
  pose proof (Z.mod_pos_bound N D HD) as Hb. f_equal.
  - destruct (Z.leb_spec D (2 * (N mod D))) as [H|H].
    + apply Z.leb_le. nia.
    + apply Z.leb_gt. nia.
  - f_equal; f_equal.
    + destruct (Z.eqb_spec (N mod D) 0) as [H|H].
      * apply Z.eqb_eq. nia.
      * apply Z.eqb_neq. nia.
    + destruct (Z.eqb_spec (2 * (N mod D)) D) as [H|H].
      * apply Z.eqb_eq. nia.
      * apply Z.eqb_neq. nia.
Qed.

Lemma rne_scale N D c : 0 < c -> 0 < D -> rne (N * c) (D * c) = rne N D.
Proof.
  intros Hc HD. unfold rne. rewrite rec_of_scale by assumption.
  now rewrite Z.div_mul_cancel_r by lia.
Qed.

Lemma div_le_cross N1 D1 N2 D2 :
  0 < D1 -> 0 < D2 -> N1 * D2 <= N2 * D1 -> N1 / D1 <= N2 / D2.
Proof.
  intros H1 H2 H.
  rewrite <- (Z.div_mul_cancel_r N1 D1 D2) by lia.
  rewrite <- (Z.div_mul_cancel_r N2 D2 D1) by lia.
  rewrite (Z.mul_comm D2 D1). apply Z.div_le_mono; nia.
Qed.

(** Rounding to the nearest integer is monotone. *)
Lemma rne_mono N1 D1 N2 D2 :
  0 < D1 -> 0 < D2 -> N1 * D2 <= N2 * D1 -> rne N1 D1 <= rne N2 D2.
Proof.
  intros H1 H2 H. pose proof (div_le_cross _ _ _ _ H1 H2 H) as Hq.
  destruct (Z.eq_dec (N1 / D1) (N2 / D2)) as [E|E].
  - pose proof (Z.div_mod N1 D1 ltac:(lia)) as E1.
    pose proof (Z.div_mod N2 D2 ltac:(lia)) as E2.
    pose proof (Z.mod_pos_bound N1 D1 H1) as B1.
    pose proof (Z.mod_pos_bound N2 D2 H2) as B2.
    assert (Hr : (N1 mod D1) * D2 <= (N2 mod D2) * D1).
    { rewrite E in E1. nia. }
    unfold rne, rec_of, round_nearest_even. cbn [loc_of_shr_record]. znorm.
    rewrite <- E.
    set (r1 := N1 mod D1) in *. set (r2 := N2 mod D2) in *. set (q := N1 / D1) in *.
    destruct (Z.leb_spec D1 (2 * r1)) as [A1|A1];
      destruct (Z.eqb_spec r1 0) as [A2|A2];
      destruct (Z.eqb_spec (2 * r1) D1) as [A3|A3];
      destruct (Z.leb_spec D2 (2 * r2)) as [C1|C1];
      destruct (Z.eqb_spec r2 0) as [C2|C2];
      destruct (Z.eqb_spec (2 * r2) D2) as [C3|C3];
      cbn [negb andb]; destruct (Z.even q); try lia; exfalso; nia.
  - destruct (rne_cases N1 D1) as [F1|F1]; destruct (rne_cases N2 D2) as [F2|F2];
      rewrite F1, F2; lia.
Qed.

Lemma SFleb_finite_lt_exp m1 e1 m2 e2 :
  e1 < e2 -> SFleb (S754_finite false m1 e1) (S754_finite false m2 e2) = true.
Proof.
  intros H. unfold SFleb, SFcompare. znorm.
  now replace (e1 ?= e2) with Lt by (symmetry; apply Z.compare_lt_iff; lia).
Qed.

Lemma SFleb_finite_same_exp m1 m2 e :
  (m1 <= m2)%positive ->
  SFleb (S754_finite false m1 e) (S754_finite false m2 e) = true.
Proof.
  intros H. unfold SFleb, SFcompare. znorm. rewrite Z.compare_refl.
  change (Pos.compare_cont Eq m1 m2) with (Pos.compare m1 m2).
  destruct (Pos.compare_spec m1 m2); try reflexivity. lia.
Qed.

Lemma pack_le m1 m2 e :
  2 ^ 52 <= m1 -> m1 <= m2 -> m2 <= 2 ^ 53 ->
  SFleb (pack m1 e) (pack m2 e) = true.
Proof.
  intros H1 H12 H2. unfold pack.
  destruct (Z.eqb_spec m2 (2 ^ 53)) as [E2|E2];
    destruct (Z.eqb_spec m1 (2 ^ 53)) as [E1|E1]; try lia.
  - apply SFleb_finite_same_exp. lia.
  - apply SFleb_finite_lt_exp. lia.
  - apply SFleb_finite_same_exp. lia.
Qed.

Lemma pack_lt_exp m1 m2 e1 e2 :
  2 ^ 52 <= m1 <= 2 ^ 53 -> 2 ^ 52 <= m2 <= 2 ^ 53 -> e1 < e2 ->
  SFleb (pack m1 e1) (pack m2 e2) = true.
Proof.
  intros H1 H2 He. unfold pack.
  destruct (Z.eqb_spec m1 (2 ^ 53)) as [E1|E1];
    destruct (Z.eqb_spec m2 (2 ^ 53)) as [E2|E2].
  - apply SFleb_finite_lt_exp. lia.
  - destruct (Z.eq_dec (e1 + 1) e2) as [<-|Hne].
    + apply SFleb_finite_same_exp. lia.
    + apply SFleb_finite_lt_exp. lia.
  - apply SFleb_finite_lt_exp. lia.
  - apply SFleb_finite_lt_exp. lia.
Qed.

(** Rounding to binary64 is monotone, at one exponent. *)
Lemma round64_mono_exp N1 D1 N2 D2 ex :
  0 < D1 -> 0 < D2 -> 2 ^ 52 <= N1 / D1 -> N1 * D2 <= N2 * D1 ->
  SFleb (round64 N1 D1 ex) (round64 N2 D2 ex) = true.
Proof.
  intros H1 H2 Hq H. pose proof (div_le_cross _ _ _ _ H1 H2 H) as Hle.
  assert (Hq2 : 2 ^ 52 <= N2 / D2) by lia.
  pose proof (digits_mono (N1 / D1) (N2 / D2) ltac:(lia) Hle) as Hd.
  pose proof (digits_ge_53 _ Hq) as Hd1.
  pose proof (rne_53 N1 D1 H1 Hq) as R1.
  pose proof (rne_53 N2 D2 H2 Hq2) as R2.
  unfold round64. cbv zeta.
  destruct (Z.eq_dec (digits (N1 / D1)) (digits (N2 / D2))) as [E|E].
  - rewrite <- E in *. apply pack_le; try lia.
    set (p := 2 ^ (digits (N1 / D1) - 53)).
    assert (0 < p) by (apply Z.pow_pos_nonneg; lia).
    apply rne_mono; nia.
  - apply pack_lt_exp; lia.
Qed.

Lemma div_lt_mul N D b : 0 < D -> N / D < b -> N < b * D.
Proof.
  intros HD H. pose proof (Z.div_mod N D ltac:(lia)).
  pose proof (Z.mod_pos_bound N D HD). nia.
Qed.

Lemma digits_shift N D j :
  0 < D -> 0 < N / D -> 0 <= j ->
  digits (N * 2 ^ j / D) = digits (N / D) + j.
Proof.
  intros HD Hq Hj. pose proof (digits_bounds _ Hq) as [Hlo Hhi].
  assert (Hp : 0 < 2 ^ j) by (apply Z.pow_pos_nonneg; lia).
  assert (Hd : 1 <= digits (N / D)).
  { unfold digits. pose proof (Z.log2_nonneg (N / D)). lia. }
  assert (HN : 2 ^ (digits (N / D) - 1) * D <= N).
  { pose proof (Z.div_mod N D ltac:(lia)). pose proof (Z.mod_pos_bound N D HD). nia. }
  pose proof (div_lt_mul _ _ _ HD Hhi) as HN2.
  assert (Hlow : 2 ^ (digits (N / D) + j - 1) <= N * 2 ^ j / D).
  { apply Z.div_le_lower_bound; [assumption|].
    replace (digits (N / D) + j - 1) with (digits (N / D) - 1 + j) by lia.
    rewrite Z.pow_add_r by lia. nia. }
  apply digits_unique.
  - assert (0 < 2 ^ (digits (N / D) + j - 1)) by (apply Z.pow_pos_nonneg; lia). lia.
  - split; [exact Hlow|].
    apply Z.div_lt_upper_bound; [assumption|].
    rewrite Z.pow_add_r by lia. nia.
Qed.

(** The same value written with a numerator [2^j] times as large and an
    exponent less by [j]. *)
Lemma round64_rescale N D ex j :
  0 < D -> 2 ^ 52 <= N / D -> 0 <= j ->
  round64 (N * 2 ^ j) D (ex - j) = round64 N D ex.
Proof.
  intros HD Hq Hj. unfold round64. cbv zeta.
  rewrite digits_shift by (try assumption; lia).
  pose proof (digits_ge_53 _ Hq) as Hd.
  f_equal; [|lia].
  replace (digits (N / D) + j - 53) with (digits (N / D) - 53 + j) by lia.
  rewrite Z.pow_add_r by lia. rewrite Z.mul_assoc.
  apply rne_scale; [apply Z.pow_pos_nonneg; lia|].
  apply Z.mul_pos_pos; [assumption|apply Z.pow_pos_nonneg; lia].
Qed.

(** Rounding to binary64 is monotone: the values are compared at the
    smaller of the two exponents. *)
Lemma round64_mono N1 D1 e1 N2 D2 e2 :
  0 < D1 -> 0 < D2 -> 2 ^ 52 <= N1 / D1 -> 2 ^ 52 <= N2 / D2 ->
  N1 * 2 ^ (e1 - Z.min e1 e2) * D2 <= N2 * 2 ^ (e2 - Z.min e1 e2) * D1 ->
  SFleb (round64 N1 D1 e1) (round64 N2 D2 e2) = true.
Proof.
  intros H1 H2 Hq1 Hq2 H.
  set (e0 := Z.min e1 e2) in *.
  assert (Hj1 : 0 <= e1 - e0) by lia. assert (Hj2 : 0 <= e2 - e0) by lia.
  rewrite <- (round64_rescale N1 D1 e1 (e1 - e0)) by assumption.
  rewrite <- (round64_rescale N2 D2 e2 (e2 - e0)) by assumption.
  replace (e1 - (e1 - e0)) with e0 by lia.
  replace (e2 - (e2 - e0)) with e0 by lia.
  apply round64_mono_exp; try assumption.
  assert (0 < 2 ^ (e1 - e0)) by (apply Z.pow_pos_nonneg; lia).
  apply Z.div_le_lower_bound; [assumption|].
  pose proof (Z.div_mod N1 D1 ltac:(lia)). pose proof (Z.mod_pos_bound N1 D1 H1).
  nia.
Qed.

End RoundingOrder.

Module RoundingOps.
Import Rounding RoundingFacts RoundingShift RoundingAux RoundingOrder.

Lemma div_eucl_div_mod a b : Z.div_eucl a b = (a / b, a mod b).
Proof. unfold Z.div, Z.modulo. now destruct (Z.div_eucl a b). Qed.

Lemma iter_xO p n : Zpos (Pos.iter xO p n) = Zpos p * 2 ^ Zpos n.
Proof.
  induction n as [|n IH] using Pos.peano_ind.
  - cbn [Pos.iter]. lia.
  - rewrite Pos.iter_succ, Pos2Z.inj_xO, IH, Pos2Z.inj_succ, Z.pow_succ_r by lia. ring.
Qed.

(** [binary_round_aux] on an exact mantissa. *)
Lemma binary_round_aux_exact N ex :
  2 ^ 52 <= N -> -1074 <= ex -> ex + (digits N - 53) + 1 <= 971 ->
  binary_round_aux 53 1024 false N ex loc_Exact = round64 N 1 ex.
Proof.
  intros HN H1 H2.
  pose proof (binary_round_aux_round64 N 1 ex ltac:(lia) ltac:(lia)) as H.
  rewrite Z.div_1_r, rec_of_exact in H. cbn [loc_of_shr_record] in H.
  apply H; assumption.
Qed.

(** A mantissa of 53 digits is its own rounding. *)
Lemma round64_exact m e :
  2 ^ 52 <= m < 2 ^ 53 -> round64 m 1 e = S754_finite false (Z.to_pos m) e.
Proof.
  intros Hm. unfold round64. cbv zeta. rewrite Z.div_1_r.
  assert (Hd : digits m = 53) by (apply digits_unique; lia).
  rewrite Hd. change (2 ^ (53 - 53)) with 1. rewrite Z.mul_1_l, Z.add_0_r.
  unfold rne. rewrite rec_of_exact, Z.div_1_r.
  cbn [loc_of_shr_record round_nearest_even]. unfold pack.
  now replace (m =? 2 ^ 53) with false by (symmetry; apply Z.eqb_neq; lia).
Qed.

Lemma round64_exact_shift m j e :
  2 ^ 52 <= m < 2 ^ 53 -> 0 <= j ->
  round64 (m * 2 ^ j) 1 e = S754_finite false (Z.to_pos m) (e + j).
Proof.
  intros Hm Hj. rewrite <- (round64_exact m (e + j) Hm).
  rewrite <- (round64_rescale m 1 (e + j) j) by (rewrite ?Z.div_1_r; lia).
  f_equal. lia.
Qed.

(** The result of a rounding is a number of the format. *)
Lemma round64_finite N D ex :
  0 < D -> 2 ^ 52 <= N / D ->
  exists m e, round64 N D ex = S754_finite false m e /\
              2 ^ 52 <= Zpos m < 2 ^ 53 /\
              ex + (digits (N / D) - 53) <= e <= ex + (digits (N / D) - 53) + 1.
Proof.
  intros HD Hq. pose proof (rne_53 N D HD Hq) as Hr.
  unfold round64. cbv zeta. unfold pack.
  destruct (Z.eqb_spec (rne N (D * 2 ^ (digits (N / D) - 53))) (2 ^ 53)) as [E|E].
  - eexists _, _. split; [reflexivity|]. split; [cbn; lia|lia].
  - eexists _, _. split; [reflexivity|]. rewrite Z2Pos.id by lia. split; lia.
Qed.

(** *** The three operations of [percent] *)

(** An [int64] converted. *)
Lemma of_Z_round64 k :
  0 < k < 2 ^ 63 -> F64.of_Z k = round64 (k * 2 ^ 53) 1 (-53).
Proof.
  intros Hk. unfold F64.of_Z, F64.prec, F64.emax, binary_normalize.
  destruct k as [|p|p]; try lia.
  unfold binary_round, shl_align, fexp, emin. znorm.
  rewrite digits2_log2. fold (digits (Zpos p)).
  assert (Hd : 1 <= digits (Zpos p) <= 63).
  { pose proof (digits_bounds (Zpos p) ltac:(lia)) as [Hlo Hhi].
    unfold digits in *. pose proof (Z.log2_nonneg (Zpos p)).
    assert (Z.log2 (Zpos p) < 63) by (apply Z.log2_lt_pow2; lia). lia. }
  rewrite Z.add_0_r, Z.max_l, Z.sub_0_r by lia.
  destruct (digits (Zpos p) - 53) as [|d|d] eqn:Ed.
  - rewrite binary_round_aux_exact; try lia.
    + rewrite <- (round64_rescale (Zpos p) 1 0 53); rewrite ?Z.div_1_r; try lia.
      * reflexivity.
      * pose proof (digits_bounds (Zpos p) ltac:(lia)).
        replace (digits (Zpos p) - 1) with 52 in * by lia. lia.
    + pose proof (digits_bounds (Zpos p) ltac:(lia)).
      replace (digits (Zpos p) - 1) with 52 in * by lia. lia.
  - assert (Hlow : 2 ^ 52 <= Zpos p).
    { pose proof (digits_bounds (Zpos p) ltac:(lia)) as [Hlo _].
      assert (2 ^ 52 <= 2 ^ (digits (Zpos p) - 1)) by (apply Z.pow_le_mono_r; lia).
      lia. }
    rewrite binary_round_aux_exact; try lia.
    rewrite <- (round64_rescale (Zpos p) 1 0 53); rewrite ?Z.div_1_r; try lia.
    reflexivity.
  - rewrite iter_xO.
    assert (Hdig : digits (Zpos p * 2 ^ Zpos d) = 53).
    { pose proof (digits_shift (Zpos p) 1 (Zpos d) ltac:(lia)) as Hs.
      rewrite !Z.div_1_r in Hs. rewrite Hs by lia. lia. }
    assert (Hlow : 2 ^ 52 <= Zpos p * 2 ^ Zpos d).
    { pose proof (digits_bounds (Zpos p * 2 ^ Zpos d)) as Hb.
      assert (0 < 2 ^ Zpos d) by (apply Z.pow_pos_nonneg; lia).
      rewrite Hdig in Hb. apply Hb. nia. }
    rewrite binary_round_aux_exact; try lia.
    rewrite <- (round64_rescale (Zpos p * 2 ^ Zpos d) 1 (Z.neg d) (digits (Zpos p)));
      rewrite ?Z.div_1_r; try lia.
    f_equal; [|lia].
    rewrite <- Z.mul_assoc, <- Z.pow_add_r by lia. f_equal. f_equal. lia.
Qed.

(** The product of two numbers of the format. *)
Lemma mul_round64 m1 e1 m2 e2 :
  2 ^ 52 <= Zpos m1 < 2 ^ 53 -> 2 ^ 52 <= Zpos m2 < 2 ^ 53 ->
  -500 <= e1 <= 400 -> -500 <= e2 <= 400 ->
  F64.mul (S754_finite false m1 e1) (S754_finite false m2 e2) =
  round64 (Zpos m1 * Zpos m2) 1 (e1 + e2).
Proof.
  intros H1 H2 He1 He2. unfold F64.mul, F64.prec, F64.emax, SFmul. znorm.
  cbn [xorb]. rewrite Pos2Z.inj_mul.
  assert (Hlo : 2 ^ 104 <= Zpos m1 * Zpos m2) by nia.
  assert (Hhi : Zpos m1 * Zpos m2 < 2 ^ 106) by nia.
  assert (Hd : digits (Zpos m1 * Zpos m2) <= 106).
  { unfold digits.
    assert (Z.log2 (Zpos m1 * Zpos m2) < 106) by (apply Z.log2_lt_pow2; lia). lia. }
  apply binary_round_aux_exact; lia.
Qed.

(** The quotient of two numbers of the format. *)
Lemma div_round64 m1 e1 m2 e2 :
  2 ^ 52 <= Zpos m1 < 2 ^ 53 -> 2 ^ 52 <= Zpos m2 < 2 ^ 53 ->
  -400 <= e1 <= 400 -> -400 <= e2 <= 400 ->
  F64.div (S754_finite false m1 e1) (S754_finite false m2 e2) =
  round64 (Zpos m1 * 2 ^ 53) (Zpos m2) (e1 - e2 - 53).
Proof.
  intros H1 H2 He1 He2.
  unfold F64.div, F64.prec, F64.emax, SFdiv, SFdiv_core_binary, fexp, emin. znorm.
  cbn [xorb]. rewrite !Zdigits2_digits by lia.
  assert (Hd1 : digits (Zpos m1) = 53) by (apply digits_unique; lia).
  assert (Hd2 : digits (Zpos m2) = 53) by (apply digits_unique; lia).
  rewrite Hd1, Hd2.
  replace (Z.min (Z.max (53 + e1 - (53 + e2) - 53) (3 - 1024 - 53)) (e1 - e2))
    with (e1 - e2 - 53) by lia.
  replace (e1 - e2 - (e1 - e2 - 53)) with 53 by lia.
  cbv iota beta. rewrite Z.shiftl_mul_pow2 by lia.
  rewrite div_eucl_div_mod. rewrite new_location_rec_of by lia.
  assert (Hq : 2 ^ 52 <= Zpos m1 * 2 ^ 53 / Zpos m2).
  { apply Z.div_le_lower_bound; lia. }
  assert (Hq2 : Zpos m1 * 2 ^ 53 / Zpos m2 < 2 ^ 54).
  { apply Z.div_lt_upper_bound; lia. }
  assert (Hd : digits (Zpos m1 * 2 ^ 53 / Zpos m2) <= 54).
  { unfold digits.
    assert (Z.log2 (Zpos m1 * 2 ^ 53 / Zpos m2) < 54) by (apply Z.log2_lt_pow2; lia).
    lia. }
  apply binary_round_aux_round64; lia.
Qed.

End RoundingOps.

(** ** [100. * k / n] *)

Module PercentFacts.
Import Rounding RoundingFacts RoundingShift RoundingAux RoundingOrder RoundingOps.
Import Eval.

Lemma round64_normal N D ex lo hi :
  0 < D -> 2 ^ 52 <= N / D ->
  lo <= ex + (digits (N / D) - 53) -> ex + (digits (N / D) - 53) + 1 <= hi ->
  normal lo hi (round64 N D ex).
Proof.
  intros HD Hq Hlo Hhi.
  destruct (round64_finite N D ex HD Hq) as (m & e & E & Hm & He).
  exists m, e. split; [exact E|]. split; [exact Hm|lia].
Qed.

(** The order of two normal numbers is the order of their values. *)
Lemma SFleb_normal_value m1 e1 m2 e2 :
  2 ^ 52 <= Zpos m1 < 2 ^ 53 -> 2 ^ 52 <= Zpos m2 < 2 ^ 53 ->
  SFleb (S754_finite false m1 e1) (S754_finite false m2 e2) = true ->
  Zpos m1 * 2 ^ (e1 - Z.min e1 e2) <= Zpos m2 * 2 ^ (e2 - Z.min e1 e2).
Proof.
  intros H1 H2. unfold SFleb, SFcompare. znorm.
  destruct (Z.compare_spec e1 e2) as [E|E|E].
  - subst e2. rewrite Z.min_id, Z.sub_diag. change (2 ^ 0) with 1.
    change (Pos.compare_cont Eq m1 m2) with (Pos.compare m1 m2).
    destruct (Pos.compare_spec m1 m2); try discriminate; lia.
  - intros _. rewrite Z.min_l by lia. rewrite Z.sub_diag. change (2 ^ 0) with 1.
    assert (2 ^ 1 <= 2 ^ (e2 - e1)) by (apply Z.pow_le_mono_r; lia).
    change (2 ^ 1) with 2 in *. nia.
  - discriminate.
Qed.

Lemma digits_63 k : 0 < k < 2 ^ 63 -> 1 <= digits k <= 63.
Proof.
  intros Hk. unfold digits. pose proof (Z.log2_nonneg k).
  assert (Z.log2 k < 63) by (apply Z.log2_lt_pow2; lia). lia.
Qed.

Lemma digits_scaled k : 0 < k -> digits (k * 2 ^ 53 / 1) = digits k + 53.
Proof.
  intros Hk. rewrite Z.div_1_r.
  pose proof (digits_shift k 1 53 ltac:(lia)) as H.
  rewrite !Z.div_1_r in H. apply H; lia.
Qed.

Lemma of_Z_normal k : 0 < k < 2 ^ 63 -> normal (-52) 11 (F64.of_Z k).
Proof.
  intros Hk. rewrite of_Z_round64 by assumption.
  pose proof (digits_63 k Hk). 
  apply round64_normal; rewrite ?digits_scaled by lia; try lia.
  rewrite Z.div_1_r. lia.
Qed.

Lemma of_Z_mono k1 k2 :
  0 < k1 -> k1 <= k2 -> k2 < 2 ^ 63 -> SFleb (F64.of_Z k1) (F64.of_Z k2) = true.
Proof.
  intros H1 H12 H2. rewrite !of_Z_round64 by lia.
  apply round64_mono; rewrite ?Z.div_1_r; try lia.
  rewrite Z.min_id, Z.sub_diag. change (2 ^ 0) with 1. lia.
Qed.

Lemma c100_normal : 2 ^ 52 <= Zpos 7036874417766400 < 2 ^ 53.
Proof. lia. Qed.

(** Multiplying by [100.] keeps the order. *)
Lemma mul_c100_mono x1 x2 :
  normal (-52) 11 x1 -> normal (-52) 11 x2 -> SFleb x1 x2 = true ->
  SFleb (F64.mul F64.c100 x1) (F64.mul F64.c100 x2) = true /\
  normal (-46) 19 (F64.mul F64.c100 x1) /\ normal (-46) 19 (F64.mul F64.c100 x2).
Proof.
  intros (m1 & e1 & -> & Hm1 & He1) (m2 & e2 & -> & Hm2 & He2) Hle.
  pose proof (SFleb_normal_value _ _ _ _ Hm1 Hm2 Hle) as Hv.
  unfold F64.c100. pose proof c100_normal as Hc.
  rewrite !mul_round64 by lia.
  assert (B1 : 2 ^ 104 <= 7036874417766400 * Zpos m1 < 2 ^ 106) by nia.
  assert (B2 : 2 ^ 104 <= 7036874417766400 * Zpos m2 < 2 ^ 106) by nia.
  assert (D1 : 105 <= digits (7036874417766400 * Zpos m1) <= 106).
  { unfold digits.
    assert (Z.log2 (7036874417766400 * Zpos m1) < 106) by (apply Z.log2_lt_pow2; lia).
    assert (104 <= Z.log2 (7036874417766400 * Zpos m1)) by (apply Z.log2_le_pow2; lia).
    lia. }
  assert (D2 : 105 <= digits (7036874417766400 * Zpos m2) <= 106).
  { unfold digits.
    assert (Z.log2 (7036874417766400 * Zpos m2) < 106) by (apply Z.log2_lt_pow2; lia).
    assert (104 <= Z.log2 (7036874417766400 * Zpos m2)) by (apply Z.log2_le_pow2; lia).
    lia. }
  split; [|split].
  - apply round64_mono; rewrite ?Z.div_1_r; try lia.
    replace (Z.min (-46 + e1) (-46 + e2)) with (-46 + Z.min e1 e2) by lia.
    replace (-46 + e1 - (-46 + Z.min e1 e2)) with (e1 - Z.min e1 e2) by lia.
    replace (-46 + e2 - (-46 + Z.min e1 e2)) with (e2 - Z.min e1 e2) by lia.
    nia.
  - apply round64_normal; rewrite ?Z.div_1_r; lia.
  - apply round64_normal; rewrite ?Z.div_1_r; lia.
Qed.

(** Dividing by a positive number keeps the order. *)
Lemma div_mono y1 y2 z :
  normal (-46) 19 y1 -> normal (-46) 19 y2 -> normal (-52) 11 z ->
  SFleb y1 y2 = true ->
  SFleb (F64.div y1 z) (F64.div y2 z) = true.
Proof.
  intros (m1 & e1 & -> & Hm1 & He1) (m2 & e2 & -> & Hm2 & He2)
         (m & e & -> & Hm & He) Hle.
  pose proof (SFleb_normal_value _ _ _ _ Hm1 Hm2 Hle) as Hv.
  rewrite !div_round64 by lia.
  assert (Q1 : 2 ^ 52 <= Zpos m1 * 2 ^ 53 / Zpos m) by (apply Z.div_le_lower_bound; lia).
  assert (Q2 : 2 ^ 52 <= Zpos m2 * 2 ^ 53 / Zpos m) by (apply Z.div_le_lower_bound; lia).
  apply round64_mono; try lia.
  replace (Z.min (e1 - e - 53) (e2 - e - 53)) with (Z.min e1 e2 - e - 53) by lia.
  replace (e1 - e - 53 - (Z.min e1 e2 - e - 53)) with (e1 - Z.min e1 e2) by lia.
  replace (e2 - e - 53 - (Z.min e1 e2 - e - 53)) with (e2 - Z.min e1 e2) by lia.
  nia.
Qed.

Lemma div_normal y z :
  normal (-46) 19 y -> normal (-52) 11 z -> normal (-200) 200 (F64.div y z).
Proof.
  intros (m1 & e1 & -> & Hm1 & He1) (m & e & -> & Hm & He).
  rewrite div_round64 by lia.
  assert (Q1 : 2 ^ 52 <= Zpos m1 * 2 ^ 53 / Zpos m) by (apply Z.div_le_lower_bound; lia).
  assert (Q2 : Zpos m1 * 2 ^ 53 / Zpos m < 2 ^ 54) by (apply Z.div_lt_upper_bound; lia).
  pose proof (digits_ge_53 _ Q1).
  assert (digits (Zpos m1 * 2 ^ 53 / Zpos m) <= 54).
  { unfold digits.
    assert (Z.log2 (Zpos m1 * 2 ^ 53 / Zpos m) < 54) by (apply Z.log2_lt_pow2; lia).
    lia. }
  apply round64_normal; lia.
Qed.

Lemma percent_0 n : 0 < n < 2 ^ 63 -> percent 0 n = F64.zero.
Proof.
  intros Hn. unfold percent. destruct (of_Z_normal n Hn) as (m & e & -> & _).
  reflexivity.
Qed.

Lemma percent_normal k n :
  0 < k < 2 ^ 63 -> 0 < n < 2 ^ 63 -> normal (-200) 200 (percent k n).
Proof.
  intros Hk Hn. unfold percent.
  pose proof (of_Z_normal k Hk) as Nk. pose proof (of_Z_normal n Hn) as Nn.
  assert (Hrefl : SFleb (F64.of_Z k) (F64.of_Z k) = true) by (apply of_Z_mono; lia).
  destruct (mul_c100_mono _ _ Nk Nk Hrefl) as (_ & Nm & _).
  now apply div_normal.
Qed.

(** The percentage is monotone in the count. *)
Lemma percent_mono k1 k2 n :
  0 <= k1 -> k1 <= k2 -> k2 < 2 ^ 63 -> 0 < n < 2 ^ 63 ->
  F64.leb (percent k1 n) (percent k2 n) = true.
Proof.
  intros H1 H12 H2 Hn. unfold F64.leb.
  destruct (Z.eq_dec k1 0) as [->|Hk1].
  - rewrite percent_0 by assumption.
    destruct (Z.eq_dec k2 0) as [->|Hk2].
    + rewrite percent_0 by assumption. reflexivity.
    + destruct (percent_normal k2 n ltac:(lia) Hn) as (m & e & -> & _). reflexivity.
  - unfold percent.
    pose proof (of_Z_normal k1 ltac:(lia)) as N1.
    pose proof (of_Z_normal k2 ltac:(lia)) as N2.
    pose proof (of_Z_normal n Hn) as Nn.
    pose proof (of_Z_mono k1 k2 ltac:(lia) H12 H2) as Hle.
    destruct (mul_c100_mono _ _ N1 N2 Hle) as (Hm & M1 & M2).
    now apply div_mono.
Qed.

End PercentFacts.

Module PercentExact.
Import Rounding RoundingFacts RoundingShift RoundingAux RoundingOrder RoundingOps.
Import PercentFacts Eval.

Lemma round64_cancel N D c ex :
  0 < c -> 0 < D -> 2 ^ 52 <= N / D ->
  round64 (N * c) (D * c) ex = round64 N D ex.
Proof.
  intros Hc HD Hq. unfold round64. cbv zeta.
  rewrite Z.div_mul_cancel_r by lia. f_equal.
  pose proof (digits_ge_53 _ Hq) as Hs.
  replace (D * c * 2 ^ (digits (N / D) - 53))
    with (D * 2 ^ (digits (N / D) - 53) * c) by ring.
  apply rne_scale; [assumption|].
  apply Z.mul_pos_pos; [assumption|apply Z.pow_pos_nonneg; lia].
Qed.

Lemma pow2_split a b : 0 <= a -> 0 <= b -> 2 ^ (a + b) = 2 ^ a * 2 ^ b.
Proof. intros. now apply Z.pow_add_r. Qed.

Lemma norm53_bounds z : 0 < z < 2 ^ 53 -> 2 ^ 52 <= norm53 z < 2 ^ 53.
Proof.
  intros Hz. unfold norm53. pose proof (digits_bounds z ltac:(lia)) as [Hlo Hhi].
  assert (Hd : 1 <= digits z <= 53).
  { unfold digits. pose proof (Z.log2_nonneg z).
    assert (Z.log2 z < 53) by (apply Z.log2_lt_pow2; lia). lia. }
  set (d := digits z) in *.
  assert (Hp : 0 < 2 ^ (53 - d)) by (apply Z.pow_pos_nonneg; lia).
  assert (E52 : 2 ^ 52 = 2 ^ (d - 1) * 2 ^ (53 - d)).
  { rewrite <- Z.pow_add_r by lia. f_equal. lia. }
  assert (E53 : 2 ^ 53 = 2 ^ d * 2 ^ (53 - d)).
  { rewrite <- Z.pow_add_r by lia. f_equal. lia. }
  rewrite E52, E53. split; nia.
Qed.

Lemma digits_53 z : 0 < z < 2 ^ 53 -> 1 <= digits z <= 53.
Proof.
  intros Hz. unfold digits. pose proof (Z.log2_nonneg z).
  assert (Z.log2 z < 53) by (apply Z.log2_lt_pow2; lia). lia.
Qed.

(** A positive integer below [2^53] converts without rounding. *)
Lemma of_Z_exact z :
  0 < z < 2 ^ 53 ->
  F64.of_Z z = S754_finite false (Z.to_pos (norm53 z)) (digits z - 53).
Proof.
  intros Hz. rewrite of_Z_round64 by lia.
  pose proof (digits_53 z Hz) as Hd. pose proof (norm53_bounds z Hz) as Hn.
  replace (z * 2 ^ 53) with (norm53 z * 2 ^ digits z).
  - rewrite round64_exact_shift by lia. f_equal. lia.
  - unfold norm53. rewrite <- Z.mul_assoc, <- Z.pow_add_r by lia.
    do 2 f_equal. lia.
Qed.

Lemma digits_100 n :
  0 < n -> digits n <= digits (100 * n) <= digits n + 7.
Proof.
  intros Hn. split; [apply digits_mono; lia|].
  pose proof (digits_bounds n Hn) as [_ Hhi].
  assert (Hd : 1 <= digits n).
  { unfold digits. pose proof (Z.log2_nonneg n). lia. }
  unfold digits at 1.
  assert (Z.log2 (100 * n) < digits n + 7); [|lia].
  apply Z.log2_lt_pow2; [lia|].
  rewrite Z.pow_add_r by lia. change (2 ^ 7) with 128. lia.
Qed.

(** [100. * n / n] is [100.] as long as [100 * n] is below [2^53]. *)
Lemma percent_full n : 0 < n -> 100 * n < 2 ^ 53 -> percent n n = F64.c100.
Proof.
  intros Hn H100. unfold percent.
  assert (Hn53 : 0 < n < 2 ^ 53) by lia.
  assert (H100' : 0 < 100 * n < 2 ^ 53) by lia.
  pose proof (digits_53 n Hn53) as Hd. pose proof (digits_53 _ H100') as Hd'.
  pose proof (norm53_bounds n Hn53) as Bn.
  pose proof (norm53_bounds _ H100') as B100.
  pose proof (digits_100 n Hn) as Hdd.
  rewrite of_Z_exact by assumption.
  set (d := digits n) in *. set (d' := digits (100 * n)) in *.
  unfold F64.c100.
  rewrite mul_round64 by (rewrite ?Z2Pos.id by lia; lia).
  rewrite Z2Pos.id by lia.
  replace (7036874417766400 * norm53 n) with (norm53 (100 * n) * 2 ^ (46 + d' - d)).
  2:{ unfold norm53. fold d d'.
      replace 7036874417766400 with (100 * 2 ^ 46) by reflexivity.
      replace (100 * n * 2 ^ (53 - d') * 2 ^ (46 + d' - d))
        with (100 * n * (2 ^ (53 - d') * 2 ^ (46 + d' - d))) by ring.
      rewrite <- Z.pow_add_r by lia.
      replace (100 * 2 ^ 46 * (n * 2 ^ (53 - d)))
        with (100 * n * (2 ^ 46 * 2 ^ (53 - d))) by ring.
      rewrite <- Z.pow_add_r by lia. do 2 f_equal. lia. }
  rewrite round64_exact_shift by lia.
  rewrite div_round64 by (rewrite ?Z2Pos.id by lia; lia).
  rewrite !Z2Pos.id by lia.
  replace (norm53 (100 * n) * 2 ^ 53)
    with (7036874417766400 * 2 ^ (7 + d - d') * norm53 n).
  2:{ unfold norm53. fold d d'.
      replace 7036874417766400 with (100 * 2 ^ 46) by reflexivity.
      replace (100 * 2 ^ 46 * 2 ^ (7 + d - d') * (n * 2 ^ (53 - d)))
        with (100 * n * (2 ^ 46 * 2 ^ (7 + d - d') * 2 ^ (53 - d))) by ring.
      rewrite <- !Z.pow_add_r by lia.
      replace (100 * n * 2 ^ (53 - d') * 2 ^ 53)
        with (100 * n * (2 ^ (53 - d') * 2 ^ 53)) by ring.
      rewrite <- Z.pow_add_r by lia. do 2 f_equal. lia. }
  rewrite <- (Z.mul_1_l (norm53 n)) at 2.
  assert (Hp : 1 <= 2 ^ (7 + d - d')).
  { assert (0 < 2 ^ (7 + d - d')) by (apply Z.pow_pos_nonneg; lia). lia. }
  rewrite round64_cancel by (rewrite ?Z.div_1_r; nia).
  rewrite round64_exact_shift by lia.
  f_equal. lia.
Qed.

(** Beyond that bound the quotient need not be [100.]. *)
Lemma percent_full_rounded :
  percent 360287970189641 360287970189641 =
  S754_finite false 7036874417766399 (-46).
Proof. vm_compute. reflexivity. Qed.

End PercentExact.

(** ** The evaluator: thresholds and missing predictions *)

Module EvalPercent.
Import Eval EvalFacts EvalDegenerate EvalFrame PercentFacts PercentExact.

(** An error above a threshold is above every smaller threshold. *)
Lemma gtb_weaken m e1 e2 x :
  e1 < e2 ->
  F32.gtb x (S754_finite false m e2) = true ->
  F32.gtb x (S754_finite false m e1) = true.
Proof.
  intros He. unfold F32.gtb, SFltb, SFcompare. RoundingFacts.znorm.
  destruct x as [s | [|] | | [|] mx ex]; try discriminate; try reflexivity.
  destruct (Z.compare_spec e2 ex) as [E|E|E].
  - intros _. now replace (e1 ?= ex) with Lt by (symmetry; apply Z.compare_lt_iff; lia).
  - intros _. now replace (e1 ?= ex) with Lt by (symmetry; apply Z.compare_lt_iff; lia).
  - discriminate.
Qed.

Lemma count_zip_le m m' : count (zip_with andb m m') <= count m.
Proof.
  revert m'. induction m as [|b m IH]; intros [|b' m']; cbn [zip_with].
  - reflexivity.
  - reflexivity.
  - rewrite count_cons. change (count []) with 0.
    pose proof (count_nonneg m). destruct b; lia.
  - rewrite !count_cons. specialize (IH m'). destruct b, b'; cbn [andb]; lia.
Qed.

Lemma zip_all_true m m' :
  List.length m = List.length m' -> Forall (fun b => b = true) m' ->
  zip_with andb m m' = m.
Proof.
  intros Hl H. revert m Hl. induction H as [|b m' Hb _ IH]; intros [|a m] Hl;
    simpl in Hl; try discriminate; [reflexivity|].
  cbn [zip_with]. rewrite Hb, andb_true_r. f_equal. apply IH. lia.
Qed.

Section WithPercentile.

Variable percentile : list F32.t -> Z -> option F64.t.

(** Where [np.percentile] raises on the empty sample, a call that returns
    a report had a pixel with valid ground truth. *)
Lemma accepted_has_valid g o h r h' :
  (forall q, percentile [] q = None) ->
  calculate_err_measures percentile g o h = (Ok r, h') ->
  0 < n_valid (load g h).
Proof.
  intros Hp Hc.
  destruct (Z.eq_dec (n_valid (load g h)) 0) as [E|E].
  - exfalso.
    destruct (list_eq_dec Z.eq_dec (shape (load g h)) (shape (load o h))) as [Hs|Hs].
    + pose proof (calc_no_valid_ground_truth percentile g o h Hs E) as Hv.
      rewrite Hc in Hv. cbn [fst] in Hv. unfold np_percentile in Hv.
      rewrite Hp in Hv. discriminate.
    + unfold calculate_err_measures in Hc.
      destruct (shape_eqb (shape (load g h)) (shape (load o h))) eqn:Eb.
      * apply shape_eqb_true in Eb. contradiction.
      * cbn [negb] in Hc. discriminate.
  - pose proof (count_nonneg (map valid (data (load g h)))). unfold n_valid in *. lia.
Qed.

Lemma thresholds_core g o h r h' :
  calculate_err_measures percentile g o h = (Ok r, h') ->
  0 < n_valid (load g h) ->
  Z.of_nat (List.length (data (load g h))) < 2 ^ 63 ->
  F64.leb (bad1_p r) (bad05_p r) = true /\
  F64.leb (bad2_p r) (bad1_p r) = true /\
  F64.leb (bad4_p r) (bad2_p r) = true.
Proof.
  intros Hc Hn Hsz. unfold calculate_err_measures in Hc.
  destruct (negb (shape_eqb (shape (load g h)) (shape (load o h)))); [discriminate|].
  change (fun x => F32.neb x F32.inf) with valid in Hc.
  fold (n_valid (load g h)) in Hc.
  set (n := n_valid (load g h)) in *.
  set (mask := zip_with andb (map valid (data (load g h)))
                 (map valid (data (load o h)))) in *.
  match type of Hc with context [select mask ?e] => set (err := e) in * end.
  injection Hc as Hc _.
  destruct (np_percentile percentile (select mask err) 50) as [a50|]; [|discriminate].
  destruct (np_percentile percentile (select mask err) 90) as [a90|]; [|discriminate].
  destruct (np_percentile percentile (select mask err) 95) as [a95|]; [|discriminate].
  destruct (np_percentile percentile (select mask err) 99) as [a99|]; [|discriminate].
  cbn [bind] in Hc. injection Hc as <-. cbn [bad05_p bad1_p bad2_p bad4_p].
  assert (Hnle : n <= Z.of_nat (List.length (data (load g h)))).
  { unfold n, n_valid. etransitivity; [apply count_le_length|].
    rewrite length_map. lia. }
  assert (Hb : forall p, 0 <= count (zip_with andb mask (map p err)) < 2 ^ 63).
  { intros p. split; [apply count_nonneg|].
    pose proof (count_zip_le mask (map p err)).
    pose proof (count_zip_le (map valid (data (load g h)))
                  (map valid (data (load o h)))).
    fold mask in H0. fold (n_valid (load g h)) in H0. fold n in H0. lia. }
  repeat split; apply percent_mono; try apply Hb; try lia;
    apply count_mono_zip; intros x; apply gtb_weaken; lia.
Qed.

End WithPercentile.

(** C8.  For every pair of maps on which the call returns a report, where
    [np.percentile] raises on an empty sample or the ground truth has a
    valid pixel, and for arrays of a size an [int64] can hold, the
    percentages of bad pixels do not increase with the threshold:
    [bad0.5 >= bad1 >= bad2 >= bad4]. *)
Theorem threshold_monotone (percentile : list F32.t -> Z -> option F64.t)
    (gt_img oak_img : ref) (h h' : heap) (r : ErrorReport) :
  calculate_err_measures percentile gt_img oak_img h = (Ok r, h') ->
  (forall q, percentile [] q = None) \/ 0 < n_valid (load gt_img h) ->
  Z.of_nat (List.length (data (load gt_img h))) < 2 ^ 63 ->
  F64.leb (bad1_p r) (bad05_p r) = true /\
  F64.leb (bad2_p r) (bad1_p r) = true /\
  F64.leb (bad4_p r) (bad2_p r) = true.
Proof.
  intros Hc Hacc Hsz.
  assert (Hn : 0 < n_valid (load gt_img h)).
  { destruct Hacc as [Hp|Hn]; [|exact Hn].
    exact (accepted_has_valid percentile _ _ _ _ _ Hp Hc). }
  exact (thresholds_core percentile _ _ _ _ _ Hc Hn Hsz).
Qed.

Lemma threshold_monotone_witness :
  exists r h',
    calculate_err_measures percentile_raising Obj0 Obj1
      (mk_heap (map_1x2 F32.seven F32.three) (map_1x2 F32.three F32.three))
    = (Ok r, h') /\
    F64.leb (bad1_p r) (bad05_p r) = true /\
    F64.leb (bad2_p r) (bad1_p r) = true /\
    F64.leb (bad4_p r) (bad2_p r) = true.
Proof.
  eexists. eexists. split; [vm_compute; reflexivity|].
  eapply (threshold_monotone percentile_raising Obj0 Obj1
            (mk_heap (map_1x2 F32.seven F32.three) (map_1x2 F32.three F32.three))).
  - vm_compute. reflexivity.
  - left. intros q. reflexivity.
  - reflexivity.
Defined.

(** *** Nothing computed *)

Lemma all_inf_mask (O : list F32.t) :
  Forall (fun x => x = F32.inf) O ->
  Forall (fun b => b = false) (map (fun x => F32.neb x F32.inf) O).
Proof. induction 1 as [|x O Hx _ IH]; constructor; [now rewrite Hx|assumption]. Qed.

Lemma all_false_negb m :
  Forall (fun b => b = false) m -> Forall (fun b => b = true) (map negb m).
Proof. induction 1 as [|b m Hb _ IH]; constructor; [now rewrite Hb|assumption]. Qed.

Lemma avg_of_nothing_n n :
  F64.div (F64.of_f32 (np_sum [])) (F64.of_Z (n - n)) = F64.nan.
Proof. rewrite Z.sub_diag. reflexivity. Qed.

(** C3, as the code has it.  When the computed map holds [+inf]
    everywhere and the ground truth has [n >= 1] valid pixels, with
    [100 * n] below [2^53], the percentages evaluate to [invalid = 100],
    [total_bad_t = 100] and [bad_t = 0] for the four thresholds, both
    averages to [nan], and the error sample is empty: the outcome is that
    of [np.percentile] on the empty sample, its [IndexError] where it
    raises and otherwise the report with these values. *)
Theorem all_invalid_computed (percentile : list F32.t -> Z -> option F64.t)
    (gt_img oak_img : ref) (h : heap) :
  shape (load gt_img h) = shape (load oak_img h) ->
  wf (load gt_img h) -> wf (load oak_img h) ->
  Forall (fun x => x = F32.inf) (data (load oak_img h)) ->
  0 < n_valid (load gt_img h) ->
  100 * n_valid (load gt_img h) < 2 ^ 53 ->
  fst (calculate_err_measures percentile gt_img oak_img h) =
  (a50 <- np_percentile percentile [] 50 ;;
   a90 <- np_percentile percentile [] 90 ;;
   a95 <- np_percentile percentile [] 95 ;;
   a99 <- np_percentile percentile [] 99 ;;
   Ok (all_invalid_report a50 a90 a95 a99)).
Proof.
  intros Hs Hg Ho Hinf Hn H100.
  pose proof (same_length _ _ Hs Hg Ho) as Hlen.
  unfold calculate_err_measures.
  apply shape_eqb_true in Hs. rewrite Hs. cbn [negb fst].
  pose proof (all_inf_mask _ Hinf) as Hom.
  change (fun x => F32.neb x F32.inf) with valid in *.
  fold (n_valid (load gt_img h)).
  set (n := n_valid (load gt_img h)) in *.
  set (gm := map valid (data (load gt_img h))) in *.
  set (om := map valid (data (load oak_img h))) in *.
  assert (Hm : Forall (fun b => b = false) (zip_with andb gm om))
    by now apply all_false_zip_r.
  set (mask := zip_with andb gm om) in *.
  match goal with |- context [select mask ?e] => set (err := e) end.
  rewrite (all_false_select mask err Hm).
  rewrite !(all_false_count _ (all_false_zip_l mask _ Hm)).
  rewrite (zip_all_true gm (map negb om))
    by (try (apply all_false_negb; assumption); unfold gm, om; rewrite !length_map; congruence).
  change (count gm) with n. cbn [map Z.add].
  rewrite avg_of_nothing_n.
  rewrite percent_0 by lia. rewrite percent_full by lia.
  reflexivity.
Qed.

Lemma all_invalid_computed_witness :
  fst (calculate_err_measures percentile_nan Obj0 Obj1
         (mk_heap (map_1x2 F32.seven F32.inf) (map_1x2 F32.inf F32.inf))) =
  Ok (all_invalid_report F64.nan F64.nan F64.nan F64.nan).
Proof.
  apply (all_invalid_computed percentile_nan Obj0 Obj1
           (mk_heap (map_1x2 F32.seven F32.inf) (map_1x2 F32.inf F32.inf))
           eq_refl eq_refl eq_refl).
  - repeat constructor.
  - reflexivity.
  - reflexivity.
Defined.

(** C3 fails as stated.  On a ground truth with one valid pixel and
    nothing computed, a call under an [np.percentile] that raises on the
    empty sample returns no report; and where a report is returned, the
    quotient [100. * n / n] is not [100.] for every [n]. *)
Lemma all_invalid_computed_counterexample :
  let h := mk_heap (map_1x2 F32.seven F32.inf) (map_1x2 F32.inf F32.inf) in
  n_valid (obj0 h) = 1 /\
  Forall (fun x => x = F32.inf) (data (obj1 h)) /\
  fst (calculate_err_measures percentile_raising Obj0 Obj1 h) = Raise IndexError /\
  (forall r, fst (calculate_err_measures percentile_raising Obj0 Obj1 h) <> Ok r) /\
  percent 360287970189641 360287970189641 <> F64.c100.
Proof.
  cbv zeta. split; [reflexivity|]. split; [repeat constructor|].
  split; [reflexivity|]. split; [intros r; vm_compute; discriminate|].
  rewrite percent_full_rounded. discriminate.
Qed.

End EvalPercent.

(** ** [DatasetManager]: construction and walks *)

Module DatasetWalkSpec.
Import DatasetManager DatasetManagerSpec DatasetWalk.

(** X1.  [DatasetManager(path)] raises [RuntimeError("No dataset found at
    <path>")] exactly when the directory has no sub-directory.  Otherwise
    the instance starts at index 0, its names are the sub-directories in
    listing order with plain files left out, and [get()] returns the path
    of the first sub-directory. *)
Theorem init_outcome (p : string) (d : directory) :
  (subdirs d = 0 <->
   init p d = Raise (RuntimeError ("No dataset found at " ++ p)%string)) /\
  (1 <= subdirs d <->
   exists dm first,
     init p d = Ok dm /\ index dm = 0 /\ path dm = p /\
     names dm = map fst (filter snd d) /\
     hd_error (map fst (filter snd d)) = Some first /\
     get dm = Ok (path_join p first) /\ get_name dm = Ok first).
Proof.
  pose proof (subdirs_names d) as Hk. unfold init.
  destruct (map fst (filter snd d)) as [|first ns] eqn:E; cbn [List.length Nat.eqb].
  - cbn [List.length] in Hk. split.
    + split; [reflexivity|intros _; lia].
    + split; [lia|]. intros (dm & first & H & _). discriminate.
  - cbn [List.length] in Hk. rewrite Nat2Z.inj_succ in Hk. split.
    + split; [lia|discriminate].
    + split; [|lia]. intros _. exists (mk p 0 (first :: ns)), first.
      repeat split; reflexivity.
Qed.

Lemma inv_nexts p d dm i : inv p d dm -> inv p d (nexts i dm).
Proof.
  intros H. induction i as [|i IH]; [exact H|].
  unfold nexts. rewrite Nat.iter_succ. now apply inv_next.
Qed.

Lemma inv_prevs p d dm i : inv p d dm -> inv p d (prevs i dm).
Proof.
  intros H. induction i as [|i IH]; [exact H|].
  unfold prevs. rewrite Nat.iter_succ. now apply inv_prev.
Qed.

Lemma index_nexts p d dm i :
  inv p d dm -> index (nexts i dm) = (index dm + Z.of_nat i) mod subdirs d.
Proof.
  intros H. induction i as [|i IH].
  - cbn [nexts Nat.iter]. destruct H as (_ & _ & Hk & Hi).
    rewrite Z.add_0_r. symmetry. apply Z.mod_small. exact Hi.
  - unfold nexts in *. rewrite Nat.iter_succ.
    pose proof (inv_nexts p d dm i H) as Hinv. unfold nexts in Hinv.
    destruct (next_index p d _ Hinv) as (Hn & _ & _). rewrite Hn, IH.
    destruct H as (_ & _ & Hk & Hi).
    pose proof (Z.mod_pos_bound (index dm + Z.of_nat i) (subdirs d) ltac:(lia)) as Hb.
    rewrite Nat2Z.inj_succ.
    replace (index dm + Z.succ (Z.of_nat i)) with (index dm + Z.of_nat i + 1) by lia.
    rewrite <- (Zplus_mod_idemp_l (index dm + Z.of_nat i) 1).
    destruct ((index dm + Z.of_nat i) mod subdirs d =? subdirs d - 1) eqn:E.
    + apply Z.eqb_eq in E. rewrite E.
      replace (subdirs d - 1 + 1) with (subdirs d) by lia.
      now rewrite Z_mod_same_full.
    + apply Z.eqb_neq in E. symmetry. apply Z.mod_small. lia.
Qed.

Lemma index_prevs p d dm i :
  inv p d dm -> index (prevs i dm) = (index dm - Z.of_nat i) mod subdirs d.
Proof.
  intros H. induction i as [|i IH].
  - cbn [prevs Nat.iter]. destruct H as (_ & _ & Hk & Hi).
    rewrite Z.sub_0_r. symmetry. apply Z.mod_small. exact Hi.
  - unfold prevs in *. rewrite Nat.iter_succ.
    pose proof (inv_prevs p d dm i H) as Hinv. unfold prevs in Hinv.
    destruct (prev_index p d _ Hinv) as (Hn & _ & _). rewrite Hn, IH.
    destruct H as (_ & _ & Hk & Hi).
    pose proof (Z.mod_pos_bound (index dm - Z.of_nat i) (subdirs d) ltac:(lia)) as Hb.
    rewrite Nat2Z.inj_succ.
    replace (index dm - Z.succ (Z.of_nat i)) with (index dm - Z.of_nat i - 1) by lia.
    rewrite <- (Zminus_mod_idemp_l (index dm - Z.of_nat i) 1).
    destruct ((index dm - Z.of_nat i) mod subdirs d =? 0) eqn:E.
    + apply Z.eqb_eq in E. rewrite E.
      replace (0 - 1) with (subdirs d - 1 + (-1) * subdirs d) by lia.
      rewrite Z.mod_add by lia. symmetry. apply Z.mod_small. lia.
    + apply Z.eqb_neq in E. symmetry. apply Z.mod_small. lia.
Qed.

Lemma same_instance p d dm dm' :
  inv p d dm -> inv p d dm' -> index dm = index dm' -> dm = dm'.
Proof.
  intros (Hp & Hn & _) (Hp' & Hn' & _) Hi.
  destruct dm, dm'; cbn [path names index] in *. congruence.
Qed.

(** X2.  On an instance over [k >= 1] datasets, [i] calls of [next] leave
    the index at [(index + i) mod k] and [i] calls of [prev] at
    [(index - i) mod k]; [k] calls of either bring the instance back to
    where it was, and every dataset is the current one after fewer than
    [k] calls of [next]. *)
Theorem walk_indices (p : string) (d : directory) (dm : t) :
  reachable p d dm ->
  let k := subdirs d in
  (forall i, index (nexts i dm) = (index dm + Z.of_nat i) mod k) /\
  (forall i, index (prevs i dm) = (index dm - Z.of_nat i) mod k) /\
  nexts (Z.to_nat k) dm = dm /\
  prevs (Z.to_nat k) dm = dm /\
  (forall j, 0 <= j < k ->
     exists i name, (i < Z.to_nat k)%nat /\ index (nexts i dm) = j /\
       nth_error (names dm) (Z.to_nat j) = Some name /\
       get_name (nexts i dm) = Ok name).
Proof.
  intros Hr k. pose proof (reachable_inv _ _ _ Hr) as Hinv.
  pose proof Hinv as (Hp & Hn & Hk & Hi). fold k in Hk, Hi.
  split; [intros i; now apply (index_nexts p d)|].
  split; [intros i; now apply (index_prevs p d)|].
  split.
  { apply (same_instance p d); [now apply inv_nexts|assumption|].
    rewrite (index_nexts p d) by assumption. rewrite Z2Nat.id by lia. fold k.
    rewrite <- (Z.mul_1_l k) at 1. rewrite Z.mod_add by lia.
    apply Z.mod_small. exact Hi. }
  split.
  { apply (same_instance p d); [now apply inv_prevs|assumption|].
    rewrite (index_prevs p d) by assumption. rewrite Z2Nat.id by lia. fold k.
    replace (index dm - k) with (index dm + (-1) * k) by lia.
    rewrite Z.mod_add by lia. apply Z.mod_small. exact Hi. }
  intros j Hj.
  set (i := Z.to_nat ((j - index dm) mod k)).
  pose proof (Z.mod_pos_bound (j - index dm) k ltac:(lia)) as Hb.
  assert (Hidx : index (nexts i dm) = j).
  { rewrite (index_nexts p d) by assumption. unfold i. rewrite Z2Nat.id by lia.
    fold k. rewrite Zplus_mod_idemp_r.
    replace (index dm + (j - index dm)) with j by lia. now apply Z.mod_small. }
  pose proof (inv_nexts p d dm i Hinv) as Hinv'.
  destruct Hinv' as (Hp' & Hn' & _ & Hi').
  destruct (py_index_in_range (names (nexts i dm)) (index (nexts i dm))) as (a & Ha & Hnth).
  { rewrite Hn', subdirs_names. exact Hi'. }
  exists i, a. split; [unfold i; lia|]. split; [exact Hidx|].
  split.
  - rewrite Hn. rewrite Hn', Hidx in Hnth. exact Hnth.
  - exact Ha.
Qed.

Lemma walk_indices_witness :
  let dm := mk "data" 0 (map fst (filter snd sample_dir)) in
  index (nexts 2 dm) = 2 /\ index (prevs 1 dm) = 2 /\ nexts 3 dm = dm.
Proof.
  set (dm0 := mk "data" 0 (map fst (filter snd sample_dir))).
  assert (R0 : reachable "data" sample_dir dm0) by (apply reach_init; reflexivity).
  pose proof (walk_indices "data" sample_dir dm0 R0) as H.
  cbv zeta in H. destruct H as (Hn & Hp & Hk & _).
  split; [exact (Hn 2%nat)|]. split; [exact (Hp 1%nat)|]. exact Hk.
Defined.

End DatasetWalkSpec.

(** ** The loader: its failures and the size of the payload *)

Module PfmErrors.
Import Pfm PfmFacts PfmDims PfmPayload.

Lemma header_lines_total c : exists l1 l2 l3 p, header_lines c = (l1, l2, l3, p).
Proof.
  unfold header_lines. destruct (split_line c) as [l1 r1].
  destruct (split_line r1) as [l2 r2]. destruct (split_line r2) as [l3 p].
  now exists l1, l2, l3, p.
Qed.

(** What can go wrong once the magic token is accepted: the decoding of
    the second line, the search for the pair, [int], [float] and
    [np.reshape]. *)
Lemma after_magic_errors (py_float : list byte -> option F64.t)
    (color : bool) (l2 l3 p : list byte) (e : exn) :
  (s2 <- decode_ascii l2 ;;
   dims <- match search (list_ascii_of_string s2) with
           | Some (g1, g2) =>
               width <- py_int g1 ;; height <- py_int g2 ;; Ok (width, height)
           | None => Raise (Exception "Malformed PFM header.")
           end ;;
   scale <- match py_float (rstrip l3) with
            | Some x => Ok x
            | None => Raise ValueError
            end ;;
   a <- reshape (fromfile (if F64.ltb scale F64.zero then Little else Big) p)
          (if color then [snd dims; fst dims; 3] else [snd dims; fst dims]) ;;
   Ok (flip0 a, if F64.ltb scale F64.zero then F64.opp scale else scale)) = Raise e ->
  e = UnicodeDecodeError \/ e = Exception "Malformed PFM header." \/ e = ValueError.
Proof.
  destruct (decode_ascii l2) as [s2|e2] eqn:E2; cbn [bind].
  2:{ intros H. inversion H; subst. left. now apply (decode_ascii_error _ _ E2). }
  destruct (search (list_ascii_of_string s2)) as [[g1 g2]|]; cbn [bind].
  2:{ intros H. inversion H. right. now left. }
  destruct (py_int g1) as [width|e1] eqn:E1; cbn [bind].
  2:{ intros H. inversion H; subst. right. right. now apply (py_int_error _ _ E1). }
  destruct (py_int g2) as [height|e1] eqn:E3; cbn [bind].
  2:{ intros H. inversion H; subst. right. right. now apply (py_int_error _ _ E3). }
  destruct (py_float (rstrip l3)) as [x|]; cbn [bind].
  2:{ intros H. inversion H. right. now right. }
  match goal with
  | |- context [reshape ?dd ?sh] => destruct (reshape dd sh) as [a|e1] eqn:Er
  end; cbn [bind]; [discriminate|].
  intros H. inversion H; subst. right. right. now apply (reshape_error _ _ _ Er).
Qed.

(** X3.  [read_pfm] never changes a file.  Where [open] fails, the call
    fails with the error of [open] ([FileNotFoundError] for a name that
    does not exist, otherwise what the system answers for the name: a
    directory, a file that may not be read) and no descriptor is opened.
    On a file that opens, the call fails in four ways only:
    [UnicodeDecodeError], [Exception("Not a PFM file.")],
    [Exception("Malformed PFM header.")] and [ValueError]. *)
Theorem read_pfm_failures (py_float : list byte -> option F64.t)
    (name : string) (w : world) :
  files (snd (read_pfm py_float name w)) = files w /\
  (lookup name (files w) = None ->
     read_pfm py_float name w = (Raise (open_error name w), w) /\
     (lookup_error name (refused w) = None -> open_error name w = FileNotFoundError) /\
     (forall e, lookup_error name (refused w) = Some e -> open_error name w = e)) /\
  (forall c e, lookup name (files w) = Some c ->
     fst (read_pfm py_float name w) = Raise e ->
     e = UnicodeDecodeError \/ e = Exception "Not a PFM file." \/
     e = Exception "Malformed PFM header." \/ e = ValueError).
Proof.
  split; [|split].
  - destruct (lookup name (files w)) as [c|] eqn:Hl.
    + rewrite (read_pfm_world py_float name w c Hl).
      destruct (fst (read_pfm py_float name w)); reflexivity.
    + now rewrite (read_pfm_missing py_float name w Hl).
  - intros Hl. split; [exact (read_pfm_missing py_float name w Hl)|].
    unfold open_error. split; [intros ->; reflexivity|intros e ->; reflexivity].
  - intros c e Hl.
    destruct (header_lines_total c) as (l1 & l2 & l3 & p & Hh).
    rewrite (read_pfm_value py_float name w c l1 l2 l3 p Hl Hh).
    destruct (decode_ascii (rstrip l1)) as [h|e1] eqn:E1; cbn [bind].
    { destruct (String.eqb h "PF"); [|destruct (String.eqb h "Pf")]; cbn [bind].
      - intros H. apply (after_magic_errors py_float true) in H.
        destruct H as [H|[H|H]]; auto.
      - intros H. apply (after_magic_errors py_float false) in H.
        destruct H as [H|[H|H]]; auto.
      - intros H. inversion H. right. left. reflexivity. }
    intros H. inversion H; subst. left. now apply (decode_ascii_error _ _ E1).
Qed.

(** A directory under the name asked for: the call fails as [open] does
    and opens nothing. *)
Lemma read_pfm_failures_witness :
  let w := mk_world [] [("disp1.pfm"%string, IsADirectoryError)] [] 3 in
  read_pfm sample_float "disp1.pfm" w = (Raise IsADirectoryError, w).
Proof.
  intros w.
  exact (proj1 (proj1 (proj2 (read_pfm_failures sample_float "disp1.pfm" w)) eq_refl)).
Defined.

(** X4.  On an existing file whose first line, stripped of trailing white
    space, is ASCII text [h], the load fails with [Exception("Not a PFM
    file.")] exactly when [h] is neither [PF] nor [Pf]; an empty file is
    such a file. *)
Theorem magic_token (py_float : list byte -> option F64.t)
    (name : string) (w : world) (c l1 l2 l3 p : list byte) (h : string) :
  lookup name (files w) = Some c ->
  header_lines c = (l1, l2, l3, p) ->
  decode_ascii (rstrip l1) = Ok h ->
  (fst (read_pfm py_float name w) = Raise (Exception "Not a PFM file.") <->
   h <> "PF"%string /\ h <> "Pf"%string) /\
  (c = [] -> fst (read_pfm py_float name w) = Raise (Exception "Not a PFM file.")).
Proof.
  intros Hl Hh Hd.
  rewrite (read_pfm_value py_float name w c l1 l2 l3 p Hl Hh), Hd. cbn [bind].
  split.
  - destruct (String.eqb_spec h "PF") as [E1|E1];
      [|destruct (String.eqb_spec h "Pf") as [E2|E2]]; cbn [bind].
    + split; [|intros [H _]; contradiction].
      intros H. apply (after_magic_errors py_float true) in H.
      destruct H as [H|[H|H]]; discriminate.
    + split; [|intros [_ H]; contradiction].
      intros H. apply (after_magic_errors py_float false) in H.
      destruct H as [H|[H|H]]; discriminate.
    + split; [intros _; now split|reflexivity].
  - intros ->. cbn in Hh. inversion Hh; subst. cbn in Hd. inversion Hd; subst.
    reflexivity.
Qed.

Lemma magic_token_witness :
  fst (read_pfm sample_float "disp1.pfm" (one_file pfm_bad_magic)) =
  Raise (Exception "Not a PFM file.").
Proof.
  destruct (magic_token sample_float "disp1.pfm" (one_file pfm_bad_magic)
              pfm_bad_magic (line "P5") (line "2 2") (line "1.0") [] "P5"
              eq_refl eq_refl eq_refl) as [H _].
  apply H. split; discriminate.
Defined.

(** *** The number of items *)

Lemma concat_length_uniform {A} len (X : list (list A)) :
  Forall (fun r => List.length r = len) X ->
  List.length (List.concat X) = (List.length X * len)%nat.
Proof.
  induction 1 as [|r X Hr _ IH]; [reflexivity|].
  cbn [List.concat List.length]. rewrite length_app, IH, Hr. lia.
Qed.

(** X5.  On a file whose header lines are accepted, whose two digit runs
    write a positive width and a positive height, and whose payload has a
    length a file can have: the load returns an array exactly when [int]
    converts both runs (neither is longer than the interpreter's limit)
    and the payload holds as many complete 4-byte items as the shape has
    elements, that is when its length divided by four, rounded down, is
    the product of the dimensions: up to three stray bytes after the last
    item are ignored.  In every other case (a run too long, a dimension
    beyond what numpy takes, a payload shorter or longer) the load fails
    with [ValueError]. *)
Theorem payload_size (py_float : list byte -> option F64.t)
    (name : string) (w : world) (c l1 l2 l3 p : list byte) (h s2 : string)
    (g1 g2 : list ascii) (x : F64.t) :
  lookup name (files w) = Some c ->
  header_lines c = (l1, l2, l3, p) ->
  decode_ascii (rstrip l1) = Ok h ->
  h = "PF"%string \/ h = "Pf"%string ->
  decode_ascii l2 = Ok s2 ->
  search (list_ascii_of_string s2) = Some (g1, g2) ->
  py_float (rstrip l3) = Some x ->
  let W := int_of_digits g1 in
  let H := int_of_digits g2 in
  0 < W ->
  0 < H ->
  Z.of_nat (List.length p) <= intp_max ->
  let sh := if String.eqb h "PF" then [H; W; 3] else [H; W] in
  let items := Z.of_nat (List.length p / 4) in
  let fits :=
    Z.of_nat (List.length g1) <= int_max_str_digits /\
    Z.of_nat (List.length g2) <= int_max_str_digits /\
    items = size_of sh in
  (fits ->
   exists a sc, fst (read_pfm py_float name w) = Ok (a, sc) /\
                shape a = sh /\ Z.of_nat (List.length (data a)) = items) /\
  (~ fits -> fst (read_pfm py_float name w) = Raise ValueError).
Proof.
  intros Hl Hh Hd1 Hmagic Hd2 Hs Hx W H HW HH Hfile sh items fits.
  rewrite (read_pfm_value py_float name w c l1 l2 l3 p Hl Hh), Hd1. cbn [bind].
  assert (Hcolor : (if String.eqb h "PF" then Ok true
                    else if String.eqb h "Pf" then Ok false
                    else Raise (Exception "Not a PFM file."))
                   = Ok (String.eqb h "PF")).
  { destruct Hmagic as [-> | ->]; reflexivity. }
  rewrite Hcolor, Hd2. cbn [bind]. rewrite Hs, Hx.
  destruct (Z.le_gt_cases (Z.of_nat (List.length g1)) int_max_str_digits) as [L1|L1].
  2:{ rewrite (py_int_long g1) by lia. cbn [bind].
      split; [intros (A & _); lia|reflexivity]. }
  destruct (Z.le_gt_cases (Z.of_nat (List.length g2)) int_max_str_digits) as [L2|L2].
  2:{ rewrite (py_int_short g1 L1), (py_int_long g2) by lia. cbn [bind].
      split; [intros (_ & A & _); lia|reflexivity]. }
  rewrite (py_int_short g1 L1), (py_int_short g2 L2). cbn [bind fst snd]. fold W H.
  set (dd := fromfile (if F64.ltb x F64.zero then Little else Big) p).
  assert (Hlen : Z.of_nat (List.length dd) = items).
  { unfold dd. now rewrite fromfile_length. }
  assert (Hfit : itemsize * Z.of_nat (List.length dd) <= intp_max).
  { rewrite Hlen. unfold items, itemsize.
    pose proof (Nat.Div0.mul_div_le (List.length p) 4). lia. }
  rewrite (reshape_pfm (String.eqb h "PF") W H dd HW HH Hfit).
  assert (Hsh : (if String.eqb h "PF" : bool then [H; W; 3] else [H; W]) = sh)
    by reflexivity.
  rewrite Hsh, Hlen.
  destruct (Z.eqb_spec (size_of sh) items) as [E|E]; cbn [bind].
  2:{ split; [intros (_ & _ & A); congruence|reflexivity]. }
  split; [intros _|intros A; exfalso; apply A; repeat split; auto].
  eexists _, _. split; [reflexivity|]. rewrite shape_flip0. cbn [shape].
  split; [reflexivity|].
  unfold flip0. cbn [shape data].
  destruct sh as [|hd tl] eqn:Esh; cbn [data]; [exact Hlen|].
  assert (Hnn : 0 <= hd /\ 0 <= size_of tl).
  { subst sh. destruct (String.eqb h "PF"); inversion Esh; subst;
      unfold size_of; cbn [fold_right]; lia. }
  assert (Hmul : (Z.to_nat hd * Z.to_nat (size_of tl))%nat = List.length dd).
  { apply Nat2Z.inj. rewrite Nat2Z.inj_mul, !Z2Nat.id by lia.
    rewrite Hlen, <- E. reflexivity. }
  rewrite (concat_length_uniform (Z.to_nat (size_of tl))).
  - rewrite length_rev, chunks_length, Hmul. exact Hlen.
  - apply Forall_rev. apply chunks_all_length. lia.
Qed.

Lemma payload_size_witness :
  fst (read_pfm sample_float "disp1.pfm"
         (one_file (pfm_be ++ [x00; x01; x02]))) =
  fst (read_pfm sample_float "disp1.pfm" (one_file pfm_be)) /\
  fst (read_pfm sample_float "disp1.pfm"
         (one_file (pfm_be ++ [x00; x01; x02; x03]))) = Raise ValueError.
Proof.
  split; [reflexivity|].
  assert (Hdim : 0 < int_of_digits (list_ascii_of_string "2")) by reflexivity.
  assert (Hfile : Z.of_nat
                    (List.length (payload Big [bits_7; bits_7; bits_3; bits_3]
                                  ++ [x00; x01; x02; x03])) <= intp_max)
    by (vm_compute; discriminate).
  destruct (payload_size sample_float "disp1.pfm"
              (one_file (pfm_be ++ [x00; x01; x02; x03]))
              (pfm_be ++ [x00; x01; x02; x03]) (line "Pf") (line "2 2") (line "1.0")
              (payload Big [bits_7; bits_7; bits_3; bits_3] ++ [x00; x01; x02; x03]) "Pf"
              (string_of_list_byte (line "2 2"))
              (list_ascii_of_string "2") (list_ascii_of_string "2")
              (S754_finite false 4503599627370496 (-52))
              eq_refl eq_refl eq_refl (or_intror eq_refl) eq_refl eq_refl eq_refl
              Hdim Hdim Hfile)
    as [_ H].
  apply H. intros (_ & _ & A). vm_compute in A. discriminate.
Defined.

End PfmErrors.

(** ** The evaluator: a second call, equal maps, and the range of the
    percentages *)

Module EvalMoreSpec.
Import Eval EvalFacts EvalFrame EvalPercent PercentFacts PercentExact EvalMore.

Lemma gt_after_valid_out g : valid (gt_after g) = true.
Proof. unfold gt_after. destruct (valid g) eqn:E; [exact E|reflexivity]. Qed.

Lemma oak_after_valid_out g o : valid (oak_after g o) = true.
Proof.
  unfold oak_after. destruct (valid g); cbn [andb]; [|reflexivity].
  destruct (valid o) eqn:E; [exact E|reflexivity].
Qed.

Lemma count_all_valid l :
  Forall (fun x => valid x = true) l -> count (map valid l) = Z.of_nat (List.length l).
Proof.
  induction 1 as [|x l Hx _ IH]; [reflexivity|].
  cbn [map List.length]. rewrite count_cons, Hx, IH, Nat2Z.inj_succ. lia.
Qed.

Lemma Forall_zip_with {A B C} (f : A -> B -> C) (P : C -> Prop) l1 l2 :
  (forall x y, P (f x y)) -> Forall P (zip_with f l1 l2).
Proof.
  intros H. revert l2. induction l1 as [|x l1 IH]; intros [|y l2];
    cbn [zip_with]; constructor; auto.
Qed.

(** X6.  After a call on two well-formed maps of one shape neither array
    holds [+inf] any more: the positions that were invalid now hold [0.0]
    and count as valid.  A second call on the same arrays therefore sees
    every pixel of the ground truth as valid, [n] being the number of
    pixels, whatever [n] was at the first call. *)
Theorem no_inf_after (percentile : list F32.t -> Z -> option F64.t)
    (gt_img oak_img : ref) (h : heap) :
  shape (load gt_img h) = shape (load oak_img h) ->
  wf (load gt_img h) -> wf (load oak_img h) ->
  let h' := snd (calculate_err_measures percentile gt_img oak_img h) in
  Forall (fun x => x <> F32.inf) (data (load gt_img h')) /\
  Forall (fun x => x <> F32.inf) (data (load oak_img h')) /\
  n_valid (load gt_img h') = Z.of_nat (List.length (data (load gt_img h))) /\
  n_valid (load gt_img h) <= n_valid (load gt_img h') /\
  wf (load gt_img h') /\ wf (load oak_img h').
Proof.
  intros Hs Hg Ho h'.
  destruct (calc_heap percentile _ _ _ Hs Hg Ho) as (Eg & Eo & _).
  fold h' in Eg, Eo. rewrite Eg, Eo. cbn [data].
  pose proof (same_length _ _ Hs Hg Ho) as Hlen.
  assert (Vg : Forall (fun x => valid x = true) (map gt_after (data (load gt_img h)))).
  { apply Forall_map. apply Forall_forall. intros x _. apply gt_after_valid_out. }
  split.
  { eapply Forall_impl; [|exact Vg]. intros x Hx. now apply valid_true_iff. }
  split.
  { apply Forall_zip_with. intros x y. apply valid_true_iff, oak_after_valid_out. }
  split.
  { unfold n_valid. cbn [data]. rewrite (count_all_valid _ Vg).
    now rewrite length_map. }
  split.
  { unfold n_valid. cbn [data]. rewrite (count_all_valid _ Vg).
    rewrite length_map. etransitivity; [apply count_le_length|].
    rewrite length_map. lia. }
  unfold wf in *. cbn [data shape]. rewrite length_map, zip_with_length by exact Hlen.
  split; [exact Hg|]. rewrite Hlen. exact Ho.
Qed.

Lemma no_inf_after_witness :
  let h := mk_heap (map_1x2 F32.seven F32.inf) (map_1x2 F32.inf F32.three) in
  let h' := snd (calculate_err_measures percentile_raising Obj0 Obj1 h) in
  n_valid (obj0 h) = 1 /\ n_valid (obj0 h') = 2.
Proof.
  intros h h'. split; [reflexivity|].
  pose proof (no_inf_after percentile_raising Obj0 Obj1 h eq_refl eq_refl eq_refl)
    as (_ & _ & H & _).
  exact H.
Defined.

(** *** Equal maps *)

Lemma number_valid x : is_number x = true -> valid x = true.
Proof. destruct x as [s|s| |s m e]; try discriminate; reflexivity. Qed.

Lemma sub_self x : is_number x = true -> F32.abs (F32.sub x x) = F32.zero.
Proof.
  destruct x as [[|]|s| |s m e]; try discriminate; intros _; try reflexivity.
  unfold F32.sub, SFsub. RoundingFacts.znorm. rewrite Z.min_id.
  rewrite Z.sub_diag. reflexivity.
Qed.

Lemma zip_with_maps {A B C D} (f : B -> C -> D) (a : A -> B) (b : A -> C) l :
  zip_with f (map a l) (map b l) = map (fun x => f (a x) (b x)) l.
Proof. induction l as [|x l IH]; cbn [map zip_with]; congruence. Qed.

Lemma map_ext_Forall {A B} (f g : A -> B) (P : A -> Prop) l :
  Forall P l -> (forall x, P x -> f x = g x) -> map f l = map g l.
Proof.
  intros H Hfg. induction H as [|x l Hx _ IH]; cbn [map]; [reflexivity|].
  now rewrite (Hfg x Hx), IH.
Qed.

Lemma count_const_true {A} (l : list A) :
  count (map (fun _ => true) l) = Z.of_nat (List.length l).
Proof.
  induction l as [|x l IH]; [reflexivity|].
  cbn [map List.length]. rewrite count_cons, IH, Nat2Z.inj_succ. lia.
Qed.

Lemma count_const_false {A} (l : list A) : count (map (fun _ => false) l) = 0.
Proof.
  induction l as [|x l IH]; [reflexivity|]. cbn [map]. now rewrite count_cons, IH.
Qed.

Lemma select_const_true {A} (f : A -> F32.t) (l : list A) :
  select (map (fun _ => true) l) (map f l) = map f l.
Proof. induction l as [|x l IH]; cbn [map select]; congruence. Qed.

Lemma np_sum_zeros_acc n : fold_left F32.add (repeat F32.zero n) F32.zero = F32.zero.
Proof. induction n as [|n IH]; [reflexivity|]. cbn [repeat fold_left]. exact IH. Qed.

Lemma div_zero_of_Z n : 0 < n < 2 ^ 63 -> F64.div F64.zero (F64.of_Z n) = F64.zero.
Proof. intros Hn. destruct (of_Z_normal n Hn) as (m & e & -> & _). reflexivity. Qed.

(** The value of a call on two arrays with the same elements, all
    numbers. *)
Lemma calc_equal_data percentile (a b : ndarray) (L : list F32.t) :
  data a = L -> data b = L -> shape a = shape b ->
  Forall (fun x => is_number x = true) L ->
  0 < Z.of_nat (List.length L) < 2 ^ 63 ->
  fst (calculate_err_measures percentile Obj0 Obj1 (mk_heap a b)) =
  (a50 <- np_percentile percentile (repeat F32.zero (List.length L)) 50 ;;
   a90 <- np_percentile percentile (repeat F32.zero (List.length L)) 90 ;;
   a95 <- np_percentile percentile (repeat F32.zero (List.length L)) 95 ;;
   a99 <- np_percentile percentile (repeat F32.zero (List.length L)) 99 ;;
   Ok (zero_report a50 a90 a95 a99)).
Proof.
  intros Ha Hb Hs HL Hn. unfold calculate_err_measures.
  cbn [load store obj0 obj1 shape data].
  apply shape_eqb_true in Hs. rewrite Hs. cbn [negb fst]. rewrite Ha, Hb.
  rewrite zero_gt, zero_oak by reflexivity.
  change (fun x => F32.neb x F32.inf) with valid.
  assert (Hv : map valid L = map (fun _ => true) L).
  { apply (map_ext_Forall _ _ _ _ HL). intros x Hx. now apply number_valid. }
  assert (Hg : map gt_after L = L).
  { rewrite <- (map_id L) at 2. apply (map_ext_Forall _ _ _ _ HL).
    intros x Hx. unfold gt_after. now rewrite (number_valid x Hx). }
  assert (Ho : zip_with oak_after L L = L).
  { rewrite oak_after_same. exact Hg. }
  rewrite Hg, Ho, Hv.
  assert (He : zip_with (fun g o => F32.abs (F32.sub g o)) L L = map (fun _ => F32.zero) L).
  { rewrite zip_with_same. apply (map_ext_Forall _ _ _ _ HL). intros x Hx.
    now apply sub_self. }
  rewrite He.
  rewrite !zip_with_maps, !map_map. cbn [andb negb].
  rewrite !zip_with_maps. cbn [andb].
  change (F32.gtb F32.zero F32.half) with false.
  change (F32.gtb F32.zero F32.one) with false.
  change (F32.gtb F32.zero F32.two) with false.
  change (F32.gtb F32.zero F32.four) with false.
  rewrite !count_const_false, count_const_true.
  rewrite select_const_true.
  rewrite map_map. change (F32.mul F32.zero F32.zero) with F32.zero.
  rewrite (map_const F32.zero L).
  unfold np_sum. rewrite np_sum_zeros_acc.
  cbn [Z.add]. rewrite Z.sub_0_r.
  change (F64.of_f32 F32.zero) with F64.zero.
  rewrite div_zero_of_Z by lia. rewrite percent_0 by lia.
  reflexivity.
Qed.

(** X7.  When the two maps are distinct arrays of one shape that hold the
    same elements, all of them numbers (no infinity, no [nan]), and the
    number of elements is between 1 and [2^63], every percentage, [avg_err]
    and [mse] evaluate to [0.0]; the error sample handed to
    [np.percentile] holds [0.0] once per pixel, and the report carries the
    four values it returns. *)
Theorem perfect_match (percentile : list F32.t -> Z -> option F64.t)
    (gt oak : ndarray) :
  shape gt = shape oak ->
  data gt = data oak ->
  Forall (fun x => is_number x = true) (data gt) ->
  0 < Z.of_nat (List.length (data gt)) < 2 ^ 63 ->
  fst (calculate_err_measures percentile Obj0 Obj1 (mk_heap gt oak)) =
  (a50 <- np_percentile percentile (repeat F32.zero (List.length (data gt))) 50 ;;
   a90 <- np_percentile percentile (repeat F32.zero (List.length (data gt))) 90 ;;
   a95 <- np_percentile percentile (repeat F32.zero (List.length (data gt))) 95 ;;
   a99 <- np_percentile percentile (repeat F32.zero (List.length (data gt))) 99 ;;
   Ok (zero_report a50 a90 a95 a99)).
Proof.
  intros Hs Hd HL Hn.
  exact (calc_equal_data percentile gt oak (data gt) eq_refl (eq_sym Hd) Hs HL Hn).
Qed.

Lemma perfect_match_witness :
  fst (calculate_err_measures percentile_raising Obj0 Obj1
         (mk_heap (map_1x2 F32.seven F32.three) (map_1x2 F32.seven F32.three))) =
  Ok (zero_report F64.zero F64.zero F64.zero F64.zero).
Proof.
  rewrite (perfect_match percentile_raising (map_1x2 F32.seven F32.three)
             (map_1x2 F32.seven F32.three) eq_refl eq_refl).
  - reflexivity.
  - repeat constructor.
  - cbn. lia.
Defined.

(** *** The range of the percentages *)

Lemma count_bad_invalid gm om p :
  count (zip_with andb (zip_with andb gm om) p) +
  count (zip_with andb gm (map negb om)) <= count gm.
Proof.
  revert om p. induction gm as [|g gm IH]; intros [|o om] p; cbn [zip_with map].
  - reflexivity.
  - reflexivity.
  - change (count []) with 0. rewrite count_cons. pose proof (count_nonneg gm).
    destruct g; lia.
  - destruct p as [|b p]; cbn [zip_with].
    + change (count []) with 0. rewrite !count_cons.
      pose proof (count_zip_le gm (map negb om)). destruct g, o; cbn [andb negb]; lia.
    + rewrite !count_cons. specialize (IH om p).
      destruct g, o, b; cbn [andb negb]; lia.
Qed.

(** X8.  In a report returned for maps with a valid ground-truth pixel and
    fewer than [2^53 / 100] pixels, every percentage is in range: at each
    threshold the percentage of bad pixels is at least [0] and at most the
    total, the percentage of missing predictions is at most the total, and
    the total is at most [100]. *)
Theorem percentages_in_range (percentile : list F32.t -> Z -> option F64.t)
    (gt_img oak_img : ref) (h h' : heap) (r : ErrorReport) :
  calculate_err_measures percentile gt_img oak_img h = (Ok r, h') ->
  0 < n_valid (load gt_img h) ->
  100 * Z.of_nat (List.length (data (load gt_img h))) < 2 ^ 53 ->
  in_range (invalid_p r) (bad05_p r) (total_bad05_p r) /\
  in_range (invalid_p r) (bad1_p r) (total_bad1_p r) /\
  in_range (invalid_p r) (bad2_p r) (total_bad2_p r) /\
  in_range (invalid_p r) (bad4_p r) (total_bad4_p r).
Proof.
  intros Hc Hn Hsz. unfold calculate_err_measures in Hc.
  destruct (negb (shape_eqb (shape (load gt_img h)) (shape (load oak_img h))));
    [discriminate|].
  change (fun x => F32.neb x F32.inf) with valid in Hc.
  fold (n_valid (load gt_img h)) in Hc.
  set (n := n_valid (load gt_img h)) in *.
  set (gm := map valid (data (load gt_img h))) in *.
  set (om := map valid (data (load oak_img h))) in *.
  match type of Hc with context [select (zip_with andb gm om) ?e] => set (err := e) in * end.
  injection Hc as Hc _.
  destruct (np_percentile percentile (select (zip_with andb gm om) err) 50) as [a50|];
    [|discriminate].
  destruct (np_percentile percentile (select (zip_with andb gm om) err) 90) as [a90|];
    [|discriminate].
  destruct (np_percentile percentile (select (zip_with andb gm om) err) 95) as [a95|];
    [|discriminate].
  destruct (np_percentile percentile (select (zip_with andb gm om) err) 99) as [a99|];
    [|discriminate].
  cbn [bind] in Hc. injection Hc as <-.
  cbn [bad05_p bad1_p bad2_p bad4_p total_bad05_p total_bad1_p total_bad2_p
       total_bad4_p invalid_p].
  assert (Hnle : n <= Z.of_nat (List.length (data (load gt_img h)))).
  { unfold n, n_valid. etransitivity; [apply count_le_length|].
    rewrite length_map. lia. }
  assert (Hn63 : 0 < n < 2 ^ 63).
  { split; [exact Hn|]. assert (2 ^ 53 < 2 ^ 63) by reflexivity. lia. }
  assert (Hone : forall p,
    in_range (percent (count (zip_with andb gm (map negb om))) n)
      (percent (count (zip_with andb (zip_with andb gm om) (map p err))) n)
      (percent (count (zip_with andb (zip_with andb gm om) (map p err)) +
                count (zip_with andb gm (map negb om))) n)).
  { intros p.
    pose proof (count_bad_invalid gm om (map p err)) as Hsum. change (count gm) with n in Hsum.
    pose proof (count_nonneg (zip_with andb (zip_with andb gm om) (map p err))) as H0.
    pose proof (count_nonneg (zip_with andb gm (map negb om))) as H1.
    unfold in_range. repeat split.
    - rewrite <- (percent_0 n Hn63). apply percent_mono; lia.
    - apply percent_mono; lia.
    - apply percent_mono; lia.
    - rewrite <- (percent_full n) by lia. apply percent_mono; lia. }
  repeat split; apply Hone.
Qed.

Lemma percentages_in_range_witness :
  exists r h',
    calculate_err_measures percentile_raising Obj0 Obj1
      (mk_heap (map_1x2 F32.seven F32.three) (map_1x2 F32.three F32.inf))
    = (Ok r, h') /\
    in_range (invalid_p r) (bad05_p r) (total_bad05_p r) /\
    in_range (invalid_p r) (bad1_p r) (total_bad1_p r) /\
    in_range (invalid_p r) (bad2_p r) (total_bad2_p r) /\
    in_range (invalid_p r) (bad4_p r) (total_bad4_p r).
Proof.
  eexists. eexists. split; [vm_compute; reflexivity|].
  eapply (percentages_in_range percentile_raising Obj0 Obj1
            (mk_heap (map_1x2 F32.seven F32.three) (map_1x2 F32.three F32.inf))).
  - vm_compute. reflexivity.
  - reflexivity.
  - reflexivity.
Defined.

End EvalMoreSpec.

(** ** The command line *)

Module StartupSpec.
Import Startup.

Section Checks.

Variable datasetDefault : string.
Variable path_exists : string -> bool.
Variable returns : call -> bool.

Ltac settle :=
  repeat match goal with
  | H : _ \/ _ |- _ => destruct H
  | H : _ /\ _ |- _ => destruct H
  | H : exists _, _ |- _ => destruct H
  | H : Some _ = Some _ |- _ => injection H as H; subst
  | H : (_, _) = (_, _) |- _ => injection H as H; subst
  | H : Continue _ _ = Continue _ _ |- _ => injection H as H; subst
  end;
  try congruence;
  try (left; repeat split; congruence);
  try (right; eexists; repeat split; try reflexivity; try congruence;
       first [ left; repeat split; congruence
             | right; left; repeat split; congruence
             | right; right; repeat split; congruence ]).

(** X9.  The start-up checks let the script go on in exactly two
    situations.  Without [--evaluate]: [--download] is absent and the
    dataset path (the one given, the default for none or an empty one)
    exists; nothing is called.  With [--evaluate E]: [--dataset] is absent,
    and either [E] exists, or [--download] is given and [os.makedirs(E)]
    returns; with [--download] the archive is then fetched into [E].  In
    evaluation mode the dataset path is the default one and is not
    checked. *)
Theorem startup_continues (args : Namespace) (mode : bool) (ds : string)
    (calls : list call) :
  Startup.startup datasetDefault path_exists returns args = (Continue mode ds, calls) <->
  (evaluate args = None /\ download args = false /\
   path_exists (or_default datasetDefault (dataset args)) = true /\
   mode = false /\ ds = or_default datasetDefault (dataset args) /\ calls = []) \/
  (exists e,
     evaluate args = Some e /\ dataset args = None /\
     mode = true /\ ds = datasetDefault /\
     ((download args = false /\ path_exists e = true /\ calls = []) \/
      (download args = true /\ path_exists e = true /\
       returns (download_2014_middlebury (Some e)) = true /\
       calls = [download_2014_middlebury (Some e)]) \/
      (download args = true /\ path_exists e = false /\
       returns (os_makedirs e) = true /\
       returns (download_2014_middlebury (Some e)) = true /\
       calls = [os_makedirs e; download_2014_middlebury (Some e)]))).
Proof.
  destruct args as [d dbg ev dump dl]. unfold Startup.startup, downloading.
  cbn [evaluate dataset download is_None].
  destruct ev as [e|], d as [s|], dl; cbn [is_None negb andb orb or_default];
    try (split; intros; settle; fail).
  - destruct (path_exists e) eqn:Ee; cbn [negb andb];
      [|destruct (returns (os_makedirs e)) eqn:Em];
      destruct (returns (download_2014_middlebury (Some e))) eqn:Er;
      cbn [negb app]; split; intros; settle.
  - destruct (path_exists e) eqn:Ee; cbn [negb andb]; split; intros; settle.
  - destruct (path_exists (if (s =? "")%string then datasetDefault else s)) eqn:Ee;
      cbn [negb]; split; intros; settle.
  - destruct (path_exists datasetDefault) eqn:Ee; cbn [negb]; split; intros; settle.
Qed.

(** X10.  The checks raise [ValueError] exactly when [--evaluate] comes
    with [--dataset], or [--download] without [--evaluate]; they raise
    [FileNotFoundError] exactly when, these aside, the path to use (the
    dataset path without [--evaluate], the evaluation path otherwise and
    without [--download]) does not exist.  Nothing has been called when
    either is raised, and the [sys.exit(0)] of line 66 is never reached:
    after a download the script is always in evaluation mode. *)
Theorem startup_raises (args : Namespace) :
  let r := Startup.startup datasetDefault path_exists returns args in
  (fst r = Raised ValueError <->
   (evaluate args <> None /\ dataset args <> None) \/
   (download args = true /\ evaluate args = None)) /\
  (fst r = Raised FileNotFoundError <->
   (evaluate args = None /\ download args = false /\
    path_exists (or_default datasetDefault (dataset args)) = false) \/
   (exists e, evaluate args = Some e /\ dataset args = None /\
              download args = false /\ path_exists e = false)) /\
  (forall e, fst r = Raised e -> snd r = []) /\
  fst r <> Line66.
Proof.
  destruct args as [d dbg ev dump dl]. unfold Startup.startup, downloading.
  cbn [evaluate dataset download is_None].
  destruct ev as [e|], d as [s|], dl; cbn [is_None negb andb orb or_default];
    try (cbn [fst snd]; repeat split; intros; settle; fail).
  - destruct (path_exists e) eqn:Ee; cbn [negb andb];
      [|destruct (returns (os_makedirs e)) eqn:Em];
      try destruct (returns (download_2014_middlebury (Some e))) eqn:Er;
      cbn [negb app fst snd]; repeat split; intros; settle.
  - destruct (path_exists e) eqn:Ee; cbn [negb andb fst snd];
      repeat split; intros; settle.
  - destruct (path_exists (if (s =? "")%string then datasetDefault else s)) eqn:Ee;
      cbn [negb fst snd]; repeat split; intros; settle.
  - destruct (path_exists datasetDefault) eqn:Ee; cbn [negb fst snd];
      repeat split; intros; settle.
Qed.

End Checks.

End StartupSpec.

(** ** [StereoConfigHandler.Trackbar] *)

Module TrackbarSpec.
Import StereoConfigHandler.
Import Trackbar.

(** X11.  [Trackbar.set] hands [cv2.setTrackbarPos] a position that never
    exceeds the maximum, and for a trackbar with [min <= max] the value
    clamped to [[min, max]]; it prints one line when the value was below
    the minimum or above the maximum and nothing when it was in range, the
    call comes last, and setting the position it chose again chooses the
    same position and prints nothing. *)
Theorem set_clamps (self : t) (value : Z) :
  min self <= max self ->
  let pos := position self value in
  set self value =
    map print (printed (set self value)) ++
    [cv2_setTrackbarPos (trackbarName self) (windowName self) pos] /\
  pos = Z.max (min self) (Z.min value (max self)) /\
  min self <= pos <= max self /\
  (min self <= value <= max self -> pos = value /\ printed (set self value) = []) /\
  (value < min self ->
   printed (set self value) =
     [(trackbarName self ++ " min value is " ++ str_int (min self))%string]) /\
  (max self < value ->
   printed (set self value) =
     [(trackbarName self ++ " max value is " ++ str_int (max self))%string]) /\
  position self pos = pos /\ printed (set self pos) = [].
Proof.
  intros Hmm pos. subst pos. unfold position, set.
  assert (Hin : forall v, min self <= v <= max self ->
            (v <? min self) = false /\ (v >? max self) = false).
  { intros v Hv. split; [apply Z.ltb_ge; lia|].
    rewrite Z.gtb_ltb. apply Z.ltb_ge. lia. }
  destruct (value <? min self) eqn:E1.
  - apply Z.ltb_lt in E1.
    replace (min self >? max self) with false
      by (symmetry; rewrite Z.gtb_ltb; apply Z.ltb_ge; lia).
    cbn [app last printed flat_map map].
    destruct (Hin (min self)) as [-> ->]; [lia|]. cbn [app last printed flat_map].
    repeat split; try reflexivity; try lia.
  - apply Z.ltb_ge in E1. destruct (value >? max self) eqn:E2.
    + rewrite Z.gtb_ltb in E2. apply Z.ltb_lt in E2.
      cbn [app last printed flat_map map].
      destruct (Hin (max self)) as [-> ->]; [lia|]. cbn [app last printed flat_map].
      repeat split; try reflexivity; try lia.
    + rewrite Z.gtb_ltb in E2. apply Z.ltb_ge in E2.
      cbn [app last printed flat_map map].
      destruct (Hin value) as [-> ->]; [lia|]. cbn [app last printed flat_map].
      repeat split; try reflexivity; try lia.
Qed.

Lemma set_clamps_witness :
  set (mk 3 5 "Stereo control panel" "Subpixel fractional bits") 0 =
  [print "Subpixel fractional bits min value is 3";
   cv2_setTrackbarPos "Subpixel fractional bits" "Stereo control panel" 3].
Proof.
  pose proof (set_clamps (mk 3 5 "Stereo control panel" "Subpixel fractional bits") 0)
    as H.
  cbn [min max] in H. specialize (H ltac:(lia)).
  destruct H as (H & _). rewrite H. reflexivity.
Defined.

(** Without the assumption on the bounds the position is still at most the
    maximum. *)
Lemma position_le_max (self : t) (value : Z) : position self value <= max self.
Proof.
  unfold position, set.
  destruct (value <? min self) eqn:E1.
  - destruct (min self >? max self) eqn:E2; cbn [app last]; [lia|].
    rewrite Z.gtb_ltb in E2. apply Z.ltb_ge in E2. exact E2.
  - destruct (value >? max self) eqn:E2; cbn [app last]; [lia|].
    rewrite Z.gtb_ltb in E2. apply Z.ltb_ge in E2. exact E2.
Qed.

End TrackbarSpec.

(** ** [StereoConfigHandler.CensusMaskHandler] *)

Module CensusFacts.
Import StereoConfigHandler.
Import CensusMaskHandler.

(** *** Lists and indices *)

Lemma py_index_nat {A} (l : list A) (i : nat) (d : A) :
  (i < List.length l)%nat -> py_index l (Z.of_nat i) = Ok (nth i l d).
Proof.
  intros Hi. unfold py_index. cbv zeta.
  assert (E0 : (Z.of_nat i <? 0) = false) by (apply Z.ltb_ge; lia).
  assert (E1 : (Z.of_nat (List.length l) <=? Z.of_nat i) = false)
    by (apply Z.leb_gt; lia).
  rewrite !E0, E1. cbn [orb]. rewrite Nat2Z.id.
  destruct (nth_error l i) as [a|] eqn:E.
  - now rewrite (nth_error_nth _ _ d E).
  - apply nth_error_None in E. lia.
Qed.

Lemma py_index_beyond {A} (l : list A) (i : Z) :
  Z.of_nat (List.length l) <= i -> py_index l i = Raise IndexError.
Proof.
  intros Hi. unfold py_index. cbv zeta.
  assert (E0 : (i <? 0) = false) by (apply Z.ltb_ge; lia).
  assert (E1 : (Z.of_nat (List.length l) <=? i) = true) by (apply Z.leb_le; lia).
  rewrite !E0, E1. now rewrite orb_true_r.
Qed.

Lemma py_store_nat {A} (l : list A) (i : nat) (v : A) :
  py_store l (Z.of_nat i) v = replace_nth i v l.
Proof.
  unfold py_store.
  replace (Z.of_nat i <? 0) with false by (symmetry; apply Z.ltb_ge; lia).
  now rewrite Nat2Z.id.
Qed.

Lemma replace_nth_length {A} (n : nat) (v : A) l :
  List.length (replace_nth n v l) = List.length l.
Proof.
  revert n. induction l as [|x l IH]; intros [|n]; cbn [replace_nth List.length];
    try reflexivity. now rewrite IH.
Qed.

Lemma nth_replace_nth {A} (n k : nat) (v d : A) l :
  (n < List.length l)%nat ->
  nth k (replace_nth n v l) d = if Nat.eqb k n then v else nth k l d.
Proof.
  revert n k. induction l as [|x l IH]; intros [|n] [|k] Hn; cbn [List.length] in Hn;
    cbn [replace_nth nth Nat.eqb]; try reflexivity; try lia.
  apply IH. lia.
Qed.

Lemma replace_nth_same {A} (n : nat) (d : A) l :
  replace_nth n (nth n l d) l = l.
Proof.
  revert n. induction l as [|x l IH]; intros [|n]; cbn [replace_nth nth];
    try reflexivity. now rewrite IH.
Qed.

Lemma Forall_replace_nth {A} (P : A -> Prop) (n : nat) (v : A) l :
  Forall P l -> P v -> Forall P (replace_nth n v l).
Proof.
  intros Hl Hv. revert n. induction Hl as [|x l Hx Hl IH]; intros [|n];
    cbn [replace_nth]; constructor; auto.
Qed.

Lemma range_nat (n : nat) : range (Z.of_nat n) = map Z.of_nat (seq 0 n).
Proof. unfold range. now rewrite Nat2Z.id. Qed.

Lemma range_spec (n : Z) : range n = map Z.of_nat (seq 0 (Z.to_nat n)).
Proof. reflexivity. Qed.

Lemma for__app {St X} (l1 l2 : list X) (body : X -> M St unit) s :
  for_ (l1 ++ l2) body s =
  match for_ l1 body s with
  | (Return _, s') => for_ l2 body s'
  | (Throw e, s') => (Throw e, s')
  end.
Proof.
  revert s. induction l1 as [|x l1 IH]; intros s; cbn [app for_].
  - reflexivity.
  - unfold bindM. destruct (body x s) as [[[]|e] s']; [apply IH|reflexivity].
Qed.

Lemma fold_result_app {A X} (f : A -> X -> result A) l1 l2 a :
  fold_result f (l1 ++ l2) a =
  (a' <- fold_result f l1 a ;; fold_result f l2 a').
Proof.
  revert a. induction l1 as [|x l1 IH]; intros a; cbn [app fold_result bind].
  - reflexivity.
  - destruct (f a x) as [a'|e]; cbn [bind]; [apply IH|reflexivity].
Qed.

(** A loop over [0 .. n-1] whose body keeps an invariant returns and
    establishes the invariant at [n]. *)
Lemma for__invariant {St} (I : nat -> St -> Prop) (body : Z -> M St unit)
    (n : nat) s :
  I O s ->
  (forall k s, (k < n)%nat -> I k s ->
     exists s', body (Z.of_nat k) s = (Return tt, s') /\ I (S k) s') ->
  exists s', for_ (map Z.of_nat (seq 0 n)) body s = (Return tt, s') /\ I n s'.
Proof.
  intros H0 Hstep. induction n as [|n IH].
  - exists s. split; [reflexivity|exact H0].
  - destruct IH as (s1 & E1 & I1); [intros; apply Hstep; [lia|assumption]|].
    rewrite seq_S, map_app, for__app, E1. cbn [map for_ Nat.add].
    destruct (Hstep n s1 (Nat.lt_succ_diag_r n) I1) as (s2 & E2 & I2).
    exists s2. split; [|exact I2]. unfold bindM. rewrite E2. reflexivity.
Qed.

Lemma fold_result_invariant {A} (I : nat -> A -> Prop) (f : A -> Z -> result A)
    (n : nat) a :
  I O a ->
  (forall k a, (k < n)%nat -> I k a ->
     exists a', f a (Z.of_nat k) = Ok a' /\ I (S k) a') ->
  exists a', fold_result f (map Z.of_nat (seq 0 n)) a = Ok a' /\ I n a'.
Proof.
  intros H0 Hstep. induction n as [|n IH].
  - exists a. split; [reflexivity|exact H0].
  - destruct IH as (a1 & E1 & I1); [intros; apply Hstep; [lia|assumption]|].
    rewrite seq_S, map_app, fold_result_app, E1. cbn [map fold_result bind Nat.add].
    destruct (Hstep n a1 (Nat.lt_succ_diag_r n) I1) as (a2 & E2 & I2).
    exists a2. split; [|exact I2]. rewrite E2. reflexivity.
Qed.

(** *** Cells of a well-formed grid *)

Section Grid.

Variable self : t.
Hypothesis Hwf : wf self.

Let rows := Z.to_nat (fst (gridSize self)).
Let cols := Z.to_nat (snd (gridSize self)).

Lemma row_length (row : nat) :
  (row < rows)%nat -> List.length (nth row (gridList self) []) = cols.
Proof.
  intros Hr. destruct Hwf as (_ & _ & _ & _ & Hl & Hall).
  rewrite Forall_forall in Hall. apply Hall. apply nth_In. fold rows in Hl. lia.
Qed.

Lemma cell_at_nat (row col : nat) :
  (row < rows)%nat -> (col < cols)%nat ->
  cell_at self (Z.of_nat row) (Z.of_nat col) = Ok (cell_nth self row col).
Proof.
  intros Hr Hc. unfold cell_at, cell_nth.
  destruct Hwf as (_ & _ & _ & _ & Hl & _). fold rows in Hl.
  rewrite (py_index_nat _ _ []) by lia. cbn [bind].
  apply py_index_nat. rewrite row_length by assumption. exact Hc.
Qed.

Lemma set_state_nat (row col : nat) (b : bool) :
  (row < rows)%nat -> (col < cols)%nat ->
  set_state self (Z.of_nat row) (Z.of_nat col) b =
  Ok (set_gridList
        (replace_nth row
           (replace_nth col
              (mk_cell (topLeft (cell_nth self row col))
                 (bottomRight (cell_nth self row col)) b)
              (nth row (gridList self) []))
           (gridList self)) self).
Proof.
  intros Hr Hc. unfold set_state, cell_nth.
  destruct Hwf as (_ & _ & _ & _ & Hl & _). fold rows in Hl.
  rewrite (py_index_nat _ _ []) by lia. cbn [bind].
  rewrite (py_index_nat _ _ (mk_cell (0, 0) (0, 0) false))
    by (rewrite row_length by assumption; exact Hc).
  cbn [bind]. now rewrite !py_store_nat.
Qed.

End Grid.

(** Replacing a cell keeps the grid well formed. *)
Lemma wf_replace (self : t) (row col : nat) (c : cell) (b : bool) :
  wf self ->
  (row < Z.to_nat (fst (gridSize self)))%nat ->
  wf (mk (gridSize self) (windowName self) b (width self) (height self)
        (replace_nth row (replace_nth col c (nth row (gridList self) []))
           (gridList self))).
Proof.
  intros (H1 & H2 & H3 & H4 & H5 & H6) Hr. unfold wf.
  cbn [gridSize width height gridList].
  repeat split; try assumption.
  - now rewrite replace_nth_length.
  - apply Forall_replace_nth; [exact H6|].
    rewrite replace_nth_length.
    rewrite Forall_forall in H6. apply H6, nth_In. lia.
Qed.

Lemma painted_wf (self : t) (row col : nat) (b : bool) :
  wf self -> (row < Z.to_nat (fst (gridSize self)))%nat -> wf (painted self row col b).
Proof. intros Hwf Hr. unfold painted. now apply wf_replace. Qed.

Lemma cell_nth_painted (self : t) (row col : nat) (b : bool) (r c : nat) :
  wf self ->
  (row < Z.to_nat (fst (gridSize self)))%nat ->
  (col < Z.to_nat (snd (gridSize self)))%nat ->
  cell_nth (painted self row col b) r c =
  if Nat.eqb r row && Nat.eqb c col then recolor (cell_nth self row col) b
  else cell_nth self r c.
Proof.
  intros Hwf Hr Hc. unfold cell_nth at 1. cbn [painted gridList].
  pose proof (row_length self Hwf row Hr) as Hlen.
  destruct Hwf as (_ & _ & _ & _ & Hl & _).
  rewrite nth_replace_nth by lia.
  destruct (Nat.eqb r row) eqn:Er; cbn [andb]; [|reflexivity].
  apply Nat.eqb_eq in Er. subst r.
  rewrite nth_replace_nth by lia.
  destruct (Nat.eqb c col); reflexivity.
Qed.

Lemma color_of_state (b : bool) :
  (if b then nth 1 stateColor (0, 0, 0) else nth 0 stateColor (0, 0, 0)) = color_of b.
Proof. destruct b; reflexivity. Qed.

(** [fillRectangle] on a cell of the grid. *)
Lemma fillRectangle_nat (self : t) (out : list event) (row col : nat) :
  wf self ->
  (row < Z.to_nat (fst (gridSize self)))%nat ->
  (col < Z.to_nat (snd (gridSize self)))%nat ->
  fillRectangle (Z.of_nat row) (Z.of_nat col) (self, out) =
  (Return tt,
   (set_changed true self,
    out ++ [cv2_rectangle (topLeft (cell_nth self row col))
              (bottomRight (cell_nth self row col))
              (color_of (state_at self row col));
            cv2_imshow (windowName self)])).
Proof.
  intros Hwf Hr Hc. unfold fillRectangle, bindM, self_, value, update, emit.
  cbn [fst snd]. rewrite (cell_at_nat self Hwf) by assumption. cbn [lift].
  rewrite color_of_state. reflexivity.
Qed.

(** Assigning a state to a cell of the grid and painting it. *)
Lemma paint_step (self : t) (out : list event) (row col : nat) (b : bool) :
  wf self ->
  (row < Z.to_nat (fst (gridSize self)))%nat ->
  (col < Z.to_nat (snd (gridSize self)))%nat ->
  (s <~ self_ ;;
   s' <~ value (lift (set_state s (Z.of_nat row) (Z.of_nat col) b)) ;;
   _ <~ update (fun _ => s') ;;
   fillRectangle (Z.of_nat row) (Z.of_nat col)) (self, out) =
  (Return tt,
   (painted self row col b,
    out ++ [cv2_rectangle (topLeft (cell_nth self row col))
              (bottomRight (cell_nth self row col)) (color_of b);
            cv2_imshow (windowName self)])).
Proof.
  intros Hwf Hr Hc. unfold bindM at 1 2 3. unfold self_ at 1. unfold value, update.
  cbn [fst snd]. rewrite (set_state_nat self Hwf) by assumption. cbn [lift].
  set (s' := set_gridList _ self).
  assert (Hwf' : wf s').
  { unfold s', set_gridList. now apply wf_replace. }
  assert (Hc' : cell_nth s' row col = recolor (cell_nth self row col) b).
  { pose proof (cell_nth_painted self row col b row col Hwf Hr Hc) as H.
    rewrite !Nat.eqb_refl in H. exact H. }
  rewrite (fillRectangle_nat s' out row col Hwf') by assumption.
  unfold state_at. rewrite Hc'. reflexivity.
Qed.

(** *** The loops of [setMask] *)

Lemma same_frame_refl (s : t) : same_frame s s.
Proof. unfold same_frame. tauto. Qed.

Lemma same_frame_painted (s s0 : t) (row col : nat) (b : bool) :
  same_frame s s0 -> same_frame (painted s row col b) s0.
Proof. unfold same_frame. cbn [painted gridSize windowName width height]. tauto. Qed.

(** The inner loop on row [row], up to column [k]. *)
Lemma setMask_row (s0 : t) (out0 : list event) (mask : Z) (row k : nat) :
  wf s0 ->
  (row < Z.to_nat (fst (gridSize s0)))%nat ->
  (k <= Z.to_nat (snd (gridSize s0)))%nat ->
  exists s out,
    for_ (map Z.of_nat (seq 0 k))
      (fun col =>
         let pos := Z.of_nat row * snd (gridSize s0) + col in
         self <~ self_ ;;
         self' <~ value (lift (set_state self (Z.of_nat row) col
                                 (negb (Z.land mask (uint64_shl 1 pos) =? 0)))) ;;
         _ <~ update (fun _ => self') ;;
         fillRectangle (Z.of_nat row) col) (s0, out0) = (Return tt, (s, out)) /\
    wf s /\ same_frame s s0 /\
    changed s = (changed s0 || negb (Nat.eqb k 0)) /\
    out = out0 ++ flat_map (paint_cell s0 (mask_test s0 mask) row) (seq 0 k) /\
    forall r c, cell_nth s r c =
      if Nat.eqb r row && Nat.ltb c k
      then recolor (cell_nth s0 r c) (mask_test s0 mask r c)
      else cell_nth s0 r c.
Proof.
  intros Hwf Hr Hk.
  destruct (for__invariant
    (fun k (st : CensusMaskHandler.st) =>
       wf (fst st) /\ same_frame (fst st) s0 /\
       changed (fst st) = (changed s0 || negb (Nat.eqb k 0)) /\
       snd st = out0 ++ flat_map (paint_cell s0 (mask_test s0 mask) row) (seq 0 k) /\
       forall r c, cell_nth (fst st) r c =
         if Nat.eqb r row && Nat.ltb c k
         then recolor (cell_nth s0 r c) (mask_test s0 mask r c)
         else cell_nth s0 r c)
    (fun col =>
       let pos := Z.of_nat row * snd (gridSize s0) + col in
       self <~ self_ ;;
       self' <~ value (lift (set_state self (Z.of_nat row) col
                               (negb (Z.land mask (uint64_shl 1 pos) =? 0)))) ;;
       _ <~ update (fun _ => self') ;;
       fillRectangle (Z.of_nat row) col)
    k (s0, out0)) as ([s out] & E & I).
  - cbn [fst snd]. split; [exact Hwf|]. split; [apply same_frame_refl|].
    split; [cbn [Nat.eqb negb]; now rewrite orb_false_r|].
    split; [cbn [seq flat_map]; now rewrite app_nil_r|].
    intros r c. replace (Nat.ltb c 0) with false by reflexivity.
    now rewrite andb_false_r.
  - intros j [s out] Hj (Hw & Hf & Hch & Hout & Hcells). cbn [fst snd] in *.
    assert (Hgs : gridSize s = gridSize s0) by apply Hf.
    eexists. split.
    + cbv zeta. apply paint_step; [exact Hw|rewrite Hgs; exact Hr|rewrite Hgs; lia].
    + cbn [fst snd]. split; [apply painted_wf; [exact Hw|rewrite Hgs; exact Hr]|].
      split; [now apply same_frame_painted|].
      split; [cbn [painted changed Nat.eqb negb]; now rewrite orb_true_r|].
      split.
      { rewrite Hout, seq_S, flat_map_app, app_assoc. cbn [flat_map Nat.add].
        rewrite app_nil_r. f_equal. unfold paint_cell.
        rewrite (Hcells row j), Nat.eqb_refl, Nat.ltb_irrefl. cbn [andb].
        destruct Hf as (_ & -> & _). reflexivity. }
      intros r c.
      rewrite cell_nth_painted by (try exact Hw; rewrite Hgs; lia).
      rewrite !Hcells.
      destruct (Nat.eqb r row) eqn:Er; cbn [andb]; [|reflexivity].
      apply Nat.eqb_eq in Er. subst r. rewrite Nat.eqb_refl. cbn [andb].
      destruct (Nat.eqb c j) eqn:Ec.
      * apply Nat.eqb_eq in Ec. subst c.
        rewrite Nat.ltb_irrefl.
        replace (Nat.ltb j (S j)) with true by (symmetry; apply Nat.ltb_lt; lia).
        reflexivity.
      * apply Nat.eqb_neq in Ec.
        destruct (Nat.ltb c j) eqn:E1.
        -- apply Nat.ltb_lt in E1.
           now replace (Nat.ltb c (S j)) with true by (symmetry; apply Nat.ltb_lt; lia).
        -- apply Nat.ltb_ge in E1.
           now replace (Nat.ltb c (S j)) with false by (symmetry; apply Nat.ltb_ge; lia).
  - exists s, out. exact (conj E I).
Qed.

(** [setMask] on a grid: every cell gets the state of its bit, and is
    painted. *)
Lemma setMask_spec (s0 : t) (out0 : list event) (mask : Z) :
  wf s0 -> 0 <= mask < 2 ^ 64 ->
  exists s out,
    setMask mask (s0, out0) = (Return tt, (s, out)) /\
    wf s /\ same_frame s s0 /\ changed s = true /\
    out = out0 ++ paint_grid s0 (mask_test s0 mask) /\
    forall r c,
      (r < Z.to_nat (fst (gridSize s0)))%nat ->
      (c < Z.to_nat (snd (gridSize s0)))%nat ->
      cell_nth s r c = recolor (cell_nth s0 r c) (mask_test s0 mask r c).
Proof.
  intros Hwf Hm.
  destruct (for__invariant
    (fun k (st : CensusMaskHandler.st) =>
       wf (fst st) /\ same_frame (fst st) s0 /\
       changed (fst st) = (changed s0 || negb (Nat.eqb k 0)) /\
       snd st = out0 ++
                flat_map (fun row => flat_map (paint_cell s0 (mask_test s0 mask) row)
                                       (seq 0 (Z.to_nat (snd (gridSize s0)))))
                  (seq 0 k) /\
       forall r c, cell_nth (fst st) r c =
         if Nat.ltb r k && Nat.ltb c (Z.to_nat (snd (gridSize s0)))
         then recolor (cell_nth s0 r c) (mask_test s0 mask r c)
         else cell_nth s0 r c)
    (fun row =>
       for_ (range (snd (gridSize s0)))
         (fun col =>
            let pos := row * snd (gridSize s0) + col in
            self <~ self_ ;;
            self' <~ value (lift (set_state self row col
                                    (negb (Z.land mask (uint64_shl 1 pos) =? 0)))) ;;
            _ <~ update (fun _ => self') ;;
            fillRectangle row col))
    (Z.to_nat (fst (gridSize s0))) (s0, out0)) as ([s out] & E & I).
  - cbn [fst snd]. split; [exact Hwf|]. split; [apply same_frame_refl|].
    split; [cbn [Nat.eqb negb]; now rewrite orb_false_r|].
    split; [cbn [seq flat_map]; now rewrite app_nil_r|].
    intros r c. replace (Nat.ltb r 0) with false by reflexivity. reflexivity.
  - intros j [s out] Hj (Hw & Hf & Hch & Hout & Hcells). cbn [fst snd] in *.
    assert (Hgs : gridSize s = gridSize s0) by apply Hf.
    destruct (setMask_row s out mask j (Z.to_nat (snd (gridSize s0))) Hw)
      as (s1 & out1 & E1 & Hw1 & Hf1 & Hch1 & Ho1 & Hc1);
      [rewrite Hgs; exact Hj|rewrite Hgs; lia|].
    rewrite Hgs in E1.
    exists (s1, out1). split; [exact E1|]. cbn [fst snd].
    split; [exact Hw1|].
    split; [unfold same_frame in *; intuition congruence|].
    split.
    { rewrite Hch1, Hch. cbn [Nat.eqb negb]. rewrite orb_true_r.
      destruct Hwf as (_ & Hcols & _).
      replace (Nat.eqb (Z.to_nat (snd (gridSize s0))) 0) with false
        by (symmetry; apply Nat.eqb_neq; lia).
      now rewrite orb_true_r. }
    split.
    { rewrite Ho1, Hout, seq_S, flat_map_app, <- app_assoc. cbn [flat_map Nat.add].
      rewrite app_nil_r. f_equal. f_equal.
      apply flat_map_ext. intros c. unfold paint_cell.
      rewrite (Hcells j c), Nat.ltb_irrefl. cbn [andb].
      destruct Hf as (_ & -> & _).
      unfold mask_test. rewrite Hgs. reflexivity. }
    intros r c. rewrite Hc1, !Hcells.
    unfold mask_test. rewrite Hgs.
    destruct (Nat.eqb r j) eqn:Er.
    + apply Nat.eqb_eq in Er. subst r. rewrite Nat.ltb_irrefl. cbn [andb].
      replace (Nat.ltb j (S j)) with true by (symmetry; apply Nat.ltb_lt; lia).
      cbn [andb]. reflexivity.
    + apply Nat.eqb_neq in Er. cbn [andb].
      destruct (Nat.ltb r j) eqn:E2.
      * apply Nat.ltb_lt in E2.
        now replace (Nat.ltb r (S j)) with true by (symmetry; apply Nat.ltb_lt; lia).
      * apply Nat.ltb_ge in E2.
        now replace (Nat.ltb r (S j)) with false by (symmetry; apply Nat.ltb_ge; lia).
  - cbn [fst snd] in I. destruct I as (Hw & Hf & Hch & Hout & Hcells).
    exists s, out. unfold setMask, bindM, value, np_uint64, self_. 
    replace ((0 <=? mask) && (mask <? 2 ^ 64)) with true
      by (symmetry; apply andb_true_iff; split; [apply Z.leb_le|apply Z.ltb_lt]; lia).
    cbn [fst]. split; [exact E|]. split; [exact Hw|]. split; [exact Hf|].
    split.
    { rewrite Hch. destruct Hwf as (Hrows & _).
      replace (Nat.eqb (Z.to_nat (fst (gridSize s0))) 0) with false
        by (symmetry; apply Nat.eqb_neq; lia).
      now rewrite orb_true_r. }
    split; [exact Hout|].
    intros r c Hr Hc. rewrite Hcells.
    replace (Nat.ltb r (Z.to_nat (fst (gridSize s0)))) with true
      by (symmetry; apply Nat.ltb_lt; lia).
    replace (Nat.ltb c (Z.to_nat (snd (gridSize s0)))) with true
      by (symmetry; apply Nat.ltb_lt; lia).
    reflexivity.
Qed.

(** *** Bits *)

Lemma uint64_shl_1 (pos : Z) : 0 <= pos < 64 -> uint64_shl 1 pos = 2 ^ pos.
Proof.
  intros Hp. unfold uint64_shl.
  replace (pos <? 64) with true by (symmetry; apply Z.ltb_lt; lia).
  rewrite Z.shiftl_1_l, Z.land_ones by lia.
  apply Z.mod_small. split; [apply Z.pow_nonneg; lia|].
  apply Z.pow_lt_mono_r; lia.
Qed.

Lemma land_pow2 (a n : Z) :
  0 <= n -> Z.land a (2 ^ n) = if Z.testbit a n then 2 ^ n else 0.
Proof.
  intros Hn. apply Z.bits_inj'. intros k Hk.
  rewrite Z.land_spec, Z.pow2_bits_eqb by exact Hn.
  destruct (Z.eqb_spec n k) as [->|Hne].
  - rewrite andb_true_r. destruct (Z.testbit a k) eqn:E.
    + rewrite Z.pow2_bits_eqb by exact Hk. now rewrite Z.eqb_refl.
    + now rewrite Z.bits_0.
  - rewrite andb_false_r. destruct (Z.testbit a n).
    + rewrite Z.pow2_bits_eqb by exact Hn. symmetry. now apply Z.eqb_neq.
    + now rewrite Z.bits_0.
Qed.

Lemma bit_test (mask pos : Z) :
  0 <= pos < 64 ->
  negb (Z.land mask (uint64_shl 1 pos) =? 0) = Z.testbit mask pos.
Proof.
  intros Hp. rewrite uint64_shl_1, land_pow2 by lia.
  destruct (Z.testbit mask pos); [|reflexivity].
  assert (0 < 2 ^ pos) by (apply Z.pow_pos_nonneg; lia).
  replace (2 ^ pos =? 0) with false by (symmetry; apply Z.eqb_neq; lia).
  reflexivity.
Qed.

(** The position of a cell of the grid is below the number of cells. *)
Lemma pos_bound (rows cols : Z) (r c : nat) :
  (r < Z.to_nat rows)%nat -> (c < Z.to_nat cols)%nat ->
  0 <= Z.of_nat r * cols + Z.of_nat c < rows * cols.
Proof. intros Hr Hc. nia. Qed.

Lemma mask_test_bit (self : t) (mask : Z) (r c : nat) :
  fst (gridSize self) * snd (gridSize self) <= 64 ->
  (r < Z.to_nat (fst (gridSize self)))%nat ->
  (c < Z.to_nat (snd (gridSize self)))%nat ->
  mask_test self mask r c = bit_of self mask r c.
Proof.
  intros H64 Hr Hc. unfold mask_test, bit_of. apply bit_test.
  pose proof (pos_bound _ _ r c Hr Hc). lia.
Qed.

(** *** The loops of [getMask] *)

Lemma getMask_row (self : t) (mask : Z) (row k : nat) :
  wf self ->
  fst (gridSize self) * snd (gridSize self) <= 64 ->
  (row < Z.to_nat (fst (gridSize self)))%nat ->
  (k <= Z.to_nat (snd (gridSize self)))%nat ->
  exists m,
    fold_result
      (fun mask col =>
         c <- cell_at self (Z.of_nat row) col ;;
         if state c
         then let pos := Z.of_nat row * snd (gridSize self) + col in
              Ok (Z.lor mask (uint64_shl 1 pos))
         else Ok mask)
      (map Z.of_nat (seq 0 k)) mask = Ok m /\
    forall j, 0 <= j ->
      Z.testbit m j =
      Z.testbit mask j ||
      ((Z.of_nat row * snd (gridSize self) <=? j) &&
       (j <? Z.of_nat row * snd (gridSize self) + Z.of_nat k) &&
       state_at self row (Z.to_nat (j - Z.of_nat row * snd (gridSize self)))).
Proof.
  intros Hwf H64 Hr Hk.
  set (lo := Z.of_nat row * snd (gridSize self)).
  apply (fold_result_invariant
    (fun k m => forall j, 0 <= j ->
       Z.testbit m j =
       Z.testbit mask j ||
       ((lo <=? j) && (j <? lo + Z.of_nat k) && state_at self row (Z.to_nat (j - lo))))).
  - intros j Hj. rewrite Z.add_0_r.
    destruct (Z.leb_spec lo j), (Z.ltb_spec j lo); try lia; cbn [andb];
      now rewrite orb_false_r.
  - intros i m Hi Hm.
    rewrite (cell_at_nat self Hwf) by lia. cbn [bind].
    fold (state_at self row i).
    assert (Hpos : 0 <= lo + Z.of_nat i < 64).
    { pose proof (pos_bound (fst (gridSize self)) (snd (gridSize self)) row i).
      unfold lo. lia. }
    exists (if state_at self row i
            then Z.lor m (uint64_shl 1 (lo + Z.of_nat i)) else m).
    split; [destruct (state_at self row i); reflexivity|].
    intros j Hj.
    assert (Hcase :
      Z.testbit (if state_at self row i
                 then Z.lor m (uint64_shl 1 (lo + Z.of_nat i)) else m) j =
      Z.testbit m j || ((lo + Z.of_nat i =? j) && state_at self row i)).
    { destruct (state_at self row i).
      - rewrite Z.lor_spec, uint64_shl_1, Z.pow2_bits_eqb by lia.
        now rewrite andb_true_r.
      - now rewrite andb_false_r, orb_false_r. }
    rewrite Hcase, Hm by exact Hj. rewrite Nat2Z.inj_succ.
    destruct (Z.eqb_spec (lo + Z.of_nat i) j) as [E|E].
    + subst j. replace (lo + Z.of_nat i - lo) with (Z.of_nat i) by lia.
      rewrite Nat2Z.id.
      destruct (Z.leb_spec lo (lo + Z.of_nat i)),
               (Z.ltb_spec (lo + Z.of_nat i) (lo + Z.of_nat i)),
               (Z.ltb_spec (lo + Z.of_nat i) (lo + Z.succ (Z.of_nat i))); try lia.
      cbn [andb]. now rewrite orb_false_r.
    + cbn [andb]. rewrite orb_false_r.
      destruct (Z.leb_spec lo j), (Z.ltb_spec j (lo + Z.of_nat i)),
               (Z.ltb_spec j (lo + Z.succ (Z.of_nat i))); try lia; reflexivity.
Qed.

(** The bits of the mask [getMask] returns for a grid of at most 64
    cells: bit [j] is the state of the cell at row [j / cols] and column
    [j mod cols]. *)
Lemma getMask_bits (self : t) :
  wf self ->
  fst (gridSize self) * snd (gridSize self) <= 64 ->
  exists m,
    getMask self = Ok m /\
    forall j, 0 <= j ->
      Z.testbit m j =
      (j <? fst (gridSize self) * snd (gridSize self)) &&
      state_at self (Z.to_nat (j / snd (gridSize self)))
        (Z.to_nat (j mod snd (gridSize self))).
Proof.
  intros Hwf H64. unfold getMask, range.
  set (cols := snd (gridSize self)).
  assert (Hcols : 0 < cols) by apply Hwf.
  assert (Hrows : 0 < fst (gridSize self)) by apply Hwf.
  destruct (fold_result_invariant
    (fun k m => forall j, 0 <= j ->
       Z.testbit m j =
       (j <? Z.of_nat k * cols) &&
       state_at self (Z.to_nat (j / cols)) (Z.to_nat (j mod cols)))
    (fun mask row =>
       fold_result
         (fun mask col =>
            c <- cell_at self row col ;;
            if state c
            then let pos := row * cols + col in Ok (Z.lor mask (uint64_shl 1 pos))
            else Ok mask)
         (map Z.of_nat (seq 0 (Z.to_nat cols))) mask)
    (Z.to_nat (fst (gridSize self))) 0) as (m & E & I).
  - intros j Hj. rewrite Z.bits_0. cbn [Z.of_nat Z.mul].
    now replace (j <? 0) with false by (symmetry; apply Z.ltb_ge; lia).
  - intros k m Hk Hm.
    destruct (getMask_row self m k (Z.to_nat cols) Hwf H64 Hk (Nat.le_refl _))
      as (m' & E' & Hm').
    exists m'. split; [exact E'|].
    intros j Hj. rewrite Hm', Hm by exact Hj. fold cols.
    rewrite Z2Nat.id by lia. rewrite Nat2Z.inj_succ.
    pose proof (Z.div_mod j cols ltac:(lia)) as Hdm.
    pose proof (Z.mod_pos_bound j cols Hcols) as Hmb.
    destruct (Z.ltb_spec j (Z.of_nat k * cols)) as [H1|H1].
    + cbn [andb].
      destruct (Z.leb_spec (Z.of_nat k * cols) j); [lia|]. cbn [andb].
      rewrite orb_false_r.
      now replace (j <? Z.succ (Z.of_nat k) * cols) with true
        by (symmetry; apply Z.ltb_lt; nia).
    + cbn [andb orb].
      destruct (Z.leb_spec (Z.of_nat k * cols) j); [|lia]. cbn [andb].
      destruct (Z.ltb_spec j (Z.of_nat k * cols + cols)) as [H2|H2].
      * replace (j <? Z.succ (Z.of_nat k) * cols) with true
          by (symmetry; apply Z.ltb_lt; nia).
        cbn [andb].
        assert (Hq : j / cols = Z.of_nat k) by nia.
        assert (Hr : j mod cols = j - Z.of_nat k * cols) by nia.
        rewrite Hq, Hr, Nat2Z.id. reflexivity.
      * replace (j <? Z.succ (Z.of_nat k) * cols) with false
          by (symmetry; apply Z.ltb_ge; nia).
        reflexivity.
  - exists m. split; [exact E|].
    intros j Hj. rewrite (I j Hj). rewrite Z2Nat.id by lia. reflexivity.
Qed.

Lemma wf_same (s s0 : t) :
  wf s0 -> same_frame s s0 -> gridList s = gridList s0 -> wf s.
Proof.
  intros Hw (F1 & F2 & F3 & F4) Hg. unfold wf in *. now rewrite F1, F3, F4, Hg.
Qed.

(** *** Mouse events at any point *)

Lemma py_index_ok {A} (l : list A) (i : Z) (a d : A) :
  py_index l i = Ok a ->
  let n := Z.to_nat (if i <? 0 then i + Z.of_nat (List.length l) else i) in
  (n < List.length l)%nat /\ a = nth n l d.
Proof.
  unfold py_index. cbv zeta.
  set (j := if i <? 0 then i + Z.of_nat (List.length l) else i).
  destruct (Z.ltb_spec j 0) as [Hneg|Hpos]; cbn [orb]; [discriminate|].
  destruct (Z.leb_spec (Z.of_nat (List.length l)) j) as [Hbig|Hin]; [discriminate|].
  destruct (nth_error l (Z.to_nat j)) as [x|] eqn:E; [|discriminate].
  intros H. injection H as <-. split; [lia|].
  symmetry. now apply nth_error_nth.
Qed.

(** Whatever the event and the point, the callback leaves a grid of the
    same size in the same window. *)
Lemma clickCallback_wf (h : t) (out : list event) (ev x y : Z)
    (r : outcome unit) (h' : t) (o : list event) :
  wf h ->
  clickCallback ev x y (h, out) = (r, (h', o)) ->
  wf h' /\ same_frame h' h.
Proof.
  intros Hwf. unfold clickCallback.
  destruct (ev =? EVENT_LBUTTONDOWN).
  2:{ intros H. injection H as _ <- _. split; [exact Hwf|apply same_frame_refl]. }
  assert (Hcols : 0 < snd (gridSize h)) by apply Hwf.
  assert (Hrows : 0 < fst (gridSize h)) by apply Hwf.
  assert (Hw : width h = gridWidth * snd (gridSize h)) by apply Hwf.
  assert (Hh : height h = gridHeight * fst (gridSize h)) by apply Hwf.
  assert (Hl : List.length (gridList h) = Z.to_nat (fst (gridSize h))) by apply Hwf.
  unfold bindM at 1 2 3. unfold self_ at 1. unfold value at 1 2. cbn [fst snd].
  unfold py_floordiv. rewrite Hw, Hh.
  replace (gridWidth * snd (gridSize h) =? 0) with false
    by (symmetry; apply Z.eqb_neq; unfold gridWidth; lia).
  replace (gridHeight * fst (gridSize h) =? 0) with false
    by (symmetry; apply Z.eqb_neq; unfold gridHeight; lia).
  cbn [lift].
  set (col := x * snd (gridSize h) / (gridWidth * snd (gridSize h))).
  set (row := y * fst (gridSize h) / (gridHeight * fst (gridSize h))).
  unfold bindM at 1. unfold value at 1. unfold cell_at at 1.
  destruct (py_index (gridList h) row) as [rw|e] eqn:Erow; cbn [bind lift].
  2:{ intros H. injection H as _ <- _. split; [exact Hwf|apply same_frame_refl]. }
  destruct (py_index rw col) as [c|e] eqn:Ecol; cbn [lift].
  2:{ intros H. injection H as _ <- _. split; [exact Hwf|apply same_frame_refl]. }
  unfold bindM at 1. unfold value at 1. unfold set_state. rewrite Erow. cbn [bind].
  rewrite Ecol. cbn [bind lift].
  destruct (py_index_ok _ _ _ [] Erow) as (Hn & Erw).
  unfold py_store at 1.
  set (n := Z.to_nat (if row <? 0 then row + Z.of_nat (List.length (gridList h))
                      else row)) in *.
  set (s' := set_gridList _ h).
  assert (Hs' : wf s' /\ same_frame s' h).
  { split.
    - unfold s', set_gridList, py_store. rewrite Erw. apply wf_replace; [exact Hwf|lia].
    - unfold same_frame, s'. cbn. tauto. }
  unfold bindM at 1. unfold update at 1. cbn [fst snd].
  unfold fillRectangle, bindM, self_, value, update, emit. cbn [fst snd].
  destruct (cell_at s' row col) as [c'|e']; cbn [lift].
  - intros H. injection H as _ <- _. split.
    + apply (wf_same (set_changed true s') s'); [apply Hs'| |reflexivity].
      unfold same_frame. cbn. tauto.
    + unfold same_frame in *. cbn. tauto.
  - intros H. injection H as _ <- _. exact Hs'.
Qed.

End CensusFacts.

Module CensusSpec.
Import StereoConfigHandler.
Import CensusMaskHandler.
Import CensusFacts.

(** Two grids of one size with the same cells are equal. *)
Lemma grid_ext (s s' : t) :
  wf s -> wf s' -> gridSize s = gridSize s' ->
  (forall r c,
     (r < Z.to_nat (fst (gridSize s)))%nat ->
     (c < Z.to_nat (snd (gridSize s)))%nat ->
     cell_nth s r c = cell_nth s' r c) ->
  gridList s = gridList s'.
Proof.
  intros Hw Hw' Hgs Hcells.
  pose proof (row_length s Hw) as Hrl. pose proof (row_length s' Hw') as Hrl'.
  destruct Hw as (_ & _ & _ & _ & Hl & _). destruct Hw' as (_ & _ & _ & _ & Hl' & _).
  apply (nth_ext _ _ [] []); [congruence|].
  intros r Hr. rewrite Hl in Hr.
  apply (nth_ext _ _ (mk_cell (0, 0) (0, 0) false) (mk_cell (0, 0) (0, 0) false)).
  - rewrite Hrl, Hrl' by (rewrite <- ?Hgs; exact Hr). now rewrite Hgs.
  - intros c Hc. rewrite Hrl in Hc by exact Hr. now apply Hcells.
Qed.

Lemma recolor_state (c : cell) : recolor c (state c) = c.
Proof. now destruct c. Qed.

(** The cell a position below the number of cells belongs to. *)
Lemma cell_of_pos (rows cols j : Z) :
  0 < cols -> 0 <= j < rows * cols ->
  (Z.to_nat (j / cols) < Z.to_nat rows)%nat /\
  (Z.to_nat (j mod cols) < Z.to_nat cols)%nat /\
  Z.of_nat (Z.to_nat (j / cols)) * cols + Z.of_nat (Z.to_nat (j mod cols)) = j.
Proof.
  intros Hc Hj.
  pose proof (Z.div_mod j cols ltac:(lia)) as Hdm.
  pose proof (Z.mod_pos_bound j cols Hc) as Hmb.
  assert (0 <= j / cols) by (apply Z.div_pos; lia).
  assert (j / cols < rows) by (apply Z.div_lt_upper_bound; lia).
  rewrite !Z2Nat.id by lia. repeat split; lia.
Qed.

(** [setMask] followed by [getMask]. *)
Lemma setMask_getMask (self : t) (out : list event) (mask : Z) :
  wf self ->
  fst (gridSize self) * snd (gridSize self) <= 64 ->
  0 <= mask < 2 ^ 64 ->
  exists self' out',
    setMask mask (self, out) = (Return tt, (self', out')) /\
    getMask self' = Ok (mask mod 2 ^ (fst (gridSize self) * snd (gridSize self))) /\
    (forall r c,
       (r < Z.to_nat (fst (gridSize self)))%nat ->
       (c < Z.to_nat (snd (gridSize self)))%nat ->
       state_at self' r c = bit_of self mask r c) /\
    changed self' = true /\ wf self' /\ same_frame self' self.
Proof.
  intros Hwf H64 Hm.
  destruct (setMask_spec self out mask Hwf Hm)
    as (s & o & E & Hw & Hf & Hch & _ & Hcells).
  assert (Hgs : gridSize s = gridSize self) by apply Hf.
  assert (Hst : forall r c,
            (r < Z.to_nat (fst (gridSize self)))%nat ->
            (c < Z.to_nat (snd (gridSize self)))%nat ->
            state_at s r c = bit_of self mask r c).
  { intros r c Hr Hc. unfold state_at. rewrite Hcells by assumption.
    cbn [recolor state]. now apply mask_test_bit. }
  exists s, o. split; [exact E|]. split; [|auto].
  destruct (getMask_bits s Hw) as (m & Em & Hbits); [now rewrite Hgs|].
  rewrite Em. f_equal. rewrite Hgs in Hbits.
  assert (Hcols : 0 < snd (gridSize self)) by apply Hwf.
  assert (Hrows : 0 < fst (gridSize self)) by apply Hwf.
  apply Z.bits_inj'. intros j Hj.
  rewrite Hbits, Z.testbit_mod_pow2 by nia.
  destruct (Z.ltb_spec j (fst (gridSize self) * snd (gridSize self))) as [Hlt|Hge];
    cbn [andb]; [|reflexivity].
  destruct (cell_of_pos (fst (gridSize self)) (snd (gridSize self)) j Hcols
              (conj Hj Hlt)) as (Hr & Hc & Hpos).
  rewrite Hst by assumption. unfold bit_of. now rewrite Hpos.
Qed.

(** X12.  On a grid of at most 64 cells, [setMask(m)] followed by
    [getMask()] returns [m] reduced to the bits of the grid, [m mod
    2^(rows*cols)]: every cell holds the bit at its position [row*cols +
    col], the bits beyond the grid are dropped, and the handler reports a
    change.  The window and the grid size are kept. *)
Theorem mask_round_trip (self : t) (out : list event) (mask : Z) :
  wf self ->
  fst (gridSize self) * snd (gridSize self) <= 64 ->
  0 <= mask < 2 ^ 64 ->
  exists self' out',
    setMask mask (self, out) = (Return tt, (self', out')) /\
    getMask self' = Ok (mask mod 2 ^ (fst (gridSize self) * snd (gridSize self))) /\
    (forall r c,
       (r < Z.to_nat (fst (gridSize self)))%nat ->
       (c < Z.to_nat (snd (gridSize self)))%nat ->
       state_at self' r c = bit_of self mask r c) /\
    changed self' = true /\ wf self' /\ same_frame self' self.
Proof. exact (setMask_getMask self out mask). Qed.

Lemma mask_round_trip_witness :
  let self := mk (1, 2) "Census mask" false 100 50
                [[mk_cell (1, 1) (49, 49) false; mk_cell (51, 1) (99, 49) true]] in
  exists self' out',
    setMask 5 (self, []) = (Return tt, (self', out')) /\
    getMask self' = Ok 1.
Proof.
  intros self.
  assert (Hwf : wf self).
  { unfold wf, self. cbn. repeat split; try lia. repeat constructor. }
  destruct (mask_round_trip self [] 5 Hwf) as (s & o & E & Eg & _).
  - cbn. lia.
  - lia.
  - exists s, o. split; [exact E|exact Eg].
Defined.

(** X13.  On a grid of at most 64 cells, [getMask()] returns a mask below
    [2^(rows*cols)] whose bit at [row*cols + col] is the state of the cell
    at [(row, col)], and handing it back to [setMask] restores every cell:
    the handler is the one before, with [changed] set. *)
Theorem states_round_trip (self : t) (out : list event) :
  wf self ->
  fst (gridSize self) * snd (gridSize self) <= 64 ->
  exists m out',
    getMask self = Ok m /\
    0 <= m < 2 ^ (fst (gridSize self) * snd (gridSize self)) /\
    (forall r c,
       (r < Z.to_nat (fst (gridSize self)))%nat ->
       (c < Z.to_nat (snd (gridSize self)))%nat ->
       bit_of self m r c = state_at self r c) /\
    setMask m (self, out) = (Return tt, (set_changed true self, out')).
Proof.
  intros Hwf H64.
  assert (Hcols : 0 < snd (gridSize self)) by apply Hwf.
  assert (Hrows : 0 < fst (gridSize self)) by apply Hwf.
  destruct (getMask_bits self Hwf H64) as (m & Em & Hbits).
  assert (Hmod : m = m mod 2 ^ (fst (gridSize self) * snd (gridSize self))).
  { apply Z.bits_inj'. intros j Hj. rewrite Z.testbit_mod_pow2 by nia.
    rewrite Hbits by exact Hj.
    destruct (j <? fst (gridSize self) * snd (gridSize self)); reflexivity. }
  assert (Hrange : 0 <= m < 2 ^ (fst (gridSize self) * snd (gridSize self))).
  { rewrite Hmod. apply Z.mod_pos_bound. apply Z.pow_pos_nonneg; nia. }
  assert (Hbit : forall r c,
            (r < Z.to_nat (fst (gridSize self)))%nat ->
            (c < Z.to_nat (snd (gridSize self)))%nat ->
            bit_of self m r c = state_at self r c).
  { intros r c Hr Hc. unfold bit_of.
    pose proof (pos_bound _ _ r c Hr Hc) as Hp.
    rewrite Hbits by lia.
    replace (Z.of_nat r * snd (gridSize self) + Z.of_nat c <?
             fst (gridSize self) * snd (gridSize self)) with true
      by (symmetry; apply Z.ltb_lt; lia).
    cbn [andb].
    assert (Hq : (Z.of_nat r * snd (gridSize self) + Z.of_nat c) / snd (gridSize self)
                 = Z.of_nat r).
    { symmetry. apply (Z.div_unique _ _ _ (Z.of_nat c)); lia. }
    assert (Hr' : (Z.of_nat r * snd (gridSize self) + Z.of_nat c) mod snd (gridSize self)
                  = Z.of_nat c).
    { symmetry. apply (Z.mod_unique _ _ (Z.of_nat r)); lia. }
    now rewrite Hq, Hr', !Nat2Z.id. }
  assert (H264 : 2 ^ (fst (gridSize self) * snd (gridSize self)) <= 2 ^ 64)
    by (apply Z.pow_le_mono_r; lia).
  destruct (setMask_spec self out m Hwf) as (s & o & E & Hw & Hf & Hch & _ & Hcells);
    [lia|].
  exists m, o. split; [exact Em|]. split; [exact Hrange|]. split; [exact Hbit|].
  rewrite E. f_equal. f_equal.
  assert (Hgl : gridList s = gridList self).
  { apply grid_ext; [exact Hw|exact Hwf|apply Hf|].
    assert (Hgs : gridSize s = gridSize self) by apply Hf. rewrite Hgs.
    intros r c Hr Hc. rewrite Hcells by assumption.
    rewrite mask_test_bit, Hbit by assumption. apply recolor_state. }
  destruct Hf as (F1 & F2 & F3 & F4).
  destruct s as [gs wn ch w h gl]. cbn in *. subst. reflexivity.
Qed.

Lemma states_round_trip_witness :
  let self := mk (1, 2) "Census mask" false 100 50
                [[mk_cell (1, 1) (49, 49) false; mk_cell (51, 1) (99, 49) true]] in
  exists out', getMask self = Ok 2 /\
               setMask 2 (self, []) = (Return tt, (set_changed true self, out')).
Proof.
  intros self.
  assert (Hwf : wf self).
  { unfold wf, self. cbn. repeat split; try lia. repeat constructor. }
  destruct (states_round_trip self [] Hwf) as (m & o & Em & _ & _ & E).
  - cbn. lia.
  - assert (Hm : m = 2).
    { assert (H : getMask self = Ok 2) by reflexivity. congruence. }
    subst m. exists o. split; [reflexivity|exact E].
Defined.

(** *** Clicks *)

Lemma state_at_toggled (self : t) (row col r c : nat) :
  wf self ->
  (row < Z.to_nat (fst (gridSize self)))%nat ->
  (col < Z.to_nat (snd (gridSize self)))%nat ->
  state_at (toggled self row col) r c =
  if Nat.eqb r row && Nat.eqb c col then negb (state_at self r c)
  else state_at self r c.
Proof.
  intros Hwf Hr Hc. unfold state_at at 1. unfold toggled.
  rewrite cell_nth_painted by assumption.
  destruct (Nat.eqb r row) eqn:Er; cbn [andb]; [|reflexivity].
  destruct (Nat.eqb c col) eqn:Ec; [|reflexivity].
  apply Nat.eqb_eq in Er, Ec. subst. reflexivity.
Qed.

(** The cell under a point of the grid. *)
Lemma cell_under (n k v : Z) :
  0 < n -> 0 <= v < gridWidth * n ->
  v * n / (gridWidth * n) = v / 50 /\ 0 <= v / 50 < n.
Proof.
  intros Hn Hv. unfold gridWidth in *. split.
  - apply Z.div_mul_cancel_r; lia.
  - split; [apply Z.div_pos; lia|apply Z.div_lt_upper_bound; lia].
Qed.

(** X14.  A left-button click at a point [(x, y)] of the grid switches the
    cell at row [y // 50] and column [x // 50] and no other, marks the
    handler as changed, and repaints that cell in the colour of its new
    state (white for on); on a grid of at most 64 cells the mask
    [getMask()] returns afterwards differs from the one before in exactly
    the bit of that cell.  Any other mouse event changes nothing. *)
Theorem click_toggles (self : t) (out : list event) (x y : Z) :
  wf self ->
  0 <= x < width self -> 0 <= y < height self ->
  let row := Z.to_nat (y / 50) in
  let col := Z.to_nat (x / 50) in
  clickCallback EVENT_LBUTTONDOWN x y (self, out) =
    (Return tt,
     (toggled self row col,
      out ++ [cv2_rectangle (topLeft (cell_nth self row col))
                (bottomRight (cell_nth self row col))
                (color_of (negb (state_at self row col)));
              cv2_imshow (windowName self)])) /\
  (forall r c,
     state_at (toggled self row col) r c =
     if Nat.eqb r row && Nat.eqb c col then negb (state_at self r c)
     else state_at self r c) /\
  changed (toggled self row col) = true /\
  wf (toggled self row col) /\
  (fst (gridSize self) * snd (gridSize self) <= 64 ->
   exists m,
     getMask self = Ok m /\
     getMask (toggled self row col) =
       Ok (Z.lxor m (2 ^ (Z.of_nat row * snd (gridSize self) + Z.of_nat col)))) /\
  (forall event, event <> EVENT_LBUTTONDOWN ->
     clickCallback event x y (self, out) = (Return tt, (self, out))).
Proof.
  intros Hwf Hx Hy row col.
  assert (Hcols : 0 < snd (gridSize self)) by apply Hwf.
  assert (Hrows : 0 < fst (gridSize self)) by apply Hwf.
  assert (Hw : width self = gridWidth * snd (gridSize self)) by apply Hwf.
  assert (Hh : height self = gridHeight * fst (gridSize self)) by apply Hwf.
  rewrite Hw in Hx. rewrite Hh in Hy.
  destruct (cell_under _ 0 x Hcols Hx) as (Ex & Bx).
  destruct (cell_under _ 0 y Hrows Hy) as (Ey & By).
  assert (Hr : (row < Z.to_nat (fst (gridSize self)))%nat) by (unfold row; lia).
  assert (Hc : (col < Z.to_nat (snd (gridSize self)))%nat) by (unfold col; lia).
  assert (Erow : y / 50 = Z.of_nat row) by (unfold row; lia).
  assert (Ecol : x / 50 = Z.of_nat col) by (unfold col; lia).
  split; [|split; [|split; [|split; [|split]]]].
  - unfold clickCallback. rewrite Z.eqb_refl.
    pose proof (paint_step self out row col (negb (state_at self row col)) Hwf Hr Hc)
      as P.
    unfold bindM at 1 2 3 4 5. unfold self_ at 1. unfold value at 1 2 3.
    cbn [fst snd]. unfold py_floordiv.
    rewrite Hw, Hh.
    replace (gridWidth * snd (gridSize self) =? 0) with false
      by (symmetry; apply Z.eqb_neq; unfold gridWidth; lia).
    replace (gridHeight * fst (gridSize self) =? 0) with false
      by (symmetry; apply Z.eqb_neq; unfold gridHeight; lia).
    cbn [lift]. rewrite Ex. change gridHeight with gridWidth. rewrite Ey.
    rewrite Erow, Ecol. rewrite (cell_at_nat self Hwf) by assumption. cbn [lift].
    fold (state_at self row col).
    unfold bindM at 1 in P. unfold self_ at 1 in P. cbn [fst snd] in P.
    exact P.
  - intros r c. now apply state_at_toggled.
  - reflexivity.
  - unfold toggled. now apply painted_wf.
  - intros H64.
    destruct (getMask_bits self Hwf H64) as (m & Em & Hbits).
    assert (Hwt : wf (toggled self row col)) by (unfold toggled; now apply painted_wf).
    destruct (getMask_bits (toggled self row col) Hwt H64) as (m' & Em' & Hbits').
    exists m. split; [exact Em|]. rewrite Em'. f_equal.
    change (gridSize (toggled self row col)) with (gridSize self) in Hbits'.
    pose proof (pos_bound _ _ row col Hr Hc) as Hp.
    apply Z.bits_inj'. intros j Hj.
    rewrite Z.lxor_spec, Z.pow2_bits_eqb, Hbits', Hbits by lia.
    rewrite state_at_toggled by assumption.
    destruct (Z.ltb_spec j (fst (gridSize self) * snd (gridSize self))) as [Hlt|Hge];
      cbn [andb].
    + destruct (cell_of_pos _ _ j Hcols (conj Hj Hlt)) as (Hr' & Hc' & Hpos).
      destruct (Z.eqb_spec (Z.of_nat row * snd (gridSize self) + Z.of_nat col) j)
        as [E|E].
      * assert (Hq : j / snd (gridSize self) = Z.of_nat row).
        { symmetry. apply (Z.div_unique _ _ _ (Z.of_nat col)); lia. }
        assert (Hm : j mod snd (gridSize self) = Z.of_nat col).
        { symmetry. apply (Z.mod_unique _ _ (Z.of_nat row)); lia. }
        rewrite Hq, Hm, !Nat2Z.id, !Nat.eqb_refl. cbn [andb].
        now destruct (state_at self row col).
      * destruct (Nat.eqb (Z.to_nat (j / snd (gridSize self))) row) eqn:E1;
          cbn [andb]; [|now rewrite xorb_false_r].
        destruct (Nat.eqb (Z.to_nat (j mod snd (gridSize self))) col) eqn:E2;
          [|now rewrite xorb_false_r].
        apply Nat.eqb_eq in E1, E2. exfalso. apply E. rewrite <- Hpos.
        now rewrite E1, E2.
    + destruct (Z.eqb_spec (Z.of_nat row * snd (gridSize self) + Z.of_nat col) j);
        [lia|reflexivity].
  - intros event He. unfold clickCallback.
    now replace (event =? EVENT_LBUTTONDOWN) with false
      by (symmetry; apply Z.eqb_neq; exact He).
Qed.

Lemma click_toggles_witness :
  let self := mk (1, 2) "Census mask" false 100 50
                [[mk_cell (1, 1) (49, 49) false; mk_cell (51, 1) (99, 49) true]] in
  clickCallback EVENT_LBUTTONDOWN 75 20 (self, []) =
  (Return tt,
   (mk (1, 2) "Census mask" true 100 50
      [[mk_cell (1, 1) (49, 49) false; mk_cell (51, 1) (99, 49) false]],
    [cv2_rectangle (51, 1) (99, 49) (0, 0, 0); cv2_imshow "Census mask"])).
Proof.
  intros self.
  assert (Hwf : wf self).
  { unfold wf, self. cbn. repeat split; try lia. repeat constructor. }
  destruct (click_toggles self [] 75 20 Hwf) as (E & _).
  - cbn. lia.
  - cbn. lia.
  - exact E.
Defined.

(** X15.  A left-button click at a point that is not over the grid, to the
    right of it or below it (the caption band under the grid included),
    fails with [IndexError] and leaves the handler as it was: no cell is
    switched or repainted and the handler does not report a change. *)
Theorem click_outside_grid (self : t) (out : list event) (x y : Z) :
  wf self ->
  0 <= x -> 0 <= y ->
  width self <= x \/ height self <= y ->
  clickCallback EVENT_LBUTTONDOWN x y (self, out) =
  (Throw (Builtin IndexError), (self, out)).
Proof.
  intros Hwf Hx Hy Hout.
  assert (Hcols : 0 < snd (gridSize self)) by apply Hwf.
  assert (Hrows : 0 < fst (gridSize self)) by apply Hwf.
  assert (Hw : width self = gridWidth * snd (gridSize self)) by apply Hwf.
  assert (Hh : height self = gridHeight * fst (gridSize self)) by apply Hwf.
  pose proof (row_length self Hwf) as Hrl.
  assert (Hl : List.length (gridList self) = Z.to_nat (fst (gridSize self)))
    by apply Hwf.
  unfold clickCallback. rewrite Z.eqb_refl.
  unfold bindM, self_, value. cbn [fst snd]. unfold py_floordiv.
  rewrite Hw, Hh in *.
  replace (gridWidth * snd (gridSize self) =? 0) with false
    by (symmetry; apply Z.eqb_neq; unfold gridWidth; lia).
  replace (gridHeight * fst (gridSize self) =? 0) with false
    by (symmetry; apply Z.eqb_neq; unfold gridHeight; lia).
  cbn [lift]. unfold gridWidth, gridHeight in *.
  rewrite !Z.div_mul_cancel_r by lia.
  assert (Hx0 : 0 <= x / 50) by (apply Z.div_pos; lia).
  assert (Hy0 : 0 <= y / 50) by (apply Z.div_pos; lia).
  unfold cell_at.
  destruct (Z_lt_le_dec (y / 50) (fst (gridSize self))) as [Hin|Hbelow].
  - (* over a row of the grid, hence to the right of it *)
    assert (Hxr : snd (gridSize self) <= x / 50).
    { destruct Hout as [Hout|Hout].
      - apply Z.div_le_lower_bound; lia.
      - exfalso. assert (fst (gridSize self) <= y / 50)
          by (apply Z.div_le_lower_bound; lia). lia. }
    replace (y / 50) with (Z.of_nat (Z.to_nat (y / 50))) by lia.
    rewrite (py_index_nat _ _ []) by lia. cbn [bind].
    rewrite py_index_beyond by (rewrite Hrl by lia; lia).
    reflexivity.
  - rewrite py_index_beyond by lia. reflexivity.
Qed.

Lemma click_outside_grid_witness :
  let self := mk (1, 2) "Census mask" false 100 50
                [[mk_cell (1, 1) (49, 49) false; mk_cell (51, 1) (99, 49) true]] in
  clickCallback EVENT_LBUTTONDOWN 10 60 (self, []) =
  (Throw (Builtin IndexError), (self, [])).
Proof.
  intros self.
  assert (Hwf : wf self).
  { unfold wf, self. cbn. repeat split; try lia. repeat constructor. }
  apply (click_outside_grid self [] 10 60 Hwf); [lia|lia|].
  right. cbn. lia.
Defined.

(** *** Construction *)

Lemma nth_map_range {A} (f : Z -> A) (n : Z) (k : nat) (d : A) :
  (k < Z.to_nat n)%nat -> nth k (map f (range n)) d = f (Z.of_nat k).
Proof.
  intros Hk. unfold range. rewrite map_map.
  rewrite (nth_indep _ d (f (Z.of_nat 0%nat)))
    by (now rewrite length_map, length_seq).
  rewrite (map_nth (fun x => f (Z.of_nat x)) (seq 0 (Z.to_nat n)) 0%nat k).
  now rewrite seq_nth by exact Hk.
Qed.

Lemma length_range (n : Z) : List.length (range n) = Z.to_nat n.
Proof. unfold range. now rewrite length_map, length_seq. Qed.

(** Painting every cell of a grid leaves its cells as they are. *)
Lemma fill_row (s0 s : t) (out : list event) (row : nat) :
  wf s0 ->
  (row < Z.to_nat (fst (gridSize s0)))%nat ->
  same_frame s s0 -> gridList s = gridList s0 ->
  for_ (range (snd (gridSize s0)))
    (fun col => fillRectangle (Z.of_nat row) col) (s, out) =
  (Return tt,
   (set_changed true s,
    out ++ flat_map (paint_cell s0 (state_at s0) row)
             (seq 0 (Z.to_nat (snd (gridSize s0)))))).
Proof.
  intros Hwf Hr Hf Hg.
  assert (Hcols : 0 < snd (gridSize s0)) by apply Hwf.
  destruct (for__invariant
    (fun k (st : CensusMaskHandler.st) =>
       fst st = (if Nat.eqb k 0 then s else set_changed true s) /\
       snd st = out ++ flat_map (paint_cell s0 (state_at s0) row) (seq 0 k))
    (fun col => fillRectangle (Z.of_nat row) col)
    (Z.to_nat (snd (gridSize s0))) (s, out)) as ([s1 out1] & E & I1 & I2).
  - cbn [fst snd Nat.eqb seq flat_map]. now rewrite app_nil_r.
  - intros k [s1 out1] Hk (I1 & I2). cbn [fst snd] in I1, I2.
    assert (Hg1 : gridList s1 = gridList s0).
    { subst s1. destruct (Nat.eqb k 0); cbn; exact Hg. }
    assert (Hf1 : same_frame s1 s0).
    { subst s1. destruct (Nat.eqb k 0); unfold same_frame in *; cbn; tauto. }
    assert (Hw1 : wf s1) by (apply (wf_same s1 s0 Hwf); assumption).
    assert (Hgs : gridSize s1 = gridSize s0) by apply Hf1.
    eexists. split.
    + apply fillRectangle_nat; [exact Hw1|rewrite Hgs; exact Hr|rewrite Hgs; exact Hk].
    + cbn [fst snd Nat.eqb]. split.
      * subst s1. now destruct (Nat.eqb k 0).
      * rewrite I2, seq_S, flat_map_app, <- app_assoc. cbn [flat_map Nat.add].
        rewrite app_nil_r. f_equal. f_equal. unfold paint_cell, state_at, cell_nth.
        rewrite Hg1. destruct Hf1 as (_ & -> & _). reflexivity.
  - cbn [fst snd] in I1, I2. unfold range. rewrite E. subst s1 out1.
    now replace (Nat.eqb (Z.to_nat (snd (gridSize s0))) 0) with false
      by (symmetry; apply Nat.eqb_neq; lia).
Qed.

Lemma fill_all (s0 : t) (out0 : list event) :
  wf s0 ->
  for_ (range (fst (gridSize s0)))
    (fun row => for_ (range (snd (gridSize s0))) (fun col => fillRectangle row col))
    (s0, out0) =
  (Return tt, (set_changed true s0, out0 ++ paint_grid s0 (state_at s0))).
Proof.
  intros Hwf.
  assert (Hrows : 0 < fst (gridSize s0)) by apply Hwf.
  destruct (for__invariant
    (fun k (st : CensusMaskHandler.st) =>
       fst st = (if Nat.eqb k 0 then s0 else set_changed true s0) /\
       snd st = out0 ++
                flat_map (fun row => flat_map (paint_cell s0 (state_at s0) row)
                                       (seq 0 (Z.to_nat (snd (gridSize s0)))))
                  (seq 0 k))
    (fun row => for_ (range (snd (gridSize s0))) (fun col => fillRectangle row col))
    (Z.to_nat (fst (gridSize s0))) (s0, out0)) as ([s1 out1] & E & I1 & I2).
  - cbn [fst snd Nat.eqb seq flat_map]. now rewrite app_nil_r.
  - intros k [s1 out1] Hk (I1 & I2). cbn [fst snd] in I1, I2.
    eexists. split.
    + apply (fill_row s0 s1 out1 k Hwf Hk).
      * subst s1. destruct (Nat.eqb k 0); unfold same_frame; cbn; tauto.
      * subst s1. now destruct (Nat.eqb k 0).
    + cbn [fst snd Nat.eqb]. split.
      * subst s1. now destruct (Nat.eqb k 0).
      * rewrite I2, seq_S, flat_map_app, <- app_assoc. cbn [flat_map Nat.add].
        now rewrite app_nil_r.
  - cbn [fst snd] in I1, I2. unfold range at 1. rewrite E. subst s1 out1.
    unfold paint_grid.
    now replace (Nat.eqb (Z.to_nat (fst (gridSize s0))) 0) with false
      by (symmetry; apply Nat.eqb_neq; lia).
Qed.

(** A map over the cells of a grid depends on the cells only. *)
Lemma paint_grid_ext (self : t) (f g : nat -> nat -> bool) :
  (forall r c,
     (r < Z.to_nat (fst (gridSize self)))%nat ->
     (c < Z.to_nat (snd (gridSize self)))%nat -> f r c = g r c) ->
  paint_grid self f = paint_grid self g.
Proof.
  intros H. unfold paint_grid.
  assert (Hext : forall {A B} (h1 h2 : A -> list B) l,
            (forall a, In a l -> h1 a = h2 a) -> flat_map h1 l = flat_map h2 l).
  { intros A B h1 h2 l. induction l as [|a l IH]; intros Hl; [reflexivity|].
    cbn [flat_map]. rewrite (Hl a (or_introl eq_refl)), IH; [reflexivity|].
    intros b Hb. apply Hl. now right. }
  apply Hext. intros r Hr. apply in_seq in Hr.
  apply Hext. intros c Hc. apply in_seq in Hc.
  unfold paint_cell. rewrite H by lia. reflexivity.
Qed.

(** The handler the constructor returns. *)
Lemma init_spec (windowName : string) (rows cols : Z) (out : list event) :
  0 < rows -> 0 < cols ->
  exists self out',
    init windowName (rows, cols) out = (Return self, out') /\
    wf self /\
    gridSize self = (rows, cols) /\
    CensusMaskHandler.windowName self = windowName /\
    width self = 50 * cols /\ height self = 50 * rows /\
    changed self = true /\
    out' = out ++
           [cv2_namedWindow windowName;
            cv2_putText "Click on grid to change mask!" (0, 50 * rows + 20);
            cv2_putText "White: ON   |   Black: OFF" (0, 50 * rows + 40)] ++
           paint_grid self (fun _ _ => false) ++
           [cv2_setMouseCallback windowName; cv2_imshow windowName] /\
    (forall r c, (r < Z.to_nat rows)%nat -> (c < Z.to_nat cols)%nat ->
       cell_nth self r c =
       mk_cell (50 * Z.of_nat c + 1, 50 * Z.of_nat r + 1)
               (50 * Z.of_nat c + 49, 50 * Z.of_nat r + 49) false /\
       forall x y,
         50 * Z.of_nat c + 1 <= x <= 50 * Z.of_nat c + 49 ->
         50 * Z.of_nat r + 1 <= y <= 50 * Z.of_nat r + 49 ->
         0 <= x < width self /\ 0 <= y < height self /\
         Z.to_nat (y / 50) = r /\ Z.to_nat (x / 50) = c) /\
    (rows * cols <= 64 -> getMask self = Ok 0).
Proof.
  intros Hrows Hcols. unfold init. cbn [fst snd]. unfold gridWidth, gridHeight.
  replace ((50 * rows + 50 <? 0) || (50 * cols <? 0)) with false
    by (symmetry; apply orb_false_iff; split; apply Z.ltb_ge; lia).
  set (g := map (fun row => map (new_cell (rows, cols) (50 * cols) (50 * rows) row)
                           (range cols)) (range rows)).
  set (s0 := mk (rows, cols) windowName false (50 * cols) (50 * rows) g).
  assert (Hwf : wf s0).
  { unfold wf, s0, gridWidth, gridHeight. cbn [gridSize width height gridList fst snd].
    repeat split; try assumption.
    - unfold g. now rewrite length_map, length_range.
    - unfold g. apply Forall_map, Forall_forall. intros r _.
      now rewrite length_map, length_range. }
  match goal with
  | |- context [for_ ?l ?b (s0, ?o)] => pose proof (fill_all s0 o Hwf) as E
  end.
  cbn [gridSize s0 fst snd] in E. rewrite E.
  set (s := set_changed true s0).
  assert (Es : s = set_changed true s0) by reflexivity. clearbody s.
  eexists s, _.
  split; [reflexivity|].
  assert (Hws : wf s).
  { subst s. apply (wf_same (set_changed true s0) s0 Hwf); [|reflexivity].
    unfold same_frame. cbn. tauto. }
  assert (Hcell : forall r c, (r < Z.to_nat rows)%nat -> (c < Z.to_nat cols)%nat ->
            cell_nth s r c =
            mk_cell (50 * Z.of_nat c + 1, 50 * Z.of_nat r + 1)
                    (50 * Z.of_nat c + 49, 50 * Z.of_nat r + 49) false).
  { intros r c Hr Hc. subst s. unfold cell_nth. cbn [set_changed gridList s0].
    unfold g. rewrite (nth_map_range _ rows r []) by exact Hr.
    rewrite (nth_map_range _ cols c) by exact Hc.
    assert (F1 : 50 * rows / rows = 50) by (apply Z.div_mul; lia).
    assert (F2 : 50 * cols / cols = 50) by (apply Z.div_mul; lia).
    unfold new_cell. cbn [fst snd]. cbv zeta. rewrite F1, F2.
    f_equal; f_equal; lia. }
  split; [exact Hws|].
  split; [subst s; reflexivity|]. split; [subst s; reflexivity|].
  split; [subst s; reflexivity|]. split; [subst s; reflexivity|].
  split; [subst s; reflexivity|].
  split.
  { rewrite <- !app_assoc. cbn [app]. do 4 f_equal.
    apply (f_equal (fun l => l ++ [cv2_setMouseCallback windowName;
                                   cv2_imshow windowName])).
    transitivity (paint_grid s (state_at s)); [subst s; reflexivity|].
    apply paint_grid_ext. intros r c Hr Hc. unfold state_at.
    rewrite Hcell; [reflexivity| |].
    - subst s. exact Hr.
    - subst s. exact Hc. }
  split.
  { intros r c Hr Hc. split; [now apply Hcell|].
    intros x y Hx Hy. subst s.
    cbn [set_changed gridSize CensusMaskHandler.windowName width height changed s0].
    split; [nia|]. split; [nia|]. split.
    - assert (y / 50 = Z.of_nat r)
        by (symmetry; apply (Z.div_unique _ _ _ (y - 50 * Z.of_nat r)); lia).
      lia.
    - assert (x / 50 = Z.of_nat c)
        by (symmetry; apply (Z.div_unique _ _ _ (x - 50 * Z.of_nat c)); lia).
      lia. }
  intros H64.
  assert (Hgs : gridSize s = (rows, cols)) by (subst s; reflexivity).
  destruct (getMask_bits _ Hws) as (m & Em & Hbits); [now rewrite Hgs|].
  rewrite Em. f_equal. apply Z.bits_inj'. intros j Hj.
  rewrite Hbits, Z.bits_0 by exact Hj. rewrite Hgs. cbn [fst snd].
  destruct (Z.ltb_spec j (rows * cols)) as [Hlt|Hge]; cbn [andb]; [|reflexivity].
  destruct (cell_of_pos rows cols j Hcols (conj Hj Hlt)) as (Hr & Hc & _).
  unfold state_at. now rewrite Hcell.
Qed.

(** X16.  For a grid size with at least one row and one column the
    constructor returns a handler whose window is [50*cols] wide and
    [50*rows] high (the image is 50 rows higher, for the caption), whose
    cells are all off, so that [getMask()] is 0 on a grid of at most 64
    cells, and which already reports a change.  It opens the window,
    writes the two caption lines, paints every cell in black, registers
    the mouse callback and shows the window, in this order.  The cell at
    [(row, col)] is painted from [(50*col + 1, 50*row + 1)] to [(50*col +
    49, 50*row + 49)], and every point of that rectangle is a point of the
    grid whose click selects this cell. *)
Theorem init_grid (windowName : string) (rows cols : Z) (out : list event) :
  0 < rows -> 0 < cols ->
  exists self out',
    init windowName (rows, cols) out = (Return self, out') /\
    wf self /\
    gridSize self = (rows, cols) /\
    CensusMaskHandler.windowName self = windowName /\
    width self = 50 * cols /\ height self = 50 * rows /\
    changed self = true /\
    out' = out ++
           [cv2_namedWindow windowName;
            cv2_putText "Click on grid to change mask!" (0, 50 * rows + 20);
            cv2_putText "White: ON   |   Black: OFF" (0, 50 * rows + 40)] ++
           paint_grid self (fun _ _ => false) ++
           [cv2_setMouseCallback windowName; cv2_imshow windowName] /\
    (forall r c, (r < Z.to_nat rows)%nat -> (c < Z.to_nat cols)%nat ->
       cell_nth self r c =
       mk_cell (50 * Z.of_nat c + 1, 50 * Z.of_nat r + 1)
               (50 * Z.of_nat c + 49, 50 * Z.of_nat r + 49) false /\
       forall x y,
         50 * Z.of_nat c + 1 <= x <= 50 * Z.of_nat c + 49 ->
         50 * Z.of_nat r + 1 <= y <= 50 * Z.of_nat r + 49 ->
         0 <= x < width self /\ 0 <= y < height self /\
         Z.to_nat (y / 50) = r /\ Z.to_nat (x / 50) = c) /\
    (rows * cols <= 64 -> getMask self = Ok 0).
Proof. exact (init_spec windowName rows cols out). Qed.

Lemma init_grid_witness :
  exists out',
    init "Census mask" (1, 2) [] =
    (Return (mk (1, 2) "Census mask" true 100 50
               [[mk_cell (1, 1) (49, 49) false; mk_cell (51, 1) (99, 49) false]]),
     out').
Proof.
  destruct (init_grid "Census mask" 1 2 []) as (s & o & E & _); [lia|lia|].
  assert (H : fst (init "Census mask" (1, 2) []) =
              Return (mk (1, 2) "Census mask" true 100 50
                        [[mk_cell (1, 1) (49, 49) false;
                          mk_cell (51, 1) (99, 49) false]])) by reflexivity.
  exists o. rewrite E in H |- *. cbn [fst] in H. now rewrite H.
Defined.

(** X23.  [setMask(m)] for a [uint64] [m] on a grid of at most 64 cells
    paints every cell once and nothing else: row by row and, in a row,
    column by column, the rectangle of the cell is filled in white when the
    bit of the cell is set in [m] and in black when it is not, and the
    window is shown again after each cell. *)
Theorem setMask_paints (self : t) (out : list event) (mask : Z) :
  wf self ->
  fst (gridSize self) * snd (gridSize self) <= 64 ->
  0 <= mask < 2 ^ 64 ->
  snd (snd (setMask mask (self, out))) = out ++ paint_grid self (bit_of self mask) /\
  List.length (paint_grid self (bit_of self mask)) =
    (2 * (Z.to_nat (fst (gridSize self)) * Z.to_nat (snd (gridSize self))))%nat.
Proof.
  intros Hwf H64 Hm.
  destruct (setMask_spec self out mask Hwf Hm) as (s & o & E & _ & _ & _ & Ho & _).
  rewrite E. cbn [snd]. split.
  - rewrite Ho. f_equal. apply paint_grid_ext. intros r c Hr Hc.
    now apply mask_test_bit.
  - unfold paint_grid.
    assert (Hrow : forall r n k,
              List.length (flat_map (paint_cell self (bit_of self mask) r) (seq k n))
              = (2 * n)%nat).
    { intros r n. induction n as [|n IH]; intros k; [reflexivity|].
      cbn [seq flat_map]. rewrite length_app, IH. cbn [paint_cell List.length]. lia. }
    assert (Hall : forall cols rows k,
              List.length
                (flat_map (fun row => flat_map (paint_cell self (bit_of self mask) row)
                                        (seq 0 cols)) (seq k rows))
              = (2 * (rows * cols))%nat).
    { intros cols rows. induction rows as [|rows IH]; intros k; [reflexivity|].
      cbn [seq flat_map]. rewrite length_app, IH, Hrow. lia. }
    apply Hall.
Qed.

Lemma setMask_paints_witness :
  let self := mk (1, 2) "Census mask" false 100 50
                [[mk_cell (1, 1) (49, 49) false; mk_cell (51, 1) (99, 49) true]] in
  snd (snd (setMask 1 (self, []))) =
  [cv2_rectangle (1, 1) (49, 49) (255, 255, 255); cv2_imshow "Census mask";
   cv2_rectangle (51, 1) (99, 49) (0, 0, 0); cv2_imshow "Census mask"].
Proof.
  intros self.
  assert (Hwf : wf self).
  { unfold wf, self. cbn. repeat split; try lia. repeat constructor. }
  destruct (setMask_paints self [] 1 Hwf) as (E & _).
  - cbn. lia.
  - lia.
  - rewrite E. reflexivity.
Defined.

End CensusSpec.

(** ** [StereoConfigHandler.handleKeypress] *)

Module KeyFacts.
Import StereoConfigHandler.

(** The codes of the command keys. *)
Ltac ords :=
  change (ord "m") with 109 in *; change (ord "w") with 119 in *;
  change (ord "t") with 116 in *; change (ord "s") with 115 in *;
  change (ord "r") with 114 in *; change (ord "n") with 110 in *;
  change (ord "a") with 97 in *; change (ord "c") with 99 in *;
  change (ord "d") with 100 in *; change (ord "f") with 102 in *;
  change (ord "v") with 118 in *; change (ord "1") with 49 in *;
  change (ord "2") with 50 in *; change (ord "3") with 51 in *.

Lemma bind_run {St A B} (m : M St A) (k : A -> M St B) s a s' :
  m s = (Return a, s') -> (x <~ m ;; k x) s = k a s'.
Proof. intros E. unfold bindM. now rewrite E. Qed.

Lemma bind_exists {St A} (m : M St A) (k : A -> M St unit) (P : St -> Prop) s a s1 :
  m s = (Return a, s1) ->
  (exists w, k a s1 = (Return tt, w) /\ P w) ->
  exists w, (x <~ m ;; k x) s = (Return tt, w) /\ P w.
Proof.
  intros E (w & Ek & Hw). exists w. split; [|exact Hw].
  unfold bindM. now rewrite E.
Qed.

Ltac open_config w :=
  destruct w as [h nc [[md sp te pm sk dm] [da lr su ex] [ks km mm] [dw ec]] o q].

Ltac plain_action :=
  intros w; open_config w; eexists; eexists; split; [lazy; reflexivity|reflexivity].

Lemma plain_m : plain key_m.
Proof. intros w; open_config w; destruct md; (eexists; eexists; split; [lazy; reflexivity|reflexivity]). Qed.

Lemma plain_r : plain key_r.
Proof. intros w; open_config w; destruct pm; (eexists; eexists; split; [lazy; reflexivity|reflexivity]). Qed.

Lemma plain_n : plain key_n.
Proof. intros w; open_config w; destruct dm; (eexists; eexists; split; [lazy; reflexivity|reflexivity]). Qed.

Lemma plain_a : plain key_a.
Proof. intros w; open_config w; destruct da; (eexists; eexists; split; [lazy; reflexivity|reflexivity]). Qed.

Lemma plain_d : plain key_d.
Proof. intros w; open_config w; destruct dw; (eexists; eexists; split; [lazy; reflexivity|reflexivity]). Qed.

Lemma plain_w : plain key_w.
Proof. plain_action. Qed.

Lemma plain_t : plain key_t.
Proof. plain_action. Qed.

Lemma plain_s : plain key_s.
Proof. plain_action. Qed.

Lemma plain_f : plain key_f.
Proof. plain_action. Qed.

Lemma plain_v : plain key_v.
Proof. plain_action. Qed.

Lemma plain_1 : plain key_1.
Proof. plain_action. Qed.

Lemma plain_2 : plain key_2.
Proof. plain_action. Qed.

Lemma plain_3 : plain key_3.
Proof. plain_action. Qed.

(** [sendConfig] sends the configuration when [newConfig] is set, and
    clears the flag. *)
Lemma sendConfig_spec (w : world) :
  sendConfig w =
  (Return tt, if newConfig w then send (config w) (set_newConfig false w) else w).
Proof. unfold sendConfig, bindM, get, modify. now destruct (newConfig w). Qed.

(** *** The census handler in the world *)

Lemma grid_of_ok (k : KernelSize.t) :
  k <> KernelSize.AUTO ->
  0 < fst (grid_of k) /\ 0 < snd (grid_of k) /\
  fst (grid_of k) * snd (grid_of k) <= 64 /\
  0 <= default_mask k < 2 ^ (fst (grid_of k) * snd (grid_of k)).
Proof. destruct k; [congruence| | |]; intros _; cbn; repeat split; lia. Qed.

(** A new handler that is given a mask. *)
Lemma fresh_handler (rows cols mask : Z) (w : world) :
  0 < rows -> 0 < cols -> rows * cols <= 64 -> 0 <= mask < 2 ^ 64 ->
  exists s o,
    (_ <~ new_handler "Census mask" (rows, cols) ;;
     call_handler (CensusMaskHandler.setMask mask)) w =
    (Return tt, set_censusMaskHandler (Some s) (set_out o w)) /\
    CensusMaskHandler.wf s /\
    CensusMaskHandler.gridSize s = (rows, cols) /\
    CensusMaskHandler.changed s = true /\
    CensusMaskHandler.getMask s = Ok (mask mod 2 ^ (rows * cols)).
Proof.
  intros Hr Hc H64 Hm.
  destruct (CensusSpec.init_spec "Census mask" rows cols (out w) Hr Hc)
    as (s0 & o0 & E0 & Hw0 & Hg0 & _).
  destruct (CensusSpec.setMask_getMask s0 o0 mask Hw0) as
    (s & o & E & Eg & _ & Hch & Hw & Hf); [now rewrite Hg0|exact Hm|].
  exists s, o. unfold bindM, new_handler. rewrite E0.
  unfold call_handler. cbn [censusMaskHandler set_censusMaskHandler set_out out].
  rewrite E. rewrite Hg0 in Eg. cbn [fst snd] in Eg.
  split; [reflexivity|]. split; [exact Hw|]. split; [|split; assumption].
  destruct Hf as (-> & _). exact Hg0.
Qed.

Section WithKernelInt.

Variable kernel_int : KernelSize.t -> Z.
Hypothesis int_5x5 : kernel_int KernelSize.KERNEL_5x5 = 0.
Hypothesis int_7x7 : kernel_int KernelSize.KERNEL_7x7 = 1.
Hypothesis int_7x9 : kernel_int KernelSize.KERNEL_7x9 = 2.

(** The key [c] on a world with its handler in order. *)
Lemma key_c_spec (w : world) :
  handler_ok w ->
  let k' := next_kernel (kernelSize (censusTransform (config w))) in
  exists w1,
    key_c kernel_int w = (Return tt, w1) /\
    newConfig w1 = true /\ queue w1 = queue w /\ handler_ok w1 /\
    (k' <> KernelSize.AUTO ->
     config w1 = set_kernelSize k' (config w) /\
     exists s, censusMaskHandler w1 = Some s /\
               CensusMaskHandler.gridSize s = grid_of k' /\
               CensusMaskHandler.changed s = true /\
               CensusMaskHandler.getMask s = Ok (default_mask k')) /\
    (k' = KernelSize.AUTO ->
     config w1 = set_kernelSize k' (set_kernelMask 0 (config w)) /\
     censusMaskHandler w1 = censusMaskHandler w).
Proof.
  intros Hok k'. subst k'.
  open_config w. cbn [config censusTransform kernelSize].
  assert (Hfresh : forall k w0, k <> KernelSize.AUTO ->
            exists s o,
              (_ <~ new_handler "Census mask" (grid_of k) ;;
               call_handler (CensusMaskHandler.setMask (default_mask k))) w0 =
              (Return tt, set_censusMaskHandler (Some s) (set_out o w0)) /\
              CensusMaskHandler.wf s /\
              CensusMaskHandler.gridSize s = grid_of k /\
              CensusMaskHandler.changed s = true /\
              CensusMaskHandler.getMask s = Ok (default_mask k)).
  { intros k w0 Hk. destruct (grid_of_ok k Hk) as (G1 & G2 & G3 & G4).
    assert (2 ^ (fst (grid_of k) * snd (grid_of k)) <= 2 ^ 64)
      by (apply Z.pow_le_mono_r; lia).
    destruct (fresh_handler (fst (grid_of k)) (snd (grid_of k)) (default_mask k) w0)
      as (s & o' & E & Hw & Hg & Hch & Egm); try lia.
    rewrite <- surjective_pairing in E, Hg.
    rewrite Z.mod_small in Egm by exact G4.
    exists s, o'. auto. }
  assert (Hgrid : forall k, k <> KernelSize.AUTO ->
            lift (py_index censusGridSize (kernel_int k)) = Return (grid_of k) /\
            lift (py_index censusDefaultMask (kernel_int k)) = Return (default_mask k)).
  { intros [ | | | ] Hk; [congruence| | |];
      rewrite ?int_5x5, ?int_7x7, ?int_7x9; split; reflexivity. }
  assert (Hnew : forall k, k <> KernelSize.AUTO ->
            forall w0, exists s o,
              (censusGrid <~ value (lift (py_index censusGridSize (kernel_int k))) ;;
               censusMask <~ value (lift (py_index censusDefaultMask (kernel_int k))) ;;
               _ <~ new_handler "Census mask" censusGrid ;;
               call_handler (CensusMaskHandler.setMask censusMask)) w0 =
              (Return tt, set_censusMaskHandler (Some s) (set_out o w0)) /\
              CensusMaskHandler.wf s /\
              CensusMaskHandler.gridSize s = grid_of k /\
              CensusMaskHandler.changed s = true /\
              CensusMaskHandler.getMask s = Ok (default_mask k)).
  { intros k Hk w0. destruct (Hgrid k Hk) as (E1 & E2).
    destruct (Hfresh k w0 Hk) as (s & o' & E & H).
    exists s, o'. split; [|exact H].
    rewrite E1, E2. exact E. }
  destruct ks; cbn [next_kernel].
  - destruct (Hnew KernelSize.KERNEL_5x5 ltac:(discriminate)
                (mk_world h true (mk_config (mk_postProcessing md sp te pm sk dm)
                   (mk_algorithmControl da lr su ex)
                   (mk_censusTransform KernelSize.AUTO km mm)
                   (mk_costMatching dw ec)) o q))
      as (s & o' & E & Hw & Hg & Hch & Egm).
    eexists. split.
    + unfold key_c.
      erewrite bind_run by reflexivity.
      erewrite bind_run by reflexivity.
      cbv zeta.
      erewrite bind_run by reflexivity.
      erewrite bind_run by exact E.
      reflexivity.
    + split; [reflexivity|]. split; [reflexivity|]. split; [|split].
      * split; [intros _; cbn; discriminate|].
        intros h0 Hh0. cbn in Hh0. injection Hh0 as <-. split; [exact Hw|].
        rewrite Hg. cbn. lia.
      * intros _. split; [reflexivity|]. exists s. cbn. auto.
      * intros Hk. discriminate Hk.
  - destruct (Hnew KernelSize.KERNEL_7x7 ltac:(discriminate)
                (mk_world h true (mk_config (mk_postProcessing md sp te pm sk dm)
                   (mk_algorithmControl da lr su ex)
                   (mk_censusTransform KernelSize.KERNEL_5x5 km mm)
                   (mk_costMatching dw ec)) o q))
      as (s & o' & E & Hw & Hg & Hch & Egm).
    eexists. split.
    + unfold key_c.
      erewrite bind_run by reflexivity.
      erewrite bind_run by reflexivity.
      cbv zeta.
      erewrite bind_run by reflexivity.
      erewrite bind_run by exact E.
      reflexivity.
    + split; [reflexivity|]. split; [reflexivity|]. split; [|split].
      * split; [intros _; cbn; discriminate|].
        intros h0 Hh0. cbn in Hh0. injection Hh0 as <-. split; [exact Hw|].
        rewrite Hg. cbn. lia.
      * intros _. split; [reflexivity|]. exists s. cbn. auto.
      * intros Hk. discriminate Hk.
  - destruct (Hnew KernelSize.KERNEL_7x9 ltac:(discriminate)
                (mk_world h true (mk_config (mk_postProcessing md sp te pm sk dm)
                   (mk_algorithmControl da lr su ex)
                   (mk_censusTransform KernelSize.KERNEL_7x7 km mm)
                   (mk_costMatching dw ec)) o q))
      as (s & o' & E & Hw & Hg & Hch & Egm).
    eexists. split.
    + unfold key_c.
      erewrite bind_run by reflexivity.
      erewrite bind_run by reflexivity.
      cbv zeta.
      erewrite bind_run by reflexivity.
      erewrite bind_run by exact E.
      reflexivity.
    + split; [reflexivity|]. split; [reflexivity|]. split; [|split].
      * split; [intros _; cbn; discriminate|].
        intros h0 Hh0. cbn in Hh0. injection Hh0 as <-. split; [exact Hw|].
        rewrite Hg. cbn. lia.
      * intros _. split; [reflexivity|]. exists s. cbn. auto.
      * intros Hk. discriminate Hk.
  - destruct Hok as (Hsome & Hwf). cbn in Hsome, Hwf.
    destruct h as [h|]; [|exfalso; apply Hsome; [discriminate|reflexivity]].
    eexists. split.
    + unfold key_c.
      erewrite bind_run by reflexivity.
      erewrite bind_run by reflexivity.
      cbv zeta.
      erewrite bind_run by reflexivity.
      erewrite bind_run by reflexivity.
      reflexivity.
    + split; [reflexivity|]. split; [reflexivity|]. split; [|split].
      * split; [intros Hk; cbn in Hk; congruence|].
        intros h0 Hh0. cbn in Hh0. injection Hh0 as <-. apply (Hwf h eq_refl).
      * intros Hk. congruence.
      * intros _. split; reflexivity.
Qed.

(** The poll on the census handler. *)
Lemma poll_spec (w : world) :
  handler_ok w ->
  exists w2,
    poll_mask w = (Return tt, w2) /\
    queue w2 = queue w /\ out w2 = out w /\
    newConfig w2 = pending w /\ pending w2 = pending w /\
    handler_ok w2 /\
    censusMaskHandler w2 =
      option_map (CensusMaskHandler.set_changed false) (censusMaskHandler w) /\
    match censusMaskHandler w with
    | Some h =>
        if CensusMaskHandler.changed h
        then exists m, CensusMaskHandler.getMask h = Ok m /\
                       config w2 = set_kernelMask m (config w)
        else config w2 = config w
    | None => config w2 = config w
    end.
Proof.
  intros (Hsome & Hwf). destruct w as [[h|] nc c o q]; cbn in Hsome, Hwf.
  - destruct (Hwf h eq_refl) as (Hw & H64).
    destruct h as [gs wn ch wd ht gl]. destruct ch.
    + destruct (CensusFacts.getMask_bits _ Hw H64) as (m & Em & _).
      assert (Em' : CensusMaskHandler.getMask
                      (CensusMaskHandler.set_changed false
                         (CensusMaskHandler.mk gs wn true wd ht gl)) = Ok m)
        by exact Em.
      eexists. split.
      * unfold poll_mask.
        erewrite bind_run by reflexivity.
        erewrite bind_run by reflexivity.
        cbn [fst snd CensusMaskHandler.changed out censusMaskHandler
             CensusMaskHandler.set_changed set_censusMaskHandler set_out
             newConfig config queue CensusMaskHandler.gridSize
             CensusMaskHandler.windowName CensusMaskHandler.width
             CensusMaskHandler.height CensusMaskHandler.gridList].
        erewrite bind_run
          by (unfold call_handler;
              cbn [fst snd CensusMaskHandler.changed out censusMaskHandler
                   CensusMaskHandler.set_changed set_censusMaskHandler set_out
                   newConfig config queue CensusMaskHandler.gridSize
                   CensusMaskHandler.windowName CensusMaskHandler.width
                   CensusMaskHandler.height CensusMaskHandler.gridList];
              rewrite Em'; reflexivity).
        erewrite bind_run by reflexivity.
        reflexivity.
      * split; [reflexivity|]. split; [reflexivity|].
        split; [unfold pending; cbn; now rewrite orb_true_r|].
        split; [unfold pending; cbn; now rewrite orb_true_r|].
        split.
        { split; [intros _; cbn; discriminate|].
          intros h0 Hh0. cbn in Hh0. injection Hh0 as <-. split; [exact Hw|exact H64]. }
        split; [reflexivity|].
        cbn. exists m. split; [exact Em|reflexivity].
    + eexists. split.
      * unfold poll_mask.
        erewrite bind_run by reflexivity.
        erewrite bind_run by reflexivity.
        reflexivity.
      * split; [reflexivity|]. split; [reflexivity|].
        split; [unfold pending; cbn; now rewrite orb_false_r|].
        split; [reflexivity|].
        split.
        { split; [intros _; cbn; discriminate|].
          intros h0 Hh0. cbn in Hh0. injection Hh0 as <-. split; [exact Hw|exact H64]. }
        split; reflexivity.
  - eexists. split; [reflexivity|].
    split; [reflexivity|]. split; [reflexivity|].
    split; [unfold pending; cbn; now rewrite orb_false_r|].
    split; [reflexivity|].
    split; [|split; reflexivity].
    split; [exact Hsome|exact Hwf].
Qed.

Ltac run_with E :=
  repeat first [ erewrite bind_run by exact E | erewrite bind_run by reflexivity ];
  first [ exact E | reflexivity ].

Ltac plain_case P w Hok :=
  let c' := fresh "c'" in
  let o' := fresh "o'" in
  let E := fresh "E" in
  let Hks := fresh "Hks" in
  destruct (P w) as (c' & o' & E & Hks);
  exists (mk_world (censusMaskHandler w) true c' o' (queue w));
  split; [run_with E|];
  split; [reflexivity|];
  split; [cbn [newConfig]; now rewrite orb_true_r|];
  split; [unfold handler_ok in *; cbn [config censusMaskHandler]; rewrite Hks;
          exact Hok|];
  split; [discriminate|reflexivity].

(** The key dispatch. *)
Lemma dispatch_spec (key : Z) (w : world) :
  handler_ok w ->
  exists w1,
    dispatch kernel_int key w = (Return tt, w1) /\
    queue w1 = queue w /\
    newConfig w1 = newConfig w || is_command key /\
    handler_ok w1 /\
    (is_command key = false -> w1 = w) /\
    (key <> ord "c" -> censusMaskHandler w1 = censusMaskHandler w).
Proof.
  intros Hok. unfold dispatch, is_command. cbn [command_keys existsb]. ords.
  destruct (Z.eqb_spec key 109) as [->|N1];
    [cbn [Z.eqb Pos.eqb when orb]; plain_case plain_m w Hok|].
  destruct (Z.eqb_spec key 119) as [->|N2];
    [cbn [Z.eqb Pos.eqb when orb]; plain_case plain_w w Hok|].
  destruct (Z.eqb_spec key 116) as [->|N3];
    [cbn [Z.eqb Pos.eqb when orb]; plain_case plain_t w Hok|].
  destruct (Z.eqb_spec key 115) as [->|N4];
    [cbn [Z.eqb Pos.eqb when orb]; plain_case plain_s w Hok|].
  destruct (Z.eqb_spec key 114) as [->|N5];
    [cbn [Z.eqb Pos.eqb when orb]; plain_case plain_r w Hok|].
  destruct (Z.eqb_spec key 110) as [->|N6];
    [cbn [Z.eqb Pos.eqb when orb]; plain_case plain_n w Hok|].
  destruct (Z.eqb_spec key 97) as [->|N7];
    [cbn [Z.eqb Pos.eqb when orb]; plain_case plain_a w Hok|].
  destruct (Z.eqb_spec key 99) as [->|N8].
  { cbn [Z.eqb Pos.eqb when orb].
    destruct (key_c_spec w Hok) as (w1 & E & Hn & Hq & Hok1 & _).
    exists w1. split; [run_with E|]. split; [exact Hq|].
    split; [now rewrite Hn, orb_true_r|]. split; [exact Hok1|].
    split; [discriminate|congruence]. }
  destruct (Z.eqb_spec key 100) as [->|N9];
    [cbn [Z.eqb Pos.eqb when orb]; plain_case plain_d w Hok|].
  destruct (Z.eqb_spec key 102) as [->|N10];
    [cbn [Z.eqb Pos.eqb when orb]; plain_case plain_f w Hok|].
  destruct (Z.eqb_spec key 118) as [->|N11];
    [cbn [Z.eqb Pos.eqb when orb]; plain_case plain_v w Hok|].
  destruct (Z.eqb_spec key 49) as [->|N12];
    [cbn [Z.eqb Pos.eqb when orb]; plain_case plain_1 w Hok|].
  destruct (Z.eqb_spec key 50) as [->|N13];
    [cbn [Z.eqb Pos.eqb when orb]; plain_case plain_2 w Hok|].
  destruct (Z.eqb_spec key 51) as [->|N14];
    [cbn [Z.eqb Pos.eqb when orb]; plain_case plain_3 w Hok|].
  cbn [when orb]. exists w. split; [reflexivity|]. split; [reflexivity|].
  split; [now rewrite orb_false_r|]. split; [exact Hok|]. split; reflexivity.
Qed.

(** The start mask of a handler built for the kernel [k] from the mask
    [km] of the configuration. *)
Lemma start_handler (k : KernelSize.t) (km : Z) (w0 : world) :
  k <> KernelSize.AUTO -> 0 <= km < 2 ^ 64 ->
  exists s o,
    (censusGrid <~ value (lift (py_index censusGridSize (kernel_int k))) ;;
     censusMask <~
       (if km =? 0
        then value (lift (py_index censusDefaultMask (kernel_int k)))
        else ret km) ;;
     _ <~ new_handler "Census mask" censusGrid ;;
     call_handler (CensusMaskHandler.setMask censusMask)) w0 =
    (Return tt, set_censusMaskHandler (Some s) (set_out o w0)) /\
    CensusMaskHandler.wf s /\
    CensusMaskHandler.gridSize s = grid_of k /\
    CensusMaskHandler.changed s = true /\
    CensusMaskHandler.getMask s =
      Ok ((if km =? 0 then default_mask k else km)
          mod 2 ^ (fst (grid_of k) * snd (grid_of k))).
Proof.
  intros Hk Hkm. destruct (grid_of_ok k Hk) as (G1 & G2 & G3 & G4).
  assert (H264 : 2 ^ (fst (grid_of k) * snd (grid_of k)) <= 2 ^ 64)
    by (apply Z.pow_le_mono_r; lia).
  assert (Hgrid : lift (py_index censusGridSize (kernel_int k)) = Return (grid_of k) /\
                  lift (py_index censusDefaultMask (kernel_int k)) =
                  Return (default_mask k)).
  { destruct k; [congruence| | |];
      rewrite ?int_5x5, ?int_7x7, ?int_7x9; split; reflexivity. }
  destruct Hgrid as (E1 & E2).
  destruct (fresh_handler (fst (grid_of k)) (snd (grid_of k))
              (if km =? 0 then default_mask k else km) w0)
    as (s & o' & E & Hw & Hg & Hch & Egm); try lia.
  { destruct (km =? 0); lia. }
  rewrite <- surjective_pairing in E, Hg.
  exists s, o'. split; [|auto].
  rewrite E1, E2. rewrite <- E. unfold bindM, value, ret.
  destruct (km =? 0); reflexivity.
Qed.

(** [__init__] returns, with the handler in order. *)
Lemma init_world (evaluation_mode : bool) (config0 : Config) :
  0 <= kernelMask (censusTransform config0) < 2 ^ 64 ->
  let k := kernelSize (censusTransform config0) in
  let km := kernelMask (censusTransform config0) in
  exists w,
    init kernel_int evaluation_mode config0 (class_body config0) = (Return tt, w) /\
    (handler_ok w /\ config w = config0 /\ newConfig w = false /\ queue w = [] /\
     (k = KernelSize.AUTO -> censusMaskHandler w = None) /\
     (k <> KernelSize.AUTO ->
      exists s, censusMaskHandler w = Some s /\
                CensusMaskHandler.gridSize s = grid_of k /\
                CensusMaskHandler.changed s = true /\
                CensusMaskHandler.getMask s =
                  Ok ((if km =? 0 then default_mask k else km)
                      mod 2 ^ (fst (grid_of k) * snd (grid_of k))))).
Proof.
  intros Hkm k km. unfold init, class_body.
  do 14 (eapply bind_exists; [reflexivity|];
         cbn [set_out set_config set_newConfig out censusMaskHandler newConfig
              config queue app]).
  assert (Hwhen : forall w0 : world, exists o1,
            when evaluation_mode
              (say "Switch between images using '[' and ']' keys.") w0 =
            (Return tt, mk_world (censusMaskHandler w0) (newConfig w0) (config w0)
                          (out w0 ++ o1) (queue w0))).
  { intros w0. destruct evaluation_mode.
    - eexists. reflexivity.
    - exists []. destruct w0. cbn. now rewrite app_nil_r. }
  match goal with
  | |- exists w, (_ <~ _ ;; _) ?w0 = _ /\ _ => destruct (Hwhen w0) as (o1 & Eo1)
  end.
  eapply bind_exists; [exact Eo1|].
  cbn [set_out set_config set_newConfig out censusMaskHandler newConfig
       config queue app].
  eapply bind_exists; [reflexivity|].
  cbn [set_out set_config set_newConfig out censusMaskHandler newConfig
       config queue app].
  eapply bind_exists; [reflexivity|].
  cbv zeta.
  cbn [set_out set_config set_newConfig out censusMaskHandler newConfig
       config queue app].
  fold k. fold km.
  destruct (KernelSize.eq_dec k KernelSize.AUTO) as [Ek|Ek].
  - rewrite Ek.
    change (KernelSize.eqb KernelSize.AUTO KernelSize.AUTO) with true. cbn [negb].
    eexists. split; [reflexivity|].
    split.
    { split; [intros Hne; cbn in Hne; fold k in Hne; congruence|].
      intros h Hh. cbn in Hh. discriminate. }
    split; [reflexivity|]. split; [reflexivity|].
    split; [reflexivity|].
    split; [intros _; reflexivity|].
    intros Hne. congruence.
  - replace (negb (KernelSize.eqb k KernelSize.AUTO)) with true
      by (unfold KernelSize.eqb; destruct (KernelSize.eq_dec k KernelSize.AUTO);
          [contradiction|reflexivity]).
    match goal with
    | |- exists w, ?t ?w0 = _ /\ _ =>
        destruct (start_handler k km w0 Ek Hkm) as (s & o' & E & Hw & Hg & Hch & Egm)
    end.
    eexists. split; [exact E|].
    pose proof (grid_of_ok k Ek) as (G1 & G2 & G3 & G4).
    split.
    { split; [intros _; cbn; discriminate|].
      intros h Hh. cbn in Hh. injection Hh as <-. split; [exact Hw|].
      now rewrite Hg. }
    split; [reflexivity|]. split; [reflexivity|].
    split; [reflexivity|].
    split; [intros Hk; contradiction|].
    intros _. exists s. cbn. auto.
Qed.

(** A key press on a world with its handler in order. *)
Lemma handleKeypress_spec (key : Z) (w : world) :
  handler_ok w ->
  exists w',
    handleKeypress kernel_int key w = (Return tt, w') /\
    handler_ok w' /\ newConfig w' = false /\ pending w' = false /\
    queue w' = queue w ++ (if is_command key || pending w then [config w'] else []) /\
    (is_command key || pending w = false -> w' = w).
Proof.
  intros Hok.
  destruct (dispatch_spec key w Hok) as (w1 & E1 & Q1 & N1 & Hok1 & Hno & Hh1).
  destruct (poll_spec w1 Hok1) as (w2 & E2 & Q2 & O2 & N2 & P2 & Hok2 & Hh2 & Hc2).
  assert (Hp1 : pending w1 = is_command key || pending w).
  { destruct (is_command key) eqn:Ecmd.
    - unfold pending. rewrite N1. now rewrite orb_true_r.
    - rewrite (Hno eq_refl). reflexivity. }
  assert (Hch2 : match censusMaskHandler w2 with
                 | Some h => CensusMaskHandler.changed h = false
                 | None => True
                 end).
  { rewrite Hh2. destruct (censusMaskHandler w1); exact I || reflexivity. }
  exists (if newConfig w2 then send (config w2) (set_newConfig false w2) else w2).
  split.
  { unfold handleKeypress.
    erewrite bind_run by exact E1. erewrite bind_run by exact E2.
    apply sendConfig_spec. }
  rewrite N2, Hp1.
  destruct (is_command key || pending w) eqn:Ep.
  - split; [exact Hok2|]. split; [reflexivity|].
    split.
    { unfold pending. cbn. destruct (censusMaskHandler w2); [exact Hch2|reflexivity]. }
    split; [cbn; now rewrite Q2, Q1|]. discriminate.
  - split; [exact Hok2|]. split; [now rewrite N2, Hp1|].
    split.
    { unfold pending. rewrite N2, Hp1. cbn.
      destruct (censusMaskHandler w2); [exact Hch2|reflexivity]. }
    split; [rewrite app_nil_r; now rewrite Q2, Q1|].
    intros _. apply orb_false_iff in Ep. destruct Ep as (Ecmd & Epend).
    rewrite (Hno Ecmd) in *.
    unfold pending in Epend. apply orb_false_iff in Epend.
    destruct Epend as (Enc & Ech).
    destruct w as [h nc c o q], w2 as [h2 nc2 c2 o2 q2]. cbn in *.
    unfold pending in N2. cbn in N2. rewrite Enc, Ech in N2.
    subst. f_equal.
    + destruct h as [[gs wn ch wd ht gl]|]; cbn in *; [now subst|reflexivity].
    + destruct h as [h|]; [|exact Hc2]. rewrite Ech in Hc2. exact Hc2.
Qed.

(** The three steps of a key press. *)
Lemma handleKeypress_steps (key : Z) (w : world) :
  handler_ok w ->
  exists w1 w2,
    dispatch kernel_int key w = (Return tt, w1) /\
    poll_mask w1 = (Return tt, w2) /\
    handleKeypress kernel_int key w =
      (Return tt, if newConfig w2 then send (config w2) (set_newConfig false w2)
                  else w2) /\
    handler_ok w1.
Proof.
  intros Hok.
  destruct (dispatch_spec key w Hok) as (w1 & E1 & _ & _ & Hok1 & _).
  destruct (poll_spec w1 Hok1) as (w2 & E2 & _).
  exists w1, w2. split; [exact E1|]. split; [exact E2|]. split; [|exact Hok1].
  unfold handleKeypress.
  erewrite bind_run by exact E1. erewrite bind_run by exact E2.
  apply sendConfig_spec.
Qed.

Lemma dispatch_c (w : world) : dispatch kernel_int (ord "c") w = key_c kernel_int w.
Proof.
  unfold dispatch. ords. cbn [Z.eqb Pos.eqb when]. unfold bindM, ret.
  reflexivity.
Qed.

(** *** A command key other than [c], with nothing pending *)

Ltac plain_case' P w :=
  let c' := fresh "c'" in
  let o' := fresh "o'" in
  let E := fresh "E" in
  let Hks := fresh "Hks" in
  destruct (P w) as (c' & o' & E & Hks);
  exists c', o'; split; [run_with E|reflexivity].

Lemma dispatch_plain (key : Z) (w : world) :
  key <> ord "c" -> is_command key = true ->
  exists c' o',
    dispatch kernel_int key w =
      (Return tt, mk_world (censusMaskHandler w) true c' o' (queue w)) /\
    is_command key = true.
Proof.
  intros Hc. unfold dispatch, is_command. cbn [command_keys existsb]. ords.
  destruct (Z.eqb_spec key 109) as [->|N1];
    [cbn [Z.eqb Pos.eqb when orb]; intros _; plain_case' plain_m w|].
  destruct (Z.eqb_spec key 119) as [->|N2];
    [cbn [Z.eqb Pos.eqb when orb]; intros _; plain_case' plain_w w|].
  destruct (Z.eqb_spec key 116) as [->|N3];
    [cbn [Z.eqb Pos.eqb when orb]; intros _; plain_case' plain_t w|].
  destruct (Z.eqb_spec key 115) as [->|N4];
    [cbn [Z.eqb Pos.eqb when orb]; intros _; plain_case' plain_s w|].
  destruct (Z.eqb_spec key 114) as [->|N5];
    [cbn [Z.eqb Pos.eqb when orb]; intros _; plain_case' plain_r w|].
  destruct (Z.eqb_spec key 110) as [->|N6];
    [cbn [Z.eqb Pos.eqb when orb]; intros _; plain_case' plain_n w|].
  destruct (Z.eqb_spec key 97) as [->|N7];
    [cbn [Z.eqb Pos.eqb when orb]; intros _; plain_case' plain_a w|].
  destruct (Z.eqb_spec key 99) as [->|N8]; [contradiction|].
  destruct (Z.eqb_spec key 100) as [->|N9];
    [cbn [Z.eqb Pos.eqb when orb]; intros _; plain_case' plain_d w|].
  destruct (Z.eqb_spec key 102) as [->|N10];
    [cbn [Z.eqb Pos.eqb when orb]; intros _; plain_case' plain_f w|].
  destruct (Z.eqb_spec key 118) as [->|N11];
    [cbn [Z.eqb Pos.eqb when orb]; intros _; plain_case' plain_v w|].
  destruct (Z.eqb_spec key 49) as [->|N12];
    [cbn [Z.eqb Pos.eqb when orb]; intros _; plain_case' plain_1 w|].
  destruct (Z.eqb_spec key 50) as [->|N13];
    [cbn [Z.eqb Pos.eqb when orb]; intros _; plain_case' plain_2 w|].
  destruct (Z.eqb_spec key 51) as [->|N14];
    [cbn [Z.eqb Pos.eqb when orb]; intros _; plain_case' plain_3 w|].
  cbn [orb]. discriminate.
Qed.

Lemma poll_quiet (w : world) :
  match censusMaskHandler w with
  | Some h => CensusMaskHandler.changed h = false
  | None => True
  end ->
  poll_mask w = (Return tt, w).
Proof.
  destruct w as [[[gs wn ch wd ht gl]|] nc c o q]; cbn.
  - intros ->. reflexivity.
  - intros _. reflexivity.
Qed.

Lemma press_plain (key : Z) (w : world) :
  key <> ord "c" -> is_command key = true -> pending w = false ->
  exists c' o',
    handleKeypress kernel_int key w =
    (Return tt, mk_world (censusMaskHandler w) false c' o' (queue w ++ [c'])).
Proof.
  intros Hc Hcmd Hp.
  destruct (dispatch_plain key w Hc Hcmd) as (c' & o' & E & _).
  exists c', o'. unfold handleKeypress.
  erewrite bind_run by exact E.
  erewrite bind_run.
  2:{ apply poll_quiet. cbn. unfold pending in Hp. apply orb_false_iff in Hp.
      destruct (censusMaskHandler w); [apply Hp|exact I]. }
  reflexivity.
Qed.

Lemma presses_plain (key : Z) (n : nat) (w : world) :
  key <> ord "c" -> is_command key = true -> pending w = false ->
  exists w',
    presses kernel_int n key w = (Return tt, w') /\
    pending w' = false /\
    List.length (queue w') = (List.length (queue w) + n)%nat.
Proof.
  intros Hc Hcmd. revert w. induction n as [|n IH]; intros w Hp.
  - exists w. split; [reflexivity|]. split; [exact Hp|]. lia.
  - destruct (press_plain key w Hc Hcmd Hp) as (c' & o' & E).
    destruct (IH (mk_world (censusMaskHandler w) false c' o' (queue w ++ [c'])))
      as (w' & E' & Hp' & Hl').
    { unfold pending in *. cbn. apply orb_false_iff in Hp. apply Hp. }
    exists w'. split.
    + cbn [presses]. erewrite bind_run by exact E. exact E'.
    + split; [exact Hp'|]. rewrite Hl'. cbn [queue]. rewrite length_app. cbn. lia.
Qed.

(** Every world of a run has its handler in order. *)
Lemma reachable_ok (evaluation_mode : bool) (config0 : Config) (w : world) :
  0 <= kernelMask (censusTransform config0) < 2 ^ 64 ->
  reachable kernel_int evaluation_mode config0 w -> handler_ok w.
Proof.
  intros Hkm Hr.
  induction Hr as [w E|w key r w' _ IH E|w h ev x y r h' o _ IH Eh E|w b o _ IH].
  - destruct (init_world evaluation_mode config0 Hkm) as (w0 & E0 & Hok & _).
    congruence.
  - destruct (handleKeypress_spec key w IH) as (w0 & E0 & Hok & _). congruence.
  - destruct IH as (Hsome & Hwf). destruct (Hwf h Eh) as (Hw & H64).
    destruct (CensusFacts.clickCallback_wf h (out w) ev x y r h' o Hw E) as (Hw' & Hf).
    split; [intros _; cbn; discriminate|].
    intros h0 Hh0. cbn in Hh0. injection Hh0 as <-. split; [exact Hw'|].
    destruct Hf as (-> & _). exact H64.
  - exact IH.
Qed.

End WithKernelInt.

End KeyFacts.

Module KeySpec.
Import StereoConfigHandler.
Import KeyFacts.

(** X17.  Along every run of the handler, from [__init__] on a
    configuration whose kernel mask is a [uint64], through key presses,
    mouse events on the census window and trackbar callbacks,
    [handleKeypress] returns for every key: no list lookup fails, and
    [censusMaskHandler] is not [None] when the key [c] leaves the last
    kernel for [AUTO] and destroys its window.  [__init__] itself returns,
    and in every world of the run a census handler exists whenever the
    kernel is not [AUTO].  The integers of the three kernels, used as list
    indices, are taken to be 0, 1 and 2. *)
Theorem keypress_never_fails (kernel_int : KernelSize.t -> Z)
    (evaluation_mode : bool) (config0 : Config) (w : world) (key : Z) :
  kernel_int KernelSize.KERNEL_5x5 = 0 ->
  kernel_int KernelSize.KERNEL_7x7 = 1 ->
  kernel_int KernelSize.KERNEL_7x9 = 2 ->
  0 <= kernelMask (censusTransform config0) < 2 ^ 64 ->
  reachable kernel_int evaluation_mode config0 w ->
  fst (handleKeypress kernel_int key w) = Return tt /\
  handler_ok w /\
  fst (init kernel_int evaluation_mode config0 (class_body config0)) = Return tt.
Proof.
  intros H5 H7 H9 Hkm Hr.
  pose proof (reachable_ok kernel_int H5 H7 H9 evaluation_mode config0 w Hkm Hr) as Hok.
  destruct (handleKeypress_spec kernel_int H5 H7 H9 key w Hok) as (w' & E & _).
  destruct (init_world kernel_int H5 H7 H9 evaluation_mode config0 Hkm) as (w0 & E0 & _).
  rewrite E, E0. auto.
Qed.

Lemma keypress_never_fails_witness :
  fst (handleKeypress dai_kernel_int (ord "c")
         (snd (init dai_kernel_int false sample_config (class_body sample_config)))) =
  Return tt.
Proof.
  assert (R : reachable dai_kernel_int false sample_config
                (snd (init dai_kernel_int false sample_config
                        (class_body sample_config)))).
  { apply reach_init. vm_compute. reflexivity. }
  refine (proj1 (keypress_never_fails dai_kernel_int false sample_config
                   (snd (init dai_kernel_int false sample_config
                           (class_body sample_config)))
                   (ord "c") eq_refl eq_refl eq_refl _ R)).
  cbn. lia.
Defined.

(** X18.  On a world whose census handler is in order, a call of
    [handleKeypress] returns with [newConfig] cleared and nothing left
    pending, and it sends at most one message: one, the configuration as
    the call leaves it, when the key is one of the fourteen command keys,
    or [newConfig] was set, or the census grid was painted since the last
    call; none otherwise, and then the call changes nothing at all. *)
Theorem keypress_sends (kernel_int : KernelSize.t -> Z) (key : Z) (w : world) :
  kernel_int KernelSize.KERNEL_5x5 = 0 ->
  kernel_int KernelSize.KERNEL_7x7 = 1 ->
  kernel_int KernelSize.KERNEL_7x9 = 2 ->
  handler_ok w ->
  exists w',
    handleKeypress kernel_int key w = (Return tt, w') /\
    newConfig w' = false /\ pending w' = false /\
    queue w' = queue w ++ (if is_command key || pending w then [config w'] else []) /\
    (is_command key || pending w = false -> w' = w).
Proof.
  intros H5 H7 H9 Hok.
  destruct (handleKeypress_spec kernel_int H5 H7 H9 key w Hok)
    as (w' & E & _ & Hn & Hp & Hq & Hsame).
  exists w'. auto.
Qed.

Lemma keypress_sends_witness :
  (exists w',
     handleKeypress dai_kernel_int (ord "q") (class_body sample_config) =
       (Return tt, w') /\
     queue w' = [] /\ w' = class_body sample_config) /\
  (exists w',
     handleKeypress dai_kernel_int (ord "m") (class_body sample_config) =
       (Return tt, w') /\
     queue w' = [config w'] /\ newConfig w' = false).
Proof.
  assert (Hok : handler_ok (class_body sample_config)).
  { split; [intros H; exfalso; apply H; reflexivity|]. intros h Hh. discriminate. }
  split.
  - destruct (keypress_sends dai_kernel_int (ord "q") (class_body sample_config)
                eq_refl eq_refl eq_refl Hok) as (w' & E & _ & _ & Hq & Hsame).
    exists w'. split; [exact E|]. split; [exact Hq|]. apply Hsame. reflexivity.
  - destruct (keypress_sends dai_kernel_int (ord "m") (class_body sample_config)
                eq_refl eq_refl eq_refl Hok) as (w' & E & Hn & _ & Hq & _).
    exists w'. split; [exact E|]. split; [exact Hq|exact Hn].
Defined.

(** X19.  The key [c] moves the census kernel to the next of [AUTO],
    [5x5], [7x7], [7x9] and sends one message.  For a kernel other than
    [AUTO] a new handler is built with the grid of that kernel and its
    default mask, and the message sent carries the new kernel and that
    default mask; the handler reports no further change.  On the way back
    to [AUTO] the message carries the kernel [AUTO] and, when no click on
    the grid was pending, the mask 0; the other fields are as before. *)
Theorem census_key (kernel_int : KernelSize.t -> Z) (w : world) :
  kernel_int KernelSize.KERNEL_5x5 = 0 ->
  kernel_int KernelSize.KERNEL_7x7 = 1 ->
  kernel_int KernelSize.KERNEL_7x9 = 2 ->
  handler_ok w ->
  let k' := next_kernel (kernelSize (censusTransform (config w))) in
  exists w',
    handleKeypress kernel_int (ord "c") w = (Return tt, w') /\
    queue w' = queue w ++ [config w'] /\
    kernelSize (censusTransform (config w')) = k' /\
    (k' <> KernelSize.AUTO ->
     config w' = set_kernelMask (default_mask k') (set_kernelSize k' (config w)) /\
     exists s, censusMaskHandler w' = Some s /\
               CensusMaskHandler.gridSize s = grid_of k' /\
               CensusMaskHandler.getMask s = Ok (default_mask k') /\
               CensusMaskHandler.changed s = false) /\
    (k' = KernelSize.AUTO ->
     match censusMaskHandler w with
     | Some h => CensusMaskHandler.changed h = false
     | None => True
     end ->
     config w' = set_kernelSize k' (set_kernelMask 0 (config w))).
Proof.
  intros H5 H7 H9 Hok k'.
  destruct (handleKeypress_steps kernel_int H5 H7 H9 (ord "c") w Hok)
    as (w1 & w2 & E1 & E2 & E & Hok1).
  rewrite dispatch_c in E1.
  destruct (key_c_spec kernel_int H5 H7 H9 w Hok) as (w1' & E1' & Hn1 & Hq1 & _ & Hne & Ha).
  assert (w1' = w1) by congruence. subst w1'.
  destruct (poll_spec w1 Hok1) as (w2' & E2' & Hq2 & _ & Hn2 & _ & _ & Hh2 & Hc2).
  assert (w2' = w2) by congruence. subst w2'.
  assert (Hnew : newConfig w2 = true).
  { rewrite Hn2. unfold pending. now rewrite Hn1. }
  rewrite Hnew in E.
  exists (send (config w2) (set_newConfig false w2)).
  split; [exact E|]. cbn [queue send set_newConfig config censusMaskHandler].
  split; [now rewrite Hq2, Hq1|].
  fold k' in Hne, Ha.
  destruct (KernelSize.eq_dec k' KernelSize.AUTO) as [Ek|Ek].
  - destruct (Ha Ek) as (Hc1 & Hh1).
    assert (Hks : kernelSize (censusTransform (config w2)) = k').
    { rewrite Hh1 in Hc2. destruct (censusMaskHandler w) as [h|].
      - destruct (CensusMaskHandler.changed h).
        + destruct Hc2 as (m & _ & ->). now rewrite Hc1.
        + now rewrite Hc2, Hc1.
      - now rewrite Hc2, Hc1. }
    split; [exact Hks|]. split; [intros Hk; contradiction|].
    intros _ Hquiet. rewrite Hh1 in Hc2.
    destruct (censusMaskHandler w) as [h|].
    + rewrite Hquiet in Hc2. now rewrite Hc2, Hc1.
    + now rewrite Hc2, Hc1.
  - destruct (Hne Ek) as (Hc1 & s & Hs & Hg & Hch & Egm).
    rewrite Hs in Hc2, Hh2. rewrite Hch in Hc2. destruct Hc2 as (m & Em & Hc2).
    assert (m = default_mask k') by congruence. subst m.
    split; [now rewrite Hc2, Hc1|].
    split; [|intros Hk; contradiction].
    intros _. split; [now rewrite Hc2, Hc1|].
    exists (CensusMaskHandler.set_changed false s). cbn [option_map] in Hh2.
    split; [exact Hh2|]. split; [exact Hg|]. split; [exact Egm|reflexivity].
Qed.

Lemma census_key_witness :
  exists w',
    handleKeypress dai_kernel_int (ord "c") (class_body sample_config) =
      (Return tt, w') /\
    queue w' = [set_kernelMask 0xA82415
                  (set_kernelSize KernelSize.KERNEL_5x5 sample_config)].
Proof.
  assert (Hok : handler_ok (class_body sample_config)).
  { split; [intros H; exfalso; apply H; reflexivity|]. intros h Hh. discriminate. }
  destruct (census_key dai_kernel_int (class_body sample_config)
              eq_refl eq_refl eq_refl Hok) as (w' & E & Hq & _ & Hne & _).
  exists w'. split; [exact E|]. rewrite Hq.
  destruct (Hne ltac:(discriminate)) as (-> & _). reflexivity.
Defined.

(** X20.  When the script starts with a kernel other than [AUTO], the
    constructor builds the census handler from the mask of the
    configuration, or from the default mask of the kernel when that mask
    is 0, and the first call of [handleKeypress], whatever the key, even
    none, sends a message; for a key that is no command it is the initial
    configuration with the mask reduced to the bits of the grid. *)
Theorem first_call_sends (kernel_int : KernelSize.t -> Z)
    (evaluation_mode : bool) (config0 : Config) (key : Z) :
  kernel_int KernelSize.KERNEL_5x5 = 0 ->
  kernel_int KernelSize.KERNEL_7x7 = 1 ->
  kernel_int KernelSize.KERNEL_7x9 = 2 ->
  0 <= kernelMask (censusTransform config0) < 2 ^ 64 ->
  kernelSize (censusTransform config0) <> KernelSize.AUTO ->
  let k := kernelSize (censusTransform config0) in
  let km := kernelMask (censusTransform config0) in
  exists w0 w',
    init kernel_int evaluation_mode config0 (class_body config0) = (Return tt, w0) /\
    queue w0 = [] /\
    handleKeypress kernel_int key w0 = (Return tt, w') /\
    queue w' = [config w'] /\
    (is_command key = false ->
     config w' =
     set_kernelMask ((if km =? 0 then default_mask k else km)
                     mod 2 ^ (fst (grid_of k) * snd (grid_of k))) config0).
Proof.
  intros H5 H7 H9 Hkm Hk k km.
  destruct (init_world kernel_int H5 H7 H9 evaluation_mode config0 Hkm)
    as (w0 & E0 & Hok & Hc0 & Hn0 & Hq0 & _ & Hs).
  destruct (Hs Hk) as (s & Hh & Hg & Hch & Egm).
  exists w0.
  destruct (handleKeypress_spec kernel_int H5 H7 H9 key w0 Hok)
    as (w' & E & _ & _ & _ & Hq & _).
  assert (Hp : pending w0 = true).
  { unfold pending. rewrite Hh, Hch. now rewrite orb_true_r. }
  rewrite Hp, orb_true_r, Hq0 in Hq.
  exists w'. split; [exact E0|]. split; [exact Hq0|]. split; [exact E|].
  split; [exact Hq|].
  intros Hcmd.
  destruct (handleKeypress_steps kernel_int H5 H7 H9 key w0 Hok)
    as (w1 & w2 & E1 & E2 & E' & Hok1).
  destruct (dispatch_spec kernel_int H5 H7 H9 key w0 Hok) as (w1' & E1' & _ & _ & _ & Hno & _).
  assert (w1' = w1) by congruence. subst w1'. rewrite (Hno Hcmd) in *.
  destruct (poll_spec w0 Hok) as (w2' & E2' & _ & _ & Hn2 & _ & _ & _ & Hc2).
  assert (w2' = w2) by congruence. subst w2'.
  rewrite Hh, Hch in Hc2. destruct Hc2 as (m & Em & Hc2).
  rewrite Hn2, Hp in E'.
  assert (w' = send (config w2) (set_newConfig false w2)) by congruence. subst w'.
  cbn [config send set_newConfig]. rewrite Hc2, Hc0. f_equal.
  fold k km in Egm. congruence.
Qed.

Lemma first_call_sends_witness :
  let config0 := set_kernelMask (2 ^ 25 + 5)
                   (set_kernelSize KernelSize.KERNEL_5x5 sample_config) in
  exists w0 w',
    init dai_kernel_int false config0 (class_body config0) = (Return tt, w0) /\
    handleKeypress dai_kernel_int (-1) w0 = (Return tt, w') /\
    queue w' = [set_kernelMask 5 config0].
Proof.
  intros config0.
  destruct (first_call_sends dai_kernel_int false config0 (-1)
              eq_refl eq_refl eq_refl) as (w0 & w' & E0 & _ & E & Hq & Hc).
  - cbn. lia.
  - discriminate.
  - exists w0, w'. split; [exact E0|]. split; [exact E|].
    rewrite Hq, (Hc eq_refl). reflexivity.
Defined.

(** *** Keys that step through settings *)

Ltac quiet_world w Hp :=
  destruct w as [h nc [[md sp te pm sk dm] [da lr su ex] [ks km mm] [dw ec]] o q];
  unfold pending in Hp; cbn [newConfig censusMaskHandler] in Hp;
  apply orb_false_iff in Hp; destruct Hp as (-> & Hp);
  destruct h as [[gs wn [|] wd ht gl]|]; [discriminate Hp| |].

Ltac small i :=
  destruct i as [|[|[|[|[|[|[|[|[|i]]]]]]]]]; try lia.

Ltac period_case kernel_int :=
  cbn [Nat.ltb Nat.leb orb Z.eqb Pos.eqb]; intros _;
  match goal with
  | |- context [presses kernel_int ?n ?key ?w] =>
      let w' := fresh "w'" in
      let E := fresh "E" in
      let Hl := fresh "Hl" in
      destruct (presses_plain kernel_int key n w) as (w' & E & _ & Hl);
      [discriminate|reflexivity|reflexivity|];
      split; [now rewrite E|];
      split; [vm_compute; reflexivity|];
      split; [rewrite E; exact Hl|]
  end;
  let i := fresh "i" in
  let Hi := fresh "Hi" in
  intros i Hi; small i; vm_compute; intros Hc; discriminate Hc.

(** X21.  For each command key but [c], pressed on a world with nothing
    pending, the settings form a cycle: [m] steps through four median
    settings, [r] through nine persistency modes, [n] and [a] through three
    decimation and alignment modes, [d] through two disparity ranges, and
    each of [w], [t], [s], [f], [v], [1], [2], [3] switches a flag.  After
    as many presses as there are settings the configuration is the one
    before, after fewer it differs, every press returns, and every press
    sends one message. *)
Theorem key_period (kernel_int : KernelSize.t -> Z) (key : Z) (w : world) :
  pending w = false ->
  (0 < period key)%nat ->
  let run i := presses kernel_int i key w in
  fst (run (period key)) = Return tt /\
  config (snd (run (period key))) = config w /\
  List.length (queue (snd (run (period key)))) =
    (List.length (queue w) + period key)%nat /\
  forall i, (0 < i < period key)%nat -> config (snd (run i)) <> config w.
Proof.
  intros Hp. unfold period, is_command. cbn [command_keys existsb]. ords.
  destruct (Z.eqb_spec key 109) as [->|N1].
  { quiet_world w Hp; destruct md; period_case kernel_int. }
  destruct (Z.eqb_spec key 114) as [->|N5].
  { quiet_world w Hp; destruct pm; period_case kernel_int. }
  destruct (Z.eqb_spec key 110) as [->|N6].
  { quiet_world w Hp; destruct dm; period_case kernel_int. }
  destruct (Z.eqb_spec key 97) as [->|N7].
  { quiet_world w Hp; destruct da; period_case kernel_int. }
  cbn [orb].
  destruct (Z.eqb_spec key 99) as [->|N8]; [intros H; inversion H|].
  destruct (Z.eqb_spec key 119) as [->|N2].
  { quiet_world w Hp; destruct sp; period_case kernel_int. }
  destruct (Z.eqb_spec key 116) as [->|N3].
  { quiet_world w Hp; destruct te; period_case kernel_int. }
  destruct (Z.eqb_spec key 115) as [->|N4].
  { quiet_world w Hp; destruct sk; period_case kernel_int. }
  destruct (Z.eqb_spec key 100) as [->|N9].
  { quiet_world w Hp; destruct dw; period_case kernel_int. }
  destruct (Z.eqb_spec key 102) as [->|N10].
  { quiet_world w Hp; destruct ec; period_case kernel_int. }
  destruct (Z.eqb_spec key 118) as [->|N11].
  { quiet_world w Hp; destruct mm; period_case kernel_int. }
  destruct (Z.eqb_spec key 49) as [->|N12].
  { quiet_world w Hp; destruct lr; period_case kernel_int. }
  destruct (Z.eqb_spec key 50) as [->|N13].
  { quiet_world w Hp; destruct su; period_case kernel_int. }
  destruct (Z.eqb_spec key 51) as [->|N14].
  { quiet_world w Hp; destruct ex; period_case kernel_int. }
  cbn [orb]. intros H. inversion H.
Qed.

Lemma key_period_witness :
  config (snd (presses dai_kernel_int 4 (ord "m") (class_body sample_config))) =
  sample_config /\
  List.length (queue (snd (presses dai_kernel_int 4 (ord "m")
                             (class_body sample_config)))) = 4%nat.
Proof.
  destruct (key_period dai_kernel_int (ord "m") (class_body sample_config))
    as (_ & Hc & Hq & _).
  - reflexivity.
  - vm_compute. lia.
  - split; [exact Hc|exact Hq].
Defined.

End KeySpec.

(** ** The keys of the main loop *)

Module MainLoopSpec.
Import StereoConfigHandler.
Import MainLoop.

Lemma next_returns p d dm :
  DatasetManager.inv p d dm ->
  moved (DatasetManager.next dm) = (None, snd (DatasetManager.next dm)).
Proof.
  intros Hinv.
  destruct (DatasetManagerSpec.get_ok p d _ (DatasetManagerSpec.inv_next p d dm Hinv))
    as (s & Hs).
  destruct Hinv as (_ & Hn & Hk & _). revert Hs.
  unfold DatasetManager.next, py_mod.
  rewrite Hn, DatasetManagerSpec.subdirs_names.
  replace (DatasetManager.subdirs d =? 0) with false
    by (symmetry; apply Z.eqb_neq; lia).
  cbn [snd]. intros ->. reflexivity.
Qed.

Lemma prev_returns p d dm :
  DatasetManager.inv p d dm ->
  moved (DatasetManager.prev dm) = (None, snd (DatasetManager.prev dm)).
Proof.
  intros Hinv.
  destruct (DatasetManagerSpec.get_ok p d _ (DatasetManagerSpec.inv_prev p d dm Hinv))
    as (s & Hs).
  destruct Hinv as (_ & Hn & Hk & _). revert Hs.
  unfold DatasetManager.prev, py_mod.
  rewrite Hn, DatasetManagerSpec.subdirs_names.
  replace (DatasetManager.subdirs d =? 0) with false
    by (symmetry; apply Z.eqb_neq; lia).
  cbn [snd]. intros ->. reflexivity.
Qed.

(** X22.  At the end of an iteration of the main loop, with the dataset
    cursor and the handler in order: the key [q] leaves the loop without
    calling [handleKeypress], so that a pending configuration change is
    not sent; for every other key the iteration ends normally, the key is
    handed to [handleKeypress], and the dataset cursor moves only in
    evaluation mode, one step forward for the key '[' and one step back
    for the key ']', wrapping around.  These two keys send a message only
    when a change was pending. *)
Theorem loop_keys (kernel_int : KernelSize.t -> Z) (evaluation_mode : bool)
    (key : Z) (p : string) (d : DatasetManager.directory)
    (dataset : DatasetManager.t) (w : world) :
  kernel_int KernelSize.KERNEL_5x5 = 0 ->
  kernel_int KernelSize.KERNEL_7x7 = 1 ->
  kernel_int KernelSize.KERNEL_7x9 = 2 ->
  DatasetManager.reachable p d dataset ->
  handler_ok w ->
  let k := DatasetManager.subdirs d in
  (key = ord "q" -> key_step kernel_int evaluation_mode key dataset w = Break) /\
  (key <> ord "q" ->
   exists dataset' w',
     key_step kernel_int evaluation_mode key dataset w = Next dataset' w' /\
     handleKeypress kernel_int key w = (Return tt, w') /\
     DatasetManager.reachable p d dataset' /\
     DatasetManager.index dataset' =
       (if evaluation_mode && (key =? ord "[")
        then (DatasetManager.index dataset + 1) mod k
        else if evaluation_mode && (key =? ord "]")
        then (DatasetManager.index dataset - 1) mod k
        else DatasetManager.index dataset) /\
     (evaluation_mode = false -> dataset' = dataset) /\
     (key = ord "[" \/ key = ord "]" ->
      queue w' = queue w ++ (if pending w then [config w'] else []))).
Proof.
  intros H5 H7 H9 Hr Hok k. unfold key_step.
  pose proof (DatasetManagerSpec.reachable_inv p d dataset Hr) as Hinv.
  split.
  { intros ->. now rewrite Z.eqb_refl. }
  intros Hq.
  replace (key =? ord "q") with false by (symmetry; apply Z.eqb_neq; exact Hq).
  destruct (KeyFacts.handleKeypress_spec kernel_int H5 H7 H9 key w Hok)
    as (w' & E & _ & _ & _ & Hsent & _).
  assert (Hquiet : key = ord "[" \/ key = ord "]" ->
            queue w' = queue w ++ (if pending w then [config w'] else [])).
  { intros Hk. rewrite Hsent.
    replace (is_command key) with false; [reflexivity|].
    destruct Hk as [-> | ->]; reflexivity. }
  destruct (evaluation_mode && (key =? ord "[")) eqn:E1.
  - rewrite (next_returns p d dataset Hinv), E.
    exists (snd (DatasetManager.next dataset)), w'.
    split; [reflexivity|]. split; [reflexivity|].
    split; [now apply DatasetManager.reach_next|].
    split.
    + pose proof (DatasetWalkSpec.index_nexts p d dataset 1 Hinv) as Hi.
      exact Hi.
    + split; [|exact Hquiet].
      intros Hem. rewrite Hem in E1. discriminate.
  - destruct (evaluation_mode && (key =? ord "]")) eqn:E2.
    + rewrite (prev_returns p d dataset Hinv), E.
      exists (snd (DatasetManager.prev dataset)), w'.
      split; [reflexivity|]. split; [reflexivity|].
      split; [now apply DatasetManager.reach_prev|].
      split.
      * pose proof (DatasetWalkSpec.index_prevs p d dataset 1 Hinv) as Hi.
        exact Hi.
      * split; [|exact Hquiet].
        intros Hem. rewrite Hem in E2. discriminate.
    + rewrite E. exists dataset, w'.
      split; [reflexivity|]. split; [reflexivity|].
      split; [exact Hr|]. split; [reflexivity|]. split; [reflexivity|exact Hquiet].
Qed.

Lemma loop_keys_witness :
  let dataset := DatasetManager.mk "data" 0
                   (map fst (filter snd DatasetManager.sample_dir)) in
  exists dataset' w',
    key_step dai_kernel_int true (ord "[") dataset (class_body sample_config) =
      Next dataset' w' /\
    DatasetManager.index dataset' = 1 /\ queue w' = [].
Proof.
  intros dataset.
  assert (Hr : DatasetManager.reachable "data" DatasetManager.sample_dir dataset).
  { apply DatasetManager.reach_init. reflexivity. }
  assert (Hok : handler_ok (class_body sample_config)).
  { split; [intros H; exfalso; apply H; reflexivity|]. intros h Hh. discriminate. }
  destruct (loop_keys dai_kernel_int true (ord "[") "data" DatasetManager.sample_dir
              dataset (class_body sample_config) eq_refl eq_refl eq_refl Hr Hok)
    as (_ & H).
  destruct (H ltac:(discriminate)) as (dataset' & w' & E & _ & _ & Hi & _ & Hq).
  exists dataset', w'. split; [exact E|]. split; [exact Hi|].
  rewrite Hq by (left; reflexivity). reflexivity.
Defined.

End MainLoopSpec.
